(** * QRAFT: QR air-gap file transfer

  A shallow embedding of the packet protocol of QRAFT (utils.ts, state.ts,
  sender.ts, receiver.ts, main.ts) and the properties of its chunk
  splitter, checksum, receiver reassembly and sender sequencing.

  Conventions of the embedding.
  - A JavaScript string is a [string]; its characters stand for UTF-16
    code units below 256 (base64 text, hexadecimal digits, decimal digits
    and the protocol's punctuation all are).
  - A JavaScript number that the code uses as a count, index, sequence
    number, size or version is a [Z].
  - The module-level variables of state.ts become the fields of a record
    that every function takes and returns; the DOM elements a function
    writes become further fields of it, the DOM inputs it reads are fields
    as well.
  - A timer set with [setTimeout] is a pending callback in the state; an
    event of the model fires it. *)

From Stdlib Require Import ZArith Lia List.
From Stdlib.Strings Require Import String Ascii Byte.
From stdpp Require Import base option list gmap strings sorting.

Local Open Scope string_scope.
Local Open Scope list_scope.
Local Open Scope Z_scope.

(* ===================================================================== *)
(** * Part I: definitions                                                 *)
(* ===================================================================== *)

(** ** JavaScript primitives used by the code *)

Module Js.

(** [s.length] *)
Definition len (s : string) : Z := Z.of_nat (String.length s).

(** [s.substring(a, b)]: both indices are clamped to [0, s.length] and
    swapped when [a > b]. *)
Definition substring (s : string) (a b : Z) : string :=
  let a' := Z.max 0 (Z.min a (len s)) in
  let b' := Z.max 0 (Z.min b (len s)) in
  let lo := Z.min a' b' in
  let hi := Z.max a' b' in
  String.substring (Z.to_nat lo) (Z.to_nat (hi - lo)) s.

(** [chunks.join(sep)] *)
Definition join (sep : string) (l : list string) : string :=
  String.concat sep l.

(** The digit of [d] (0 <= d < 36) in [Number.prototype.toString(radix)]:
    lowercase letters above 9. *)
Definition digitChar (d : Z) : ascii :=
  if d <? 10 then ascii_of_N (Z.to_N (48 + d))
  else ascii_of_N (Z.to_N (87 + d)).

(** The digits of a non-negative integer, most significant first. *)
Fixpoint digits (fuel : nat) (radix n : Z) : string :=
  match fuel with
  | O => ""
  | S fuel' =>
      if n <? radix then String (digitChar n) ""
      else digits fuel' radix (n / radix) +:+ String (digitChar (n mod radix)) ""
  end.

(** [n.toString(radix)] for an integer [n]. *)
Definition toStringRadix (radix n : Z) : string :=
  if n <? 0 then "-" +:+ digits (S (Z.to_nat (Z.log2 (- n)))) radix (- n)
  else digits (S (Z.to_nat (Z.log2 n))) radix n.

(** [String(n)], [`${n}`] *)
Definition numToString (n : Z) : string := toStringRadix 10 n.

Fixpoint repeat (c : ascii) (n : nat) : string :=
  match n with
  | O => ""
  | S n' => String c (repeat c n')
  end.

(** [s.padStart(target, c)] with a one-character filler. *)
Definition padStart (s : string) (target : Z) (c : ascii) : string :=
  repeat c (Z.to_nat (target - len s)) +:+ s.

(** [s.startsWith(p)] *)
Definition startsWith (s p : string) : bool := String.prefix p s.

(** [s.split(sep)] for a one-character separator: the pieces between the
    separators, at least one piece. *)
Fixpoint split (sep : ascii) (s : string) : list string :=
  match s with
  | EmptyString => [""]
  | String c s' =>
      if Ascii.eqb c sep then "" :: split sep s'
      else match split sep s' with
           | piece :: pieces => String c piece :: pieces
           | [] => [String c ""]
           end
  end.

(** [s.includes(c)] for a one-character string. *)
Fixpoint includes (s : string) (c : ascii) : bool :=
  match s with
  | EmptyString => false
  | String c' s' => Ascii.eqb c' c || includes s' c
  end.

(** The white space and line terminators of [trim] among the code units
    below 256: tab, line feed, vertical tab, form feed, carriage return,
    space and no-break space. *)
Definition isWhiteSpace (c : ascii) : bool :=
  let n := Z.of_N (N_of_ascii c) in
  ((9 <=? n) && (n <=? 13)) || (n =? 32) || (n =? 160).

Fixpoint trimStart (s : string) : string :=
  match s with
  | EmptyString => ""
  | String c s' => if isWhiteSpace c then trimStart s' else s
  end.

Fixpoint trimEnd (s : string) : string :=
  match s with
  | EmptyString => ""
  | String c s' =>
      match trimEnd s' with
      | EmptyString => if isWhiteSpace c then "" else String c ""
      | t => String c t
      end
  end.

(** [s.trim()] *)
Definition trim (s : string) : string := trimEnd (trimStart s).

Definition isDigit (c : ascii) : bool :=
  let n := Z.of_N (N_of_ascii c) in (48 <=? n) && (n <=? 57).

Fixpoint allDigits (s : string) : bool :=
  match s with
  | EmptyString => true
  | String c s' => isDigit c && allDigits s'
  end.

(** [/^\d+$/.test(s)] *)
Definition testDigits (s : string) : bool :=
  match s with
  | EmptyString => false
  | _ => allDigits s
  end.

Fixpoint parseDigits (s : string) (acc : Z) : Z :=
  match s with
  | EmptyString => acc
  | String c s' => parseDigits s' (10 * acc + (Z.of_N (N_of_ascii c) - 48))
  end.

(** [parseInt(s, 10)] on a string of decimal digits. *)
Definition parseInt (s : string) : Z := parseDigits s 0.

(** The double quote and the backslash. *)
Definition dquote : ascii := ascii_of_N 34.
Definition backslash : ascii := ascii_of_N 92.

(** [JSON.stringify] of a string: quotes around the characters, with the
    double quote, the backslash and the control characters escaped. *)
Definition jsonEscapeChar (c : ascii) : string :=
  let n := Z.of_N (N_of_ascii c) in
  if n =? 34 then String backslash (String dquote "")
  else if n =? 92 then String backslash (String backslash "")
  else if n =? 8 then String backslash "b"
  else if n =? 9 then String backslash "t"
  else if n =? 10 then String backslash "n"
  else if n =? 12 then String backslash "f"
  else if n =? 13 then String backslash "r"
  else if n <? 32 then
    String backslash ("u00" +:+ String (digitChar (n / 16)) (String (digitChar (n mod 16)) ""))
  else String c "".

Fixpoint jsonEscape (s : string) : string :=
  match s with
  | EmptyString => ""
  | String c s' => jsonEscapeChar c +:+ jsonEscape s'
  end.

Definition jsonString (s : string) : string :=
  String dquote (jsonEscape s +:+ String dquote "").

(** A member [, "key": value] of a JSON object, without the comma. *)
Definition jsonMember (key value : string) : string :=
  jsonString key +:+ ":" +:+ value.

(** [new Set<number>().add(x)]: a set keeps its members in the order of
    their first insertion. *)
Definition setAdd (set : list Z) (x : Z) : list Z :=
  if bool_decide (x ∈ set) then set else set ++ [x].

(** [array.sort((a, b) => a - b)] *)
Definition sortNumbers (l : list Z) : list Z := merge_sort Z.le l.

End Js.

(** ** config.ts *)

Module config.

Definition PROTOCOL_VERSION : Z := 1.
Definition MULTI_FILE_ARCHIVE_NAME : string := "transfer_archive.zip".

(** The four levels of the error-correction select. *)
Inductive ErrorCorrectionLevel := L | M | Q | H.

Definition QR_CAPACITY_ESTIMATES (level : ErrorCorrectionLevel) : Z :=
  match level with
  | L => 2000
  | M => 1500
  | Q => 1100
  | H => 800
  end.

Definition QR_CHUNK_SIZE_BUFFER : Z := 150.
Definition MIN_CHUNK_SIZE : Z := 100.
Definition MAX_CHUNK_SIZE_LIMIT : Z := 2900.
Definition DEFAULT_DELAY_MS : Z := 500.
Definition MIN_DELAY_MS : Z := 50.

End config.

(** ** types.ts *)

Module types.

(** A scanned object that passed the structure test of [handleScanResult]:
    [v] is a number, [fid] and [typ] are strings. Every other field may be
    absent, and is [None] then; [zip] is [Some true] exactly when the
    field is the boolean [true]. The record holds the packets whose
    numbers are integers and whose [ofn], when present, is a string, as
    the sender writes them and as types.ts declares them. A [nam], [siz],
    [tot], [seq], [dat] or [chk] of another type is [None], for the code
    tests the type of these fields. The code does not test the type of
    [ofn], and it takes the numbers [v], [siz] and [tot] whether they are
    integers or not: a packet with an [ofn] that is no string, or with a
    number that is no integer, is not in the model. *)
Record QRPayload := MkPayload {
    v : Z;
    fid : string;
    typ : string;
    nam : option string;
    siz : option Z;
    tot : option Z;
    zip : option bool;
    ofn : option string;
    seq : option Z;
    dat : option string;
    chk : option string
  }.

Inductive SenderPhase :=
| s_idle | processing | ready | transferring | final_qr_displayed
| post_final | sending_specific | s_error.

Inductive ReceiverState :=
| idle | waiting_handshake | receiving_data | waiting_final
| waiting_missing | verifying | complete | error.

Definition ReceiverState_eqb (a b : ReceiverState) : bool :=
  match a, b with
  | idle, idle | waiting_handshake, waiting_handshake
  | receiving_data, receiving_data | waiting_final, waiting_final
  | waiting_missing, waiting_missing | verifying, verifying
  | complete, complete | error, error => true
  | _, _ => false
  end.

Definition SenderPhase_eqb (a b : SenderPhase) : bool :=
  match a, b with
  | s_idle, s_idle | processing, processing | ready, ready
  | transferring, transferring | final_qr_displayed, final_qr_displayed
  | post_final, post_final | sending_specific, sending_specific
  | s_error, s_error => true
  | _, _ => false
  end.

End types.

(** ** The browser and the libraries the code calls *)

Module browser.

(** What JSZip answers when the receiver looks a file up in the archive. *)
Inductive ZipLookup :=
| ZipThrows
| ZipNoSuchFile
| ZipFile (extractedBuffer : list byte).

(** The functions of the platform whose results the code depends on.
    [atob] and [decodeURIComponent] answer [None] when they throw. The
    bytes of [atob] are the char codes of the binary string it returns. *)
Record Browser := MkBrowser {
    atob : string -> option (list byte);
    btoa : list byte -> string;
    decodeURIComponent : string -> option string;
    encodeURIComponent : string -> string;
    zipLookup : list byte -> string -> ZipLookup
  }.

(** What [JSON.parse] and the structure test of [handleScanResult] make
    of a scanned string. *)
Inductive Scanned :=
| Unparseable
| BadStructure
| Structured (payload : types.QRPayload).

End browser.

(** ** utils.ts *)

Module utils.

(** [calculateChecksum]: the loop over the bytes of the buffer, then the
    rendering of the sum. *)
Definition checksumLoop (bytes : list byte) : Z :=
  fold_left (fun sum b => (sum + Z.of_N (Byte.to_N b)) mod 65536) bytes 0.

Definition calculateChecksum (buffer : list byte) : string :=
  let sum := checksumLoop buffer in
  Js.padStart (Js.toStringRadix 16 sum) 4 "0"%char.

(** [getQrCapacityEstimate]: every level of the select has an entry, so
    the fallback to the entry of M is never taken. *)
Definition getQrCapacityEstimate (level : config.ErrorCorrectionLevel) : Z :=
  config.QR_CAPACITY_ESTIMATES level.

(** [estimateMetadataSize]: [fileId?.length || 15]. *)
Definition estimateMetadataSize (payloadType : string)
    (fileId : option string) (archiveNameLength originalFilenameLength : Z) : Z :=
  let fidLen := match fileId with
                | Some f => if Js.len f =? 0 then 15 else Js.len f
                | None => 15
                end in
  let size := 30 + fidLen in
  let size :=
    if String.eqb payloadType "h" then
      let size := size + (25 + archiveNameLength + 5 + 3 + 5) in
      if 0 <? originalFilenameLength then size + (10 + originalFilenameLength)
      else size
    else if String.eqb payloadType "d" then size + (15 + 3 + 5)
    else if String.eqb payloadType "f" then size + (15 + 5 + 4)
    else size in
  size + 10.

(** [base64ToArrayBuffer]: an empty buffer when [atob] throws. *)
Definition base64ToArrayBuffer (B : browser.Browser) (base64 : string) : list byte :=
  match browser.atob B base64 with
  | Some bytes => bytes
  | None => []
  end.

(** [arrayBufferToBase64] *)
Definition arrayBufferToBase64 (B : browser.Browser) (buffer : list byte) : string :=
  browser.btoa B buffer.

(** [safeDecodeURIComponent] *)
Definition safeDecodeURIComponent (B : browser.Browser) (encodedString : string)
    (fallback : option string) : option string :=
  match browser.decodeURIComponent B encodedString with
  | Some decoded => Some decoded
  | None => fallback
  end.

(** The body of the [for (const part of parts)] loop of [parseChunkInput]
    and the loop itself: [None] is the [return null] of the body,
    [uniqueChunks] the set built so far. *)
Fixpoint parseParts (parts : list string) (maxChunk : Z) (uniqueChunks : list Z)
    : option (list Z) :=
  match parts with
  | [] => Some uniqueChunks
  | part :: parts' =>
      let trimmedPart := Js.trim part in
      if String.eqb trimmedPart "" then parseParts parts' maxChunk uniqueChunks
      else if Js.includes trimmedPart "-"%char then
        match Js.split "-"%char trimmedPart with
        | [rangeStart; rangeEnd] =>
            let startStr := Js.trim rangeStart in
            let endStr := Js.trim rangeEnd in
            if negb (Js.testDigits startStr) || negb (Js.testDigits endStr) then None
            else
              let start := Js.parseInt startStr in
              let end_ := Js.parseInt endStr in
              if (start <=? 0) || (end_ <? start) || (maxChunk <? start) || (maxChunk <? end_)
              then None
              else parseParts parts' maxChunk
                     (fold_left Js.setAdd (seqZ start (end_ - start + 1)) uniqueChunks)
        | _ => None
        end
      else if negb (Js.testDigits trimmedPart) then None
      else
        let num := Js.parseInt trimmedPart in
        if (num <=? 0) || (maxChunk <? num) then None
        else parseParts parts' maxChunk (Js.setAdd uniqueChunks num)
  end.

(** [parseChunkInput]: [None] is [null]. *)
Definition parseChunkInput (input : string) (maxChunk : Z) : option (list Z) :=
  if String.eqb input "" || String.eqb (Js.trim input) "" then Some []
  else if maxChunk <=? 0 then None
  else
    match parseParts (Js.split ","%char input) maxChunk [] with
    | Some uniqueChunks => Some (Js.sortNumbers uniqueChunks)
    | None => None
    end.

End utils.

(** ** sender.ts: the chunk splitter of [prepareChunks] *)

Module splitter.

(** [effectiveChunkSize = Math.max(1, Math.min(target, maxDataPayload))] *)
Definition effectiveChunkSize (targetPayloadSize maxDataPayload : Z) : Z :=
  Z.max 1 (Z.min targetPayloadSize maxDataPayload).

(** The [while (startIndex < dataLength)] loop. The model stops with
    [None] when its fuel is spent before the loop condition fails. *)
Fixpoint splitLoop (fuel : nat) (base64Data : string) (effectiveChunkSize : Z)
    (startIndex : Z) (newChunks : list string) : option (list string) :=
  let dataLength := Js.len base64Data in
  if startIndex <? dataLength then
    match fuel with
    | O => None
    | S fuel' =>
        let remainingLength := dataLength - startIndex in
        let currentChunkLength := Z.min effectiveChunkSize remainingLength in
        splitLoop fuel' base64Data effectiveChunkSize
          (startIndex + currentChunkLength)
          (newChunks ++
             [Js.substring base64Data startIndex (startIndex + currentChunkLength)])
    end
  else Some newChunks.

(** The loop as [prepareChunks] starts it: [startIndex = 0], no chunk yet.
    One iteration per character is the most the loop can need. *)
Definition split (base64Data : string) (effectiveChunkSize : Z) : option (list string) :=
  splitLoop (String.length base64Data) base64Data effectiveChunkSize 0 [].

(** [ceil(n / k)] for integers [n >= 0] and [k > 0], the number of chunks
    the properties of the splitter speak of. *)
Definition ceilDiv (n k : Z) : Z := (n + k - 1) / k.

End splitter.

(** ** state.ts *)

Module state.

(** *** The receiver's variables, and the DOM elements receiver.ts writes

    The progress bar, the file information line, the transfer rate with its
    timestamps, the border of the video and the two scan buttons are left
    out: the code writes them and never reads them back. *)

Record Receiver := MkReceiver {
    qrScanner : bool;  (* is there a QrScanner instance *)
    isScanning : bool;
    expectedFileId : option string;
    expectedTotalChunks : option Z;
    expectedArchiveName : option string;
    expectedDataSize : option Z;
    expectedIsZip : bool;
    expectedOriginalFilename : option string;
    receivedChunksMap : gmap Z string;
    receivedChunkCount : Z;
    receiverState : types.ReceiverState;
    receiverStatus : string;  (* dom.receiverStatus.textContent *)
    receiverStatusRed : bool;  (* dom.receiverStatus.style.color is red *)
    receiverDebug : string;  (* dom.receiverDebug.textContent *)
    missingChunksCount : string;  (* dom.missingChunksCount.textContent *)
    missingChunksList : string;  (* dom.missingChunksList.textContent *)
    missingChunksInfoHidden : bool;  (* dom.missingChunksInfo has the class hidden *)
    downloads : list (string * list byte);  (* what triggerFileDownload was given, oldest first *)
    cleanupTimer : option string  (* the pending timer of verifyAndDownload, with its filename *)
  }.

Definition setQrScanner (x : bool) (st : Receiver) : Receiver :=
  {| qrScanner := x; isScanning := isScanning st; expectedFileId := expectedFileId st;
     expectedTotalChunks := expectedTotalChunks st; expectedArchiveName := expectedArchiveName st;
     expectedDataSize := expectedDataSize st; expectedIsZip := expectedIsZip st;
     expectedOriginalFilename := expectedOriginalFilename st; receivedChunksMap := receivedChunksMap
     st; receivedChunkCount := receivedChunkCount st; receiverState := receiverState st;
     receiverStatus := receiverStatus st; receiverStatusRed := receiverStatusRed st; receiverDebug :=
     receiverDebug st; missingChunksCount := missingChunksCount st; missingChunksList :=
     missingChunksList st; missingChunksInfoHidden := missingChunksInfoHidden st; downloads :=
     downloads st; cleanupTimer := cleanupTimer st |}.

Definition setIsScanning (x : bool) (st : Receiver) : Receiver :=
  {| qrScanner := qrScanner st; isScanning := x; expectedFileId := expectedFileId st;
     expectedTotalChunks := expectedTotalChunks st; expectedArchiveName := expectedArchiveName st;
     expectedDataSize := expectedDataSize st; expectedIsZip := expectedIsZip st;
     expectedOriginalFilename := expectedOriginalFilename st; receivedChunksMap := receivedChunksMap
     st; receivedChunkCount := receivedChunkCount st; receiverState := receiverState st;
     receiverStatus := receiverStatus st; receiverStatusRed := receiverStatusRed st; receiverDebug :=
     receiverDebug st; missingChunksCount := missingChunksCount st; missingChunksList :=
     missingChunksList st; missingChunksInfoHidden := missingChunksInfoHidden st; downloads :=
     downloads st; cleanupTimer := cleanupTimer st |}.

Definition setExpectedFileId (x : option string) (st : Receiver) : Receiver :=
  {| qrScanner := qrScanner st; isScanning := isScanning st; expectedFileId := x;
     expectedTotalChunks := expectedTotalChunks st; expectedArchiveName := expectedArchiveName st;
     expectedDataSize := expectedDataSize st; expectedIsZip := expectedIsZip st;
     expectedOriginalFilename := expectedOriginalFilename st; receivedChunksMap := receivedChunksMap
     st; receivedChunkCount := receivedChunkCount st; receiverState := receiverState st;
     receiverStatus := receiverStatus st; receiverStatusRed := receiverStatusRed st; receiverDebug :=
     receiverDebug st; missingChunksCount := missingChunksCount st; missingChunksList :=
     missingChunksList st; missingChunksInfoHidden := missingChunksInfoHidden st; downloads :=
     downloads st; cleanupTimer := cleanupTimer st |}.

Definition set_expectedTotalChunks (x : option Z) (st : Receiver) : Receiver :=
  {| qrScanner := qrScanner st; isScanning := isScanning st; expectedFileId := expectedFileId st;
     expectedTotalChunks := x; expectedArchiveName := expectedArchiveName st; expectedDataSize :=
     expectedDataSize st; expectedIsZip := expectedIsZip st; expectedOriginalFilename :=
     expectedOriginalFilename st; receivedChunksMap := receivedChunksMap st; receivedChunkCount :=
     receivedChunkCount st; receiverState := receiverState st; receiverStatus := receiverStatus st;
     receiverStatusRed := receiverStatusRed st; receiverDebug := receiverDebug st; missingChunksCount
     := missingChunksCount st; missingChunksList := missingChunksList st; missingChunksInfoHidden :=
     missingChunksInfoHidden st; downloads := downloads st; cleanupTimer := cleanupTimer st |}.

Definition set_expectedArchiveName (x : option string) (st : Receiver) : Receiver :=
  {| qrScanner := qrScanner st; isScanning := isScanning st; expectedFileId := expectedFileId st;
     expectedTotalChunks := expectedTotalChunks st; expectedArchiveName := x; expectedDataSize :=
     expectedDataSize st; expectedIsZip := expectedIsZip st; expectedOriginalFilename :=
     expectedOriginalFilename st; receivedChunksMap := receivedChunksMap st; receivedChunkCount :=
     receivedChunkCount st; receiverState := receiverState st; receiverStatus := receiverStatus st;
     receiverStatusRed := receiverStatusRed st; receiverDebug := receiverDebug st; missingChunksCount
     := missingChunksCount st; missingChunksList := missingChunksList st; missingChunksInfoHidden :=
     missingChunksInfoHidden st; downloads := downloads st; cleanupTimer := cleanupTimer st |}.

Definition set_expectedDataSize (x : option Z) (st : Receiver) : Receiver :=
  {| qrScanner := qrScanner st; isScanning := isScanning st; expectedFileId := expectedFileId st;
     expectedTotalChunks := expectedTotalChunks st; expectedArchiveName := expectedArchiveName st;
     expectedDataSize := x; expectedIsZip := expectedIsZip st; expectedOriginalFilename :=
     expectedOriginalFilename st; receivedChunksMap := receivedChunksMap st; receivedChunkCount :=
     receivedChunkCount st; receiverState := receiverState st; receiverStatus := receiverStatus st;
     receiverStatusRed := receiverStatusRed st; receiverDebug := receiverDebug st; missingChunksCount
     := missingChunksCount st; missingChunksList := missingChunksList st; missingChunksInfoHidden :=
     missingChunksInfoHidden st; downloads := downloads st; cleanupTimer := cleanupTimer st |}.

Definition set_expectedIsZip (x : bool) (st : Receiver) : Receiver :=
  {| qrScanner := qrScanner st; isScanning := isScanning st; expectedFileId := expectedFileId st;
     expectedTotalChunks := expectedTotalChunks st; expectedArchiveName := expectedArchiveName st;
     expectedDataSize := expectedDataSize st; expectedIsZip := x; expectedOriginalFilename :=
     expectedOriginalFilename st; receivedChunksMap := receivedChunksMap st; receivedChunkCount :=
     receivedChunkCount st; receiverState := receiverState st; receiverStatus := receiverStatus st;
     receiverStatusRed := receiverStatusRed st; receiverDebug := receiverDebug st; missingChunksCount
     := missingChunksCount st; missingChunksList := missingChunksList st; missingChunksInfoHidden :=
     missingChunksInfoHidden st; downloads := downloads st; cleanupTimer := cleanupTimer st |}.

Definition set_expectedOriginalFilename (x : option string) (st : Receiver) : Receiver :=
  {| qrScanner := qrScanner st; isScanning := isScanning st; expectedFileId := expectedFileId st;
     expectedTotalChunks := expectedTotalChunks st; expectedArchiveName := expectedArchiveName st;
     expectedDataSize := expectedDataSize st; expectedIsZip := expectedIsZip st;
     expectedOriginalFilename := x; receivedChunksMap := receivedChunksMap st; receivedChunkCount :=
     receivedChunkCount st; receiverState := receiverState st; receiverStatus := receiverStatus st;
     receiverStatusRed := receiverStatusRed st; receiverDebug := receiverDebug st; missingChunksCount
     := missingChunksCount st; missingChunksList := missingChunksList st; missingChunksInfoHidden :=
     missingChunksInfoHidden st; downloads := downloads st; cleanupTimer := cleanupTimer st |}.

Definition set_receivedChunksMap (x : gmap Z string) (st : Receiver) : Receiver :=
  {| qrScanner := qrScanner st; isScanning := isScanning st; expectedFileId := expectedFileId st;
     expectedTotalChunks := expectedTotalChunks st; expectedArchiveName := expectedArchiveName st;
     expectedDataSize := expectedDataSize st; expectedIsZip := expectedIsZip st;
     expectedOriginalFilename := expectedOriginalFilename st; receivedChunksMap := x;
     receivedChunkCount := receivedChunkCount st; receiverState := receiverState st; receiverStatus
     := receiverStatus st; receiverStatusRed := receiverStatusRed st; receiverDebug := receiverDebug
     st; missingChunksCount := missingChunksCount st; missingChunksList := missingChunksList st;
     missingChunksInfoHidden := missingChunksInfoHidden st; downloads := downloads st; cleanupTimer
     := cleanupTimer st |}.

Definition set_receivedChunkCount (x : Z) (st : Receiver) : Receiver :=
  {| qrScanner := qrScanner st; isScanning := isScanning st; expectedFileId := expectedFileId st;
     expectedTotalChunks := expectedTotalChunks st; expectedArchiveName := expectedArchiveName st;
     expectedDataSize := expectedDataSize st; expectedIsZip := expectedIsZip st;
     expectedOriginalFilename := expectedOriginalFilename st; receivedChunksMap := receivedChunksMap
     st; receivedChunkCount := x; receiverState := receiverState st; receiverStatus := receiverStatus
     st; receiverStatusRed := receiverStatusRed st; receiverDebug := receiverDebug st;
     missingChunksCount := missingChunksCount st; missingChunksList := missingChunksList st;
     missingChunksInfoHidden := missingChunksInfoHidden st; downloads := downloads st; cleanupTimer
     := cleanupTimer st |}.

Definition setReceiverState (x : types.ReceiverState) (st : Receiver) : Receiver :=
  {| qrScanner := qrScanner st; isScanning := isScanning st; expectedFileId := expectedFileId st;
     expectedTotalChunks := expectedTotalChunks st; expectedArchiveName := expectedArchiveName st;
     expectedDataSize := expectedDataSize st; expectedIsZip := expectedIsZip st;
     expectedOriginalFilename := expectedOriginalFilename st; receivedChunksMap := receivedChunksMap
     st; receivedChunkCount := receivedChunkCount st; receiverState := x; receiverStatus :=
     receiverStatus st; receiverStatusRed := receiverStatusRed st; receiverDebug := receiverDebug st;
     missingChunksCount := missingChunksCount st; missingChunksList := missingChunksList st;
     missingChunksInfoHidden := missingChunksInfoHidden st; downloads := downloads st; cleanupTimer
     := cleanupTimer st |}.

Definition set_receiverStatus (x : string) (st : Receiver) : Receiver :=
  {| qrScanner := qrScanner st; isScanning := isScanning st; expectedFileId := expectedFileId st;
     expectedTotalChunks := expectedTotalChunks st; expectedArchiveName := expectedArchiveName st;
     expectedDataSize := expectedDataSize st; expectedIsZip := expectedIsZip st;
     expectedOriginalFilename := expectedOriginalFilename st; receivedChunksMap := receivedChunksMap
     st; receivedChunkCount := receivedChunkCount st; receiverState := receiverState st;
     receiverStatus := x; receiverStatusRed := receiverStatusRed st; receiverDebug := receiverDebug
     st; missingChunksCount := missingChunksCount st; missingChunksList := missingChunksList st;
     missingChunksInfoHidden := missingChunksInfoHidden st; downloads := downloads st; cleanupTimer
     := cleanupTimer st |}.

Definition set_receiverStatusRed (x : bool) (st : Receiver) : Receiver :=
  {| qrScanner := qrScanner st; isScanning := isScanning st; expectedFileId := expectedFileId st;
     expectedTotalChunks := expectedTotalChunks st; expectedArchiveName := expectedArchiveName st;
     expectedDataSize := expectedDataSize st; expectedIsZip := expectedIsZip st;
     expectedOriginalFilename := expectedOriginalFilename st; receivedChunksMap := receivedChunksMap
     st; receivedChunkCount := receivedChunkCount st; receiverState := receiverState st;
     receiverStatus := receiverStatus st; receiverStatusRed := x; receiverDebug := receiverDebug st;
     missingChunksCount := missingChunksCount st; missingChunksList := missingChunksList st;
     missingChunksInfoHidden := missingChunksInfoHidden st; downloads := downloads st; cleanupTimer
     := cleanupTimer st |}.

Definition set_receiverDebug (x : string) (st : Receiver) : Receiver :=
  {| qrScanner := qrScanner st; isScanning := isScanning st; expectedFileId := expectedFileId st;
     expectedTotalChunks := expectedTotalChunks st; expectedArchiveName := expectedArchiveName st;
     expectedDataSize := expectedDataSize st; expectedIsZip := expectedIsZip st;
     expectedOriginalFilename := expectedOriginalFilename st; receivedChunksMap := receivedChunksMap
     st; receivedChunkCount := receivedChunkCount st; receiverState := receiverState st;
     receiverStatus := receiverStatus st; receiverStatusRed := receiverStatusRed st; receiverDebug :=
     x; missingChunksCount := missingChunksCount st; missingChunksList := missingChunksList st;
     missingChunksInfoHidden := missingChunksInfoHidden st; downloads := downloads st; cleanupTimer
     := cleanupTimer st |}.

Definition set_missingChunksCount (x : string) (st : Receiver) : Receiver :=
  {| qrScanner := qrScanner st; isScanning := isScanning st; expectedFileId := expectedFileId st;
     expectedTotalChunks := expectedTotalChunks st; expectedArchiveName := expectedArchiveName st;
     expectedDataSize := expectedDataSize st; expectedIsZip := expectedIsZip st;
     expectedOriginalFilename := expectedOriginalFilename st; receivedChunksMap := receivedChunksMap
     st; receivedChunkCount := receivedChunkCount st; receiverState := receiverState st;
     receiverStatus := receiverStatus st; receiverStatusRed := receiverStatusRed st; receiverDebug :=
     receiverDebug st; missingChunksCount := x; missingChunksList := missingChunksList st;
     missingChunksInfoHidden := missingChunksInfoHidden st; downloads := downloads st; cleanupTimer
     := cleanupTimer st |}.

Definition set_missingChunksList (x : string) (st : Receiver) : Receiver :=
  {| qrScanner := qrScanner st; isScanning := isScanning st; expectedFileId := expectedFileId st;
     expectedTotalChunks := expectedTotalChunks st; expectedArchiveName := expectedArchiveName st;
     expectedDataSize := expectedDataSize st; expectedIsZip := expectedIsZip st;
     expectedOriginalFilename := expectedOriginalFilename st; receivedChunksMap := receivedChunksMap
     st; receivedChunkCount := receivedChunkCount st; receiverState := receiverState st;
     receiverStatus := receiverStatus st; receiverStatusRed := receiverStatusRed st; receiverDebug :=
     receiverDebug st; missingChunksCount := missingChunksCount st; missingChunksList := x;
     missingChunksInfoHidden := missingChunksInfoHidden st; downloads := downloads st; cleanupTimer
     := cleanupTimer st |}.

Definition set_missingChunksInfoHidden (x : bool) (st : Receiver) : Receiver :=
  {| qrScanner := qrScanner st; isScanning := isScanning st; expectedFileId := expectedFileId st;
     expectedTotalChunks := expectedTotalChunks st; expectedArchiveName := expectedArchiveName st;
     expectedDataSize := expectedDataSize st; expectedIsZip := expectedIsZip st;
     expectedOriginalFilename := expectedOriginalFilename st; receivedChunksMap := receivedChunksMap
     st; receivedChunkCount := receivedChunkCount st; receiverState := receiverState st;
     receiverStatus := receiverStatus st; receiverStatusRed := receiverStatusRed st; receiverDebug :=
     receiverDebug st; missingChunksCount := missingChunksCount st; missingChunksList :=
     missingChunksList st; missingChunksInfoHidden := x; downloads := downloads st; cleanupTimer :=
     cleanupTimer st |}.

Definition set_downloads (x : list (string * list byte)) (st : Receiver) : Receiver :=
  {| qrScanner := qrScanner st; isScanning := isScanning st; expectedFileId := expectedFileId st;
     expectedTotalChunks := expectedTotalChunks st; expectedArchiveName := expectedArchiveName st;
     expectedDataSize := expectedDataSize st; expectedIsZip := expectedIsZip st;
     expectedOriginalFilename := expectedOriginalFilename st; receivedChunksMap := receivedChunksMap
     st; receivedChunkCount := receivedChunkCount st; receiverState := receiverState st;
     receiverStatus := receiverStatus st; receiverStatusRed := receiverStatusRed st; receiverDebug :=
     receiverDebug st; missingChunksCount := missingChunksCount st; missingChunksList :=
     missingChunksList st; missingChunksInfoHidden := missingChunksInfoHidden st; downloads := x;
     cleanupTimer := cleanupTimer st |}.

Definition set_cleanupTimer (x : option string) (st : Receiver) : Receiver :=
  {| qrScanner := qrScanner st; isScanning := isScanning st; expectedFileId := expectedFileId st;
     expectedTotalChunks := expectedTotalChunks st; expectedArchiveName := expectedArchiveName st;
     expectedDataSize := expectedDataSize st; expectedIsZip := expectedIsZip st;
     expectedOriginalFilename := expectedOriginalFilename st; receivedChunksMap := receivedChunksMap
     st; receivedChunkCount := receivedChunkCount st; receiverState := receiverState st;
     receiverStatus := receiverStatus st; receiverStatusRed := receiverStatusRed st; receiverDebug :=
     receiverDebug st; missingChunksCount := missingChunksCount st; missingChunksList :=
     missingChunksList st; missingChunksInfoHidden := missingChunksInfoHidden st; downloads :=
     downloads st; cleanupTimer := x |}.

(** [setExpectedData] *)
Definition setExpectedData (archiveName : option string) (dataSize totalChunks : option Z)
    (isZip : bool) (originalFilename : option string) (st : Receiver) : Receiver :=
  set_expectedOriginalFilename originalFilename
    (set_expectedIsZip isZip
       (set_expectedTotalChunks totalChunks
          (set_expectedDataSize dataSize
             (set_expectedArchiveName archiveName st)))).

(** [clearReceivedChunks] *)
Definition clearReceivedChunks (st : Receiver) : Receiver :=
  set_receivedChunkCount 0 (set_receivedChunksMap ∅ st).

(** [receivedChunksMap.has(seq)] *)
Definition has (m : gmap Z string) (seq : Z) : bool := bool_decide (is_Some (m !! seq)).

(** [addReceivedChunk] *)
Definition addReceivedChunk (seq : Z) (data : string) (st : Receiver) : Receiver :=
  if negb (has (receivedChunksMap st) seq) then
    let st := set_receivedChunksMap (<[seq := data]> (receivedChunksMap st)) st in
    set_receivedChunkCount (receivedChunkCount st + 1) st
  else st.

(** [resetReceiverStateInternal] *)
Definition resetReceiverStateInternal (st : Receiver) : Receiver :=
  let st := setReceiverState types.idle st in
  let st := setExpectedFileId None st in
  let st := set_expectedTotalChunks None st in
  let st := set_expectedArchiveName None st in
  let st := set_expectedDataSize None st in
  let st := set_expectedIsZip false st in
  let st := set_expectedOriginalFilename None st in
  let st := set_receivedChunksMap ∅ st in
  set_receivedChunkCount 0 st.

(** The receiver when the page has loaded, before [initializeApp]: the
    initial values of the variables and the texts of index.html. *)
Definition initialReceiver : Receiver :=
  {| qrScanner := false; isScanning := false; expectedFileId := None;
     expectedTotalChunks := None; expectedArchiveName := None; expectedDataSize := None;
     expectedIsZip := false; expectedOriginalFilename := None; receivedChunksMap := ∅;
     receivedChunkCount := 0; receiverState := types.idle;
     receiverStatus := "Status: Ready to scan handshake QR...";
     receiverStatusRed := false; receiverDebug := ""; missingChunksCount := "";
     missingChunksList := ""; missingChunksInfoHidden := true; downloads := [];
     cleanupTimer := None |}.

End state.

(** ** receiver.ts *)

Module receiver.
Import types browser state.

(** [updateReceiverStatus]: an error message also moves the receiver to
    the error state. *)
Definition updateReceiverStatus (message : string) (isError : bool) (st : Receiver)
    : Receiver :=
  let statusPrefix := if isError then "Error: " else "Status: " in
  let st := set_receiverStatus (statusPrefix +:+ message) st in
  let st := set_receiverStatusRed isError st in
  if isError then setReceiverState error st else st.

(** [updateReceiverUI] *)
Definition updateReceiverUI (st : Receiver) : Receiver :=
  let currentState := st in
  let st :=
    match receiverState currentState with
    | idle => updateReceiverStatus "Ready to scan handshake QR." false st
    | complete => updateReceiverStatus "Transfer complete. Ready for next scan." false st
    | _ => st
    end in
  let st := set_receiverDebug "" st in
  set_missingChunksInfoHidden true st.

(** [startScan], up to the call of [scannerInstance.start()]; the promise
    that call returns is settled by [startResolved] or [startRejected]. *)
Definition startScan (st : Receiver) : Receiver :=
  let currentState := st in
  if isScanning currentState then st
  else
    let st := resetReceiverStateInternal st in
    let st := updateReceiverUI st in
    let st := setReceiverState waiting_handshake st in
    let st := updateReceiverStatus "Initializing camera..." false st in
    let st := set_missingChunksInfoHidden true st in
    if negb (qrScanner currentState) then setQrScanner true st else st.

(** The [then] callback of [startScan]. *)
Definition startResolved (st : Receiver) : Receiver :=
  let st := setIsScanning true st in
  updateReceiverStatus "Scanning active. Waiting for Handshake QR..." false st.

(** The [catch] callback of [startScan]; [message] is the text it derives
    from the error. *)
Definition startRejected (message : string) (st : Receiver) : Receiver :=
  let st := updateReceiverStatus message true st in
  let st := resetReceiverStateInternal st in
  let st := setQrScanner false st in
  let st := setIsScanning false st in
  updateReceiverUI st.

(** [stopScan] *)
Definition stopScan (st : Receiver) : Receiver :=
  let currentState := st in
  if negb (isScanning currentState) || negb (qrScanner currentState) then st
  else
    let st := setQrScanner false st in
    let st := setIsScanning false st in
    match receiverState currentState with
    | complete | error => st
    | _ => updateReceiverStatus "Scanning stopped." false st
    end.

(** The loop [for (let i = 1; i <= expectedTotalChunks; i++)] that
    collects the sequence numbers the map does not have. *)
Definition findMissing (expectedTotalChunks : Z) (receivedChunksMap : gmap Z string)
    : list Z :=
  filter (fun i => has receivedChunksMap i = false) (seqZ 1 expectedTotalChunks).

Definition renderRange (rangeStart rangeEnd : Z) : string :=
  if rangeStart =? rangeEnd then Js.numToString rangeStart
  else Js.numToString rangeStart +:+ "-" +:+ Js.numToString rangeEnd.

(** The [for] loop of [formatMissingChunks] over [missing[1..]]. *)
Fixpoint rangeLoop (rest : list Z) (ranges : list string) (rangeStart rangeEnd : Z)
    : list string :=
  match rest with
  | [] => ranges ++ [renderRange rangeStart rangeEnd]
  | m :: rest' =>
      if m =? rangeEnd + 1 then rangeLoop rest' ranges rangeStart m
      else rangeLoop rest' (ranges ++ [renderRange rangeStart rangeEnd]) m m
  end.

(** [formatMissingChunks]. The sort of a non-empty array is non-empty; the
    branch for an empty sorted array is never taken. *)
Definition formatMissingChunks (missing : list Z) : string :=
  match missing with
  | [] => "None"
  | _ :: _ =>
      match Js.sortNumbers missing with
      | [] => "None"
      | first :: rest => Js.join ", " (rangeLoop rest [] first first)
      end
  end.

(** [displayMissingChunks] *)
Definition displayMissingChunks (st : Receiver) : Receiver :=
  let currentState := st in
  match expectedTotalChunks currentState with
  | None => st
  | Some total =>
      let missing := findMissing total (receivedChunksMap currentState) in
      if 0 <? Z.of_nat (length missing) then
        let st := set_missingChunksCount (Js.numToString (Z.of_nat (length missing))) st in
        let st := set_missingChunksList (formatMissingChunks missing) st in
        let st := set_missingChunksInfoHidden false st in
        updateReceiverStatus
          ("Waiting for " +:+ Js.numToString (Z.of_nat (length missing)) +:+
           " missing chunk(s). Scan the QR codes again.") false st
      else
        let st := set_missingChunksInfoHidden true st in
        match receiverState currentState with
        | waiting_missing =>
            let st := updateReceiverStatus
                        "All missing chunks now received! Waiting final confirm again..."
                        false st in
            setReceiverState waiting_final st
        | _ => st
        end
  end.

(** The assembly loop of [verifyAndDownload]: the chunks 1 to [total] in
    the order of their sequence numbers, or the first number whose chunk
    is absent or the empty string. *)
Fixpoint assemble (seqs : list Z) (receivedChunksMap : gmap Z string)
    : Z + list string :=
  match seqs with
  | [] => inr []
  | i :: seqs' =>
      match receivedChunksMap !! i with
      | Some chunkData =>
          if String.eqb chunkData "" then inl i
          else match assemble seqs' receivedChunksMap with
               | inr chunkArray => inr (chunkData :: chunkArray)
               | inl j => inl j
               end
      | None => inl i
      end
  end.

(** [triggerFileDownload], which the model lets succeed. *)
Definition triggerFileDownload (buffer : list byte) (filename : string) (st : Receiver)
    : Receiver :=
  set_downloads (downloads st ++ [(filename, buffer)]) st.

(** Step 6 and 7 of [verifyAndDownload]. The two awaits on JSZip are
    answered at once by [zipLookup]. *)
Definition processVerifiedData (B : Browser) (currentState : Receiver)
    (receivedZipBuffer : list byte) (st : Receiver) : Receiver :=
  let truthy (o : option string) :=
    match o with Some s => negb (String.eqb s "") | None => false end in
  let finalFilename :=
    if truthy (expectedOriginalFilename currentState)
    then default "" (expectedOriginalFilename currentState)
    else if truthy (expectedArchiveName currentState)
    then default "" (expectedArchiveName currentState)
    else config.MULTI_FILE_ARCHIVE_NAME in
  let st :=
    if truthy (expectedOriginalFilename currentState) then
      let original := default "" (expectedOriginalFilename currentState) in
      let st := updateReceiverStatus ("Extracting single file: " +:+ original +:+ "...")
                  false st in
      match zipLookup B receivedZipBuffer original with
      | ZipFile extractedBuffer =>
          let st := updateReceiverStatus "Extraction successful! Starting download..."
                      false st in
          let st := setReceiverState complete st in
          triggerFileDownload extractedBuffer finalFilename st
      | ZipNoSuchFile =>
          let st := updateReceiverStatus
                      ("Error: Expected file not found in archive. Downloading the raw archive '"
                       +:+ finalFilename +:+ "' instead.") true st in
          let st := setReceiverState complete st in
          triggerFileDownload receivedZipBuffer finalFilename st
      | ZipThrows =>
          let st := updateReceiverStatus
                      ("Error extracting file from ZIP. Downloading the raw archive '"
                       +:+ finalFilename +:+ "' instead.") true st in
          let st := setReceiverState complete st in
          triggerFileDownload receivedZipBuffer finalFilename st
      end
    else
      let st := updateReceiverStatus
                  ("Archive verified. Starting download: " +:+ finalFilename +:+ "...")
                  false st in
      let st := setReceiverState complete st in
      triggerFileDownload receivedZipBuffer finalFilename st in
  match receiverState st with
  | complete => set_cleanupTimer (Some finalFilename) st
  | _ => st
  end.

(** [verifyAndDownload] *)
Definition verifyAndDownload (B : Browser) (finalPayload : QRPayload) (st : Receiver)
    : Receiver :=
  let currentState := st in
  let st := if isScanning currentState then stopScan st else st in
  match expectedTotalChunks currentState, expectedDataSize currentState,
        expectedArchiveName currentState with
  | Some total, Some dataSize, Some _ =>
      if negb (receivedChunkCount currentState =? total) then
        let st := updateReceiverStatus
                    ("Internal Error: Chunk count mismatch (" +:+
                     Js.numToString (receivedChunkCount currentState) +:+ "/" +:+
                     Js.numToString total +:+ ").") true st in
        let st := setReceiverState error st in
        displayMissingChunks st
      else
        let st := updateReceiverStatus "All chunks present. Assembling data..." false st in
        match assemble (seqZ 1 total) (receivedChunksMap currentState) with
        | inl i =>
            let st := updateReceiverStatus
                        ("Error during data assembly: Critical Error: Missing chunk #" +:+
                         Js.numToString i +:+ " during final assembly!") true st in
            setReceiverState error st
        | inr chunkArray =>
            let fullBase64Zip := Js.join "" chunkArray in
            let st := updateReceiverStatus "Decoding and verifying data size..." false st in
            let receivedZipBuffer := utils.base64ToArrayBuffer B fullBase64Zip in
            let byteLength := Z.of_nat (length receivedZipBuffer) in
            if (byteLength =? 0) && (0 <? dataSize) then
              let st := updateReceiverStatus
                          "Error decoding base64 data: Base64 decoding resulted in an empty buffer."
                          true st in
              setReceiverState error st
            else if negb (byteLength =? dataSize) then
              let st := updateReceiverStatus
                          ("Verification FAILED: Size mismatch (Expected: " +:+
                           Js.numToString dataSize +:+ ", Received: " +:+
                           Js.numToString byteLength +:+ ")") true st in
              setReceiverState error st
            else
              let st := updateReceiverStatus "Verifying data checksum..." false st in
              let calculatedChecksum := utils.calculateChecksum receivedZipBuffer in
              if negb (bool_decide (Some calculatedChecksum = chk finalPayload)) then
                let st := updateReceiverStatus
                            "Verification FAILED: Checksum mismatch! Data is likely corrupt."
                            true st in
                setReceiverState error st
              else
                let st := updateReceiverStatus
                            "Data verified (Size & Checksum OK). Preparing download..."
                            false st in
                processVerifiedData B currentState receivedZipBuffer st
        end
  | _, _, _ =>
      let st := updateReceiverStatus "Internal Error: Missing file info for verification."
                  true st in
      setReceiverState error st
  end.

(** The callback of the 100 ms timer that [verifyAndDownload] sets. *)
Definition cleanupTimerFires (st : Receiver) : Receiver :=
  match cleanupTimer st with
  | None => st
  | Some finalFilename =>
      let st := set_cleanupTimer None st in
      let st := updateReceiverStatus
                  ("Download triggered for " +:+ finalFilename +:+ ". Ready for next scan.")
                  false st in
      let st := resetReceiverStateInternal st in
      updateReceiverUI st
  end.

(** [checkForMissingChunksAndFinalize] *)
Definition checkForMissingChunksAndFinalize (B : Browser) (finalPayload : QRPayload)
    (st : Receiver) : Receiver :=
  let currentState := st in
  match expectedTotalChunks currentState with
  | None =>
      let st := updateReceiverStatus
                  "Internal Error: Cannot check for missing chunks, total count unknown."
                  true st in
      let st := setReceiverState error st in
      if isScanning currentState then stopScan st else st
  | Some total =>
      if total =? 0 then
        let st := set_missingChunksInfoHidden true st in
        verifyAndDownload B finalPayload st
      else
        let missingChunks := findMissing total (receivedChunksMap currentState) in
        if Z.of_nat (length missingChunks) =? 0 then
          let st := set_missingChunksInfoHidden true st in
          verifyAndDownload B finalPayload st
        else
          let st := setReceiverState waiting_missing st in
          let st := displayMissingChunks st in
          if negb (isScanning currentState) then startScan st
          else
            updateReceiverStatus
              ("Waiting for " +:+ Js.numToString (Z.of_nat (length missingChunks)) +:+
               " missing chunk(s). Keep scanning.") false st
  end.

(** [handleFinalPacket] *)
Definition handleFinalPacket (B : Browser) (finalPayload : QRPayload) (st : Receiver)
    : Receiver :=
  let currentState := st in
  if negb (bool_decide (Some (fid finalPayload) = expectedFileId currentState)) then st
  else
    match chk finalPayload with
    | Some (String _ _) =>
        let st := updateReceiverStatus
                    "Final confirmation QR received. Checking chunk completeness..."
                    false st in
        checkForMissingChunksAndFinalize B finalPayload st
    | _ =>
        let st := updateReceiverStatus
                    "Final packet received, but checksum is missing or invalid! Cannot verify."
                    true st in
        let st := setReceiverState error st in
        stopScan st
    end.

(** [processHandshake] *)
Definition processHandshake (B : Browser) (handshake : QRPayload) (st : Receiver)
    : Receiver :=
  let currentState := st in
  match nam handshake, siz handshake, tot handshake, zip handshake with
  | Some nam_, Some siz_, Some tot_, Some true =>
      if tot_ <? 0 then set_receiverDebug "HShake Field Err" st
      else
        let known :=
          match expectedFileId currentState with
          | Some (String _ _ as expected) => String.eqb expected (fid handshake)
          | _ => false
          end in
        if negb known then
          let st := clearReceivedChunks st in
          let st := setExpectedFileId (Some (fid handshake)) st in
          let archiveName :=
            utils.safeDecodeURIComponent B nam_ (Some config.MULTI_FILE_ARCHIVE_NAME) in
          let originalFilename :=
            match ofn handshake with
            | Some (String _ _ as ofn_) => utils.safeDecodeURIComponent B ofn_ None
            | _ => None
            end in
          let st := setExpectedData archiveName (Some siz_) (Some tot_) true
                      originalFilename st in
          let st := set_missingChunksInfoHidden true st in
          if tot_ =? 0 then
            let st := updateReceiverStatus
                        "Handshake OK (0 data chunks). Waiting for Final QR..." false st in
            setReceiverState waiting_final st
          else
            let st := updateReceiverStatus
                        ("Handshake OK! Receiving chunks for " +:+ default "null" archiveName
                         +:+ "...") false st in
            setReceiverState receiving_data st
        else st
  | _, _, _, _ => set_receiverDebug "HShake Field Err" st
  end.

(** [processDataChunk] *)
Definition processDataChunk (dataChunk : QRPayload) (st : Receiver) : Receiver :=
  let currentState := st in
  match seq dataChunk, dat dataChunk with
  | Some seq_, Some (String _ _ as dat_) =>
      if (seq_ <=? 0) || (default 0 (expectedTotalChunks currentState) <? seq_) then
        set_receiverDebug "DChunk Field Err" st
      else if negb (has (receivedChunksMap currentState) seq_) then
        let st := addReceivedChunk seq_ dat_ st in
        let totalText :=
          match expectedTotalChunks currentState with
          | Some total => Js.numToString total
          | None => "null"
          end in
        let st := updateReceiverStatus
                    ("Received chunk " +:+ Js.numToString seq_ +:+ "/" +:+ totalText +:+
                     ". Total unique: " +:+ Js.numToString (receivedChunkCount st) +:+ ".")
                    false st in
        let nowComplete :=
          bool_decide (Some (receivedChunkCount st) = expectedTotalChunks currentState) in
        match receiverState currentState with
        | waiting_missing =>
            let st := displayMissingChunks st in
            if nowComplete then
              let st := updateReceiverStatus
                          "All missing chunks received! Waiting for Final QR again..."
                          false st in
              let st := set_missingChunksInfoHidden true st in
              setReceiverState waiting_final st
            else st
        | _ =>
            if nowComplete then
              let st := updateReceiverStatus
                          ("All " +:+ totalText +:+
                           " data chunks received. Waiting for Final QR...") false st in
              setReceiverState waiting_final st
            else st
        end
      else set_receiverDebug ("Dup #" +:+ Js.numToString seq_) st
  | _, _ => set_receiverDebug "DChunk Field Err" st
  end.

(** The states in which [handleScanResult] looks at a scan. *)
Definition expectsQr (s : ReceiverState) : bool :=
  match s with
  | waiting_handshake | receiving_data | waiting_final | waiting_missing => true
  | _ => false
  end.

(** [handleScanResult]. Nothing in the model throws inside the [switch],
    so its [catch] has no counterpart here. *)
Definition handleScanResult (B : Browser) (result : Scanned) (st : Receiver) : Receiver :=
  let currentState := st in
  if negb (expectsQr (receiverState currentState)) then st
  else
    match result with
    | Unparseable => set_receiverDebug "JSON Err" st
    | BadStructure => set_receiverDebug "Struct Err" st
    | Structured payload =>
        let sameFid := bool_decide (Some (fid payload) = expectedFileId currentState) in
        let expectedFileIdSet :=
          match expectedFileId currentState with
          | Some (String _ _) => true
          | _ => false
          end in
        if String.eqb (fid payload) "" then set_receiverDebug "Struct Err" st
        else if negb (v payload =? config.PROTOCOL_VERSION) then
          let st := updateReceiverStatus
                      ("Incompatible protocol version (Received: " +:+
                       Js.numToString (v payload) +:+ ", Expected: " +:+
                       Js.numToString config.PROTOCOL_VERSION +:+ "). Stopping.")
                      true st in
          stopScan st
        else if negb (ReceiverState_eqb (receiverState currentState) waiting_handshake)
                && expectedFileIdSet && negb sameFid
        then set_receiverDebug "FID Err" st
        else
          match receiverState currentState with
          | waiting_handshake =>
              if String.eqb (typ payload) "h" then processHandshake B payload st
              else if String.eqb (typ payload) "f" && sameFid
              then handleFinalPacket B payload st
              else st
          | receiving_data | waiting_missing =>
              if String.eqb (typ payload) "d" && sameFid then processDataChunk payload st
              else if String.eqb (typ payload) "f" && sameFid
              then handleFinalPacket B payload st
              else st
          | waiting_final =>
              if String.eqb (typ payload) "f" && sameFid
              then handleFinalPacket B payload st
              else if String.eqb (typ payload) "d" && sameFid
              then processDataChunk payload st
              else st
          | _ => st
          end
    end.

End receiver.

(** ** state.ts, the sender's half *)

Module sstate.

(** The functions a [setTimeout] of sender.ts is given. *)
Inductive TimerCallback :=
| cb_displayNextChunk
| cb_handlePostFinalState
| cb_displaySpecificChunk
| cb_displayFinalConfirmationQR.

(** *** The sender's variables, the flag and the QR code of sender.ts, and
    the DOM elements sender.ts reads or the properties speak of

    The estimates line, the progress line, the transfer rate with its
    timestamps, the texts of the modal and the buttons are left out: the
    code writes them and never reads them back. *)

Record Sender := MkSender {
    filesToSend : Z;  (* filesToSend.length *)
    isSingleFileOriginal : bool;
    originalSingleFilename : option string;
    dataToSendBuffer : option (list byte);
    base64Data : string;
    chunks : list string;
    currentChunkIndex : Z;
    totalDataChunks : Z;
    transferFileId : string;
    transferTimer : option TimerCallback;  (* the callback of the pending setTimeout *)
    dataToSendChecksum : string;
    senderTransferPhase : types.SenderPhase;
    specificChunksToSend : list Z;
    specificChunkSendIndex : Z;
    totalStepsInCurrentSequence : Z;
    isCurrentSequenceManual : bool;  (* module-level flag of sender.ts *)
    errorCorrectionLevel : config.ErrorCorrectionLevel;  (* dom.errorCorrectionLevelSelect.value *)
    chunkSizeInput : option Z;  (* parseInt(dom.chunkSizeInput.value, 10); None is NaN *)
    delayInput : option Z;  (* parseInt(dom.delayInput.value, 10); None is NaN *)
    manualModeCheckbox : bool;  (* dom.manualModeCheckbox.checked *)
    resendManualModeCheckbox : bool;  (* dom.resendManualModeCheckbox.checked *)
    specificChunksInput : string;  (* dom.specificChunksInput.value *)
    senderStatus : string;  (* dom.senderStatus.textContent *)
    senderStatusRed : bool;  (* dom.senderStatus.style.color is red *)
    sendSpecificStatus : string;  (* dom.sendSpecificStatus.textContent *)
    qrCode : option string;  (* the string of the QR code on screen *)
    displayed : list string  (* every string rendered as a QR code, oldest first *)
  }.

Definition set_filesToSend (x : Z) (st : Sender) : Sender :=
  {| filesToSend := x; isSingleFileOriginal := isSingleFileOriginal st; originalSingleFilename :=
     originalSingleFilename st; dataToSendBuffer := dataToSendBuffer st; base64Data := base64Data st;
     chunks := chunks st; currentChunkIndex := currentChunkIndex st; totalDataChunks :=
     totalDataChunks st; transferFileId := transferFileId st; transferTimer := transferTimer st;
     dataToSendChecksum := dataToSendChecksum st; senderTransferPhase := senderTransferPhase st;
     specificChunksToSend := specificChunksToSend st; specificChunkSendIndex :=
     specificChunkSendIndex st; totalStepsInCurrentSequence := totalStepsInCurrentSequence st;
     isCurrentSequenceManual := isCurrentSequenceManual st; errorCorrectionLevel :=
     errorCorrectionLevel st; chunkSizeInput := chunkSizeInput st; delayInput := delayInput st;
     manualModeCheckbox := manualModeCheckbox st; resendManualModeCheckbox :=
     resendManualModeCheckbox st; specificChunksInput := specificChunksInput st; senderStatus :=
     senderStatus st; senderStatusRed := senderStatusRed st; sendSpecificStatus := sendSpecificStatus
     st; qrCode := qrCode st; displayed := displayed st |}.

Definition set_isSingleFileOriginal (x : bool) (st : Sender) : Sender :=
  {| filesToSend := filesToSend st; isSingleFileOriginal := x; originalSingleFilename :=
     originalSingleFilename st; dataToSendBuffer := dataToSendBuffer st; base64Data := base64Data st;
     chunks := chunks st; currentChunkIndex := currentChunkIndex st; totalDataChunks :=
     totalDataChunks st; transferFileId := transferFileId st; transferTimer := transferTimer st;
     dataToSendChecksum := dataToSendChecksum st; senderTransferPhase := senderTransferPhase st;
     specificChunksToSend := specificChunksToSend st; specificChunkSendIndex :=
     specificChunkSendIndex st; totalStepsInCurrentSequence := totalStepsInCurrentSequence st;
     isCurrentSequenceManual := isCurrentSequenceManual st; errorCorrectionLevel :=
     errorCorrectionLevel st; chunkSizeInput := chunkSizeInput st; delayInput := delayInput st;
     manualModeCheckbox := manualModeCheckbox st; resendManualModeCheckbox :=
     resendManualModeCheckbox st; specificChunksInput := specificChunksInput st; senderStatus :=
     senderStatus st; senderStatusRed := senderStatusRed st; sendSpecificStatus := sendSpecificStatus
     st; qrCode := qrCode st; displayed := displayed st |}.

Definition set_originalSingleFilename (x : option string) (st : Sender) : Sender :=
  {| filesToSend := filesToSend st; isSingleFileOriginal := isSingleFileOriginal st;
     originalSingleFilename := x; dataToSendBuffer := dataToSendBuffer st; base64Data := base64Data
     st; chunks := chunks st; currentChunkIndex := currentChunkIndex st; totalDataChunks :=
     totalDataChunks st; transferFileId := transferFileId st; transferTimer := transferTimer st;
     dataToSendChecksum := dataToSendChecksum st; senderTransferPhase := senderTransferPhase st;
     specificChunksToSend := specificChunksToSend st; specificChunkSendIndex :=
     specificChunkSendIndex st; totalStepsInCurrentSequence := totalStepsInCurrentSequence st;
     isCurrentSequenceManual := isCurrentSequenceManual st; errorCorrectionLevel :=
     errorCorrectionLevel st; chunkSizeInput := chunkSizeInput st; delayInput := delayInput st;
     manualModeCheckbox := manualModeCheckbox st; resendManualModeCheckbox :=
     resendManualModeCheckbox st; specificChunksInput := specificChunksInput st; senderStatus :=
     senderStatus st; senderStatusRed := senderStatusRed st; sendSpecificStatus := sendSpecificStatus
     st; qrCode := qrCode st; displayed := displayed st |}.

Definition set_dataToSendBuffer (x : option (list byte)) (st : Sender) : Sender :=
  {| filesToSend := filesToSend st; isSingleFileOriginal := isSingleFileOriginal st;
     originalSingleFilename := originalSingleFilename st; dataToSendBuffer := x; base64Data :=
     base64Data st; chunks := chunks st; currentChunkIndex := currentChunkIndex st; totalDataChunks
     := totalDataChunks st; transferFileId := transferFileId st; transferTimer := transferTimer st;
     dataToSendChecksum := dataToSendChecksum st; senderTransferPhase := senderTransferPhase st;
     specificChunksToSend := specificChunksToSend st; specificChunkSendIndex :=
     specificChunkSendIndex st; totalStepsInCurrentSequence := totalStepsInCurrentSequence st;
     isCurrentSequenceManual := isCurrentSequenceManual st; errorCorrectionLevel :=
     errorCorrectionLevel st; chunkSizeInput := chunkSizeInput st; delayInput := delayInput st;
     manualModeCheckbox := manualModeCheckbox st; resendManualModeCheckbox :=
     resendManualModeCheckbox st; specificChunksInput := specificChunksInput st; senderStatus :=
     senderStatus st; senderStatusRed := senderStatusRed st; sendSpecificStatus := sendSpecificStatus
     st; qrCode := qrCode st; displayed := displayed st |}.

Definition set_base64Data (x : string) (st : Sender) : Sender :=
  {| filesToSend := filesToSend st; isSingleFileOriginal := isSingleFileOriginal st;
     originalSingleFilename := originalSingleFilename st; dataToSendBuffer := dataToSendBuffer st;
     base64Data := x; chunks := chunks st; currentChunkIndex := currentChunkIndex st; totalDataChunks
     := totalDataChunks st; transferFileId := transferFileId st; transferTimer := transferTimer st;
     dataToSendChecksum := dataToSendChecksum st; senderTransferPhase := senderTransferPhase st;
     specificChunksToSend := specificChunksToSend st; specificChunkSendIndex :=
     specificChunkSendIndex st; totalStepsInCurrentSequence := totalStepsInCurrentSequence st;
     isCurrentSequenceManual := isCurrentSequenceManual st; errorCorrectionLevel :=
     errorCorrectionLevel st; chunkSizeInput := chunkSizeInput st; delayInput := delayInput st;
     manualModeCheckbox := manualModeCheckbox st; resendManualModeCheckbox :=
     resendManualModeCheckbox st; specificChunksInput := specificChunksInput st; senderStatus :=
     senderStatus st; senderStatusRed := senderStatusRed st; sendSpecificStatus := sendSpecificStatus
     st; qrCode := qrCode st; displayed := displayed st |}.

Definition set_chunks (x : list string) (st : Sender) : Sender :=
  {| filesToSend := filesToSend st; isSingleFileOriginal := isSingleFileOriginal st;
     originalSingleFilename := originalSingleFilename st; dataToSendBuffer := dataToSendBuffer st;
     base64Data := base64Data st; chunks := x; currentChunkIndex := currentChunkIndex st;
     totalDataChunks := totalDataChunks st; transferFileId := transferFileId st; transferTimer :=
     transferTimer st; dataToSendChecksum := dataToSendChecksum st; senderTransferPhase :=
     senderTransferPhase st; specificChunksToSend := specificChunksToSend st; specificChunkSendIndex
     := specificChunkSendIndex st; totalStepsInCurrentSequence := totalStepsInCurrentSequence st;
     isCurrentSequenceManual := isCurrentSequenceManual st; errorCorrectionLevel :=
     errorCorrectionLevel st; chunkSizeInput := chunkSizeInput st; delayInput := delayInput st;
     manualModeCheckbox := manualModeCheckbox st; resendManualModeCheckbox :=
     resendManualModeCheckbox st; specificChunksInput := specificChunksInput st; senderStatus :=
     senderStatus st; senderStatusRed := senderStatusRed st; sendSpecificStatus := sendSpecificStatus
     st; qrCode := qrCode st; displayed := displayed st |}.

Definition setCurrentChunkIndex (x : Z) (st : Sender) : Sender :=
  {| filesToSend := filesToSend st; isSingleFileOriginal := isSingleFileOriginal st;
     originalSingleFilename := originalSingleFilename st; dataToSendBuffer := dataToSendBuffer st;
     base64Data := base64Data st; chunks := chunks st; currentChunkIndex := x; totalDataChunks :=
     totalDataChunks st; transferFileId := transferFileId st; transferTimer := transferTimer st;
     dataToSendChecksum := dataToSendChecksum st; senderTransferPhase := senderTransferPhase st;
     specificChunksToSend := specificChunksToSend st; specificChunkSendIndex :=
     specificChunkSendIndex st; totalStepsInCurrentSequence := totalStepsInCurrentSequence st;
     isCurrentSequenceManual := isCurrentSequenceManual st; errorCorrectionLevel :=
     errorCorrectionLevel st; chunkSizeInput := chunkSizeInput st; delayInput := delayInput st;
     manualModeCheckbox := manualModeCheckbox st; resendManualModeCheckbox :=
     resendManualModeCheckbox st; specificChunksInput := specificChunksInput st; senderStatus :=
     senderStatus st; senderStatusRed := senderStatusRed st; sendSpecificStatus := sendSpecificStatus
     st; qrCode := qrCode st; displayed := displayed st |}.

Definition set_totalDataChunks (x : Z) (st : Sender) : Sender :=
  {| filesToSend := filesToSend st; isSingleFileOriginal := isSingleFileOriginal st;
     originalSingleFilename := originalSingleFilename st; dataToSendBuffer := dataToSendBuffer st;
     base64Data := base64Data st; chunks := chunks st; currentChunkIndex := currentChunkIndex st;
     totalDataChunks := x; transferFileId := transferFileId st; transferTimer := transferTimer st;
     dataToSendChecksum := dataToSendChecksum st; senderTransferPhase := senderTransferPhase st;
     specificChunksToSend := specificChunksToSend st; specificChunkSendIndex :=
     specificChunkSendIndex st; totalStepsInCurrentSequence := totalStepsInCurrentSequence st;
     isCurrentSequenceManual := isCurrentSequenceManual st; errorCorrectionLevel :=
     errorCorrectionLevel st; chunkSizeInput := chunkSizeInput st; delayInput := delayInput st;
     manualModeCheckbox := manualModeCheckbox st; resendManualModeCheckbox :=
     resendManualModeCheckbox st; specificChunksInput := specificChunksInput st; senderStatus :=
     senderStatus st; senderStatusRed := senderStatusRed st; sendSpecificStatus := sendSpecificStatus
     st; qrCode := qrCode st; displayed := displayed st |}.

Definition setTransferFileId (x : string) (st : Sender) : Sender :=
  {| filesToSend := filesToSend st; isSingleFileOriginal := isSingleFileOriginal st;
     originalSingleFilename := originalSingleFilename st; dataToSendBuffer := dataToSendBuffer st;
     base64Data := base64Data st; chunks := chunks st; currentChunkIndex := currentChunkIndex st;
     totalDataChunks := totalDataChunks st; transferFileId := x; transferTimer := transferTimer st;
     dataToSendChecksum := dataToSendChecksum st; senderTransferPhase := senderTransferPhase st;
     specificChunksToSend := specificChunksToSend st; specificChunkSendIndex :=
     specificChunkSendIndex st; totalStepsInCurrentSequence := totalStepsInCurrentSequence st;
     isCurrentSequenceManual := isCurrentSequenceManual st; errorCorrectionLevel :=
     errorCorrectionLevel st; chunkSizeInput := chunkSizeInput st; delayInput := delayInput st;
     manualModeCheckbox := manualModeCheckbox st; resendManualModeCheckbox :=
     resendManualModeCheckbox st; specificChunksInput := specificChunksInput st; senderStatus :=
     senderStatus st; senderStatusRed := senderStatusRed st; sendSpecificStatus := sendSpecificStatus
     st; qrCode := qrCode st; displayed := displayed st |}.

Definition setTransferTimer (x : option TimerCallback) (st : Sender) : Sender :=
  {| filesToSend := filesToSend st; isSingleFileOriginal := isSingleFileOriginal st;
     originalSingleFilename := originalSingleFilename st; dataToSendBuffer := dataToSendBuffer st;
     base64Data := base64Data st; chunks := chunks st; currentChunkIndex := currentChunkIndex st;
     totalDataChunks := totalDataChunks st; transferFileId := transferFileId st; transferTimer := x;
     dataToSendChecksum := dataToSendChecksum st; senderTransferPhase := senderTransferPhase st;
     specificChunksToSend := specificChunksToSend st; specificChunkSendIndex :=
     specificChunkSendIndex st; totalStepsInCurrentSequence := totalStepsInCurrentSequence st;
     isCurrentSequenceManual := isCurrentSequenceManual st; errorCorrectionLevel :=
     errorCorrectionLevel st; chunkSizeInput := chunkSizeInput st; delayInput := delayInput st;
     manualModeCheckbox := manualModeCheckbox st; resendManualModeCheckbox :=
     resendManualModeCheckbox st; specificChunksInput := specificChunksInput st; senderStatus :=
     senderStatus st; senderStatusRed := senderStatusRed st; sendSpecificStatus := sendSpecificStatus
     st; qrCode := qrCode st; displayed := displayed st |}.

Definition set_dataToSendChecksum (x : string) (st : Sender) : Sender :=
  {| filesToSend := filesToSend st; isSingleFileOriginal := isSingleFileOriginal st;
     originalSingleFilename := originalSingleFilename st; dataToSendBuffer := dataToSendBuffer st;
     base64Data := base64Data st; chunks := chunks st; currentChunkIndex := currentChunkIndex st;
     totalDataChunks := totalDataChunks st; transferFileId := transferFileId st; transferTimer :=
     transferTimer st; dataToSendChecksum := x; senderTransferPhase := senderTransferPhase st;
     specificChunksToSend := specificChunksToSend st; specificChunkSendIndex :=
     specificChunkSendIndex st; totalStepsInCurrentSequence := totalStepsInCurrentSequence st;
     isCurrentSequenceManual := isCurrentSequenceManual st; errorCorrectionLevel :=
     errorCorrectionLevel st; chunkSizeInput := chunkSizeInput st; delayInput := delayInput st;
     manualModeCheckbox := manualModeCheckbox st; resendManualModeCheckbox :=
     resendManualModeCheckbox st; specificChunksInput := specificChunksInput st; senderStatus :=
     senderStatus st; senderStatusRed := senderStatusRed st; sendSpecificStatus := sendSpecificStatus
     st; qrCode := qrCode st; displayed := displayed st |}.

Definition setSenderPhase (x : types.SenderPhase) (st : Sender) : Sender :=
  {| filesToSend := filesToSend st; isSingleFileOriginal := isSingleFileOriginal st;
     originalSingleFilename := originalSingleFilename st; dataToSendBuffer := dataToSendBuffer st;
     base64Data := base64Data st; chunks := chunks st; currentChunkIndex := currentChunkIndex st;
     totalDataChunks := totalDataChunks st; transferFileId := transferFileId st; transferTimer :=
     transferTimer st; dataToSendChecksum := dataToSendChecksum st; senderTransferPhase := x;
     specificChunksToSend := specificChunksToSend st; specificChunkSendIndex :=
     specificChunkSendIndex st; totalStepsInCurrentSequence := totalStepsInCurrentSequence st;
     isCurrentSequenceManual := isCurrentSequenceManual st; errorCorrectionLevel :=
     errorCorrectionLevel st; chunkSizeInput := chunkSizeInput st; delayInput := delayInput st;
     manualModeCheckbox := manualModeCheckbox st; resendManualModeCheckbox :=
     resendManualModeCheckbox st; specificChunksInput := specificChunksInput st; senderStatus :=
     senderStatus st; senderStatusRed := senderStatusRed st; sendSpecificStatus := sendSpecificStatus
     st; qrCode := qrCode st; displayed := displayed st |}.

Definition setSpecificChunksToSend (x : list Z) (st : Sender) : Sender :=
  {| filesToSend := filesToSend st; isSingleFileOriginal := isSingleFileOriginal st;
     originalSingleFilename := originalSingleFilename st; dataToSendBuffer := dataToSendBuffer st;
     base64Data := base64Data st; chunks := chunks st; currentChunkIndex := currentChunkIndex st;
     totalDataChunks := totalDataChunks st; transferFileId := transferFileId st; transferTimer :=
     transferTimer st; dataToSendChecksum := dataToSendChecksum st; senderTransferPhase :=
     senderTransferPhase st; specificChunksToSend := x; specificChunkSendIndex :=
     specificChunkSendIndex st; totalStepsInCurrentSequence := totalStepsInCurrentSequence st;
     isCurrentSequenceManual := isCurrentSequenceManual st; errorCorrectionLevel :=
     errorCorrectionLevel st; chunkSizeInput := chunkSizeInput st; delayInput := delayInput st;
     manualModeCheckbox := manualModeCheckbox st; resendManualModeCheckbox :=
     resendManualModeCheckbox st; specificChunksInput := specificChunksInput st; senderStatus :=
     senderStatus st; senderStatusRed := senderStatusRed st; sendSpecificStatus := sendSpecificStatus
     st; qrCode := qrCode st; displayed := displayed st |}.

Definition setSpecificChunkSendIndex (x : Z) (st : Sender) : Sender :=
  {| filesToSend := filesToSend st; isSingleFileOriginal := isSingleFileOriginal st;
     originalSingleFilename := originalSingleFilename st; dataToSendBuffer := dataToSendBuffer st;
     base64Data := base64Data st; chunks := chunks st; currentChunkIndex := currentChunkIndex st;
     totalDataChunks := totalDataChunks st; transferFileId := transferFileId st; transferTimer :=
     transferTimer st; dataToSendChecksum := dataToSendChecksum st; senderTransferPhase :=
     senderTransferPhase st; specificChunksToSend := specificChunksToSend st; specificChunkSendIndex
     := x; totalStepsInCurrentSequence := totalStepsInCurrentSequence st; isCurrentSequenceManual :=
     isCurrentSequenceManual st; errorCorrectionLevel := errorCorrectionLevel st; chunkSizeInput :=
     chunkSizeInput st; delayInput := delayInput st; manualModeCheckbox := manualModeCheckbox st;
     resendManualModeCheckbox := resendManualModeCheckbox st; specificChunksInput :=
     specificChunksInput st; senderStatus := senderStatus st; senderStatusRed := senderStatusRed st;
     sendSpecificStatus := sendSpecificStatus st; qrCode := qrCode st; displayed := displayed st |}.

Definition setTotalStepsInCurrentSequence (x : Z) (st : Sender) : Sender :=
  {| filesToSend := filesToSend st; isSingleFileOriginal := isSingleFileOriginal st;
     originalSingleFilename := originalSingleFilename st; dataToSendBuffer := dataToSendBuffer st;
     base64Data := base64Data st; chunks := chunks st; currentChunkIndex := currentChunkIndex st;
     totalDataChunks := totalDataChunks st; transferFileId := transferFileId st; transferTimer :=
     transferTimer st; dataToSendChecksum := dataToSendChecksum st; senderTransferPhase :=
     senderTransferPhase st; specificChunksToSend := specificChunksToSend st; specificChunkSendIndex
     := specificChunkSendIndex st; totalStepsInCurrentSequence := x; isCurrentSequenceManual :=
     isCurrentSequenceManual st; errorCorrectionLevel := errorCorrectionLevel st; chunkSizeInput :=
     chunkSizeInput st; delayInput := delayInput st; manualModeCheckbox := manualModeCheckbox st;
     resendManualModeCheckbox := resendManualModeCheckbox st; specificChunksInput :=
     specificChunksInput st; senderStatus := senderStatus st; senderStatusRed := senderStatusRed st;
     sendSpecificStatus := sendSpecificStatus st; qrCode := qrCode st; displayed := displayed st |}.

Definition set_isCurrentSequenceManual (x : bool) (st : Sender) : Sender :=
  {| filesToSend := filesToSend st; isSingleFileOriginal := isSingleFileOriginal st;
     originalSingleFilename := originalSingleFilename st; dataToSendBuffer := dataToSendBuffer st;
     base64Data := base64Data st; chunks := chunks st; currentChunkIndex := currentChunkIndex st;
     totalDataChunks := totalDataChunks st; transferFileId := transferFileId st; transferTimer :=
     transferTimer st; dataToSendChecksum := dataToSendChecksum st; senderTransferPhase :=
     senderTransferPhase st; specificChunksToSend := specificChunksToSend st; specificChunkSendIndex
     := specificChunkSendIndex st; totalStepsInCurrentSequence := totalStepsInCurrentSequence st;
     isCurrentSequenceManual := x; errorCorrectionLevel := errorCorrectionLevel st; chunkSizeInput :=
     chunkSizeInput st; delayInput := delayInput st; manualModeCheckbox := manualModeCheckbox st;
     resendManualModeCheckbox := resendManualModeCheckbox st; specificChunksInput :=
     specificChunksInput st; senderStatus := senderStatus st; senderStatusRed := senderStatusRed st;
     sendSpecificStatus := sendSpecificStatus st; qrCode := qrCode st; displayed := displayed st |}.

Definition set_errorCorrectionLevel (x : config.ErrorCorrectionLevel) (st : Sender) : Sender :=
  {| filesToSend := filesToSend st; isSingleFileOriginal := isSingleFileOriginal st;
     originalSingleFilename := originalSingleFilename st; dataToSendBuffer := dataToSendBuffer st;
     base64Data := base64Data st; chunks := chunks st; currentChunkIndex := currentChunkIndex st;
     totalDataChunks := totalDataChunks st; transferFileId := transferFileId st; transferTimer :=
     transferTimer st; dataToSendChecksum := dataToSendChecksum st; senderTransferPhase :=
     senderTransferPhase st; specificChunksToSend := specificChunksToSend st; specificChunkSendIndex
     := specificChunkSendIndex st; totalStepsInCurrentSequence := totalStepsInCurrentSequence st;
     isCurrentSequenceManual := isCurrentSequenceManual st; errorCorrectionLevel := x; chunkSizeInput
     := chunkSizeInput st; delayInput := delayInput st; manualModeCheckbox := manualModeCheckbox st;
     resendManualModeCheckbox := resendManualModeCheckbox st; specificChunksInput :=
     specificChunksInput st; senderStatus := senderStatus st; senderStatusRed := senderStatusRed st;
     sendSpecificStatus := sendSpecificStatus st; qrCode := qrCode st; displayed := displayed st |}.

Definition set_chunkSizeInput (x : option Z) (st : Sender) : Sender :=
  {| filesToSend := filesToSend st; isSingleFileOriginal := isSingleFileOriginal st;
     originalSingleFilename := originalSingleFilename st; dataToSendBuffer := dataToSendBuffer st;
     base64Data := base64Data st; chunks := chunks st; currentChunkIndex := currentChunkIndex st;
     totalDataChunks := totalDataChunks st; transferFileId := transferFileId st; transferTimer :=
     transferTimer st; dataToSendChecksum := dataToSendChecksum st; senderTransferPhase :=
     senderTransferPhase st; specificChunksToSend := specificChunksToSend st; specificChunkSendIndex
     := specificChunkSendIndex st; totalStepsInCurrentSequence := totalStepsInCurrentSequence st;
     isCurrentSequenceManual := isCurrentSequenceManual st; errorCorrectionLevel :=
     errorCorrectionLevel st; chunkSizeInput := x; delayInput := delayInput st; manualModeCheckbox :=
     manualModeCheckbox st; resendManualModeCheckbox := resendManualModeCheckbox st;
     specificChunksInput := specificChunksInput st; senderStatus := senderStatus st; senderStatusRed
     := senderStatusRed st; sendSpecificStatus := sendSpecificStatus st; qrCode := qrCode st;
     displayed := displayed st |}.

Definition set_delayInput (x : option Z) (st : Sender) : Sender :=
  {| filesToSend := filesToSend st; isSingleFileOriginal := isSingleFileOriginal st;
     originalSingleFilename := originalSingleFilename st; dataToSendBuffer := dataToSendBuffer st;
     base64Data := base64Data st; chunks := chunks st; currentChunkIndex := currentChunkIndex st;
     totalDataChunks := totalDataChunks st; transferFileId := transferFileId st; transferTimer :=
     transferTimer st; dataToSendChecksum := dataToSendChecksum st; senderTransferPhase :=
     senderTransferPhase st; specificChunksToSend := specificChunksToSend st; specificChunkSendIndex
     := specificChunkSendIndex st; totalStepsInCurrentSequence := totalStepsInCurrentSequence st;
     isCurrentSequenceManual := isCurrentSequenceManual st; errorCorrectionLevel :=
     errorCorrectionLevel st; chunkSizeInput := chunkSizeInput st; delayInput := x;
     manualModeCheckbox := manualModeCheckbox st; resendManualModeCheckbox :=
     resendManualModeCheckbox st; specificChunksInput := specificChunksInput st; senderStatus :=
     senderStatus st; senderStatusRed := senderStatusRed st; sendSpecificStatus := sendSpecificStatus
     st; qrCode := qrCode st; displayed := displayed st |}.

Definition set_manualModeCheckbox (x : bool) (st : Sender) : Sender :=
  {| filesToSend := filesToSend st; isSingleFileOriginal := isSingleFileOriginal st;
     originalSingleFilename := originalSingleFilename st; dataToSendBuffer := dataToSendBuffer st;
     base64Data := base64Data st; chunks := chunks st; currentChunkIndex := currentChunkIndex st;
     totalDataChunks := totalDataChunks st; transferFileId := transferFileId st; transferTimer :=
     transferTimer st; dataToSendChecksum := dataToSendChecksum st; senderTransferPhase :=
     senderTransferPhase st; specificChunksToSend := specificChunksToSend st; specificChunkSendIndex
     := specificChunkSendIndex st; totalStepsInCurrentSequence := totalStepsInCurrentSequence st;
     isCurrentSequenceManual := isCurrentSequenceManual st; errorCorrectionLevel :=
     errorCorrectionLevel st; chunkSizeInput := chunkSizeInput st; delayInput := delayInput st;
     manualModeCheckbox := x; resendManualModeCheckbox := resendManualModeCheckbox st;
     specificChunksInput := specificChunksInput st; senderStatus := senderStatus st; senderStatusRed
     := senderStatusRed st; sendSpecificStatus := sendSpecificStatus st; qrCode := qrCode st;
     displayed := displayed st |}.

Definition set_resendManualModeCheckbox (x : bool) (st : Sender) : Sender :=
  {| filesToSend := filesToSend st; isSingleFileOriginal := isSingleFileOriginal st;
     originalSingleFilename := originalSingleFilename st; dataToSendBuffer := dataToSendBuffer st;
     base64Data := base64Data st; chunks := chunks st; currentChunkIndex := currentChunkIndex st;
     totalDataChunks := totalDataChunks st; transferFileId := transferFileId st; transferTimer :=
     transferTimer st; dataToSendChecksum := dataToSendChecksum st; senderTransferPhase :=
     senderTransferPhase st; specificChunksToSend := specificChunksToSend st; specificChunkSendIndex
     := specificChunkSendIndex st; totalStepsInCurrentSequence := totalStepsInCurrentSequence st;
     isCurrentSequenceManual := isCurrentSequenceManual st; errorCorrectionLevel :=
     errorCorrectionLevel st; chunkSizeInput := chunkSizeInput st; delayInput := delayInput st;
     manualModeCheckbox := manualModeCheckbox st; resendManualModeCheckbox := x; specificChunksInput
     := specificChunksInput st; senderStatus := senderStatus st; senderStatusRed := senderStatusRed
     st; sendSpecificStatus := sendSpecificStatus st; qrCode := qrCode st; displayed := displayed st
     |}.

Definition set_specificChunksInput (x : string) (st : Sender) : Sender :=
  {| filesToSend := filesToSend st; isSingleFileOriginal := isSingleFileOriginal st;
     originalSingleFilename := originalSingleFilename st; dataToSendBuffer := dataToSendBuffer st;
     base64Data := base64Data st; chunks := chunks st; currentChunkIndex := currentChunkIndex st;
     totalDataChunks := totalDataChunks st; transferFileId := transferFileId st; transferTimer :=
     transferTimer st; dataToSendChecksum := dataToSendChecksum st; senderTransferPhase :=
     senderTransferPhase st; specificChunksToSend := specificChunksToSend st; specificChunkSendIndex
     := specificChunkSendIndex st; totalStepsInCurrentSequence := totalStepsInCurrentSequence st;
     isCurrentSequenceManual := isCurrentSequenceManual st; errorCorrectionLevel :=
     errorCorrectionLevel st; chunkSizeInput := chunkSizeInput st; delayInput := delayInput st;
     manualModeCheckbox := manualModeCheckbox st; resendManualModeCheckbox :=
     resendManualModeCheckbox st; specificChunksInput := x; senderStatus := senderStatus st;
     senderStatusRed := senderStatusRed st; sendSpecificStatus := sendSpecificStatus st; qrCode :=
     qrCode st; displayed := displayed st |}.

Definition set_senderStatus (x : string) (st : Sender) : Sender :=
  {| filesToSend := filesToSend st; isSingleFileOriginal := isSingleFileOriginal st;
     originalSingleFilename := originalSingleFilename st; dataToSendBuffer := dataToSendBuffer st;
     base64Data := base64Data st; chunks := chunks st; currentChunkIndex := currentChunkIndex st;
     totalDataChunks := totalDataChunks st; transferFileId := transferFileId st; transferTimer :=
     transferTimer st; dataToSendChecksum := dataToSendChecksum st; senderTransferPhase :=
     senderTransferPhase st; specificChunksToSend := specificChunksToSend st; specificChunkSendIndex
     := specificChunkSendIndex st; totalStepsInCurrentSequence := totalStepsInCurrentSequence st;
     isCurrentSequenceManual := isCurrentSequenceManual st; errorCorrectionLevel :=
     errorCorrectionLevel st; chunkSizeInput := chunkSizeInput st; delayInput := delayInput st;
     manualModeCheckbox := manualModeCheckbox st; resendManualModeCheckbox :=
     resendManualModeCheckbox st; specificChunksInput := specificChunksInput st; senderStatus := x;
     senderStatusRed := senderStatusRed st; sendSpecificStatus := sendSpecificStatus st; qrCode :=
     qrCode st; displayed := displayed st |}.

Definition set_senderStatusRed (x : bool) (st : Sender) : Sender :=
  {| filesToSend := filesToSend st; isSingleFileOriginal := isSingleFileOriginal st;
     originalSingleFilename := originalSingleFilename st; dataToSendBuffer := dataToSendBuffer st;
     base64Data := base64Data st; chunks := chunks st; currentChunkIndex := currentChunkIndex st;
     totalDataChunks := totalDataChunks st; transferFileId := transferFileId st; transferTimer :=
     transferTimer st; dataToSendChecksum := dataToSendChecksum st; senderTransferPhase :=
     senderTransferPhase st; specificChunksToSend := specificChunksToSend st; specificChunkSendIndex
     := specificChunkSendIndex st; totalStepsInCurrentSequence := totalStepsInCurrentSequence st;
     isCurrentSequenceManual := isCurrentSequenceManual st; errorCorrectionLevel :=
     errorCorrectionLevel st; chunkSizeInput := chunkSizeInput st; delayInput := delayInput st;
     manualModeCheckbox := manualModeCheckbox st; resendManualModeCheckbox :=
     resendManualModeCheckbox st; specificChunksInput := specificChunksInput st; senderStatus :=
     senderStatus st; senderStatusRed := x; sendSpecificStatus := sendSpecificStatus st; qrCode :=
     qrCode st; displayed := displayed st |}.

Definition set_sendSpecificStatus (x : string) (st : Sender) : Sender :=
  {| filesToSend := filesToSend st; isSingleFileOriginal := isSingleFileOriginal st;
     originalSingleFilename := originalSingleFilename st; dataToSendBuffer := dataToSendBuffer st;
     base64Data := base64Data st; chunks := chunks st; currentChunkIndex := currentChunkIndex st;
     totalDataChunks := totalDataChunks st; transferFileId := transferFileId st; transferTimer :=
     transferTimer st; dataToSendChecksum := dataToSendChecksum st; senderTransferPhase :=
     senderTransferPhase st; specificChunksToSend := specificChunksToSend st; specificChunkSendIndex
     := specificChunkSendIndex st; totalStepsInCurrentSequence := totalStepsInCurrentSequence st;
     isCurrentSequenceManual := isCurrentSequenceManual st; errorCorrectionLevel :=
     errorCorrectionLevel st; chunkSizeInput := chunkSizeInput st; delayInput := delayInput st;
     manualModeCheckbox := manualModeCheckbox st; resendManualModeCheckbox :=
     resendManualModeCheckbox st; specificChunksInput := specificChunksInput st; senderStatus :=
     senderStatus st; senderStatusRed := senderStatusRed st; sendSpecificStatus := x; qrCode :=
     qrCode st; displayed := displayed st |}.

Definition set_qrCode (x : option string) (st : Sender) : Sender :=
  {| filesToSend := filesToSend st; isSingleFileOriginal := isSingleFileOriginal st;
     originalSingleFilename := originalSingleFilename st; dataToSendBuffer := dataToSendBuffer st;
     base64Data := base64Data st; chunks := chunks st; currentChunkIndex := currentChunkIndex st;
     totalDataChunks := totalDataChunks st; transferFileId := transferFileId st; transferTimer :=
     transferTimer st; dataToSendChecksum := dataToSendChecksum st; senderTransferPhase :=
     senderTransferPhase st; specificChunksToSend := specificChunksToSend st; specificChunkSendIndex
     := specificChunkSendIndex st; totalStepsInCurrentSequence := totalStepsInCurrentSequence st;
     isCurrentSequenceManual := isCurrentSequenceManual st; errorCorrectionLevel :=
     errorCorrectionLevel st; chunkSizeInput := chunkSizeInput st; delayInput := delayInput st;
     manualModeCheckbox := manualModeCheckbox st; resendManualModeCheckbox :=
     resendManualModeCheckbox st; specificChunksInput := specificChunksInput st; senderStatus :=
     senderStatus st; senderStatusRed := senderStatusRed st; sendSpecificStatus := sendSpecificStatus
     st; qrCode := x; displayed := displayed st |}.

Definition set_displayed (x : list string) (st : Sender) : Sender :=
  {| filesToSend := filesToSend st; isSingleFileOriginal := isSingleFileOriginal st;
     originalSingleFilename := originalSingleFilename st; dataToSendBuffer := dataToSendBuffer st;
     base64Data := base64Data st; chunks := chunks st; currentChunkIndex := currentChunkIndex st;
     totalDataChunks := totalDataChunks st; transferFileId := transferFileId st; transferTimer :=
     transferTimer st; dataToSendChecksum := dataToSendChecksum st; senderTransferPhase :=
     senderTransferPhase st; specificChunksToSend := specificChunksToSend st; specificChunkSendIndex
     := specificChunkSendIndex st; totalStepsInCurrentSequence := totalStepsInCurrentSequence st;
     isCurrentSequenceManual := isCurrentSequenceManual st; errorCorrectionLevel :=
     errorCorrectionLevel st; chunkSizeInput := chunkSizeInput st; delayInput := delayInput st;
     manualModeCheckbox := manualModeCheckbox st; resendManualModeCheckbox :=
     resendManualModeCheckbox st; specificChunksInput := specificChunksInput st; senderStatus :=
     senderStatus st; senderStatusRed := senderStatusRed st; sendSpecificStatus := sendSpecificStatus
     st; qrCode := qrCode st; displayed := x |}.

(** [setSenderFiles] *)
Definition setSenderFiles (files : Z) (singleOriginal : bool) (originalName : option string)
    (st : Sender) : Sender :=
  set_originalSingleFilename originalName
    (set_isSingleFileOriginal singleOriginal (set_filesToSend files st)).

(** [setSenderProcessedData] *)
Definition setSenderProcessedData (buffer : option (list byte)) (b64 checksum : string)
    (st : Sender) : Sender :=
  let st := set_dataToSendBuffer buffer st in
  let st := set_base64Data b64 st in
  let st := set_dataToSendChecksum checksum st in
  let st := set_chunks [] st in
  let st := set_totalDataChunks 0 st in
  setCurrentChunkIndex (-1) st.

(** [setSenderChunks] *)
Definition setSenderChunks (newChunks : list string) (st : Sender) : Sender :=
  let st := set_chunks newChunks st in
  let st := set_totalDataChunks (Z.of_nat (length newChunks)) st in
  setCurrentChunkIndex (-1) st.

(** [resetSenderStateInternal] *)
Definition resetSenderStateInternal (clearFiles : bool) (st : Sender) : Sender :=
  let st := setTransferTimer None st in
  let st := setSenderPhase
              (if clearFiles then types.s_idle
               else if bool_decide (is_Some (dataToSendBuffer st)) then types.ready
               else types.s_idle) st in
  let st := setSpecificChunksToSend [] st in
  let st := setSpecificChunkSendIndex 0 st in
  let st := setTotalStepsInCurrentSequence 0 st in
  let st := setCurrentChunkIndex (-1) st in
  let st := setTransferFileId "" st in
  let st := set_chunks [] st in
  let st := set_totalDataChunks 0 st in
  if clearFiles then
    let st := set_filesToSend 0 st in
    let st := set_dataToSendBuffer None st in
    let st := set_base64Data "" st in
    let st := set_dataToSendChecksum "" st in
    let st := set_isSingleFileOriginal false st in
    let st := set_originalSingleFilename None st in
    setSenderPhase types.s_idle st
  else st.

End sstate.

(** ** sender.ts *)

Module sender.
Import types browser sstate.

(** [JSON.stringify(payload)]: the members the object has, in the order
    the object literals of sender.ts list them. *)
Definition jsonOptionalMember {A} (key : string) (render : A -> string)
    (field : option A) : list string :=
  match field with
  | Some x => [Js.jsonMember key (render x)]
  | None => []
  end.

Definition JSON_stringify (payload : QRPayload) : string :=
  let members : list string :=
    ([Js.jsonMember "v" (Js.numToString (v payload));
      Js.jsonMember "fid" (Js.jsonString (fid payload));
      Js.jsonMember "typ" (Js.jsonString (typ payload))]
     ++ jsonOptionalMember "nam" Js.jsonString (nam payload)
     ++ jsonOptionalMember "siz" Js.numToString (siz payload)
     ++ jsonOptionalMember "tot" Js.numToString (tot payload)
     ++ jsonOptionalMember "zip" (fun b : bool => if b then "true" else "false")
          (zip payload)
     ++ jsonOptionalMember "ofn" Js.jsonString (ofn payload)
     ++ jsonOptionalMember "seq" Js.numToString (seq payload)
     ++ jsonOptionalMember "dat" Js.jsonString (dat payload)
     ++ jsonOptionalMember "chk" Js.jsonString (chk payload))%list in
  "{" +:+ Js.join "," members +:+ "}".

(** The three object literals of the sender. *)
Definition handshakePayload (fid_ nam_ : string) (siz_ tot_ : Z) (ofn_ : option string)
    : QRPayload :=
  {| v := config.PROTOCOL_VERSION; fid := fid_; typ := "h"; nam := Some nam_;
     siz := Some siz_; tot := Some tot_; zip := Some true; ofn := ofn_;
     seq := None; dat := None; chk := None |}.

Definition dataPayload (fid_ : string) (seq_ : Z) (dat_ : string) : QRPayload :=
  {| v := config.PROTOCOL_VERSION; fid := fid_; typ := "d"; nam := None; siz := None;
     tot := None; zip := None; ofn := None; seq := Some seq_; dat := Some dat_;
     chk := None |}.

Definition finalPayload (fid_ chk_ : string) : QRPayload :=
  {| v := config.PROTOCOL_VERSION; fid := fid_; typ := "f"; nam := None; siz := None;
     tot := None; zip := None; ofn := None; seq := None; dat := None;
     chk := Some chk_ |}.

(** [payloadString.length > qrCapacity * 1.1]. With an integer length and
    a capacity that is a multiple of ten, the comparison is the one of
    [10 * length] with [11 * qrCapacity]. *)
Definition exceedsCapacity (payloadString : string) (qrCapacity : Z) : bool :=
  11 * qrCapacity <? 10 * Js.len payloadString.

(** [clearQrInstance] *)
Definition clearQrInstance (st : Sender) : Sender := set_qrCode None st.

(** [updateSenderStatus], without the texts of the modal. It does not
    touch the phase. *)
Definition updateSenderStatus (mainStatusMessage : string) (isError : bool) (st : Sender)
    : Sender :=
  let statusPrefix := if isError then "Error: " else "Status: " in
  let st := set_senderStatus (statusPrefix +:+ mainStatusMessage) st in
  set_senderStatusRed isError st.

(** [handleFileError] *)
Definition handleFileError (message : string) (st : Sender) : Sender :=
  let st := resetSenderStateInternal true st in
  let st := clearQrInstance st in
  let st := updateSenderStatus message true st in
  setSenderPhase s_error st.

(** [prepareChunks]: the new state and the boolean it returns. *)
Definition prepareChunks (st : Sender) : Sender * bool :=
  let currentState := st in
  if String.eqb (base64Data currentState) ""
     || negb (bool_decide (is_Some (dataToSendBuffer currentState)))
  then
    let st := if 0 <? filesToSend currentState
              then updateSenderStatus "Error: No processed data available to chunk." true st
              else updateSenderStatus "Select file/folder to begin." false st in
    (setSenderChunks [] st, false)
  else
    let invalidTarget (st : Sender) :=
      let st := updateSenderStatus
                  ("Invalid Target Data size (min " +:+
                   Js.numToString config.MIN_CHUNK_SIZE +:+ ").") true st in
      (setSenderChunks [] st, false) in
    match chunkSizeInput currentState with
    | None => invalidTarget st
    | Some targetPayloadSize =>
        if targetPayloadSize <? config.MIN_CHUNK_SIZE then invalidTarget st
        else
          let qrCapacity := utils.getQrCapacityEstimate (errorCorrectionLevel currentState) in
          let metaSize :=
            utils.estimateMetadataSize "d"
              (Some (if String.eqb (transferFileId currentState) "" then "fid_placeholder"
                     else transferFileId currentState))
              (Js.len config.MULTI_FILE_ARCHIVE_NAME) 0 in
          let maxDataPayload := qrCapacity - metaSize - config.QR_CHUNK_SIZE_BUFFER in
          let effectiveChunkSize := splitter.effectiveChunkSize targetPayloadSize maxDataPayload in
          if (effectiveChunkSize <=? 0) || (maxDataPayload <=? 0) then
            let st := updateSenderStatus
                        ("Chunk size too small for QR capacity/metadata (max data ~" +:+
                         Js.numToString maxDataPayload +:+
                         " bytes). Increase chunk size or lower EC level.") true st in
            (setSenderChunks [] st, false)
          else
            match splitter.split (base64Data currentState) effectiveChunkSize with
            | None => (st, false)
            | Some newChunks =>
                let st := setSenderChunks newChunks st in
                if 0 <=? totalDataChunks st then
                  let currentStatus := senderStatus st in
                  let st :=
                    if negb (Js.startsWith currentStatus "Error:")
                       && negb (Js.startsWith currentStatus "Warning:")
                    then updateSenderStatus
                           ("Ready to transfer " +:+ Js.numToString (totalDataChunks st) +:+
                            " data chunk(s).") false st
                    else st in
                  (setSenderPhase ready st, true)
                else
                  let st := updateSenderStatus "Error preparing chunks. Check settings."
                              true st in
                  (setSenderPhase s_error st, false)
            end
    end.

(** [generateOrUpdateQrCode], with a QR library that renders every string
    it is given. *)
Definition generateOrUpdateQrCode (data : string) (st : Sender) : Sender :=
  set_displayed (displayed st ++ [data]) (set_qrCode (Some data) st).

(** [Math.max(floor, parseInt(dom.delayInput.value, 10))] is the delay of
    a timer. The model keeps the callback of the timer and not its delay. *)

(** [handlePostFinalState] *)
Definition handlePostFinalState (st : Sender) : Sender :=
  let st := setTransferTimer None st in
  match senderTransferPhase st with
  | transferring | sending_specific | final_qr_displayed =>
      let st := setSenderPhase post_final st in
      let st := updateSenderStatus
                  "Transfer sequence complete. Check receiver status for missing chunks."
                  false st in
      let st := set_specificChunksInput "" st in
      let st := set_sendSpecificStatus "" st in
      let st := set_resendManualModeCheckbox false st in
      set_isCurrentSequenceManual false st
  | _ => st
  end.

(** [handleStopTransfer] *)
Definition handleStopTransfer (fullReset : bool) (st : Sender) : Sender :=
  let st := resetSenderStateInternal fullReset st in
  let st := clearQrInstance st in
  let st := set_isCurrentSequenceManual false st in
  updateSenderStatus
    (if fullReset then "Transfer stopped. Ready for new file/folder."
     else "Transfer stopped. File still loaded.") false st.

(** Step 2 of [displayNextChunk], for a sender that is transferring the
    archive [buffer]: the payload of the next QR code and its status
    line, or the state in which the function returns early. *)
Definition nextPayload (B : Browser) (buffer : list byte) (st : Sender)
    : Sender + QRPayload * string :=
  let currentState := st in
  let currentChunkDisplayIndex := currentChunkIndex currentState + 1 in
  let totalSteps := totalStepsInCurrentSequence currentState in
  let stepNumber := currentChunkDisplayIndex + 1 in
  let steps := "[" +:+ Js.numToString stepNumber +:+ "/" +:+
               Js.numToString totalSteps +:+ "]" in
  if currentChunkDisplayIndex =? 0 then
    let ofn_ :=
      match originalSingleFilename currentState with
      | Some (String _ _ as name) =>
          if isSingleFileOriginal currentState
          then Some (encodeURIComponent B name) else None
      | _ => None
      end in
    inr (handshakePayload (transferFileId currentState)
           (encodeURIComponent B config.MULTI_FILE_ARCHIVE_NAME)
           (Z.of_nat (length buffer)) (totalDataChunks currentState) ofn_,
         "Displaying Handshake " +:+ steps)
  else if currentChunkDisplayIndex <=? totalDataChunks currentState then
    let dataChunkIndex := currentChunkDisplayIndex - 1 in
    if (dataChunkIndex <? 0)
       || (Z.of_nat (length (chunks currentState)) <=? dataChunkIndex)
    then inl (handleFileError
                ("Internal Error: Invalid data chunk index " +:+
                 Js.numToString dataChunkIndex +:+ ".") st)
    else
      inr (dataPayload (transferFileId currentState) (dataChunkIndex + 1)
             (default "" (chunks currentState !! Z.to_nat dataChunkIndex)),
           "Displaying Chunk " +:+ Js.numToString (dataChunkIndex + 1) +:+ "/" +:+
           Js.numToString (totalDataChunks currentState) +:+ " " +:+ steps)
  else if currentChunkDisplayIndex =? totalDataChunks currentState + 1 then
    if String.eqb (dataToSendChecksum currentState) "" then
      inl (handleFileError "Internal Error: Missing checksum for final packet." st)
    else
      inr (finalPayload (transferFileId currentState) (dataToSendChecksum currentState),
           "Displaying Final Confirmation " +:+ steps)
  else
    inl (handlePostFinalState (setSenderPhase post_final st)).

(** [displayNextChunk] *)
Definition displayNextChunk (B : Browser) (st : Sender) : Sender :=
  let currentState := st in
  match senderTransferPhase currentState, dataToSendBuffer currentState with
  | transferring, None => handleFileError "Data error occurred during transfer." st
  | transferring, Some buffer =>
      match nextPayload B buffer st with
      | inl st' => st'
      | inr (payload, mainStatus) =>
          let payloadString := JSON_stringify payload in
          let st := updateSenderStatus mainStatus false st in
          let qrCapacity := utils.getQrCapacityEstimate (errorCorrectionLevel st) in
          if exceedsCapacity payloadString qrCapacity then
            let st := updateSenderStatus
                        ("ERROR: Payload size (" +:+ Js.numToString (Js.len payloadString) +:+
                         ") may exceed QR capacity (~" +:+ Js.numToString qrCapacity +:+
                         "). Try increasing chunk size target or lowering EC level.")
                        true st in
            let st := resetSenderStateInternal false st in
            handleStopTransfer false st
          else
            let st := generateOrUpdateQrCode payloadString st in
            let st := setCurrentChunkIndex (currentChunkIndex currentState + 1) st in
            let nextInternalIndex := currentChunkIndex st in
            if totalDataChunks currentState + 1 <=? nextInternalIndex then
              let st := setSenderPhase final_qr_displayed st in
              if isCurrentSequenceManual st then
                updateSenderStatus "Final QR displayed. Click button for options." false st
              else
                let st := setTransferTimer (Some cb_handlePostFinalState) st in
                updateSenderStatus "Final QR displayed. Waiting for receiver check..."
                  false st
            else if isCurrentSequenceManual st then st
            else setTransferTimer (Some cb_displayNextChunk) st
      end
  | _, _ => st
  end.

(** [startTransfer] up to its last statement, the call of
    [displayNextChunk]: the state in which it returns early, or the state
    in which it makes the call. [newFileId] is the identifier that it
    mints from the clock and a random number. *)
Definition startTransferSetup (newFileId : string) (st : Sender) : Sender + Sender :=
  let currentState := st in
  if (filesToSend currentState =? 0)
     || negb (bool_decide (is_Some (dataToSendBuffer currentState)))
  then inl (updateSenderStatus "No file processed or data is missing." true st)
  else
    let '(st, prepared) := prepareChunks st in
    if negb prepared then
      inl (updateSenderStatus "Chunk preparation failed. Cannot start transfer." true st)
    else if totalDataChunks currentState <? 0 then
      inl (updateSenderStatus "Error: Invalid chunk count." true st)
    else
      let st := setTransferTimer None st in
      let st := setTransferFileId newFileId st in
      let st := setSenderPhase transferring st in
      let st := setCurrentChunkIndex (-1) st in
      let st := setTotalStepsInCurrentSequence (totalDataChunks currentState + 2) st in
      let st := setSpecificChunksToSend [] st in
      let st := setSpecificChunkSendIndex 0 st in
      let st := set_isCurrentSequenceManual (manualModeCheckbox st) st in
      let st := updateSenderStatus "Initializing transfer..." false st in
      inr (if isCurrentSequenceManual st
           then updateSenderStatus "Ready to display Handshake QR." false st
           else updateSenderStatus "Starting transfer sequence..." false st).

(** [startTransfer] *)
Definition startTransfer (B : Browser) (newFileId : string) (st : Sender) : Sender :=
  match startTransferSetup newFileId st with
  | inl st' => st'
  | inr st' => displayNextChunk B st'
  end.

(** [handleSendAllAgain] *)
Definition handleSendAllAgain (B : Browser) (st : Sender) : Sender :=
  let currentState := st in
  if negb (bool_decide (is_Some (dataToSendBuffer currentState)))
     || String.eqb (base64Data currentState) ""
  then updateSenderStatus "Cannot resend: No data loaded." true st
  else
    let st := setTransferTimer None st in
    let st := setSenderPhase transferring st in
    let st := setCurrentChunkIndex (-1) st in
    let st := setTotalStepsInCurrentSequence (totalDataChunks currentState + 2) st in
    let st := setSpecificChunksToSend [] st in
    let st := setSpecificChunkSendIndex 0 st in
    let st := set_isCurrentSequenceManual (resendManualModeCheckbox st) st in
    let st := updateSenderStatus "Restarting transfer sequence..." false st in
    let st := if isCurrentSequenceManual st
              then updateSenderStatus "Ready to display Handshake QR (Resend)." false st
              else updateSenderStatus "Resending transfer sequence..." false st in
    displayNextChunk B st.

(** [displayFinalConfirmationQR] *)
Definition displayFinalConfirmationQR (st : Sender) : Sender :=
  let currentState := st in
  if negb (bool_decide (is_Some (dataToSendBuffer currentState)))
     || String.eqb (dataToSendChecksum currentState) ""
  then handleFileError "Cannot display final QR: data or checksum missing." st
  else
    let st := setSenderPhase final_qr_displayed st in
    let payload := finalPayload (transferFileId currentState)
                     (dataToSendChecksum currentState) in
    let payloadString := JSON_stringify payload in
    let st := updateSenderStatus "Displaying Final Confirmation QR" false st in
    let qrCapacity := utils.getQrCapacityEstimate (errorCorrectionLevel st) in
    if exceedsCapacity payloadString qrCapacity then
      let st := updateSenderStatus "ERROR: Final confirmation payload too large!" true st in
      let st := resetSenderStateInternal false st in
      handleStopTransfer false st
    else
      let st := generateOrUpdateQrCode payloadString st in
      if isCurrentSequenceManual st then st
      else setTransferTimer (Some cb_handlePostFinalState) st.

(** [scheduleNextSpecificChunk] *)
Definition scheduleNextSpecificChunk (st : Sender) : Sender :=
  let currentState := st in
  match senderTransferPhase currentState with
  | sending_specific =>
      let nextSpecificIndex := specificChunkSendIndex currentState in
      if nextSpecificIndex <? Z.of_nat (length (specificChunksToSend currentState)) then
        if isCurrentSequenceManual st then st
        else setTransferTimer (Some cb_displaySpecificChunk) st
      else
        let st := updateSenderStatus
                    "Finished sending specific chunk batch. Displaying final confirm QR..."
                    false st in
        if isCurrentSequenceManual st then st
        else setTransferTimer (Some cb_displayFinalConfirmationQR) st
  | _ => st
  end.

(** [displaySpecificChunk] *)
Definition displaySpecificChunk (st : Sender) : Sender :=
  let currentState := st in
  match senderTransferPhase currentState with
  | sending_specific =>
      if Z.of_nat (length (specificChunksToSend currentState))
         <=? specificChunkSendIndex currentState
      then
        let st := updateSenderStatus
                    "Specific chunk send complete. Displaying final confirmation QR..."
                    false st in
        displayFinalConfirmationQR st
      else if negb (bool_decide (is_Some (dataToSendBuffer currentState)))
              || (Z.of_nat (length (chunks currentState)) =? 0)
      then handleFileError "Data error occurred during specific send." st
      else
        let currentSpecificIndex := specificChunkSendIndex currentState in
        let chunkSequenceNumber :=
          default 0 (specificChunksToSend currentState !! Z.to_nat currentSpecificIndex) in
        let chunkArrayIndex := chunkSequenceNumber - 1 in
        if (chunkArrayIndex <? 0)
           || (Z.of_nat (length (chunks currentState)) <=? chunkArrayIndex)
        then
          let errorMsg := "Error: Invalid chunk number " +:+
                          Js.numToString chunkSequenceNumber +:+ " requested. Skipping." in
          let st := updateSenderStatus errorMsg true st in
          let st := set_sendSpecificStatus errorMsg st in
          let st := setSpecificChunkSendIndex (currentSpecificIndex + 1) st in
          scheduleNextSpecificChunk st
        else
          let payload := dataPayload (transferFileId currentState) chunkSequenceNumber
                           (default "" (chunks currentState !! Z.to_nat chunkArrayIndex)) in
          let payloadString := JSON_stringify payload in
          let totalSpecific := totalStepsInCurrentSequence currentState in
          let currentStepNumber := currentSpecificIndex + 1 in
          let mainStatus := "Resending Chunk " +:+ Js.numToString chunkSequenceNumber +:+
                            " [" +:+ Js.numToString currentStepNumber +:+ "/" +:+
                            Js.numToString totalSpecific +:+ "]" in
          let st := updateSenderStatus mainStatus false st in
          let qrCapacity := utils.getQrCapacityEstimate (errorCorrectionLevel st) in
          if exceedsCapacity payloadString qrCapacity then
            let st := updateSenderStatus
                        ("ERROR: Specific chunk " +:+ Js.numToString chunkSequenceNumber +:+
                         " payload too large!") true st in
            let st := setSenderPhase post_final st in
            handlePostFinalState st
          else
            let st := generateOrUpdateQrCode payloadString st in
            let st := setSpecificChunkSendIndex (currentSpecificIndex + 1) st in
            scheduleNextSpecificChunk st
  | _ => st
  end.

(** [handleSendSpecific] *)
Definition handleSendSpecific (st : Sender) : Sender :=
  let currentState := st in
  if negb (bool_decide (is_Some (dataToSendBuffer currentState)))
     || (Z.of_nat (length (chunks currentState)) =? 0)
  then
    let st := updateSenderStatus "Cannot send specific chunks: No data/chunks loaded."
                true st in
    set_sendSpecificStatus "Error: No data loaded." st
  else
    let input := specificChunksInput st in
    let st := set_sendSpecificStatus "" st in
    match utils.parseChunkInput input (totalDataChunks currentState) with
    | None =>
        set_sendSpecificStatus
          "Invalid input format. Use numbers, commas, and hyphens (e.g., 1,3,5-8)." st
    | Some [] => set_sendSpecificStatus "No valid chunk numbers specified." st
    | Some parsedChunks =>
        let st := setTransferTimer None st in
        let st := setSpecificChunksToSend parsedChunks st in
        let st := setSpecificChunkSendIndex 0 st in
        let st := setSenderPhase sending_specific st in
        let st := setTotalStepsInCurrentSequence (Z.of_nat (length parsedChunks)) st in
        let st := set_isCurrentSequenceManual (resendManualModeCheckbox st) st in
        let st := updateSenderStatus
                    ("Preparing to send " +:+ Js.numToString (Z.of_nat (length parsedChunks))
                     +:+ " specific chunk(s)...") false st in
        let st := set_sendSpecificStatus
                    ("Sending chunks: " +:+ Js.join ", " (map Js.numToString parsedChunks))
                    st in
        displaySpecificChunk st
    end.

(** [updateChunkSizeDefaults] *)
Definition updateChunkSizeDefaults (st : Sender) : Sender :=
  let currentState := st in
  let qrCapacity := utils.getQrCapacityEstimate (errorCorrectionLevel st) in
  let defaultChunkSize :=
    Z.max config.MIN_CHUNK_SIZE (qrCapacity - config.QR_CHUNK_SIZE_BUFFER) in
  let st := set_chunkSizeInput (Some defaultChunkSize) st in
  if negb (String.eqb (base64Data currentState) "") then fst (prepareChunks st) else st.

(** The change listener of the error-correction select. *)
Definition errorCorrectionLevelChange (level : config.ErrorCorrectionLevel) (st : Sender)
    : Sender :=
  updateChunkSizeDefaults (set_errorCorrectionLevel level st).

(** What [handleFileSelect] does with a selection of [files] files, one at
    least, once JSZip has produced their archive [zipBuffer]. [summary]
    is the text of the status line after [Ready: ], which tells the kind
    of the selection and the size of the archive in KB. *)
Definition fileProcessed (B : Browser) (files : Z) (isSingle : bool)
    (originalName : option string) (zipBuffer : list byte) (summary : string)
    (st : Sender) : Sender :=
  let st := resetSenderStateInternal true st in
  let st := clearQrInstance st in
  let st := updateSenderStatus "Processing selection..." false st in
  let st := setSenderFiles files isSingle originalName st in
  let st := setSenderPhase processing st in
  let checksum := utils.calculateChecksum zipBuffer in
  let base64Zip := utils.arrayBufferToBase64 B zipBuffer in
  let st := setSenderProcessedData (Some zipBuffer) base64Zip checksum st in
  let st := setSenderPhase ready st in
  let st := updateSenderStatus ("Ready: " +:+ summary) false st in
  fst (prepareChunks st).

End sender.

(** ** main.ts: the listeners of the sender's modal, and the timer *)

Module main.
Import types browser sstate.

(** The click listener of [dom.nextChunkBtn]. *)
Definition nextChunkBtnClick (B : Browser) (st : Sender) : Sender :=
  match senderTransferPhase st with
  | transferring => sender.displayNextChunk B st
  | sending_specific => sender.displaySpecificChunk st
  | final_qr_displayed =>
      let nextIndex := currentChunkIndex st in
      if totalDataChunks st <? nextIndex then sender.handlePostFinalState st
      else sender.displayFinalConfirmationQR st
  | _ => st
  end.

(** The click listener of [dom.stopTransferBtn]. *)
Definition stopTransferBtnClick (st : Sender) : Sender :=
  match senderTransferPhase st with
  | post_final => sender.handleStopTransfer true st
  | _ => sender.handleStopTransfer false st
  end.

(** The pending timer of the sender fires: its callback runs. *)
Definition timerFires (B : Browser) (st : Sender) : Sender :=
  match transferTimer st with
  | None => st
  | Some callback =>
      let st := setTransferTimer None st in
      match callback with
      | cb_displayNextChunk => sender.displayNextChunk B st
      | cb_handlePostFinalState => sender.handlePostFinalState st
      | cb_displaySpecificChunk => sender.displaySpecificChunk st
      | cb_displayFinalConfirmationQR => sender.displayFinalConfirmationQR st
      end
  end.

(** The advance signal of a sequence: the click on the button in manual
    mode, the timer in automatic mode. *)
Definition advance (B : Browser) (st : Sender) : Sender :=
  if isCurrentSequenceManual st then nextChunkBtnClick B st else timerFires B st.

(** The sender once [initializeApp] has run: the initial values of the
    variables, the inputs as index.html sets them, and the default chunk
    size of the selected level. *)
Definition initialSender : Sender :=
  sender.updateChunkSizeDefaults
    {| filesToSend := 0; isSingleFileOriginal := false; originalSingleFilename := None;
       dataToSendBuffer := None; base64Data := ""; chunks := []; currentChunkIndex := -1;
       totalDataChunks := 0; transferFileId := ""; transferTimer := None;
       dataToSendChecksum := ""; senderTransferPhase := s_idle;
       specificChunksToSend := []; specificChunkSendIndex := 0;
       totalStepsInCurrentSequence := 0; isCurrentSequenceManual := false;
       errorCorrectionLevel := config.M; chunkSizeInput := Some 1000;
       delayInput := Some 500; manualModeCheckbox := false;
       resendManualModeCheckbox := false; specificChunksInput := "";
       senderStatus := "Status: Ready. Select file/folder."; senderStatusRed := false;
       sendSpecificStatus := ""; qrCode := None; displayed := [] |}.

End main.

(** ** The events of the receiver *)

Module events.
Import types browser state.

(** What can happen to the receiver: a click on one of its two buttons,
    the settling of the promise of [scannerInstance.start()], a decoded
    QR code, the timer of [verifyAndDownload], a change of view. *)
Inductive ReceiverEvent :=
| StartScanClick
| StartResolves
| StartRejects (message : string)
| StopScanClick
| Scan (result : Scanned)
| CleanupTimer
| ShowView (receiverView : bool).

(** The receiver's side of [showView] of main.ts. *)
Definition showView (receiverView : bool) (st : Receiver) : Receiver :=
  let currentState := st in
  let st := if isScanning currentState && qrScanner currentState
            then receiver.stopScan st else st in
  if receiverView then receiver.updateReceiverUI st else st.

Definition step (B : Browser) (ev : ReceiverEvent) (st : Receiver) : Receiver :=
  match ev with
  | StartScanClick => receiver.startScan st
  | StartResolves => receiver.startResolved st
  | StartRejects message => receiver.startRejected message st
  | StopScanClick => receiver.stopScan st
  | Scan result => receiver.handleScanResult B result st
  | CleanupTimer => receiver.cleanupTimerFires st
  | ShowView receiverView => showView receiverView st
  end.

(** The events of a list, oldest first. *)
Definition run (B : Browser) (evs : list ReceiverEvent) (st : Receiver) : Receiver :=
  fold_left (fun st ev => step B ev st) evs st.

(** The receiver once [initializeApp] has run. *)
Definition initialReceiver : Receiver :=
  receiver.updateReceiverUI (resetReceiverStateInternal state.initialReceiver).

(** The receiver states that some sequence of events leads to. The model
    lets the promise of [start()] settle at any time, which only adds
    states. *)
Inductive reachable (B : Browser) : Receiver -> Prop :=
| reachable_initial : reachable B initialReceiver
| reachable_step ev st : reachable B st -> reachable B (step B ev st).

(** Data packets scanned one after the other. *)
Definition deliver (B : Browser) (packets : list QRPayload) (st : Receiver) : Receiver :=
  fold_left (fun st p => receiver.handleScanResult B (Structured p) st) packets st.

End events.

(** ** The quantities the properties are stated with *)

Module spec.

(** The sum of the bytes of a buffer. *)
Definition sumBytes (buffer : list byte) : Z :=
  fold_right (fun b sum => Z.of_N (Byte.to_N b) + sum) 0 buffer.

(** The four hexadecimal digits of a number below 65536, most significant
    first. *)
Definition hex4 (n : Z) : string :=
  String (Js.digitChar (n / 4096))
    (String (Js.digitChar (n / 256 mod 16))
       (String (Js.digitChar (n / 16 mod 16))
          (String (Js.digitChar (n mod 16)) ""))).

(** One of the characters 0 to 9 and a to f. *)
Definition isLowerHexDigit (c : ascii) : bool := Js.includes "0123456789abcdef" c.

(** The chunk store of the receiver: the map and the count. *)
Definition store (st : state.Receiver) : gmap Z string * Z :=
  (state.receivedChunksMap st, state.receivedChunkCount st).

(** The count is the number of entries of the map. *)
Definition countMatches (st : state.Receiver) : Prop :=
  state.receivedChunkCount st = Z.of_nat (size (state.receivedChunksMap st)).

(** Every entry of the map has a sequence number from 1 to [total]. *)
Definition keysWithin (total : Z) (st : state.Receiver) : Prop :=
  forall k, is_Some (state.receivedChunksMap st !! k) -> 1 <= k <= total.

(** What an operation may do to the store: leave it, empty it, or add one
    chunk to it with [addReceivedChunk]. *)
Definition storeStep (st st' : state.Receiver) : Prop :=
  store st' = store st
  \/ store st' = (∅, 0)
  \/ exists seq data, store st' = store (state.addReceivedChunk seq data st).

(** What the receiver remembers of a session: the expected file
    identifier and the data of the handshake. *)
Definition sessionOf (st : state.Receiver) :=
  (state.expectedFileId st, state.expectedTotalChunks st, state.expectedArchiveName st,
   state.expectedDataSize st, state.expectedIsZip st, state.expectedOriginalFilename st).

(** The session is destroyed: nothing is remembered and the store is
    empty, as [resetReceiverStateInternal] leaves them. *)
Definition sessionDestroyed (st : state.Receiver) : Prop :=
  sessionOf st = (None, None, None, None, false, None) /\ store st = (∅, 0).

(** The Data packets the sender makes for the sequence numbers [seqs],
    [chunkOf] giving the chunk of each number. *)
Definition dataPackets (fid : string) (chunkOf : Z -> string) (seqs : list Z)
    : list types.QRPayload :=
  map (fun s => sender.dataPayload fid s (chunkOf s)) seqs.

(** Each distinct number of [seqs] once, in ascending order. *)
Definition ascendingOnce (seqs : list Z) : list Z := merge_sort Z.le (remove_dups seqs).

(** A Data packet with sequence number [k] is one the receiver stores:
    [k] is from 1 to [total] and the chunk is not the empty string. *)
Definition storable (total : Z) (chunkOf : Z -> string) (k : Z) : bool :=
  (0 <? k) && (k <=? total) && negb (String.eqb (chunkOf k) "").

(** The numbers of the range from [fst r] to [snd r]. *)
Definition expandRange (r : Z * Z) : list Z := seqZ (fst r) (snd r - fst r + 1).

(** The ranges that the loop of [formatMissingChunks] renders: the loop
    with the bounds of a range in the place of its text. *)
Fixpoint rangesLoop (rest : list Z) (ranges : list (Z * Z)) (rangeStart rangeEnd : Z)
    : list (Z * Z) :=
  match rest with
  | [] => ranges ++ [(rangeStart, rangeEnd)]
  | m :: rest' =>
      if m =? rangeEnd + 1 then rangesLoop rest' ranges rangeStart m
      else rangesLoop rest' (ranges ++ [(rangeStart, rangeEnd)]) m m
  end.

Definition contiguousRanges (numbers : list Z) : list (Z * Z) :=
  match numbers with
  | [] => []
  | first :: rest => rangesLoop rest [] first first
  end.

Definition renderPair (r : Z * Z) : string := receiver.renderRange (fst r) (snd r).

(** No range of the list continues the range before it. *)
Fixpoint nonAdjacent (ranges : list (Z * Z)) : Prop :=
  match ranges with
  | r1 :: (r2 :: _) as ranges' => fst r2 <> snd r1 + 1 /\ nonAdjacent ranges'
  | _ => True
  end.

(** The payload is within the tolerance of the capacity check for the
    level the sender has selected. *)
Definition fits (st : sstate.Sender) (payload : types.QRPayload) : Prop :=
  sender.exceedsCapacity (sender.JSON_stringify payload)
    (utils.getQrCapacityEstimate (sstate.errorCorrectionLevel st)) = false.

(** The Data packet of the chunk with sequence number [k], and the Final
    packet, of the archive the sender has loaded. *)
Definition dataPacketOf (st : sstate.Sender) (k : Z) : types.QRPayload :=
  sender.dataPayload (sstate.transferFileId st) k
    (default "" (sstate.chunks st !! Z.to_nat (k - 1))).

Definition finalPacketOf (st : sstate.Sender) : types.QRPayload :=
  sender.finalPayload (sstate.transferFileId st) (sstate.dataToSendChecksum st).

(** The part of the sender's state that a resend sequence goes through,
    and the part it reads and leaves alone. *)
Definition sequenceOf (st : sstate.Sender) :=
  (sstate.senderTransferPhase st, sstate.specificChunksToSend st,
   sstate.specificChunkSendIndex st, sstate.isCurrentSequenceManual st,
   sstate.transferTimer st, sstate.displayed st).

Definition archiveOf (st : sstate.Sender) :=
  (sstate.dataToSendBuffer st, sstate.chunks st, sstate.transferFileId st,
   sstate.dataToSendChecksum st, sstate.errorCorrectionLevel st,
   sstate.currentChunkIndex st, sstate.totalDataChunks st).

(** The sentence of the specification on a capacity overflow, for a
    sender [st] that is about to display a packet of the main sequence:
    when the serialized packet is longer than the capacity budget of the
    selected level, the sender goes to the error phase and displays
    nothing. *)
Definition capacityClaim (B : browser.Browser) (st : sstate.Sender) : Prop :=
  forall buffer payload mainStatus,
    sstate.senderTransferPhase st = types.transferring ->
    sstate.dataToSendBuffer st = Some buffer ->
    sender.nextPayload B buffer st = inr (payload, mainStatus) ->
    utils.getQrCapacityEstimate (sstate.errorCorrectionLevel st)
    < Js.len (sender.JSON_stringify payload) ->
    sstate.senderTransferPhase (sender.displayNextChunk B st) = types.s_error
    /\ sstate.displayed (sender.displayNextChunk B st) = sstate.displayed st.

(** The status line of a version mismatch. *)
Definition incompatibleVersionStatus (received : Z) : string :=
  "Error: Incompatible protocol version (Received: " +:+ Js.numToString received +:+
  ", Expected: " +:+ Js.numToString config.PROTOCOL_VERSION +:+ "). Stopping.".

(** The sentence of the specification on a version mismatch, for a
    receiver [st] that becomes [st'] on a packet of version [received]:
    the error state, no scanning, the incompatibility reported, the
    session destroyed. *)
Definition versionMismatchClaim (received : Z) (st' : state.Receiver) : Prop :=
  state.receiverState st' = types.error
  /\ state.isScanning st' = false
  /\ state.receiverStatus st' = incompatibleVersionStatus received
  /\ sessionDestroyed st'.

(** A receiver that waits for a handshake remembers no file identifier. *)
Definition waitingIsFresh (st : state.Receiver) : Prop :=
  state.receiverState st = types.waiting_handshake -> state.expectedFileId st = None.

(** The states in which a Data packet of the session is processed. *)
Definition acceptsData (s : types.ReceiverState) : bool :=
  match s with
  | types.receiving_data | types.waiting_missing | types.waiting_final => true
  | _ => false
  end.

End spec.

(** ** A browser for the examples *)

Module examples.
Import types browser.

Definition byteOfZ (n : Z) : byte := default x00 (Byte.of_N (Z.to_N n)).
Definition zOfByte (b : byte) : Z := Z.of_N (Byte.to_N b).

Definition base64Alphabet : string :=
  "ABCDEFGHIJKLMNOPQRSTUVWXYZabcdefghijklmnopqrstuvwxyz0123456789+/".

Definition base64Char (n : Z) : ascii :=
  default "="%char (String.get (Z.to_nat n) base64Alphabet).

(** [btoa] of the binary string of a buffer. *)
Fixpoint base64Encode (bytes : list byte) : string :=
  match bytes with
  | a :: b :: c :: rest =>
      let n := zOfByte a * 65536 + zOfByte b * 256 + zOfByte c in
      String (base64Char (n / 262144))
        (String (base64Char (n / 4096 mod 64))
           (String (base64Char (n / 64 mod 64))
              (String (base64Char (n mod 64)) (base64Encode rest))))
  | [a; b] =>
      let n := zOfByte a * 1024 + zOfByte b * 4 in
      String (base64Char (n / 4096))
        (String (base64Char (n / 64 mod 64)) (String (base64Char (n mod 64)) "="))
  | [a] =>
      let n := zOfByte a * 16 in
      String (base64Char (n / 64)) (String (base64Char (n mod 64)) "==")
  | [] => ""
  end.

Fixpoint base64Index (c : ascii) (alphabet : string) (i : Z) : option Z :=
  match alphabet with
  | EmptyString => None
  | String a alphabet' => if Ascii.eqb a c then Some i else base64Index c alphabet' (i + 1)
  end.

Fixpoint sextets (s : string) : option (list Z) :=
  match s with
  | EmptyString => Some []
  | String c s' =>
      match base64Index c base64Alphabet 0, sextets s' with
      | Some x, Some l => Some (x :: l)
      | _, _ => None
      end
  end.

Fixpoint bytesOfSextets (l : list Z) : list byte :=
  match l with
  | a :: b :: c :: d :: rest =>
      byteOfZ (a * 4 + b / 16) :: byteOfZ (b mod 16 * 16 + c / 4)
        :: byteOfZ (c mod 4 * 64 + d) :: bytesOfSextets rest
  | [a; b; c] => [byteOfZ (a * 4 + b / 16); byteOfZ (b mod 16 * 16 + c / 4)]
  | [a; b] => [byteOfZ (a * 4 + b / 16)]
  | _ => []
  end.

(** The padding of a base64 text whose length is a multiple of four. *)
Definition stripPadding (s : string) : string :=
  let n := Js.len s in
  if negb (n mod 4 =? 0) then s
  else if String.eqb (Js.substring s (n - 2) n) "==" then Js.substring s 0 (n - 2)
  else if String.eqb (Js.substring s (n - 1) n) "=" then Js.substring s 0 (n - 1)
  else s.

(** [atob] on a text without white space; [None] when it throws. *)
Definition base64Decode (s : string) : option (list byte) :=
  let s := stripPadding s in
  if Js.len s mod 4 =? 1 then None
  else option_map bytesOfSextets (sextets s).

Definition upperHexChar (d : Z) : ascii :=
  if d <? 10 then ascii_of_N (Z.to_N (48 + d)) else ascii_of_N (Z.to_N (55 + d)).

Definition percent (n : Z) : string :=
  String "%"%char (String (upperHexChar (n / 16)) (String (upperHexChar (n mod 16)) "")).

Definition isUnreserved (c : ascii) : bool :=
  let n := Z.of_N (N_of_ascii c) in
  ((65 <=? n) && (n <=? 90)) || ((97 <=? n) && (n <=? 122)) || ((48 <=? n) && (n <=? 57))
  || Js.includes "-_.!~*'()" c.

(** [encodeURIComponent] on code units below 256: the unreserved
    characters stay, the others become the escapes of their UTF-8
    bytes. *)
Fixpoint percentEncode (s : string) : string :=
  match s with
  | EmptyString => ""
  | String c s' =>
      let n := Z.of_N (N_of_ascii c) in
      (if isUnreserved c then String c ""
       else if n <? 128 then percent n
       else percent (192 + n / 64) +:+ percent (128 + n mod 64))
      +:+ percentEncode s'
  end.

(** The browser of the examples. Its [decodeURIComponent] knows the
    strings without an escape, which are all the examples give it, and
    its archives hold no file. *)
Definition exampleBrowser : Browser :=
  {| atob := base64Decode;
     btoa := base64Encode;
     decodeURIComponent := fun s => if Js.includes s "%"%char then None else Some s;
     encodeURIComponent := percentEncode;
     zipLookup := fun _ _ => ZipNoSuchFile |}.

End examples.

(** ** The scenarios of the examples *)

Module scenarios.
Import types browser events examples.

(** An archive of 303 bytes, a file identifier as [startTransfer] mints
    them, and a sender that has loaded the archive as the single file
    [notes.txt], with a target chunk size of 100 characters. *)
Definition archive : list byte := List.repeat "A"%byte 303.

Definition fileId : string := "fid_1700000000000_a1b2c3".

Definition loaded : sstate.Sender :=
  sender.fileProcessed exampleBrowser 1 true (Some "notes.txt") archive
    "file (1 file), ZIP Size: 0.30 KB."
    (sstate.set_chunkSizeInput (Some 100) main.initialSender).

(** The main sequence: the handshake, five chunks, the Final packet, and
    the advance that ends it. Then the user asks for the chunks 3, 3
    and 1. *)
Definition started : sstate.Sender := sender.startTransfer exampleBrowser fileId loaded.

Definition afterMainSequence : sstate.Sender :=
  Nat.iter 7 (main.advance exampleBrowser) started.

Definition resendRequested : sstate.Sender :=
  sstate.set_specificChunksInput "3,3,1" afterMainSequence.

(** The same archive under a file name of 800 letters, at the level H,
    when [startTransfer] is about to display the handshake; and under a
    name of 720 letters. *)
Definition aboutToStart (nameLength : nat) : sstate.Sender :=
  let st := sender.fileProcessed exampleBrowser 1 true (Some (Js.repeat "a" nameLength))
              archive "file (1 file), ZIP Size: 0.30 KB."
              (sender.errorCorrectionLevelChange config.H main.initialSender) in
  match sender.startTransferSetup fileId st with
  | inl st' => st'
  | inr st' => st'
  end.

(** The packets of the archive. *)
Definition handshake : QRPayload :=
  sender.handshakePayload fileId (percentEncode config.MULTI_FILE_ARCHIVE_NAME) 303 5
    (Some "notes.txt").

Definition chunk (k : Z) : string := default "" (sstate.chunks loaded !! Z.to_nat (k - 1)).

Definition data (k : Z) : QRPayload := sender.dataPayload fileId k (chunk k).

Definition final : QRPayload := sender.finalPayload fileId (utils.calculateChecksum archive).

(** A Data packet of a sender of version 2. *)
Definition newerData : QRPayload :=
  {| v := 2; fid := fileId; typ := "d"; nam := None; siz := None; tot := None;
     zip := None; ofn := None; seq := Some 2; dat := Some (chunk 2); chk := None |}.

(** A receiver that has read the handshake; one that has then read the
    chunks 1, 3 and 5; one that has read them all. *)
Definition inSession : state.Receiver :=
  run exampleBrowser [StartScanClick; StartResolves; Scan (Structured handshake)]
    initialReceiver.

Definition partlyReceived : state.Receiver :=
  deliver exampleBrowser [data 1; data 3; data 5] inSession.

Definition allReceived : state.Receiver :=
  deliver exampleBrowser [data 2; data 4] partlyReceived.

(** A receiver that is stopped in the middle of the transfer and
    started again. *)
Definition restart : list ReceiverEvent :=
  [StartScanClick; StartResolves; Scan (Structured handshake); Scan (Structured (data 1));
   StopScanClick; StartScanClick; StartResolves].

Definition restarted : state.Receiver := run exampleBrowser restart initialReceiver.

End scenarios.

(** ** Predicates on the receiver for the invariants *)

Module invariants.
Import types state spec.

(** An operation keeps the session and the store, and does not bring the
    receiver to WaitingHandshake. *)
Definition kept (st st' : Receiver) : Prop :=
  sessionOf st' = sessionOf st /\ store st' = store st
  /\ (receiverState st' = waiting_handshake -> receiverState st = waiting_handshake).

(** What an event does to the session and the store: it keeps them; or it
    destroys the session; or the receiver, waiting for a handshake with no
    session, adopts one with an empty store; or it adds one chunk of a
    number from 1 to the total, and does not wait for a handshake. *)
Definition sessionStep (st st' : Receiver) : Prop :=
  kept st st'
  \/ sessionDestroyed st'
  \/ (receiverState st = waiting_handshake
      /\ receiverState st' <> waiting_handshake
      /\ (exists total, expectedTotalChunks st' = Some total /\ 0 <= total)
      /\ store st' = (∅, 0))
  \/ (exists k data total,
         sessionOf st' = sessionOf st
         /\ expectedTotalChunks st = Some total /\ 1 <= k <= total
         /\ receivedChunksMap st !! k = None
         /\ store st' = store (addReceivedChunk k data st)
         /\ receiverState st' <> waiting_handshake).

(** Every stored chunk has a number from 1 to the total of the session,
    and the total is not negative. *)
Definition chunksWithinTotal (st : Receiver) : Prop :=
  (forall k, is_Some (receivedChunksMap st !! k) ->
     exists total, expectedTotalChunks st = Some total /\ 1 <= k <= total)
  /\ (forall total, expectedTotalChunks st = Some total -> 0 <= total).

(** A receiver that waits for a handshake has no session and no chunk. *)
Definition waitingIsEmpty (st : Receiver) : Prop :=
  receiverState st = waiting_handshake -> sessionDestroyed st.

(** The receiver is scanning, or is in a state in which it looks at no
    scan. *)
Definition intakeOpen (st : Receiver) : Prop :=
  isScanning st = true \/ receiver.expectsQr (receiverState st) = false.

End invariants.

(** ** Predicates on downloads *)

Module downloading.
Import types browser state.

(** The buffer that verification accepts for the Final packet [fp] in the
    state [st]: all the chunks of the session are there, [buffer] is what
    their concatenation decodes to, it has the size of the handshake and
    its checksum is the one of [fp]. *)
Definition verifiedBy (B : Browser) (st : Receiver) (fp : QRPayload) (buffer : list byte)
    : Prop :=
  exists total dataSize chunkArray,
    expectedTotalChunks st = Some total
    /\ expectedDataSize st = Some dataSize
    /\ receivedChunkCount st = total
    /\ receiver.assemble (seqZ 1 total) (receivedChunksMap st) = inr chunkArray
    /\ buffer = utils.base64ToArrayBuffer B (Js.join "" chunkArray)
    /\ Z.of_nat (length buffer) = dataSize
    /\ chk fp = Some (utils.calculateChecksum buffer).

(** What is handed to the user for a verified buffer: the buffer, or the
    file of the original name that JSZip finds in it. *)
Definition deliveredFrom (B : Browser) (st : Receiver) (buffer content : list byte) : Prop :=
  content = buffer
  \/ exists original,
       expectedOriginalFilename st = Some original
       /\ zipLookup B buffer original = ZipFile content.

End downloading.

(** ** The packets and the views of the main sequence *)

Module sequencing.
Import types browser sstate.

(** The handshake packet of the archive [buffer] that the sender has
    loaded, as [displayNextChunk] builds it. *)
Definition handshakePacketOf (B : Browser) (st : Sender) (buffer : list byte) : QRPayload :=
  sender.handshakePayload (transferFileId st)
    (encodeURIComponent B config.MULTI_FILE_ARCHIVE_NAME)
    (Z.of_nat (length buffer)) (totalDataChunks st)
    (match originalSingleFilename st with
     | Some (String _ _ as name) =>
         if isSingleFileOriginal st then Some (encodeURIComponent B name) else None
     | _ => None
     end).

(** The packets of the main sequence, in their order. *)
Definition mainPackets (B : Browser) (st : Sender) (buffer : list byte) : list QRPayload :=
  handshakePacketOf B st buffer
  :: map (spec.dataPacketOf st) (seqZ 1 (totalDataChunks st)) ++ [spec.finalPacketOf st].

(** The part of the sender's state that the main sequence goes through,
    and the part it reads and leaves alone. *)
Definition mainOf (st : Sender) :=
  (senderTransferPhase st, currentChunkIndex st, isCurrentSequenceManual st,
   transferTimer st, displayed st).

Definition loadedOf (st : Sender) :=
  (dataToSendBuffer st, chunks st, transferFileId st, dataToSendChecksum st,
   errorCorrectionLevel st, totalDataChunks st, originalSingleFilename st,
   isSingleFileOriginal st).

(** A character that [JSON.stringify] writes as it is. *)
Definition jsonPlain (c : ascii) : bool :=
  let n := Z.of_N (N_of_ascii c) in
  (32 <=? n) && negb (n =? 34) && negb (n =? 92).

Fixpoint allPlain (s : string) : bool :=
  match s with
  | EmptyString => true
  | String c s' => jsonPlain c && allPlain s'
  end.

End sequencing.

(** ** Strings, character by character *)

Module texts.

(** Every character of [s] passes the test [p]. *)
Fixpoint every (p : ascii -> bool) (s : string) : bool :=
  match s with
  | EmptyString => true
  | String c s' => p c && every p s'
  end.

(** The characters of a rendered range: digits and the hyphen. *)
Definition rangeChar (c : ascii) : bool := Js.isDigit c || Ascii.eqb c "-".

Definition isNot (sep : ascii) (c : ascii) : bool := negb (Ascii.eqb c sep).

Definition notWhiteSpace (c : ascii) : bool := negb (Js.isWhiteSpace c).

End texts.

(** ** More scenarios *)

Module scenarios2.
Import types.

(** The sender of the scenarios when [startTransfer] is about to display
    the handshake. *)
Definition setUp : sstate.Sender :=
  match sender.startTransferSetup scenarios.fileId scenarios.loaded with
  | inl st => st
  | inr st => st
  end.

(** The order in which the receiver of the scenarios reads the chunks. *)
Definition arrival : list Z := [3; 1; 3; 5; 1; 2; 4].

(** The receiver that has read the handshake and the first chunk, and
    whose scanner was stopped then. *)
Definition stoppedMidway : state.Receiver :=
  events.run examples.exampleBrowser (take 5 scenarios.restart) events.initialReceiver.

End scenarios2.

(* ===================================================================== *)
(** * Part II: theorems                                                   *)
(* ===================================================================== *)

(** ** Strings *)

Section strings.

Lemma append_cons (c : ascii) (a b : string) : String c a +:+ b = String c (a +:+ b).
Proof. reflexivity. Qed.

Lemma append_empty_l (s : string) : "" +:+ s = s.
Proof. reflexivity. Qed.

Lemma append_empty_r (s : string) : s +:+ "" = s.
Proof.
  induction s as [|c s IH]; [reflexivity|]. now rewrite append_cons, IH.
Qed.

Lemma append_assoc (a b c : string) : (a +:+ b) +:+ c = a +:+ (b +:+ c).
Proof.
  induction a as [|x a IH]; [reflexivity|]. now rewrite !append_cons, IH.
Qed.

Lemma length_append (a b : string) :
  String.length (a +:+ b) = (String.length a + String.length b)%nat.
Proof.
  induction a as [|x a IH]; [reflexivity|]. rewrite append_cons. simpl. now rewrite IH.
Qed.

Lemma join_empty_cons (x : string) (l : list string) :
  Js.join "" (x :: l) = x +:+ Js.join "" l.
Proof.
  unfold Js.join. destruct l as [|y l]; simpl.
  - now rewrite append_empty_r.
  - reflexivity.
Qed.

Lemma join_empty_app (l1 l2 : list string) :
  Js.join "" (l1 ++ l2) = Js.join "" l1 +:+ Js.join "" l2.
Proof.
  induction l1 as [|x l1 IH].
  - reflexivity.
  - rewrite <- app_comm_cons, !join_empty_cons, IH. now rewrite append_assoc.
Qed.

Lemma substring_zero_length (a : nat) (s : string) : String.substring a 0 s = "".
Proof.
  revert a. induction s as [|c s IH]; intros [|a]; simpl; try reflexivity. apply IH.
Qed.

(** Two adjacent pieces of a string make one piece. *)
Lemma substring_adjacent (s : string) (a n m : nat) :
  String.substring a n s +:+ String.substring (a + n) m s = String.substring a (n + m) s.
Proof.
  revert a n. induction s as [|c s IH]; intros a n.
  - destruct a, n, m; reflexivity.
  - destruct a as [|a].
    + destruct n as [|n]; simpl.
      * reflexivity.
      * rewrite append_cons. f_equal. apply (IH 0%nat n).
    + simpl. apply IH.
Qed.

Lemma substring_length (s : string) (a n : nat) :
  (a + n <= String.length s)%nat -> String.length (String.substring a n s) = n.
Proof.
  revert a n. induction s as [|c s IH]; intros a n Hle; simpl in Hle.
  - assert (a = 0%nat) by lia. assert (n = 0%nat) by lia. subst. reflexivity.
  - destruct a as [|a].
    + destruct n as [|n]; simpl; [reflexivity|]. f_equal. apply IH. lia.
    + simpl. apply IH. lia.
Qed.

Lemma substring_whole (s : string) : String.substring 0 (String.length s) s = s.
Proof. induction s as [|c s IH]; simpl; [reflexivity | now rewrite IH]. Qed.

(** [s.substring(a, b)] for indices in range and in order. *)
Lemma Js_substring_in_range (s : string) (a b : Z) :
  0 <= a <= b -> b <= Js.len s ->
  Js.substring s a b = String.substring (Z.to_nat a) (Z.to_nat (b - a)) s.
Proof.
  intros Hab Hb. unfold Js.substring.
  replace (Z.max 0 (Z.min a (Js.len s))) with a by lia.
  replace (Z.max 0 (Z.min b (Js.len s))) with b by lia.
  replace (Z.min a b) with a by lia.
  replace (Z.max a b) with b by lia.
  reflexivity.
Qed.

End strings.

(** ** The chunk splitter *)

Section splitter_correct.
Import splitter.

Lemma ceilDiv_zero (k : Z) : 0 < k -> ceilDiv 0 k = 0.
Proof. intros Hk. unfold ceilDiv. apply Z.div_small. lia. Qed.

Lemma ceilDiv_last (n k : Z) : 0 < n <= k -> ceilDiv n k = 1.
Proof.
  intros Hn. unfold ceilDiv.
  replace (n + k - 1) with (n - 1 + 1 * k) by lia.
  rewrite Z.div_add by lia. rewrite Z.div_small; lia.
Qed.

Lemma ceilDiv_step (n k : Z) : 0 < k -> ceilDiv (n + k) k = ceilDiv n k + 1.
Proof.
  intros Hk. unfold ceilDiv.
  replace (n + k + k - 1) with (n + k - 1 + 1 * k) by lia.
  rewrite Z.div_add by lia. reflexivity.
Qed.

(** The loop from [startIndex] on: it ends within [fuel] iterations when
    [fuel] covers the characters left, and appends to [newChunks] the
    non-empty pieces of the rest of the data. *)
Lemma splitLoop_spec (fuel : nat) (S : string) (K start : Z) (acc : list string) :
  0 < K -> 0 <= start <= Js.len S -> Js.len S - start <= Z.of_nat fuel ->
  exists rest,
    splitLoop fuel S K start acc = Some (acc ++ rest)
    /\ Forall (fun c => 0 < Js.len c <= K) rest
    /\ Js.join "" rest
       = String.substring (Z.to_nat start) (Z.to_nat (Js.len S - start)) S
    /\ Z.of_nat (length rest) = ceilDiv (Js.len S - start) K.
Proof.
  intros HK. revert start acc.
  induction fuel as [|fuel IH]; intros start acc Hstart Hfuel.
  - exists []. assert (start = Js.len S) by lia. subst start.
    simpl. rewrite Z.ltb_irrefl, app_nil_r, Z.sub_diag.
    rewrite substring_zero_length, ceilDiv_zero by lia. repeat split; constructor.
  - simpl. destruct (Z.ltb_spec start (Js.len S)) as [Hlt|Hge].
    + set (c := Z.min K (Js.len S - start)).
      assert (Hc : 0 < c <= K /\ start + c <= Js.len S) by (unfold c; lia).
      destruct (IH (start + c) (acc ++ [Js.substring S start (start + c)]))
        as (rest & Hloop & Hall & Hjoin & Hcount); [lia | lia |].
      exists (Js.substring S start (start + c) :: rest).
      rewrite Hloop, <- app_assoc.
      rewrite Js_substring_in_range by lia.
      replace (start + c - start) with c by lia.
      assert (Hlen : String.length (String.substring (Z.to_nat start) (Z.to_nat c) S)
                     = Z.to_nat c).
      { apply substring_length. unfold Js.len in *. lia. }
      repeat split.
      * constructor; [|exact Hall]. unfold Js.len at 1 2. rewrite Hlen. lia.
      * rewrite join_empty_cons, Hjoin.
        replace (Z.to_nat (start + c)) with (Z.to_nat start + Z.to_nat c)%nat by lia.
        rewrite substring_adjacent. f_equal. lia.
      * cbn [length]. rewrite Nat2Z.inj_succ, Hcount.
        destruct (Z.le_gt_cases K (Js.len S - start)) as [Hfull|Hlast].
        -- assert (Hck : c = K) by (unfold c; lia). rewrite Hck.
           rewrite <- Z.add_1_r, <- ceilDiv_step by lia. f_equal. lia.
        -- assert (Hcl : c = Js.len S - start) by (unfold c; lia). rewrite Hcl.
           replace (Js.len S - (start + (Js.len S - start))) with 0 by lia.
           rewrite ceilDiv_zero, ceilDiv_last by lia. reflexivity.
    + exists []. assert (start = Js.len S) by lia. subst start.
      rewrite app_nil_r, Z.sub_diag.
      rewrite substring_zero_length, ceilDiv_zero by lia. repeat split; constructor.
Qed.

(** C1. For every string [S] and every effective chunk size [K > 0], the
    splitting loop of [prepareChunks] ends and produces chunks that each
    have at most [K] characters, whose concatenation in order is [S],
    whose number is [ceil(len(S) / K)], and that are none exactly when [S]
    is empty. *)
Theorem split_correct (S : string) (K : Z) :
  0 < K ->
  exists chunks,
    split S K = Some chunks
    /\ Forall (fun c => Js.len c <= K) chunks
    /\ Js.join "" chunks = S
    /\ Z.of_nat (length chunks) = ceilDiv (Js.len S) K
    /\ (chunks = [] <-> S = "").
Proof.
  intros HK.
  destruct (splitLoop_spec (String.length S) S K 0 [] HK)
    as (chunks & Hloop & Hall & Hjoin & Hcount).
  { unfold Js.len. lia. }
  { unfold Js.len. lia. }
  exists chunks. rewrite Z.sub_0_r in *.
  assert (HS : Js.join "" chunks = S).
  { rewrite Hjoin. unfold Js.len. rewrite Nat2Z.id. apply substring_whole. }
  repeat split.
  - exact Hloop.
  - eapply Forall_impl; [exact Hall|]. simpl. intros c Hc. lia.
  - exact HS.
  - exact Hcount.
  - intros ->. symmetry. exact HS.
  - intros ->. destruct chunks as [|c chunks]; [reflexivity|].
    rewrite ceilDiv_zero in Hcount by lia. simpl in Hcount. lia.
Qed.

Lemma split_correct_witness :
  0 < 3 /\
  exists chunks,
    split "QUJDREVGRw==" 3 = Some chunks
    /\ Forall (fun c => Js.len c <= 3) chunks
    /\ Js.join "" chunks = "QUJDREVGRw=="
    /\ Z.of_nat (length chunks) = ceilDiv (Js.len "QUJDREVGRw==") 3
    /\ (chunks = [] <-> "QUJDREVGRw==" = "").
Proof. split; [lia | apply (split_correct "QUJDREVGRw==" 3); lia]. Defined.

End splitter_correct.

(** ** The checksum *)

Section checksum_correct.
Import spec.

Lemma byte_range (b : byte) : 0 <= Z.of_N (Byte.to_N b) < 256.
Proof. pose proof (Byte.to_N_bounded b). lia. Qed.

Lemma checksumLoop_from (bytes : list byte) (sum : Z) :
  0 <= sum < 65536 ->
  fold_left (fun sum b => (sum + Z.of_N (Byte.to_N b)) mod 65536) bytes sum
  = (sum + sumBytes bytes) mod 65536.
Proof.
  revert sum. induction bytes as [|b bytes IH]; intros sum Hsum; simpl.
  - rewrite Z.add_0_r, Z.mod_small; lia.
  - rewrite IH by (apply Z.mod_pos_bound; lia).
    rewrite Zplus_mod_idemp_l. f_equal. lia.
Qed.

(** The loop of [calculateChecksum] computes the sum of the bytes modulo
    65536. *)
Lemma checksumLoop_spec (buffer : list byte) :
  utils.checksumLoop buffer = sumBytes buffer mod 65536.
Proof. unfold utils.checksumLoop. now rewrite checksumLoop_from by lia. Qed.

Lemma digits_below (fuel : nat) (radix n : Z) :
  n < radix -> Js.digits (S fuel) radix n = String (Js.digitChar n) "".
Proof. intros Hn. simpl. destruct (Z.ltb_spec n radix); [reflexivity | lia]. Qed.

Lemma digits_step (fuel : nat) (radix n : Z) :
  radix <= n ->
  Js.digits (S fuel) radix n
  = Js.digits fuel radix (n / radix) +:+ String (Js.digitChar (n mod radix)) "".
Proof. intros Hn. simpl. destruct (Z.ltb_spec n radix); [lia | reflexivity]. Qed.

Lemma log2_fuel (n k : Z) : 0 <= k -> 2 ^ k <= n -> (Z.to_nat k <= Z.to_nat (Z.log2 n))%nat.
Proof.
  intros Hk Hn. apply Z2Nat.inj_le; [lia | apply Z.log2_nonneg |].
  rewrite <- (Z.log2_pow2 k) by lia. apply Z.log2_le_mono. exact Hn.
Qed.

(** [n.toString(16).padStart(4, "0")] are the four hexadecimal digits of
    a number below 65536. *)
Lemma toString16_pad4 (n : Z) :
  0 <= n < 65536 -> Js.padStart (Js.toStringRadix 16 n) 4 "0"%char = hex4 n.
Proof.
  intros Hn. unfold Js.toStringRadix, hex4.
  destruct (Z.ltb_spec n 0) as [|_]; [lia|].
  destruct (Z.lt_ge_cases n 16) as [H1|H1].
  { rewrite digits_below by lia.
    rewrite (Z.div_small n 4096), (Z.div_small n 256), (Z.div_small n 16) by lia.
    rewrite (Z.mod_small n 16) by lia. reflexivity. }
  destruct (Z.to_nat (Z.log2 n)) as [|f1] eqn:Hf.
  { pose proof (log2_fuel n 4 ltac:(lia) ltac:(lia)). lia. }
  rewrite digits_step by lia.
  destruct (Z.lt_ge_cases n 256) as [H2|H2].
  { rewrite digits_below by (apply Z.div_lt_upper_bound; lia).
    rewrite (Z.div_small n 4096), (Z.div_small n 256) by lia.
    rewrite (Z.mod_small (n / 16)) by (split; [apply Z.div_pos | apply Z.div_lt_upper_bound]; lia).
    reflexivity. }
  destruct f1 as [|f2].
  { pose proof (log2_fuel n 8 ltac:(lia) ltac:(lia)). lia. }
  rewrite digits_step by (apply Z.div_le_lower_bound; lia).
  rewrite Z.div_div by lia. change (16 * 16) with 256.
  destruct (Z.lt_ge_cases n 4096) as [H3|H3].
  { rewrite digits_below by (apply Z.div_lt_upper_bound; lia).
    rewrite (Z.div_small n 4096) by lia.
    rewrite (Z.mod_small (n / 256)) by (split; [apply Z.div_pos | apply Z.div_lt_upper_bound]; lia).
    reflexivity. }
  destruct f2 as [|f3].
  { pose proof (log2_fuel n 12 ltac:(lia) ltac:(lia)). lia. }
  rewrite digits_step by (apply Z.div_le_lower_bound; lia).
  rewrite Z.div_div by lia. change (256 * 16) with 4096.
  rewrite digits_below by (apply Z.div_lt_upper_bound; lia).
  reflexivity.
Qed.

Lemma digitChar_hex (d : Z) : 0 <= d < 16 -> isLowerHexDigit (Js.digitChar d) = true.
Proof.
  intros Hd.
  assert (Hn : exists n, (n < 16)%nat /\ d = Z.of_nat n) by (exists (Z.to_nat d); lia).
  destruct Hn as (n & Hn & ->).
  do 16 (destruct n as [|n]; [reflexivity|]). lia.
Qed.

(** The checksum is the sum of the bytes modulo 65536, written with
    exactly four lowercase hexadecimal digits. *)
Lemma calculateChecksum_spec (buffer : list byte) :
  utils.calculateChecksum buffer = hex4 (sumBytes buffer mod 65536)
  /\ String.length (utils.calculateChecksum buffer) = 4%nat
  /\ Forall (fun c => isLowerHexDigit c = true)
       (list_ascii_of_string (utils.calculateChecksum buffer)).
Proof.
  assert (Hr : 0 <= sumBytes buffer mod 65536 < 65536) by (apply Z.mod_pos_bound; lia).
  assert (Heq : utils.calculateChecksum buffer = hex4 (sumBytes buffer mod 65536)).
  { unfold utils.calculateChecksum. rewrite checksumLoop_spec. now apply toString16_pad4. }
  rewrite Heq. split; [reflexivity|]. split; [reflexivity|].
  set (n := sumBytes buffer mod 65536) in *.
  unfold hex4. simpl.
  repeat constructor; apply digitChar_hex.
  - split; [apply Z.div_pos | apply Z.div_lt_upper_bound]; lia.
  - apply Z.mod_pos_bound; lia.
  - apply Z.mod_pos_bound; lia.
  - apply Z.mod_pos_bound; lia.
Qed.

End checksum_correct.

(** ** The chunk store of the receiver *)

Section receiver_store.
Import types browser state receiver spec events.
Context (B : Browser).

(** Case analysis on every test of a function body. *)
Ltac branches := repeat case_match; simplify_eq; try reflexivity.

Lemma store_updateReceiverStatus message isError st :
  store (updateReceiverStatus message isError st) = store st.
Proof. unfold updateReceiverStatus. branches. Qed.

Lemma store_updateReceiverUI st : store (updateReceiverUI st) = store st.
Proof. unfold updateReceiverUI. branches. Qed.

Lemma store_stopScan st : store (stopScan st) = store st.
Proof. unfold stopScan. branches. Qed.

Lemma store_displayMissingChunks st : store (displayMissingChunks st) = store st.
Proof. unfold displayMissingChunks. branches. Qed.

Lemma map_displayMissingChunks st :
  receivedChunksMap (displayMissingChunks st) = receivedChunksMap st.
Proof. exact (f_equal fst (store_displayMissingChunks st)). Qed.

Lemma count_displayMissingChunks st :
  receivedChunkCount (displayMissingChunks st) = receivedChunkCount st.
Proof. exact (f_equal snd (store_displayMissingChunks st)). Qed.

Lemma store_processVerifiedData cur buf st :
  store (processVerifiedData B cur buf st) = store st.
Proof. unfold processVerifiedData. branches. Qed.

Lemma store_verifyAndDownload fp st : store (verifyAndDownload B fp st) = store st.
Proof.
  unfold verifyAndDownload.
  assert (Hs : store (if isScanning st then stopScan st else st) = store st).
  { destruct (isScanning st); [apply store_stopScan | reflexivity]. }
  revert Hs. generalize (if isScanning st then stopScan st else st). intros st1 Hs.
  repeat case_match;
    rewrite ?store_displayMissingChunks, ?store_processVerifiedData; exact Hs.
Qed.

Lemma store_resetReceiverStateInternal st : store (resetReceiverStateInternal st) = (∅, 0).
Proof. reflexivity. Qed.

Lemma store_clearReceivedChunks st : store (clearReceivedChunks st) = (∅, 0).
Proof. reflexivity. Qed.

Lemma store_startScan st :
  store (startScan st) = if isScanning st then store st else (∅, 0).
Proof. unfold startScan. branches. Qed.

Lemma store_startRejected message st : store (startRejected message st) = (∅, 0).
Proof.
  unfold startRejected. rewrite store_updateReceiverUI. reflexivity.
Qed.

Lemma store_cleanupTimerFires st :
  store (cleanupTimerFires st) = store st \/ store (cleanupTimerFires st) = (∅, 0).
Proof.
  unfold cleanupTimerFires. destruct (cleanupTimer st); [right | left; reflexivity].
  rewrite store_updateReceiverUI. reflexivity.
Qed.

Lemma store_checkForMissingChunksAndFinalize fp st :
  store (checkForMissingChunksAndFinalize B fp st) = store st
  \/ store (checkForMissingChunksAndFinalize B fp st) = (∅, 0).
Proof.
  unfold checkForMissingChunksAndFinalize.
  repeat case_match;
    rewrite ?store_verifyAndDownload, ?store_stopScan, ?store_startScan,
      ?store_updateReceiverStatus, ?store_displayMissingChunks;
    repeat case_match; auto.
Qed.

Lemma store_handleFinalPacket fp st :
  store (handleFinalPacket B fp st) = store st
  \/ store (handleFinalPacket B fp st) = (∅, 0).
Proof.
  unfold handleFinalPacket.
  repeat case_match; rewrite ?store_stopScan; auto.
  all: destruct (store_checkForMissingChunksAndFinalize fp
                   (updateReceiverStatus
                      "Final confirmation QR received. Checking chunk completeness..."
                      false st)) as [-> | ->]; auto.
Qed.

Lemma store_processHandshake p st :
  store (processHandshake B p st) = store st \/ store (processHandshake B p st) = (∅, 0).
Proof. unfold processHandshake. repeat case_match; auto. Qed.

(** A Data packet adds its chunk to the store when its fields are valid,
    and leaves the store alone otherwise. *)
Lemma store_processDataChunk p st :
  store (processDataChunk p st)
  = match seq p, dat p with
    | Some seq_, Some (String _ _ as dat_) =>
        if (seq_ <=? 0) || (default 0 (expectedTotalChunks st) <? seq_) then store st
        else store (addReceivedChunk seq_ dat_ st)
    | _, _ => store st
    end.
Proof.
  unfold processDataChunk.
  destruct (seq p) as [seq_|]; [|reflexivity].
  destruct (dat p) as [[|c d]|]; try reflexivity.
  destruct ((seq_ <=? 0) || (default 0 (expectedTotalChunks st) <? seq_)); [reflexivity|].
  unfold addReceivedChunk.
  destruct (has (receivedChunksMap st) seq_) eqn:Hhas; simpl; [reflexivity|].
  repeat case_match; unfold store; simpl;
    rewrite ?map_displayMissingChunks, ?count_displayMissingChunks; reflexivity.
Qed.

Lemma storeStep_processDataChunk p st : storeStep st (processDataChunk p st).
Proof.
  unfold storeStep. rewrite store_processDataChunk.
  repeat case_match; eauto.
Qed.

Lemma storeStep_keep_or_clear st st' :
  store st' = store st \/ store st' = (∅, 0) -> storeStep st st'.
Proof. unfold storeStep. intros [H | H]; auto. Qed.

Lemma storeStep_handleScanResult result st : storeStep st (handleScanResult B result st).
Proof.
  unfold handleScanResult.
  destruct (negb (expectsQr (receiverState st))); [left; reflexivity|].
  destruct result as [| |payload]; try (left; reflexivity).
  repeat case_match;
    first [ apply storeStep_processDataChunk
          | apply storeStep_keep_or_clear, store_handleFinalPacket
          | apply storeStep_keep_or_clear, store_processHandshake
          | left; rewrite ?store_stopScan; reflexivity ].
Qed.

(** Every event of the receiver leaves the store, empties it or adds one
    chunk with [addReceivedChunk]. *)
Lemma storeStep_step ev st : storeStep st (step B ev st).
Proof.
  destruct ev; simpl.
  - unfold storeStep. rewrite store_startScan. destruct (isScanning st); auto.
  - left. reflexivity.
  - right. left. apply store_startRejected.
  - left. apply store_stopScan.
  - apply storeStep_handleScanResult.
  - unfold storeStep. destruct (store_cleanupTimerFires st) as [-> | ->]; auto.
  - left. unfold showView.
    repeat case_match; rewrite ?store_updateReceiverUI, ?store_stopScan; reflexivity.
Qed.

(** *** The count and the cardinality of the map *)

Lemma has_false (m : gmap Z string) (seq_ : Z) : has m seq_ = false <-> m !! seq_ = None.
Proof.
  unfold has. rewrite bool_decide_eq_false, eq_None_not_Some. reflexivity.
Qed.

Lemma has_true (m : gmap Z string) (seq_ : Z) : has m seq_ = true <-> is_Some (m !! seq_).
Proof. unfold has. apply bool_decide_eq_true. Qed.

Lemma countMatches_addReceivedChunk seq_ data st :
  countMatches st -> countMatches (addReceivedChunk seq_ data st).
Proof.
  unfold countMatches, addReceivedChunk. intros Hc.
  destruct (has (receivedChunksMap st) seq_) eqn:Hhas; simpl; [exact Hc|].
  apply has_false in Hhas. rewrite map_size_insert_None by exact Hhas. lia.
Qed.

Lemma countMatches_store st st' : store st' = store st -> countMatches st -> countMatches st'.
Proof. unfold countMatches, store. intros [= -> ->]. auto. Qed.

Lemma countMatches_storeStep st st' : storeStep st st' -> countMatches st -> countMatches st'.
Proof.
  intros [H | [H | (seq_ & data & H)]] Hc.
  - eapply countMatches_store; eauto.
  - unfold countMatches, store in *. injection H as -> ->. reflexivity.
  - eapply countMatches_store; [exact H|]. now apply countMatches_addReceivedChunk.
Qed.

(** C10. The three operations on the chunk store keep the count equal to
    the number of entries of the map: [clearReceivedChunks] and
    [resetReceiverStateInternal] establish the equality,
    [addReceivedChunk] preserves it; so the equality holds in every state
    the receiver can reach, whatever it checks the count against. *)
Theorem count_is_cardinality :
  (forall st, countMatches (clearReceivedChunks st))
  /\ (forall st, countMatches (resetReceiverStateInternal st))
  /\ (forall seq_ data st, countMatches st -> countMatches (addReceivedChunk seq_ data st))
  /\ (forall st, reachable B st -> countMatches st).
Proof.
  split; [reflexivity|]. split; [reflexivity|].
  split; [apply countMatches_addReceivedChunk|].
  intros st Hreach. induction Hreach as [|ev st _ IH].
  - reflexivity.
  - eapply countMatches_storeStep; [apply storeStep_step | exact IH].
Qed.

(** *** Delivery of Data packets in any order *)

Lemma addReceivedChunk_idempotent seq_ data st :
  addReceivedChunk seq_ data (addReceivedChunk seq_ data st) = addReceivedChunk seq_ data st.
Proof.
  unfold addReceivedChunk.
  destruct (has (receivedChunksMap st) seq_) eqn:Hhas; simpl.
  - rewrite Hhas. reflexivity.
  - assert (Hin : has (<[seq_:=data]> (receivedChunksMap st)) seq_ = true).
    { apply has_true. rewrite lookup_insert_eq. eauto. }
    rewrite Hin. reflexivity.
Qed.

(** In a session, a Data packet of the sender goes to [processDataChunk]. *)
Lemma handleScanResult_data fid_ seq_ dat_ st :
  acceptsData (receiverState st) = true ->
  expectedFileId st = Some fid_ -> fid_ <> "" ->
  handleScanResult B (Structured (sender.dataPayload fid_ seq_ dat_)) st
  = processDataChunk (sender.dataPayload fid_ seq_ dat_) st.
Proof.
  intros Hacc Hfid Hne. unfold handleScanResult. simpl.
  rewrite Hfid. rewrite bool_decide_eq_true_2 by reflexivity.
  apply String.eqb_neq in Hne. rewrite Hne.
  destruct (receiverState st); try discriminate Hacc; simpl;
    destruct fid_; try reflexivity; discriminate Hne.
Qed.

Lemma session_displayMissingChunks st :
  sessionOf (displayMissingChunks st) = sessionOf st.
Proof. unfold displayMissingChunks. branches. Qed.

Lemma acceptsData_displayMissingChunks st :
  acceptsData (receiverState st) = true ->
  acceptsData (receiverState (displayMissingChunks st)) = true.
Proof.
  unfold displayMissingChunks. intros H.
  repeat case_match; simpl; first [exact H | reflexivity | congruence].
Qed.

Lemma processDataChunk_session p st :
  sessionOf (processDataChunk p st) = sessionOf st.
Proof.
  unfold processDataChunk, addReceivedChunk.
  repeat case_match; try reflexivity;
    unfold sessionOf; simpl;
    repeat match goal with
      | |- context [displayMissingChunks ?s] =>
          pose proof (session_displayMissingChunks s) as Hs;
          unfold sessionOf in Hs; simpl in Hs; injection Hs as -> -> -> -> -> ->
      end; reflexivity.
Qed.

Lemma processDataChunk_acceptsData p st :
  acceptsData (receiverState st) = true ->
  acceptsData (receiverState (processDataChunk p st)) = true.
Proof.
  unfold processDataChunk, addReceivedChunk. intros H.
  repeat case_match; simpl;
    first [ congruence | apply acceptsData_displayMissingChunks; simpl; congruence ].
Qed.

(** What one Data packet of the sender does to an entry of the map. *)
Lemma map_processDataChunk fid_ chunkOf total s st k :
  expectedTotalChunks st = Some total ->
  receivedChunksMap (processDataChunk (sender.dataPayload fid_ s (chunkOf s)) st) !! k
  = match receivedChunksMap st !! k with
    | Some x => Some x
    | None => if bool_decide (k = s) && storable total chunkOf k
              then Some (chunkOf k) else None
    end.
Proof.
  intros Htot.
  pose proof (f_equal fst (store_processDataChunk (sender.dataPayload fid_ s (chunkOf s)) st))
    as Hs.
  simpl in Hs. rewrite Hs, Htot. clear Hs. simpl. unfold storable.
  destruct (bool_decide_reflect (k = s)) as [-> | Hks]; simpl.
  - destruct (chunkOf s) as [|c d] eqn:Hc; simpl.
    + rewrite andb_false_r. now destruct (receivedChunksMap st !! s).
    + rewrite andb_true_r.
      destruct (Z.leb_spec s 0), (Z.ltb_spec total s), (Z.ltb_spec 0 s), (Z.leb_spec s total);
        try lia; simpl; try now destruct (receivedChunksMap st !! s).
      unfold addReceivedChunk.
      destruct (has (receivedChunksMap st) s) eqn:Hhas; simpl.
      * apply has_true in Hhas as [x Hx]. now rewrite Hx.
      * apply has_false in Hhas. rewrite lookup_insert_eq, Hhas. reflexivity.
  - assert (Hkeep : forall m' : gmap Z string,
               m' !! k = receivedChunksMap st !! k ->
               m' !! k = match receivedChunksMap st !! k with
                         | Some x => Some x
                         | None => None
                         end).
    { intros m' ->. now destruct (receivedChunksMap st !! k). }
    apply Hkeep.
    destruct (chunkOf s) as [|c d]; [reflexivity|].
    destruct ((s <=? 0) || (total <? s)); [reflexivity|].
    unfold addReceivedChunk.
    destruct (has (receivedChunksMap st) s); simpl; [reflexivity|].
    apply lookup_insert_ne. congruence.
Qed.

Lemma countMatches_deliver packets st :
  countMatches st -> countMatches (deliver B packets st).
Proof.
  revert st. induction packets as [|p packets IH]; intros st Hc; [exact Hc|].
  apply IH. eapply countMatches_storeStep; [apply storeStep_handleScanResult | exact Hc].
Qed.

(** The map after a delivery: an entry that was there stays, and the
    storable packets of the delivery fill the others, whatever their
    order and their number of copies. *)
Lemma deliver_lookup fid_ chunkOf total seqs st k :
  acceptsData (receiverState st) = true ->
  expectedFileId st = Some fid_ -> fid_ <> "" ->
  expectedTotalChunks st = Some total ->
  receivedChunksMap (deliver B (dataPackets fid_ chunkOf seqs) st) !! k
  = match receivedChunksMap st !! k with
    | Some x => Some x
    | None => if bool_decide (k ∈ seqs) && storable total chunkOf k
              then Some (chunkOf k) else None
    end.
Proof.
  intros Hacc Hfid Hne Htot. revert st Hacc Hfid Htot.
  induction seqs as [|s seqs IH]; intros st Hacc Hfid Htot.
  - unfold dataPackets, deliver. cbn [map fold_left].
    rewrite bool_decide_eq_false_2 by apply not_elem_of_nil.
    now destruct (receivedChunksMap st !! k).
  - unfold dataPackets, deliver. cbn [map fold_left].
    rewrite handleScanResult_data by assumption.
    set (st1 := processDataChunk (sender.dataPayload fid_ s (chunkOf s)) st).
    pose proof (processDataChunk_session (sender.dataPayload fid_ s (chunkOf s)) st) as Hs.
    fold st1 in Hs. unfold sessionOf in Hs. injection Hs as Hs1 Hs2 _ _ _ _.
    specialize (IH st1). unfold dataPackets, deliver in IH. rewrite IH.
    + unfold st1. rewrite (map_processDataChunk fid_ chunkOf total s st k Htot).
      destruct (receivedChunksMap st !! k); [reflexivity|].
      destruct (bool_decide_reflect (k = s)) as [-> | Hks]; simpl.
      * rewrite (bool_decide_eq_true_2 (s ∈ s :: seqs)) by apply list_elem_of_here.
        simpl. destruct (storable total chunkOf s); simpl;
          rewrite ?andb_false_r; reflexivity.
      * destruct (bool_decide_reflect (k ∈ seqs)) as [Hin | Hin].
        -- rewrite bool_decide_eq_true_2 by (now apply list_elem_of_further). reflexivity.
        -- rewrite bool_decide_eq_false_2; [reflexivity|].
           intros [? | ?]%elem_of_cons; contradiction.
    + now apply processDataChunk_acceptsData.
    + congruence.
    + congruence.
Qed.

Lemma size_keysWithin (m : gmap Z string) (total : Z) :
  0 <= total -> (forall k, is_Some (m !! k) -> 1 <= k <= total) ->
  Z.of_nat (size m) <= total.
Proof.
  intros Htot Hkeys.
  assert (Hsub : dom m ⊆ (list_to_set (seqZ 1 total) : gset Z)).
  { intros k Hk. apply elem_of_dom in Hk. apply elem_of_list_to_set, elem_of_seqZ.
    specialize (Hkeys k Hk). lia. }
  apply subseteq_size in Hsub.
  rewrite size_dom, size_list_to_set, length_seqZ in Hsub by apply NoDup_seqZ. lia.
Qed.

Lemma elem_of_ascendingOnce (seqs : list Z) (s : Z) : s ∈ ascendingOnce seqs <-> s ∈ seqs.
Proof.
  unfold ascendingOnce. rewrite merge_sort_Permutation. apply elem_of_remove_dups.
Qed.

Lemma StronglySorted_le_lt (l : list Z) :
  StronglySorted Z.le l -> NoDup l -> StronglySorted Z.lt l.
Proof.
  induction 1 as [|x l Hsorted IH Hall]; intros Hnd; constructor.
  - apply IH. now apply NoDup_cons in Hnd.
  - apply NoDup_cons in Hnd as [Hx _].
    rewrite Forall_forall in *. intros y Hy.
    specialize (Hall y Hy). assert (x <> y) by (intros ->; contradiction). lia.
Qed.

Lemma ascendingOnce_sorted (seqs : list Z) : StronglySorted Z.lt (ascendingOnce seqs).
Proof.
  apply StronglySorted_le_lt.
  - apply StronglySorted_merge_sort; apply _.
  - unfold ascendingOnce. rewrite merge_sort_Permutation. apply NoDup_remove_dups.
Qed.

(** C2. In a session with [total] declared chunks, the Data packets of
    any sequence of sequence numbers, in any order and with any number of
    copies, leave the same chunk store as the packets of the distinct
    numbers delivered once each in ascending order. Inserting a chunk a
    second time changes nothing, and the count, which is the number of
    entries of the map, is at most [total]. *)
Theorem store_order_independent fid_ chunkOf total st seqs :
  acceptsData (receiverState st) = true ->
  expectedFileId st = Some fid_ -> fid_ <> "" ->
  expectedTotalChunks st = Some total -> 0 <= total ->
  countMatches st -> keysWithin total st ->
  let st1 := deliver B (dataPackets fid_ chunkOf seqs) st in
  let st2 := deliver B (dataPackets fid_ chunkOf (ascendingOnce seqs)) st in
  StronglySorted Z.lt (ascendingOnce seqs)
  /\ (forall s, s ∈ ascendingOnce seqs <-> s ∈ seqs)
  /\ receivedChunksMap st1 = receivedChunksMap st2
  /\ receivedChunkCount st1 = receivedChunkCount st2
  /\ (forall seq_ data st',
        addReceivedChunk seq_ data (addReceivedChunk seq_ data st')
        = addReceivedChunk seq_ data st')
  /\ receivedChunkCount st1 = Z.of_nat (size (receivedChunksMap st1))
  /\ receivedChunkCount st1 <= total.
Proof.
  intros Hacc Hfid Hne Htot Hpos Hcount Hkeys st1 st2.
  assert (Hmap : receivedChunksMap st1 = receivedChunksMap st2).
  { apply map_eq. intros k. unfold st1, st2.
    rewrite !(deliver_lookup fid_ chunkOf total) by assumption.
    destruct (receivedChunksMap st !! k); [reflexivity|].
    rewrite (bool_decide_ext _ _ (elem_of_ascendingOnce seqs k)). reflexivity. }
  assert (Hc1 : countMatches st1) by now apply countMatches_deliver.
  assert (Hc2 : countMatches st2) by now apply countMatches_deliver.
  split; [apply ascendingOnce_sorted|].
  split; [apply elem_of_ascendingOnce|].
  split; [exact Hmap|].
  split; [unfold countMatches in *; now rewrite Hc1, Hc2, Hmap|].
  split; [apply addReceivedChunk_idempotent|].
  split; [exact Hc1|].
  rewrite Hc1. apply size_keysWithin; [exact Hpos|].
  intros k Hk. unfold st1 in Hk.
  rewrite (deliver_lookup fid_ chunkOf total) in Hk by assumption.
  destruct (receivedChunksMap st !! k) eqn:Hold.
  - apply Hkeys. rewrite Hold. eauto.
  - destruct (bool_decide (k ∈ seqs)); simpl in Hk; [|destruct Hk; discriminate].
    unfold storable in Hk.
    destruct (Z.ltb_spec 0 k), (Z.leb_spec k total); simpl in Hk;
      try (destruct Hk; discriminate). lia.
Qed.

End receiver_store.

(** ** The receiver and the protocol version *)

Section receiver_version.
Import types browser state receiver spec events.
Context (B : Browser).

(** Outside the four states that expect a QR code, a scan changes
    nothing. *)
Lemma handleScanResult_ignored result st :
  expectsQr (receiverState st) = false -> handleScanResult B result st = st.
Proof. intros H. unfold handleScanResult. now rewrite H. Qed.

(** [stopScan] in the error state: the scanner goes, nothing else
    changes. *)
Lemma stopScan_error st :
  receiverState st = error ->
  stopScan st = if isScanning st && qrScanner st
                then setIsScanning false (setQrScanner false st) else st.
Proof.
  intros H. unfold stopScan. rewrite H.
  destruct (isScanning st), (qrScanner st); reflexivity.
Qed.

(** [startScan] destroys the session of a receiver that is not
    scanning. *)
Lemma startScan_destroys st : isScanning st = false -> sessionDestroyed (startScan st).
Proof.
  intros H. unfold startScan. rewrite H.
  destruct (negb (qrScanner st)); split; reflexivity.
Qed.

Lemma handleScanResult_version p st :
  expectsQr (receiverState st) = true -> fid p <> "" -> v p <> config.PROTOCOL_VERSION ->
  handleScanResult B (Structured p) st
  = stopScan (updateReceiverStatus
                ("Incompatible protocol version (Received: " +:+ Js.numToString (v p) +:+
                 ", Expected: " +:+ Js.numToString config.PROTOCOL_VERSION +:+
                 "). Stopping.") true st).
Proof.
  intros Hq Hfid Hv. unfold handleScanResult. rewrite Hq. simpl.
  apply String.eqb_neq in Hfid. rewrite Hfid.
  apply Z.eqb_neq in Hv. rewrite Hv. reflexivity.
Qed.

(** C4, as the code has it. In each of the four states that expect a QR
    code, a structurally valid packet of another protocol version puts
    the receiver in the error state with the incompatibility on the
    status line, stops the scanner when one is running, and makes the
    receiver ignore every later scan. The session is not destroyed: the
    expected file identifier, the data of the handshake and the chunk
    store stay as they were; it is the next [startScan] that resets
    them. *)
Theorem version_mismatch_halts p st :
  expectsQr (receiverState st) = true -> fid p <> "" -> v p <> config.PROTOCOL_VERSION ->
  let st' := handleScanResult B (Structured p) st in
  receiverState st' = error
  /\ receiverStatus st' = incompatibleVersionStatus (v p)
  /\ receiverStatusRed st' = true
  /\ isScanning st' = (isScanning st && negb (qrScanner st))
  /\ (isScanning st = true -> qrScanner st = true ->
      isScanning st' = false /\ qrScanner st' = false)
  /\ (forall result, handleScanResult B result st' = st')
  /\ sessionOf st' = sessionOf st
  /\ store st' = store st
  /\ (isScanning st' = false -> sessionDestroyed (startScan st')).
Proof.
  intros Hq Hfid Hv st'. unfold st'.
  rewrite handleScanResult_version by assumption.
  rewrite stopScan_error by reflexivity. simpl.
  destruct (isScanning st) eqn:Hs, (qrScanner st) eqn:Hc; simpl; rewrite ?Hs, ?Hc.
  all: split; [reflexivity|]; split; [reflexivity|]; split; [reflexivity|].
  all: split; [reflexivity|]; split; [intros; split; congruence|].
  all: split; [intros; apply handleScanResult_ignored; reflexivity|].
  all: split; [reflexivity|]; split; [reflexivity|].
  all: intros Hoff; try discriminate Hoff.
  all: apply startScan_destroys; simpl; assumption.
Qed.

End receiver_version.

(** ** The receiver and the Final packet *)

Section receiver_final.
Import types browser state receiver spec events.
Context (B : Browser).

(** In a session, a Final packet for the expected file identifier goes
    to [handleFinalPacket]. *)
Lemma handleScanResult_final p st :
  receiverState st = receiving_data \/ receiverState st = waiting_missing
  \/ receiverState st = waiting_final ->
  expectedFileId st = Some (fid p) -> fid p <> "" ->
  v p = config.PROTOCOL_VERSION -> typ p = "f" ->
  handleScanResult B (Structured p) st = handleFinalPacket B p st.
Proof.
  intros Hstate Hfid Hne Hv Htyp. unfold handleScanResult.
  rewrite Hfid, Hv, Htyp. rewrite bool_decide_eq_true_2 by reflexivity.
  apply String.eqb_neq in Hne. rewrite Hne.
  destruct (fid p) as [|c f]; [discriminate Hne|].
  destruct Hstate as [-> | [-> | ->]]; reflexivity.
Qed.

Lemma displayMissingChunks_error st :
  receiverState st = error -> receiverState (displayMissingChunks st) = error.
Proof.
  intros H. unfold displayMissingChunks. rewrite H.
  repeat case_match; simpl; assumption.
Qed.

(** Verification ends in the complete state or in the error state. *)
Lemma verifyAndDownload_outcome fp st :
  receiverState (verifyAndDownload B fp st) = complete
  \/ receiverState (verifyAndDownload B fp st) = error.
Proof.
  unfold verifyAndDownload.
  generalize (if isScanning st then stopScan st else st). intros st1.
  repeat case_match; try (right; reflexivity).
  - right. apply displayMissingChunks_error. reflexivity.
  - left. unfold processVerifiedData. repeat case_match; reflexivity.
Qed.

Lemma findMissing_elem total (m : gmap Z string) k :
  k ∈ findMissing total m <-> 1 <= k <= total /\ m !! k = None.
Proof.
  unfold findMissing. rewrite list_elem_of_filter, elem_of_seqZ.
  unfold has. rewrite bool_decide_eq_false, eq_None_not_Some. intuition lia.
Qed.

End receiver_final.

(** ** The receiver that waits for a handshake *)

Section receiver_restart.
Import types browser state receiver spec events.
Context (B : Browser).

Lemma stopScan_state st : receiverState (stopScan st) = receiverState st.
Proof. unfold stopScan. repeat case_match; simpl; congruence. Qed.

Lemma stopScan_fid st : expectedFileId (stopScan st) = expectedFileId st.
Proof. unfold stopScan. repeat case_match; reflexivity. Qed.

Lemma displayMissingChunks_fid st :
  expectedFileId (displayMissingChunks st) = expectedFileId st.
Proof. unfold displayMissingChunks. repeat case_match; reflexivity. Qed.

Lemma displayMissingChunks_state st :
  receiverState (displayMissingChunks st) = receiverState st
  \/ receiverState (displayMissingChunks st) = waiting_final.
Proof. unfold displayMissingChunks. repeat case_match; simpl; auto. Qed.

Lemma updateReceiverUI_state st : receiverState (updateReceiverUI st) = receiverState st.
Proof. unfold updateReceiverUI. repeat case_match; simpl; congruence. Qed.

Lemma updateReceiverUI_fid st : expectedFileId (updateReceiverUI st) = expectedFileId st.
Proof. unfold updateReceiverUI. repeat case_match; reflexivity. Qed.

Lemma waitingIsFresh_not_waiting st :
  receiverState st <> waiting_handshake -> waitingIsFresh st.
Proof. intros H Hw. contradiction. Qed.

Lemma waitingIsFresh_no_fid st : expectedFileId st = None -> waitingIsFresh st.
Proof. intros H _. exact H. Qed.

Lemma waitingIsFresh_same st st' :
  receiverState st' = receiverState st -> expectedFileId st' = expectedFileId st ->
  waitingIsFresh st -> waitingIsFresh st'.
Proof. unfold waitingIsFresh. intros -> ->. auto. Qed.

Lemma waitingIsFresh_startScan st : waitingIsFresh st -> waitingIsFresh (startScan st).
Proof.
  intros H. unfold startScan. destruct (isScanning st); [exact H|].
  apply waitingIsFresh_no_fid. destruct (negb (qrScanner st)); reflexivity.
Qed.

Lemma waitingIsFresh_verifyAndDownload fp st : waitingIsFresh (verifyAndDownload B fp st).
Proof.
  apply waitingIsFresh_not_waiting.
  destruct (verifyAndDownload_outcome B fp st) as [-> | ->]; discriminate.
Qed.

Lemma waitingIsFresh_checkForMissing fp st :
  waitingIsFresh (checkForMissingChunksAndFinalize B fp st).
Proof.
  unfold checkForMissingChunksAndFinalize.
  destruct (expectedTotalChunks st) as [total|].
  - destruct (total =? 0); [apply waitingIsFresh_verifyAndDownload|].
    destruct (Z.of_nat (length (findMissing total (receivedChunksMap st))) =? 0);
      [apply waitingIsFresh_verifyAndDownload|].
    set (st1 := displayMissingChunks (setReceiverState waiting_missing st)).
    assert (H1 : waitingIsFresh st1).
    { apply waitingIsFresh_not_waiting. unfold st1.
      destruct (displayMissingChunks_state (setReceiverState waiting_missing st))
        as [-> | ->]; discriminate. }
    destruct (negb (isScanning st)).
    + now apply waitingIsFresh_startScan.
    + eapply waitingIsFresh_same; [| | exact H1]; reflexivity.
  - apply waitingIsFresh_not_waiting.
    destruct (isScanning st); rewrite ?stopScan_state; discriminate.
Qed.

Lemma waitingIsFresh_handleFinalPacket fp st :
  waitingIsFresh st -> waitingIsFresh (handleFinalPacket B fp st).
Proof.
  intros H. unfold handleFinalPacket.
  destruct (negb (bool_decide (Some (fid fp) = expectedFileId st))); [exact H|].
  assert (Herr : waitingIsFresh
                   (stopScan
                      (setReceiverState error
                         (updateReceiverStatus
                            "Final packet received, but checksum is missing or invalid! Cannot verify."
                            true st)))).
  { apply waitingIsFresh_not_waiting. rewrite stopScan_state. discriminate. }
  destruct (chk fp) as [[|c s]|]; try exact Herr.
  apply waitingIsFresh_checkForMissing.
Qed.

Lemma waitingIsFresh_processHandshake p st :
  waitingIsFresh st -> waitingIsFresh (processHandshake B p st).
Proof.
  intros H. unfold processHandshake.
  repeat case_match;
    first [ exact H
          | apply waitingIsFresh_not_waiting; discriminate
          | eapply waitingIsFresh_same; [| | exact H]; reflexivity ].
Qed.

Lemma waitingIsFresh_processDataChunk p st :
  waitingIsFresh st -> waitingIsFresh (processDataChunk p st).
Proof.
  intros H.
  assert (Hfid : expectedFileId (processDataChunk p st) = expectedFileId st).
  { pose proof (processDataChunk_session p st) as Hs. unfold sessionOf in Hs. congruence. }
  destruct (acceptsData (receiverState st)) eqn:Hacc.
  - apply waitingIsFresh_not_waiting.
    pose proof (processDataChunk_acceptsData p st Hacc) as Hacc'.
    intros Hw. rewrite Hw in Hacc'. discriminate.
  - intros Hw. rewrite Hfid. apply H. revert Hw.
    unfold processDataChunk, addReceivedChunk.
    destruct (receiverState st) eqn:Hst; try discriminate Hacc;
      repeat case_match; simpl; congruence.
Qed.

Lemma waitingIsFresh_handleScanResult result st :
  waitingIsFresh st -> waitingIsFresh (handleScanResult B result st).
Proof.
  intros H. unfold handleScanResult.
  destruct (negb (expectsQr (receiverState st))); [exact H|].
  destruct result as [| |payload];
    try (eapply waitingIsFresh_same; [| | exact H]; reflexivity).
  repeat case_match;
    first [ exact H
          | now apply waitingIsFresh_processHandshake
          | now apply waitingIsFresh_handleFinalPacket
          | now apply waitingIsFresh_processDataChunk
          | apply waitingIsFresh_not_waiting; rewrite stopScan_state; discriminate
          | eapply waitingIsFresh_same; [| | exact H]; reflexivity ].
Qed.

Lemma waitingIsFresh_step ev st : waitingIsFresh st -> waitingIsFresh (step B ev st).
Proof.
  intros H. destruct ev; simpl.
  - now apply waitingIsFresh_startScan.
  - eapply waitingIsFresh_same; [| | exact H]; reflexivity.
  - apply waitingIsFresh_no_fid. unfold startRejected. rewrite updateReceiverUI_fid.
    reflexivity.
  - eapply waitingIsFresh_same; [apply stopScan_state | apply stopScan_fid | exact H].
  - now apply waitingIsFresh_handleScanResult.
  - unfold cleanupTimerFires. destruct (cleanupTimer st); [|exact H].
    apply waitingIsFresh_no_fid. rewrite updateReceiverUI_fid. reflexivity.
  - unfold showView.
    destruct (isScanning st && qrScanner st), receiverView;
      (eapply waitingIsFresh_same; [| | exact H]);
      rewrite ?updateReceiverUI_state, ?updateReceiverUI_fid, ?stopScan_state,
        ?stopScan_fid; reflexivity.
Qed.

(** A receiver that waits for a handshake has no file identifier in
    memory: [startScan], the only way into that state, resets it. *)
Lemma reachable_waitingIsFresh st : reachable B st -> waitingIsFresh st.
Proof.
  induction 1 as [|ev st _ IH].
  - intros _. reflexivity.
  - now apply waitingIsFresh_step.
Qed.

(** C8. The code does not do this. The receiver enters WaitingHandshake
    through [startScan] only, which forgets the file identifier first, so
    a reachable receiver that waits for a handshake remembers none. The
    branch of [handleScanResult] for a Final packet of a known file
    identifier is then never taken: the receiver ignores every Final
    packet of the protocol version while it waits for a handshake, and
    its state stays as it is. *)
Theorem final_ignored_while_waiting st p :
  reachable B st -> receiverState st = waiting_handshake ->
  v p = config.PROTOCOL_VERSION -> fid p <> "" -> typ p = "f" ->
  expectedFileId st = None /\ handleScanResult B (Structured p) st = st.
Proof.
  intros Hreach Hw Hv Hfid Htyp.
  pose proof (reachable_waitingIsFresh st Hreach Hw) as Hnone.
  split; [exact Hnone|].
  unfold handleScanResult. rewrite Hw, Hnone, Hv, Htyp. simpl.
  apply String.eqb_neq in Hfid. rewrite Hfid. reflexivity.
Qed.

End receiver_restart.

(** ** Verification of the reassembled archive *)

Section verification.
Import types browser state receiver spec events.
Context (B : Browser).

Lemma stopScan_downloads st : downloads (stopScan st) = downloads st.
Proof. unfold stopScan. repeat case_match; reflexivity. Qed.

Lemma stopScan_cleanupTimer st : cleanupTimer (stopScan st) = cleanupTimer st.
Proof. unfold stopScan. repeat case_match; reflexivity. Qed.

Lemma processVerifiedData_complete cur buffer st :
  receiverState (processVerifiedData B cur buffer st) = complete.
Proof. unfold processVerifiedData. repeat case_match; reflexivity. Qed.

(** C6. The checksum of a buffer is the sum of its bytes modulo 65536,
    written with exactly four lowercase hexadecimal digits, zeros to the
    left. When the chunks are all there and decode to a buffer of the
    declared size, verification succeeds exactly when the checksum of
    that buffer is, character for character, the checksum of the Final
    packet; on a mismatch the receiver is in the error state, hands
    nothing to the download, sets no timer, and ignores every later
    scan. *)
Theorem checksum_verification :
  (forall buffer : list byte,
      utils.calculateChecksum buffer = hex4 (sumBytes buffer mod 65536)
      /\ String.length (utils.calculateChecksum buffer) = 4%nat
      /\ Forall (fun c => isLowerHexDigit c = true)
           (list_ascii_of_string (utils.calculateChecksum buffer)))
  /\ (forall fp st total dataSize archiveName chunkArray,
        expectedTotalChunks st = Some total ->
        expectedDataSize st = Some dataSize ->
        expectedArchiveName st = Some archiveName ->
        receivedChunkCount st = total ->
        assemble (seqZ 1 total) (receivedChunksMap st) = inr chunkArray ->
        let buffer := utils.base64ToArrayBuffer B (Js.join "" chunkArray) in
        Z.of_nat (length buffer) = dataSize ->
        let st' := verifyAndDownload B fp st in
        (chk fp = Some (utils.calculateChecksum buffer) -> receiverState st' = complete)
        /\ (chk fp <> Some (utils.calculateChecksum buffer) ->
              receiverState st' = error
              /\ receiverStatus st'
                 = "Error: Verification FAILED: Checksum mismatch! Data is likely corrupt."
              /\ downloads st' = downloads st
              /\ cleanupTimer st' = cleanupTimer st
              /\ forall result, handleScanResult B result st' = st')).
Proof.
  split; [apply calculateChecksum_spec|].
  intros fp st total dataSize archiveName chunkArray Htot Hsize Hname Hcount Hasm
    buffer Hlen st'.
  assert (Hst' : st' =
    let st1 := if isScanning st then stopScan st else st in
    let st2 := updateReceiverStatus "Verifying data checksum..." false
                 (updateReceiverStatus "Decoding and verifying data size..." false
                    (updateReceiverStatus "All chunks present. Assembling data..." false
                       st1)) in
    if negb (bool_decide (Some (utils.calculateChecksum buffer) = chk fp)) then
      setReceiverState error
        (updateReceiverStatus
           "Verification FAILED: Checksum mismatch! Data is likely corrupt." true st2)
    else
      processVerifiedData B st buffer
        (updateReceiverStatus "Data verified (Size & Checksum OK). Preparing download..."
           false st2)).
  { unfold st', verifyAndDownload. rewrite Htot, Hsize, Hname, Hcount, Hasm.
    rewrite Z.eqb_refl. simpl. fold buffer. rewrite Hlen, Z.eqb_refl. simpl.
    destruct (Z.eqb_spec dataSize 0) as [-> | _]; reflexivity. }
  cbv zeta in Hst'. split.
  - intros Hchk. rewrite Hst'.
    rewrite bool_decide_eq_true_2 by (symmetry; exact Hchk). simpl.
    apply processVerifiedData_complete.
  - intros Hchk. rewrite Hst'.
    rewrite bool_decide_eq_false_2 by (intros Heq; apply Hchk; symmetry; exact Heq).
    simpl.
    split; [reflexivity|]. split; [reflexivity|].
    split; [destruct (isScanning st); [apply stopScan_downloads | reflexivity]|].
    split; [destruct (isScanning st); [apply stopScan_cleanupTimer | reflexivity]|].
    intros result. apply handleScanResult_ignored. reflexivity.
Qed.

End verification.


(** ** The list of missing chunks *)

Section missing_chunks.
Import types browser state receiver spec.

Lemma rangeLoop_ranges rest ranges rangeStart rangeEnd :
  rangeLoop rest (map renderPair ranges) rangeStart rangeEnd
  = map renderPair (rangesLoop rest ranges rangeStart rangeEnd).
Proof.
  revert ranges rangeStart rangeEnd.
  induction rest as [|m rest IH]; intros ranges rangeStart rangeEnd; simpl.
  - now rewrite map_app.
  - destruct (m =? rangeEnd + 1); [apply IH|].
    rewrite <- IH, map_app. reflexivity.
Qed.

Lemma concat_expand_snoc (ranges : list (Z * Z)) (r : Z * Z) :
  concat (map expandRange (ranges ++ [r])) = concat (map expandRange ranges) ++ expandRange r.
Proof. rewrite map_app, concat_app. simpl. now rewrite app_nil_r. Qed.

(** The ranges of the loop, written out, are the numbers it went
    through. *)
Lemma rangesLoop_expand rest ranges rangeStart rangeEnd :
  rangeStart <= rangeEnd ->
  concat (map expandRange (rangesLoop rest ranges rangeStart rangeEnd))
  = concat (map expandRange ranges) ++ seqZ rangeStart (rangeEnd - rangeStart + 1) ++ rest.
Proof.
  revert ranges rangeStart rangeEnd.
  induction rest as [|m rest IH]; intros ranges rangeStart rangeEnd Hle; simpl.
  - rewrite concat_expand_snoc, app_nil_r. reflexivity.
  - destruct (Z.eqb_spec m (rangeEnd + 1)) as [-> | Hm].
    + rewrite IH by lia. f_equal.
      replace (rangeEnd + 1 - rangeStart + 1) with ((rangeEnd - rangeStart + 1) + 1) by lia.
      rewrite seqZ_app by lia. rewrite <- app_assoc. f_equal.
      replace (rangeStart + (rangeEnd - rangeStart + 1)) with (rangeEnd + 1) by lia.
      reflexivity.
    + rewrite IH by lia. rewrite concat_expand_snoc, <- app_assoc.
      unfold expandRange. simpl. f_equal. f_equal.
      replace (m - m + 1) with 1 by lia. reflexivity.
Qed.

Lemma rangesLoop_bounds rest ranges rangeStart rangeEnd :
  rangeStart <= rangeEnd -> Forall (fun r => fst r <= snd r) ranges ->
  Forall (fun r => fst r <= snd r) (rangesLoop rest ranges rangeStart rangeEnd).
Proof.
  revert ranges rangeStart rangeEnd.
  induction rest as [|m rest IH]; intros ranges rangeStart rangeEnd Hle Hall; simpl.
  - apply Forall_app. split; [exact Hall|]. repeat constructor. exact Hle.
  - destruct (Z.eqb_spec m (rangeEnd + 1)) as [-> | Hm].
    + apply IH; [lia | exact Hall].
    + apply IH; [lia|]. apply Forall_app. split; [exact Hall|]. repeat constructor. exact Hle.
Qed.

Lemma nonAdjacent_snoc (ranges : list (Z * Z)) (r : Z * Z) :
  nonAdjacent ranges ->
  (forall r0, last ranges = Some r0 -> fst r <> snd r0 + 1) ->
  nonAdjacent (ranges ++ [r]).
Proof.
  induction ranges as [|r1 ranges IH]; intros Hna Hlast; [exact I|].
  destruct ranges as [|r2 ranges].
  - simpl. split; [|exact I]. apply Hlast. reflexivity.
  - destruct Hna as [H12 Hna]. split; [exact H12|].
    apply IH; [exact Hna|]. intros r0 Hr0. apply Hlast. exact Hr0.
Qed.

Lemma rangesLoop_nonAdjacent rest ranges rangeStart rangeEnd :
  nonAdjacent ranges ->
  (forall r0, last ranges = Some r0 -> rangeStart <> snd r0 + 1) ->
  nonAdjacent (rangesLoop rest ranges rangeStart rangeEnd).
Proof.
  revert ranges rangeStart rangeEnd.
  induction rest as [|m rest IH]; intros ranges rangeStart rangeEnd Hna Hlast; simpl.
  - now apply nonAdjacent_snoc.
  - destruct (Z.eqb_spec m (rangeEnd + 1)) as [-> | Hm].
    + now apply IH.
    + apply IH.
      * now apply nonAdjacent_snoc.
      * intros r0. rewrite last_snoc. intros [= <-]. exact Hm.
Qed.

(** C9. [formatMissingChunks] answers [None] for no number. For some
    numbers it sorts them in ascending order, cuts the sorted list into
    ranges of consecutive numbers, none of which continues the one
    before, and writes the ranges separated by a comma and a space, a
    range of one number as the number and a longer one as its two bounds
    with a hyphen. So it writes [1-3, 5, 7-8] for 1, 2, 3, 5, 7, 8, and
    [4] for 4. *)
Theorem formatMissingChunks_ranges :
  formatMissingChunks [1; 2; 3; 5; 7; 8] = "1-3, 5, 7-8"
  /\ formatMissingChunks [] = "None"
  /\ formatMissingChunks [4] = "4"
  /\ (forall missing,
        let sorted := Js.sortNumbers missing in
        let ranges := contiguousRanges sorted in
        Sorted Z.le sorted /\ sorted ≡ₚ missing
        /\ (missing <> [] -> formatMissingChunks missing = Js.join ", " (map renderPair ranges))
        /\ concat (map expandRange ranges) = sorted
        /\ Forall (fun r => fst r <= snd r) ranges
        /\ nonAdjacent ranges).
Proof.
  split; [reflexivity|]. split; [reflexivity|]. split; [reflexivity|].
  intros missing sorted ranges. subst ranges.
  split; [apply Sorted_merge_sort; apply _|].
  split; [apply merge_sort_Permutation|].
  split.
  { intros Hne. unfold formatMissingChunks.
    destruct missing as [|m0 missing']; [contradiction|].
    assert (Hp : sorted ≡ₚ m0 :: missing') by apply merge_sort_Permutation.
    fold sorted. destruct sorted as [|first rest].
    - apply Permutation_nil_l in Hp. discriminate Hp.
    - simpl. f_equal. apply (rangeLoop_ranges rest [] first first). }
  destruct sorted as [|first rest]; simpl.
  { repeat split; constructor. }
  split.
  { rewrite rangesLoop_expand by lia. simpl.
    replace (first - first + 1) with 1 by lia. reflexivity. }
  split.
  { apply rangesLoop_bounds; [lia | constructor]. }
  apply rangesLoop_nonAdjacent; [exact I | intros r0 [=]].
Qed.

End missing_chunks.


(** ** The sender and the capacity of a QR code *)

Section sender_capacity.
Import types browser sstate sender spec.
Context (B : Browser).

Lemma exceedsCapacity_true payloadString qrCapacity :
  exceedsCapacity payloadString qrCapacity = true
  <-> 11 * qrCapacity < 10 * Js.len payloadString.
Proof. unfold exceedsCapacity. apply Z.ltb_lt. Qed.

Lemma exceedsCapacity_false payloadString qrCapacity :
  exceedsCapacity payloadString qrCapacity = false
  <-> 10 * Js.len payloadString <= 11 * qrCapacity.
Proof. unfold exceedsCapacity. apply Z.ltb_ge. Qed.

Lemma is_Some_true {A} (x : A) : bool_decide (is_Some (Some x)) = true.
Proof. apply bool_decide_eq_true_2. eauto. Qed.

(** C5, as the code has it. The sender is about to display a packet of
    the main sequence. When the serialized packet is longer than 1.1
    times the capacity estimate of the selected level, the packet is not
    displayed and the sequence is stopped: no QR code is on screen, no
    timer is pending, the chunks and the file identifier are dropped, the
    archive stays loaded and the phase is Ready, not Error. When the
    packet is longer than the estimate but within 1.1 times of it, it is
    displayed all the same. *)
Theorem capacity_overflow_stops st buffer payload mainStatus :
  senderTransferPhase st = transferring ->
  dataToSendBuffer st = Some buffer ->
  nextPayload B buffer st = inr (payload, mainStatus) ->
  let payloadString := JSON_stringify payload in
  let qrCapacity := utils.getQrCapacityEstimate (errorCorrectionLevel st) in
  let st' := displayNextChunk B st in
  (11 * qrCapacity < 10 * Js.len payloadString ->
     senderTransferPhase st' = ready
     /\ displayed st' = displayed st
     /\ qrCode st' = None
     /\ transferTimer st' = None
     /\ chunks st' = [] /\ totalDataChunks st' = 0 /\ transferFileId st' = ""
     /\ dataToSendBuffer st' = Some buffer
     /\ base64Data st' = base64Data st)
  /\ (10 * Js.len payloadString <= 11 * qrCapacity ->
        displayed st' = displayed st ++ [payloadString]
        /\ qrCode st' = Some payloadString
        /\ currentChunkIndex st' = currentChunkIndex st + 1
        /\ (senderTransferPhase st' = transferring
            \/ senderTransferPhase st' = final_qr_displayed)).
Proof.
  intros Hphase Hbuf Hnext payloadString qrCapacity st'.
  unfold st', displayNextChunk. rewrite Hphase, Hbuf, Hnext.
  fold payloadString. simpl. fold qrCapacity.
  split.
  - intros Hover. apply exceedsCapacity_true in Hover. rewrite Hover. simpl.
    rewrite Hbuf, is_Some_true. repeat split; reflexivity.
  - intros Hfit. apply exceedsCapacity_false in Hfit. rewrite Hfit.
    repeat case_match; simpl; repeat split; auto.
Qed.

End sender_capacity.


(** ** Resending chosen chunks *)

Section resend_specific.
Import types browser sstate sender spec.
Context (B : Browser).



(** [displaySpecificChunk] on a chunk of the list that exists and fits:
    the chunk is displayed, the index moves on, the next step is
    scheduled. *)
Lemma displaySpecificChunk_emits st buffer k :
  senderTransferPhase st = sending_specific ->
  dataToSendBuffer st = Some buffer ->
  0 <= specificChunkSendIndex st ->
  specificChunksToSend st !! Z.to_nat (specificChunkSendIndex st) = Some k ->
  1 <= k <= Z.of_nat (length (chunks st)) ->
  fits st (dataPacketOf st k) ->
  displaySpecificChunk st
  = scheduleNextSpecificChunk
      (setSpecificChunkSendIndex (specificChunkSendIndex st + 1)
         (generateOrUpdateQrCode (JSON_stringify (dataPacketOf st k))
            (updateSenderStatus
               ("Resending Chunk " +:+ Js.numToString k +:+ " [" +:+
                Js.numToString (specificChunkSendIndex st + 1) +:+ "/" +:+
                Js.numToString (totalStepsInCurrentSequence st) +:+ "]") false st))).
Proof.
  intros Hphase Hbuf Hidx Hk Hrange Hfits. unfold displaySpecificChunk.
  rewrite Hphase, Hbuf, is_Some_true, Hk. cbn [negb orb default from_option id].
  assert (Hlt : (specificChunkSendIndex st < Z.of_nat (length (specificChunksToSend st)))).
  { apply lookup_lt_Some in Hk. lia. }
  destruct (Z.leb_spec (Z.of_nat (length (specificChunksToSend st)))
              (specificChunkSendIndex st)); [lia|].
  destruct (Z.eqb_spec (Z.of_nat (length (chunks st))) 0); [lia|].
  destruct (Z.ltb_spec (k - 1) 0); [lia|].
  destruct (Z.leb_spec (Z.of_nat (length (chunks st))) (k - 1)); [lia|].
  cbn [orb]. unfold fits, dataPacketOf in Hfits.
  change (errorCorrectionLevel (updateSenderStatus ?m false st))
    with (errorCorrectionLevel st).
  rewrite Hfits. reflexivity.
Qed.

Lemma displayFinalConfirmationQR_emits st buffer :
  dataToSendBuffer st = Some buffer -> dataToSendChecksum st <> "" ->
  fits st (finalPacketOf st) ->
  displayFinalConfirmationQR st
  = let st' := generateOrUpdateQrCode (JSON_stringify (finalPacketOf st))
                 (updateSenderStatus "Displaying Final Confirmation QR" false
                    (setSenderPhase final_qr_displayed st)) in
    if isCurrentSequenceManual st then st'
    else setTransferTimer (Some cb_handlePostFinalState) st'.
Proof.
  intros Hbuf Hchk Hfits. unfold displayFinalConfirmationQR.
  rewrite Hbuf, is_Some_true. apply String.eqb_neq in Hchk. rewrite Hchk.
  cbn [negb orb]. unfold fits, finalPacketOf in Hfits.
  change (errorCorrectionLevel (updateSenderStatus ?m false (setSenderPhase ?p st)))
    with (errorCorrectionLevel st).
  rewrite Hfits. reflexivity.
Qed.

Opaque JSON_stringify Js.numToString.

(** A step of [displaySpecificChunk] in terms of the sequence. *)
Lemma displaySpecificChunk_sequence st buffer (seqs : list Z) i k manual timer shown :
  sequenceOf st = (sending_specific, seqs, i, manual, timer, shown) ->
  dataToSendBuffer st = Some buffer ->
  0 <= i -> seqs !! Z.to_nat i = Some k ->
  1 <= k <= Z.of_nat (length (chunks st)) ->
  fits st (dataPacketOf st k) ->
  sequenceOf (displaySpecificChunk st)
  = (sending_specific, seqs, i + 1, manual,
     if manual then timer
     else Some (if i + 1 <? Z.of_nat (length seqs) then cb_displaySpecificChunk
                else cb_displayFinalConfirmationQR),
     shown ++ [JSON_stringify (dataPacketOf st k)])
  /\ archiveOf (displaySpecificChunk st) = archiveOf st.
Proof.
  intros Hseq Hbuf Hi Hk Hrange Hfits.
  unfold sequenceOf in Hseq. injection Hseq as Hphase Hlist Hidx Hman Htimer Hshown.
  rewrite (displaySpecificChunk_emits st buffer k);
    [ | exact Hphase | exact Hbuf | lia | now rewrite Hlist, Hidx | exact Hrange
      | exact Hfits ].
  unfold scheduleNextSpecificChunk. simpl.
  rewrite Hphase, Hlist, Hidx, Hman.
  destruct (i + 1 <? Z.of_nat (length seqs)), manual;
    unfold sequenceOf, archiveOf; simpl;
    rewrite ?Hphase, ?Hlist, ?Hman, ?Htimer, ?Hshown; split; reflexivity.
Qed.

Lemma archiveOf_packets st st' :
  archiveOf st' = archiveOf st ->
  (forall k, dataPacketOf st' k = dataPacketOf st k)
  /\ finalPacketOf st' = finalPacketOf st
  /\ (forall payload, fits st' payload <-> fits st payload).
Proof.
  unfold archiveOf, dataPacketOf, finalPacketOf, fits.
  intros [= Hbuf Hchunks Hfid Hchk Hlevel Hindex Htotal].
  rewrite Hchunks, Hfid, Hchk, Hlevel. repeat split; auto.
Qed.

Lemma displaySpecificChunk_done st seqs i manual timer shown :
  sequenceOf st = (sending_specific, seqs, i, manual, timer, shown) ->
  Z.of_nat (length seqs) <= i ->
  displaySpecificChunk st
  = displayFinalConfirmationQR
      (updateSenderStatus
         "Specific chunk send complete. Displaying final confirmation QR..." false st).
Proof.
  unfold sequenceOf. intros [= Hphase Hlist Hidx Hman Htimer Hshown] Hdone.
  unfold displaySpecificChunk. rewrite Hphase, Hlist, Hidx.
  destruct (Z.leb_spec (Z.of_nat (length seqs)) i); [reflexivity | lia].
Qed.

Lemma displayFinalConfirmationQR_sequence st buffer phase seqs i manual timer shown :
  sequenceOf st = (phase, seqs, i, manual, timer, shown) ->
  dataToSendBuffer st = Some buffer -> dataToSendChecksum st <> "" ->
  fits st (finalPacketOf st) ->
  sequenceOf (displayFinalConfirmationQR st)
  = (final_qr_displayed, seqs, i, manual,
     if manual then timer else Some cb_handlePostFinalState,
     shown ++ [JSON_stringify (finalPacketOf st)])
  /\ archiveOf (displayFinalConfirmationQR st) = archiveOf st.
Proof.
  unfold sequenceOf. intros [= Hphase Hlist Hidx Hman Htimer Hshown] Hbuf Hchk Hfits.
  rewrite (displayFinalConfirmationQR_emits st buffer) by assumption.
  cbv zeta. rewrite Hman.
  destruct manual; unfold archiveOf; simpl;
    rewrite ?Hlist, ?Hidx, ?Hman, ?Htimer, ?Hshown; split; reflexivity.
Qed.

Lemma handlePostFinalState_sequence st seqs i manual timer shown :
  sequenceOf st = (final_qr_displayed, seqs, i, manual, timer, shown) ->
  sequenceOf (handlePostFinalState st) = (post_final, seqs, i, false, None, shown)
  /\ archiveOf (handlePostFinalState st) = archiveOf st.
Proof.
  unfold sequenceOf. intros [= Hphase Hlist Hidx Hman Htimer Hshown].
  unfold handlePostFinalState. simpl. rewrite Hphase. unfold archiveOf. simpl.
  rewrite Hlist, Hidx, Hshown. split; reflexivity.
Qed.


Lemma advance_manual_specific st :
  isCurrentSequenceManual st = true -> senderTransferPhase st = sending_specific ->
  main.advance B st = displaySpecificChunk st.
Proof. intros Hm Hp. unfold main.advance, main.nextChunkBtnClick. now rewrite Hm, Hp. Qed.

Lemma advance_manual_final st :
  isCurrentSequenceManual st = true -> senderTransferPhase st = final_qr_displayed ->
  totalDataChunks st < currentChunkIndex st ->
  main.advance B st = handlePostFinalState st.
Proof.
  intros Hm Hp Hi. unfold main.advance, main.nextChunkBtnClick. rewrite Hm, Hp.
  destruct (Z.ltb_spec (totalDataChunks st) (currentChunkIndex st)); [reflexivity | lia].
Qed.

Lemma advance_timer st callback :
  isCurrentSequenceManual st = false -> transferTimer st = Some callback ->
  main.advance B st
  = match callback with
    | cb_displayNextChunk => displayNextChunk B (setTransferTimer None st)
    | cb_handlePostFinalState => handlePostFinalState (setTransferTimer None st)
    | cb_displaySpecificChunk => displaySpecificChunk (setTransferTimer None st)
    | cb_displayFinalConfirmationQR => displayFinalConfirmationQR (setTransferTimer None st)
    end.
Proof. intros Hm Ht. unfold main.advance, main.timerFires. now rewrite Hm, Ht. Qed.

(** The advance signal while chunks of the list are left. *)
Lemma advance_next_chunk st buffer (seqs : list Z) i k (manual : bool) shown :
  sequenceOf st = (sending_specific, seqs, i, manual,
                   if manual then None else Some cb_displaySpecificChunk, shown) ->
  dataToSendBuffer st = Some buffer ->
  0 <= i -> seqs !! Z.to_nat i = Some k ->
  1 <= k <= Z.of_nat (length (chunks st)) ->
  fits st (dataPacketOf st k) ->
  sequenceOf (main.advance B st)
  = (sending_specific, seqs, i + 1, manual,
     if manual then None
     else Some (if i + 1 <? Z.of_nat (length seqs) then cb_displaySpecificChunk
                else cb_displayFinalConfirmationQR),
     shown ++ [JSON_stringify (dataPacketOf st k)])
  /\ archiveOf (main.advance B st) = archiveOf st.
Proof.
  intros Hseq Hbuf Hi Hk Hrange Hfits.
  pose proof Hseq as Hseq'. unfold sequenceOf in Hseq'.
  injection Hseq' as Hphase Hlist Hidx Hman Htimer Hshown.
  destruct manual.
  - rewrite advance_manual_specific by assumption.
    apply (displaySpecificChunk_sequence st buffer seqs i k true None shown); assumption.
  - rewrite (advance_timer st cb_displaySpecificChunk) by assumption.
    destruct (displaySpecificChunk_sequence (setTransferTimer None st) buffer seqs i k false
                None shown) as [H1 H2]; try assumption;
      [unfold sequenceOf; simpl; now rewrite Hphase, Hlist, Hidx, Hman, Hshown ..
      |split; [exact H1 | exact H2]].
Qed.

(** The advance signal once the list is through: the Final packet. *)
Lemma advance_final st buffer (seqs : list Z) i (manual : bool) shown :
  sequenceOf st = (sending_specific, seqs, i, manual,
                   if manual then None else Some cb_displayFinalConfirmationQR, shown) ->
  Z.of_nat (length seqs) <= i ->
  dataToSendBuffer st = Some buffer -> dataToSendChecksum st <> "" ->
  fits st (finalPacketOf st) ->
  sequenceOf (main.advance B st)
  = (final_qr_displayed, seqs, i, manual,
     if manual then None else Some cb_handlePostFinalState,
     shown ++ [JSON_stringify (finalPacketOf st)])
  /\ archiveOf (main.advance B st) = archiveOf st.
Proof.
  intros Hseq Hdone Hbuf Hchk Hfits.
  pose proof Hseq as Hseq'. unfold sequenceOf in Hseq'.
  injection Hseq' as Hphase Hlist Hidx Hman Htimer Hshown.
  destruct manual.
  - rewrite advance_manual_specific by assumption.
    rewrite (displaySpecificChunk_done st seqs i true None shown) by assumption.
    match goal with
    | |- context [displayFinalConfirmationQR ?x] =>
        pose proof (displayFinalConfirmationQR_sequence x buffer sending_specific seqs i
                      true None shown) as Hstep
    end.
    destruct Hstep as [H1 H2]; try assumption;
      [unfold sequenceOf; simpl; now rewrite Hphase, Hlist, Hidx, Hman, Htimer, Hshown ..
      |split; [exact H1 | exact H2]].
  - rewrite (advance_timer st cb_displayFinalConfirmationQR) by assumption.
    match goal with
    | |- context [displayFinalConfirmationQR ?x] =>
        pose proof (displayFinalConfirmationQR_sequence x buffer sending_specific seqs i
                      false None shown) as Hstep
    end.
    destruct Hstep as [H1 H2]; try assumption;
      [unfold sequenceOf; simpl; now rewrite Hphase, Hlist, Hidx, Hman, Hshown ..
      |split; [exact H1 | exact H2]].
Qed.

(** The advance signal after the Final packet: back to PostFinal. *)
Lemma advance_post_final st (seqs : list Z) i (manual : bool) shown :
  sequenceOf st = (final_qr_displayed, seqs, i, manual,
                   if manual then None else Some cb_handlePostFinalState, shown) ->
  totalDataChunks st < currentChunkIndex st ->
  sequenceOf (main.advance B st) = (post_final, seqs, i, false, None, shown)
  /\ archiveOf (main.advance B st) = archiveOf st.
Proof.
  intros Hseq Hindex.
  pose proof Hseq as Hseq'. unfold sequenceOf in Hseq'.
  injection Hseq' as Hphase Hlist Hidx Hman Htimer Hshown.
  destruct manual.
  - rewrite advance_manual_final by assumption.
    apply (handlePostFinalState_sequence st seqs i true None shown). exact Hseq.
  - rewrite (advance_timer st cb_handlePostFinalState) by assumption.
    destruct (handlePostFinalState_sequence (setTransferTimer None st) seqs i false None
                shown) as [H1 H2]; try assumption;
      [unfold sequenceOf; simpl; now rewrite Hphase, Hlist, Hidx, Hman, Hshown ..
      |split; [exact H1 | exact H2]].
Qed.


Transparent JSON_stringify Js.numToString.

End resend_specific.

(** ** The scenarios, through the theorems *)

Section scenarios_checked.
Import types browser state receiver events examples spec scenarios.

Lemma reachable_run B evs st : reachable B st -> reachable B (run B evs st).
Proof.
  revert st. induction evs as [|ev evs IH]; intros st H; [exact H|].
  apply IH. now constructor.
Qed.

Lemma reachable_deliver B packets st : reachable B st -> reachable B (deliver B packets st).
Proof.
  revert st. induction packets as [|p packets IH]; intros st H; [exact H|].
  apply IH. exact (reachable_step B (Scan (Structured p)) st H).
Qed.

Lemma reachable_partlyReceived : reachable exampleBrowser partlyReceived.
Proof. apply reachable_deliver, reachable_run. constructor. Qed.

(** The chunks 3, 1, 3, 5 and 1 leave the store of the chunks 1, 3
    and 5. *)
Lemma store_order_independent_witness :
  let st1 := deliver exampleBrowser (dataPackets fileId chunk [3; 1; 3; 5; 1]) inSession in
  ascendingOnce [3; 1; 3; 5; 1] = [1; 3; 5]
  /\ receivedChunksMap st1 = receivedChunksMap partlyReceived
  /\ receivedChunkCount st1 = 3.
Proof.
  destruct (store_order_independent exampleBrowser fileId chunk 5 inSession [3; 1; 3; 5; 1])
    as (_ & _ & Hmap & Hcount & _).
  - reflexivity.
  - reflexivity.
  - discriminate.
  - reflexivity.
  - lia.
  - reflexivity.
  - intros k [x Hx]. vm_compute in Hx. discriminate.
  - split; [reflexivity|]. split; [exact Hmap|]. rewrite Hcount. reflexivity.
Defined.

(** A packet of version 2 in the middle of the session. *)
Lemma version_mismatch_halts_witness :
  let st' := handleScanResult exampleBrowser (Structured newerData) partlyReceived in
  receiverState st' = error
  /\ receiverStatus st'
     = "Error: Incompatible protocol version (Received: 2, Expected: 1). Stopping."
  /\ isScanning st' = false
  /\ handleScanResult exampleBrowser (Structured (data 2)) st' = st'
  /\ expectedFileId st' = Some fileId
  /\ receivedChunkCount st' = 3.
Proof.
  destruct (version_mismatch_halts exampleBrowser newerData partlyReceived)
    as (Hstate & Hstatus & _ & _ & Hstop & Hlater & Hsession & Hstore & _).
  - now vm_compute.
  - now vm_compute.
  - now vm_compute.
  - split; [exact Hstate|]. split; [exact Hstatus|].
    split; [now apply Hstop|]. split; [apply Hlater|].
    split.
    + apply (f_equal (fun s => fst (fst (fst (fst (fst s)))))) in Hsession. exact Hsession.
    + apply (f_equal snd) in Hstore. exact Hstore.
Defined.

(** The session outlives the packet of version 2: the file identifier
    and the three chunks are still there. *)
Lemma version_mismatch_keeps_session :
  ~ versionMismatchClaim 2
      (handleScanResult exampleBrowser (Structured newerData) partlyReceived).
Proof.
  intros (_ & _ & _ & Hsession & _).
  apply (f_equal (fun s => fst (fst (fst (fst (fst s)))))) in Hsession.
  vm_compute in Hsession. discriminate.
Qed.

(** A handshake of 917 characters at the level H, whose estimate is 800:
    it is not displayed and the sender is back in Ready. *)
Lemma capacity_overflow_stops_witness :
  let st := aboutToStart 800 in
  let st' := sender.displayNextChunk exampleBrowser st in
  sstate.senderTransferPhase st = transferring
  /\ utils.getQrCapacityEstimate (sstate.errorCorrectionLevel st) = 800
  /\ sstate.senderTransferPhase st' = ready
  /\ sstate.displayed st' = []
  /\ sstate.dataToSendBuffer st' = Some archive.
Proof.
  destruct (sender.nextPayload exampleBrowser archive (aboutToStart 800))
    as [early | [payload mainStatus]] eqn:Hnext; [vm_compute in Hnext; discriminate|].
  destruct (capacity_overflow_stops exampleBrowser (aboutToStart 800) archive payload
              mainStatus) as [Hover _].
  - vm_compute. reflexivity.
  - vm_compute. reflexivity.
  - exact Hnext.
  - destruct Hover as (Hphase & Hshown & _ & _ & _ & _ & _ & Hbuffer & _).
    + vm_compute in Hnext. injection Hnext as <- _. vm_compute. reflexivity.
    + split; [vm_compute; reflexivity|]. split; [vm_compute; reflexivity|].
      split; [exact Hphase|]. split; [exact Hshown|]. exact Hbuffer.
Defined.

(** The same handshake against the sentence of the specification: the
    sender is not in the error phase. *)
Lemma capacity_overflow_not_error : ~ capacityClaim exampleBrowser (aboutToStart 800).
Proof.
  intros Hclaim.
  destruct (sender.nextPayload exampleBrowser archive (aboutToStart 800))
    as [early | [payload mainStatus]] eqn:Hnext; [vm_compute in Hnext; discriminate|].
  destruct (Hclaim archive payload mainStatus) as [Hphase _].
  - vm_compute. reflexivity.
  - vm_compute. reflexivity.
  - exact Hnext.
  - vm_compute in Hnext. injection Hnext as <- _. vm_compute. reflexivity.
  - vm_compute in Hphase. discriminate.
Qed.

(** A handshake of 837 characters at the level H is over the estimate of
    800 and within 880: it is displayed. *)
Lemma slight_overflow_displayed :
  let st := aboutToStart 720 in
  let st' := sender.displayNextChunk exampleBrowser st in
  sstate.senderTransferPhase st' = transferring
  /\ map Js.len (sstate.displayed st') = [837].
Proof. vm_compute. split; reflexivity. Qed.

(** The checksum of the archive, and the verification of the five chunks
    against the Final packet of the sender and against one with another
    checksum. *)
Lemma checksum_verification_witness :
  utils.calculateChecksum archive = "4cef"
  /\ receiverState (verifyAndDownload exampleBrowser final allReceived) = complete
  /\ receiverState
       (verifyAndDownload exampleBrowser (sender.finalPayload fileId "4CEF") allReceived)
     = error.
Proof.
  destruct (checksum_verification exampleBrowser) as [Hsum Hverify].
  split.
  - destruct (Hsum archive) as [-> _]. vm_compute. reflexivity.
  - split.
    + destruct (Hverify final allReceived 5 303 "transfer_archive.zip"
                  (map chunk [1; 2; 3; 4; 5])) as [Hmatch _];
        [vm_compute; reflexivity ..|].
      apply Hmatch. vm_compute. reflexivity.
    + destruct (Hverify (sender.finalPayload fileId "4CEF") allReceived 5 303
                  "transfer_archive.zip" (map chunk [1; 2; 3; 4; 5])) as [_ Hmismatch];
        [vm_compute; reflexivity ..|].
      apply Hmismatch. vm_compute. discriminate.
Defined.


(** The numbers 4 and 2. *)
Lemma formatMissingChunks_ranges_witness : formatMissingChunks [4; 2] = "2, 4".
Proof.
  destruct formatMissingChunks_ranges as (_ & _ & _ & Hranges).
  destruct (Hranges [4; 2]) as (_ & _ & Htext & _).
  rewrite Htext by discriminate. vm_compute. reflexivity.
Defined.

(** The count of the receiver that has three chunks. *)
Lemma count_is_cardinality_witness :
  receivedChunkCount partlyReceived = 3 /\ size (receivedChunksMap partlyReceived) = 3%nat.
Proof.
  destruct (count_is_cardinality exampleBrowser) as (_ & _ & _ & Hreach).
  pose proof (Hreach partlyReceived reachable_partlyReceived) as Hcount.
  unfold countMatches in Hcount.
  assert (Hthree : receivedChunkCount partlyReceived = 3) by (vm_compute; reflexivity).
  split; [exact Hthree|]. lia.
Defined.

(** The receiver reads the handshake and the first chunk, is stopped and
    started again, and reads the Final packet of the session it was
    in. *)
Lemma final_ignored_while_waiting_witness :
  expectedFileId (run exampleBrowser (take 4 restart) initialReceiver) = Some fileId
  /\ receiverState restarted = waiting_handshake
  /\ expectedFileId restarted = None
  /\ handleScanResult exampleBrowser (Structured final) restarted = restarted.
Proof.
  destruct (final_ignored_while_waiting exampleBrowser restarted final) as [Hfid Hsame].
  - apply reachable_run. constructor.
  - vm_compute. reflexivity.
  - vm_compute. reflexivity.
  - vm_compute. discriminate.
  - vm_compute. reflexivity.
  - split; [vm_compute; reflexivity|]. split; [vm_compute; reflexivity|].
    split; [exact Hfid | exact Hsame].
Defined.

End scenarios_checked.

(** ** What the checksum tells apart *)

Section checksum_collisions.
Import spec.

Lemma sumBytes_app (a b : list byte) : sumBytes (a ++ b) = sumBytes a + sumBytes b.
Proof. induction a as [|x a IH]; simpl; [reflexivity | rewrite IH; lia]. Qed.

Lemma sumBytes_Permutation (a b : list byte) : a ≡ₚ b -> sumBytes a = sumBytes b.
Proof. induction 1; simpl; lia. Qed.

Lemma digitChar_injective (d e : Z) :
  0 <= d < 16 -> 0 <= e < 16 -> Js.digitChar d = Js.digitChar e -> d = e.
Proof.
  intros Hd He Heq.
  assert (Hcode : forall x, 0 <= x < 16 ->
            Z.of_N (N_of_ascii (Js.digitChar x)) = if x <? 10 then 48 + x else 87 + x).
  { intros x Hx. unfold Js.digitChar.
    destruct (x <? 10); rewrite N_ascii_embedding; lia. }
  apply (f_equal (fun c => Z.of_N (N_of_ascii c))) in Heq.
  rewrite !Hcode in Heq by assumption.
  destruct (Z.ltb_spec d 10), (Z.ltb_spec e 10); lia.
Qed.

Lemma hex4_injective (n m : Z) :
  0 <= n < 65536 -> 0 <= m < 65536 -> hex4 n = hex4 m -> n = m.
Proof.
  intros Hn Hm. unfold hex4. intros [= H3 H2 H1 H0].
  apply digitChar_injective in H3; [|split; [apply Z.div_pos|apply Z.div_lt_upper_bound]; lia ..].
  apply digitChar_injective in H2; [|apply Z.mod_pos_bound; lia ..].
  apply digitChar_injective in H1; [|apply Z.mod_pos_bound; lia ..].
  apply digitChar_injective in H0; [|apply Z.mod_pos_bound; lia ..].
  pose proof (Z.div_mod n 16). pose proof (Z.div_mod (n / 16) 16).
  pose proof (Z.div_mod (n / 256) 16).
  pose proof (Z.div_mod m 16). pose proof (Z.div_mod (m / 16) 16).
  pose proof (Z.div_mod (m / 256) 16).
  replace (n / 16 / 16) with (n / 256) in * by (rewrite Z.div_div by lia; reflexivity).
  replace (m / 16 / 16) with (m / 256) in * by (rewrite Z.div_div by lia; reflexivity).
  replace (n / 256 / 16) with (n / 4096) in * by (rewrite Z.div_div by lia; reflexivity).
  replace (m / 256 / 16) with (m / 4096) in * by (rewrite Z.div_div by lia; reflexivity).
  assert (Hn3 : n / 4096 mod 16 = n / 4096)
    by (apply Z.mod_small; split; [apply Z.div_pos|apply Z.div_lt_upper_bound]; lia).
  assert (Hm3 : m / 4096 mod 16 = m / 4096)
    by (apply Z.mod_small; split; [apply Z.div_pos|apply Z.div_lt_upper_bound]; lia).
  lia.
Qed.

(** X1. Two buffers have the same checksum exactly when the sums of their
    bytes agree modulo 65536. The order of the bytes does not count: a
    buffer and any rearrangement of it have the same checksum. *)
Theorem checksum_equal_iff :
  (forall a b : list byte,
      utils.calculateChecksum a = utils.calculateChecksum b
      <-> sumBytes a mod 65536 = sumBytes b mod 65536)
  /\ (forall a b : list byte,
        a ≡ₚ b -> utils.calculateChecksum a = utils.calculateChecksum b).
Proof.
  assert (Hiff : forall a b : list byte,
             utils.calculateChecksum a = utils.calculateChecksum b
             <-> sumBytes a mod 65536 = sumBytes b mod 65536).
  { intros a b.
    destruct (calculateChecksum_spec a) as [-> _].
    destruct (calculateChecksum_spec b) as [-> _].
    split; [|now intros ->].
    apply hex4_injective; apply Z.mod_pos_bound; lia. }
  split; [exact Hiff|].
  intros a b Hperm. apply Hiff. now rewrite (sumBytes_Permutation a b Hperm).
Qed.

(** X2. A buffer in which one byte is replaced by another value has another
    checksum. *)
Theorem checksum_detects_byte_change (before after : list byte) (x y : byte) :
  x <> y ->
  utils.calculateChecksum (before ++ x :: after)
  <> utils.calculateChecksum (before ++ y :: after).
Proof.
  intros Hxy Heq.
  destruct (calculateChecksum_spec (before ++ x :: after)) as [Hx _].
  destruct (calculateChecksum_spec (before ++ y :: after)) as [Hy _].
  rewrite Hx, Hy in Heq.
  apply hex4_injective in Heq; [|apply Z.mod_pos_bound; lia ..].
  rewrite !sumBytes_app in Heq. simpl in Heq.
  pose proof (byte_range x) as Hbx. pose proof (byte_range y) as Hby.
  assert (Hne : Z.of_N (Byte.to_N x) <> Z.of_N (Byte.to_N y)).
  { intros H. apply Hxy. apply N2Z.inj in H.
    apply (f_equal Byte.of_N) in H. rewrite !Byte.of_to_N in H. congruence. }
  set (s := sumBytes before + sumBytes after) in *.
  set (p := Z.of_N (Byte.to_N x)) in *. set (q := Z.of_N (Byte.to_N y)) in *.
  replace (sumBytes before + (p + sumBytes after)) with (s + p) in Heq by (unfold s; lia).
  replace (sumBytes before + (q + sumBytes after)) with (s + q) in Heq by (unfold s; lia).
  assert (Hdiff : (p - q) mod 65536 = 0).
  { replace (p - q) with ((s + p) - (s + q)) by lia.
    rewrite Zminus_mod, Heq, Z.sub_diag. reflexivity. }
  apply Z.mod_divide in Hdiff; [|lia]. destruct Hdiff as [k Hk]. lia.
Qed.

End checksum_collisions.

(** ** The chunk numbers [parseChunkInput] answers *)

Section parse_chunk_input.

Lemma elem_of_setAdd (set : list Z) (x y : Z) : y ∈ Js.setAdd set x <-> y ∈ set \/ y = x.
Proof.
  unfold Js.setAdd. case_bool_decide as Hin.
  - split; [auto|]. intros [H | ->]; assumption.
  - rewrite elem_of_app, list_elem_of_singleton. reflexivity.
Qed.

Lemma NoDup_setAdd (set : list Z) (x : Z) : NoDup set -> NoDup (Js.setAdd set x).
Proof.
  intros Hnd. unfold Js.setAdd. case_bool_decide as Hin; [exact Hnd|].
  apply NoDup_app. split; [exact Hnd|]. split.
  - intros y Hy Hy'. apply list_elem_of_singleton in Hy'. subst. contradiction.
  - apply NoDup_singleton.
Qed.

Lemma elem_of_fold_setAdd (l set : list Z) (y : Z) :
  y ∈ fold_left Js.setAdd l set <-> y ∈ set \/ y ∈ l.
Proof.
  revert set. induction l as [|x l IH]; intros set; simpl.
  - rewrite elem_of_nil. tauto.
  - rewrite IH, elem_of_setAdd, elem_of_cons. tauto.
Qed.

Lemma NoDup_fold_setAdd (l set : list Z) : NoDup set -> NoDup (fold_left Js.setAdd l set).
Proof.
  revert set. induction l as [|x l IH]; intros set Hnd; simpl; [exact Hnd|].
  apply IH. now apply NoDup_setAdd.
Qed.

Lemma parseParts_sound (parts : list string) (maxChunk : Z) (set result : list Z) :
  utils.parseParts parts maxChunk set = Some result ->
  NoDup set -> Forall (fun k => 1 <= k <= maxChunk) set ->
  NoDup result /\ Forall (fun k => 1 <= k <= maxChunk) result.
Proof.
  revert set. induction parts as [|part parts IH]; intros set Hres Hnd Hin; simpl in Hres.
  - injection Hres as <-. auto.
  - destruct (String.eqb (Js.trim part) ""); [now apply (IH set)|].
    destruct (Js.includes (Js.trim part) "-"%char).
    + destruct (Js.split "-"%char (Js.trim part)) as [|rangeStart [|rangeEnd [|]]];
        try discriminate.
      destruct (negb (Js.testDigits (Js.trim rangeStart))
                || negb (Js.testDigits (Js.trim rangeEnd))); [discriminate|].
      set (start := Js.parseInt (Js.trim rangeStart)) in *.
      set (end_ := Js.parseInt (Js.trim rangeEnd)) in *.
      destruct ((start <=? 0) || (end_ <? start) || (maxChunk <? start) || (maxChunk <? end_))
        eqn:Hcheck; [discriminate|].
      apply (IH _ Hres); [now apply NoDup_fold_setAdd|].
      apply Forall_forall. intros k Hk. apply elem_of_fold_setAdd in Hk.
      destruct Hk as [Hk | Hk].
      * rewrite Forall_forall in Hin. now apply Hin.
      * apply elem_of_seqZ in Hk. lia.
    + destruct (negb (Js.testDigits (Js.trim part))); [discriminate|].
      set (num := Js.parseInt (Js.trim part)) in *.
      destruct ((num <=? 0) || (maxChunk <? num)) eqn:Hcheck; [discriminate|].
      apply (IH _ Hres); [now apply NoDup_setAdd|].
      apply Forall_forall. intros k Hk. apply elem_of_setAdd in Hk.
      destruct Hk as [Hk | ->].
      * rewrite Forall_forall in Hin. now apply Hin.
      * lia.
Qed.

Lemma parseChunkInput_range (input : string) (maxChunk : Z) (numbers : list Z) :
  utils.parseChunkInput input maxChunk = Some numbers ->
  StronglySorted Z.lt numbers /\ Forall (fun k => 1 <= k <= maxChunk) numbers.
Proof.
  unfold utils.parseChunkInput. intros Hres.
  destruct (String.eqb input "" || String.eqb (Js.trim input) "").
  { injection Hres as <-. split; constructor. }
  destruct (maxChunk <=? 0); [discriminate|].
  destruct (utils.parseParts (Js.split ","%char input) maxChunk []) as [set|] eqn:Hparts;
    [|discriminate].
  injection Hres as <-.
  destruct (parseParts_sound _ _ _ _ Hparts) as [Hnd Hin]; [constructor ..|].
  unfold Js.sortNumbers. split.
  - apply StronglySorted_le_lt.
    + apply StronglySorted_merge_sort; apply _.
    + now rewrite merge_sort_Permutation.
  - now rewrite merge_sort_Permutation.
Qed.

(** X3. Whatever the input, a list that [parseChunkInput] answers is in
    strictly ascending order, so without a number twice, and holds only
    numbers from 1 to [maxChunk]. *)
Theorem parseChunkInput_sound (input : string) (maxChunk : Z) (numbers : list Z) :
  utils.parseChunkInput input maxChunk = Some numbers ->
  StronglySorted Z.lt numbers /\ Forall (fun k => 1 <= k <= maxChunk) numbers.
Proof. apply parseChunkInput_range. Qed.

Lemma parseChunkInput_sound_witness :
  utils.parseChunkInput " 4-6, 2,5 ,2" 6 = Some [2; 4; 5; 6]
  /\ StronglySorted Z.lt [2; 4; 5; 6] /\ Forall (fun k => 1 <= k <= 6) [2; 4; 5; 6].
Proof.
  assert (H : utils.parseChunkInput " 4-6, 2,5 ,2" 6 = Some [2; 4; 5; 6])
    by (vm_compute; reflexivity).
  split; [exact H|]. exact (parseChunkInput_sound _ _ _ H).
Defined.

End parse_chunk_input.

(** ** The missing chunks, from the receiver's display to the sender's input *)

Section missing_round_trip.
Import types browser state receiver spec texts.

Lemma every_append p (a b : string) : every p (a +:+ b) = every p a && every p b.
Proof.
  induction a as [|c a IH]; [reflexivity|].
  rewrite append_cons. cbn [every]. now rewrite IH, andb_assoc.
Qed.

Lemma every_impl (p q : ascii -> bool) (s : string) :
  (forall c, p c = true -> q c = true) -> every p s = true -> every q s = true.
Proof.
  intros Hpq. induction s as [|c s IH]; [reflexivity|]. cbn [every].
  intros [Hc Hs]%andb_prop. now rewrite (Hpq c Hc), IH.
Qed.

Lemma allDigits_every (s : string) : Js.allDigits s = every Js.isDigit s.
Proof. induction s as [|c s IH]; [reflexivity|]. cbn. now rewrite IH. Qed.

Lemma isDigit_rangeChar (c : ascii) : Js.isDigit c = true -> rangeChar c = true.
Proof. unfold rangeChar. now intros ->. Qed.

Lemma isDigit_notHyphen (c : ascii) : Js.isDigit c = true -> isNot "-" c = true.
Proof. destruct c as [[] [] [] [] [] [] [] []]; vm_compute; congruence. Qed.

Lemma rangeChar_notComma (c : ascii) : rangeChar c = true -> isNot "," c = true.
Proof. destruct c as [[] [] [] [] [] [] [] []]; vm_compute; congruence. Qed.

Lemma rangeChar_notWhiteSpace (c : ascii) : rangeChar c = true -> notWhiteSpace c = true.
Proof. destruct c as [[] [] [] [] [] [] [] []]; vm_compute; congruence. Qed.

(** *** [split], [includes] and [trim] on strings without the separator
    or without white space *)

Lemma split_none (sep : ascii) (s : string) :
  every (isNot sep) s = true -> Js.split sep s = [s].
Proof.
  induction s as [|c s IH]; [reflexivity|]. cbn [every Js.split]. unfold isNot at 1.
  intros [Hc Hs]%andb_prop. destruct (Ascii.eqb c sep); [discriminate|].
  now rewrite (IH Hs).
Qed.

Lemma split_append (sep : ascii) (a b : string) :
  every (isNot sep) a = true ->
  Js.split sep (a +:+ String sep b) = a :: Js.split sep b.
Proof.
  induction a as [|c a IH].
  - intros _. rewrite append_empty_l. cbn [Js.split]. now rewrite Ascii.eqb_refl.
  - cbn [every]. unfold isNot at 1. intros [Hc Ha]%andb_prop.
    rewrite append_cons. cbn [Js.split].
    destruct (Ascii.eqb c sep); [discriminate|]. now rewrite (IH Ha).
Qed.

Lemma includes_none (sep : ascii) (s : string) :
  every (isNot sep) s = true -> Js.includes s sep = false.
Proof.
  induction s as [|c s IH]; [reflexivity|]. cbn [every Js.includes]. unfold isNot at 1.
  intros [Hc Hs]%andb_prop. destruct (Ascii.eqb c sep); [discriminate|]. now apply IH.
Qed.

Lemma includes_append (sep : ascii) (a b : string) :
  Js.includes (a +:+ String sep b) sep = true.
Proof.
  induction a as [|c a IH].
  - rewrite append_empty_l. cbn [Js.includes]. now rewrite Ascii.eqb_refl.
  - rewrite append_cons. cbn [Js.includes]. rewrite IH. apply orb_true_r.
Qed.

Lemma trimEnd_solid (s : string) : every notWhiteSpace s = true -> Js.trimEnd s = s.
Proof.
  induction s as [|c s IH]; [reflexivity|]. cbn [every Js.trimEnd]. unfold notWhiteSpace at 1.
  intros [Hc Hs]%andb_prop. rewrite (IH Hs).
  destruct (Js.isWhiteSpace c); [discriminate|]. now destruct s.
Qed.

Lemma trimStart_solid (s : string) : every notWhiteSpace s = true -> Js.trimStart s = s.
Proof.
  destruct s as [|c s]; [reflexivity|]. cbn [every Js.trimStart]. unfold notWhiteSpace at 1.
  intros [Hc Hs]%andb_prop. now destruct (Js.isWhiteSpace c).
Qed.

Lemma trim_solid (s : string) : every notWhiteSpace s = true -> Js.trim s = s.
Proof.
  intros Hs. unfold Js.trim. now rewrite trimStart_solid, trimEnd_solid.
Qed.

Lemma trim_spaced (s : string) : every notWhiteSpace s = true -> Js.trim (" " +:+ s) = s.
Proof.
  intros Hs. unfold Js.trim. change (" " +:+ s) with (String " " s).
  change (Js.trimStart (String " " s)) with (Js.trimStart s).
  now rewrite trimStart_solid, trimEnd_solid.
Qed.

(** A string that starts with a character that is no white space is not
    trimmed to nothing. *)
Lemma trim_not_empty (c : ascii) (s : string) :
  Js.isWhiteSpace c = false -> Js.trim (String c s) <> "".
Proof.
  intros Hc. unfold Js.trim. cbn [Js.trimStart]. rewrite Hc. cbn [Js.trimEnd].
  rewrite Hc. now destruct (Js.trimEnd s).
Qed.

(** *** The decimal digits of a number are read back as the number *)

Lemma digitChar_decimal (d : Z) :
  0 <= d < 10 ->
  Js.isDigit (Js.digitChar d) = true /\ Z.of_N (N_of_ascii (Js.digitChar d)) - 48 = d.
Proof.
  intros Hd.
  assert (Hcases : d = 0 \/ d = 1 \/ d = 2 \/ d = 3 \/ d = 4 \/ d = 5 \/ d = 6 \/ d = 7
                   \/ d = 8 \/ d = 9) by lia.
  repeat (destruct Hcases as [-> | Hcases]; [split; reflexivity|]).
  subst. split; reflexivity.
Qed.

Lemma parseDigits_snoc (s : string) (c : ascii) (acc : Z) :
  Js.parseDigits (s +:+ String c "") acc
  = 10 * Js.parseDigits s acc + (Z.of_N (N_of_ascii c) - 48).
Proof.
  revert acc. induction s as [|x s IH]; intros acc; [reflexivity|].
  rewrite append_cons. cbn [Js.parseDigits]. apply IH.
Qed.

Lemma log2_tenth (n : Z) : 10 <= n -> 0 <= Z.log2 (n / 10) <= Z.log2 n - 1.
Proof.
  intros Hn. split; [apply Z.log2_nonneg|].
  assert (Hmul : 10 * (n / 10) <= n) by (apply Z.mul_div_le; lia).
  assert (Hone : 1 <= n / 10) by (apply Z.div_le_lower_bound; lia).
  pose proof (Z.log2_double (n / 10)) as Hdouble.
  pose proof (Z.log2_le_mono (2 * (n / 10)) n) as Hmono. lia.
Qed.

Lemma digits_decimal (fuel : nat) (n : Z) :
  0 <= n -> (Z.to_nat (Z.log2 n) < fuel)%nat ->
  every Js.isDigit (Js.digits fuel 10 n) = true
  /\ Js.digits fuel 10 n <> ""
  /\ Js.parseDigits (Js.digits fuel 10 n) 0 = n.
Proof.
  revert n. induction fuel as [|fuel IH]; intros n Hpos Hfuel; [lia|].
  cbn [Js.digits]. destruct (Z.ltb_spec n 10) as [Hsmall | Hbig].
  - destruct (digitChar_decimal n) as [Hd Hv]; [lia|].
    cbn [every Js.parseDigits]. rewrite Hd. split; [reflexivity|]. split; [discriminate|].
    lia.
  - pose proof (log2_tenth n Hbig) as Hlog.
    assert (Hlog3 : 3 <= Z.log2 n) by (change 3 with (Z.log2 8); apply Z.log2_le_mono; lia).
    destruct (IH (n / 10)) as (He & Hne & Hp).
    { apply Z.div_pos; lia. }
    { lia. }
    destruct (digitChar_decimal (n mod 10)) as [Hd Hv].
    { apply Z.mod_pos_bound. lia. }
    split; [|split].
    + rewrite every_append, He. cbn [every]. now rewrite Hd.
    + destruct (Js.digits fuel 10 (n / 10)); [contradiction | discriminate].
    + rewrite parseDigits_snoc, Hp, Hv. symmetry. apply Z.div_mod. lia.
Qed.

Lemma numToString_decimal (n : Z) :
  0 <= n ->
  every Js.isDigit (Js.numToString n) = true
  /\ Js.numToString n <> ""
  /\ Js.parseInt (Js.numToString n) = n.
Proof.
  intros Hn. unfold Js.numToString, Js.toStringRadix, Js.parseInt.
  destruct (Z.ltb_spec n 0); [lia|]. apply digits_decimal; [exact Hn | lia].
Qed.

Lemma testDigits_decimal (s : string) :
  every Js.isDigit s = true -> s <> "" -> Js.testDigits s = true.
Proof.
  intros He Hne. destruct s as [|c s]; [contradiction|].
  unfold Js.testDigits. now rewrite allDigits_every.
Qed.

(** *** A rendered range *)

Lemma renderRange_chars (a b : Z) :
  0 <= a -> 0 <= b -> every rangeChar (renderRange a b) = true.
Proof.
  intros Ha Hb.
  destruct (numToString_decimal a Ha) as (Hda & _ & _).
  destruct (numToString_decimal b Hb) as (Hdb & _ & _).
  apply (every_impl _ _ _ isDigit_rangeChar) in Hda, Hdb.
  unfold renderRange. destruct (a =? b); [exact Hda|].
  rewrite !every_append, Hda, Hdb. reflexivity.
Qed.

Lemma renderRange_head (a b : Z) :
  0 <= a -> exists c s, renderRange a b = String c s /\ Js.isWhiteSpace c = false.
Proof.
  intros Ha. destruct (numToString_decimal a Ha) as (Hda & Hne & _).
  destruct (Js.numToString a) as [|c s] eqn:Hs; [contradiction|].
  cbn [every] in Hda. apply andb_prop in Hda as [Hc _].
  apply isDigit_rangeChar, rangeChar_notWhiteSpace in Hc.
  unfold notWhiteSpace in Hc. apply negb_true_iff in Hc.
  unfold renderRange. rewrite Hs. destruct (a =? b).
  - now exists c, s.
  - rewrite append_cons. now eexists c, _.
Qed.

(** What the loop of [parseChunkInput] does with a part that is a
    rendered range, up to white space around it. *)
Lemma parseParts_rendered part parts maxChunk uniqueChunks (a b : Z) :
  Js.trim part = renderRange a b -> 1 <= a <= b -> b <= maxChunk ->
  utils.parseParts (part :: parts) maxChunk uniqueChunks
  = utils.parseParts parts maxChunk (fold_left Js.setAdd (expandRange (a, b)) uniqueChunks).
Proof.
  intros Htrim Ha Hb. cbn [utils.parseParts]. rewrite Htrim.
  destruct (numToString_decimal a) as (Hda & Hna & Hpa); [lia|].
  destruct (numToString_decimal b) as (Hdb & Hnb & Hpb); [lia|].
  pose proof (every_impl _ _ _ isDigit_notHyphen Hda) as Hha.
  pose proof (every_impl _ _ _ isDigit_notHyphen Hdb) as Hhb.
  pose proof (every_impl _ _ _ (fun c H => rangeChar_notWhiteSpace c (isDigit_rangeChar c H))
                Hda) as Hwa.
  pose proof (every_impl _ _ _ (fun c H => rangeChar_notWhiteSpace c (isDigit_rangeChar c H))
                Hdb) as Hwb.
  unfold renderRange, expandRange. cbn [fst snd].
  destruct (Z.eqb_spec a b) as [<- | Hab].
  - replace (a - a + 1) with 1 by lia. change (seqZ a 1) with [a]. cbn [fold_left].
    destruct (String.eqb_spec (Js.numToString a) ""); [contradiction|].
    rewrite (includes_none _ _ Hha), (testDigits_decimal _ Hda Hna), Hpa. cbn [negb].
    destruct (Z.leb_spec a 0); [lia|]. destruct (Z.ltb_spec maxChunk a); [lia|].
    reflexivity.
  - destruct (String.eqb_spec (Js.numToString a +:+ "-" +:+ Js.numToString b) "") as [He|_].
    { destruct (Js.numToString a); [contradiction | discriminate]. }
    change ("-" +:+ Js.numToString b) with (String "-" (Js.numToString b)).
    rewrite includes_append, (split_append _ _ _ Hha), (split_none _ _ Hhb).
    rewrite (trim_solid _ Hwa), (trim_solid _ Hwb).
    rewrite (testDigits_decimal _ Hda Hna), (testDigits_decimal _ Hdb Hnb), Hpa, Hpb.
    cbn [negb orb].
    destruct (Z.leb_spec a 0); [lia|]. destruct (Z.ltb_spec b a); [lia|].
    destruct (Z.ltb_spec maxChunk a); [lia|]. destruct (Z.ltb_spec maxChunk b); [lia|].
    reflexivity.
Qed.

Lemma parseParts_ranges parts (ranges : list (Z * Z)) maxChunk uniqueChunks :
  Forall2 (fun part r => Js.trim part = renderPair r) parts ranges ->
  Forall (fun r => 1 <= fst r <= snd r /\ snd r <= maxChunk) ranges ->
  utils.parseParts parts maxChunk uniqueChunks
  = Some (fold_left (fun set r => fold_left Js.setAdd (expandRange r) set) ranges
            uniqueChunks).
Proof.
  intros Hparts. revert uniqueChunks.
  induction Hparts as [|part [a b] parts ranges Htrim _ IH]; intros uniqueChunks Hall.
  - reflexivity.
  - apply Forall_cons in Hall as [[Ha Hb] Hall]. cbn [fst snd] in Ha, Hb.
    rewrite (parseParts_rendered part parts maxChunk uniqueChunks a b Htrim Ha Hb).
    now rewrite IH.
Qed.

Lemma elem_of_fold_ranges (ranges : list (Z * Z)) (set : list Z) (y : Z) :
  y ∈ fold_left (fun set r => fold_left Js.setAdd (expandRange r) set) ranges set
  <-> y ∈ set \/ y ∈ concat (map expandRange ranges).
Proof.
  revert set. induction ranges as [|r ranges IH]; intros set; cbn [fold_left map concat].
  - rewrite elem_of_nil. tauto.
  - rewrite IH, elem_of_fold_setAdd, elem_of_app. tauto.
Qed.

(** The pieces of a joined list, cut at the commas again. *)
Lemma split_join (pre x : string) (xs : list string) :
  every (isNot ",") pre = true -> Forall (fun p => every (isNot ",") p = true) (x :: xs) ->
  Js.split "," (pre +:+ Js.join ", " (x :: xs))
  = (pre +:+ x) :: map (fun p => " " +:+ p) xs.
Proof.
  revert pre x. induction xs as [|y ys IH]; intros pre x Hpre Hall.
  - apply Forall_cons in Hall as [Hx _]. unfold Js.join. cbn [String.concat map].
    apply split_none. now rewrite every_append, Hpre, Hx.
  - apply Forall_cons in Hall as [Hx Hall].
    change (Js.join ", " (x :: y :: ys)) with (x +:+ ", " +:+ Js.join ", " (y :: ys)).
    change (", " +:+ Js.join ", " (y :: ys)) with (String "," (" " +:+ Js.join ", " (y :: ys))).
    rewrite <- append_assoc, split_append by now rewrite every_append, Hpre, Hx.
    rewrite (IH " " y) by (reflexivity || assumption). reflexivity.
Qed.

(** The text [formatMissingChunks] writes for some numbers from 1 to
    [maxChunk], read by [parseChunkInput]. *)
Lemma formatted_parses_set (missing : list Z) (maxChunk : Z) :
  missing <> [] -> Forall (fun k => 1 <= k <= maxChunk) missing ->
  exists set,
    utils.parseChunkInput (formatMissingChunks missing) maxChunk
    = Some (Js.sortNumbers set)
    /\ forall k, k ∈ set <-> k ∈ missing.
Proof.
  intros Hne Hall.
  assert (Hperm : Js.sortNumbers missing ≡ₚ missing) by apply merge_sort_Permutation.
  unfold formatMissingChunks.
  destruct missing as [|m0 missing']; [contradiction|].
  set (missing := m0 :: missing') in *.
  destruct (Js.sortNumbers missing) as [|first rest] eqn:Hsorted.
  { apply Permutation_nil_l in Hperm. discriminate Hperm. }
  pose proof (rangeLoop_ranges rest [] first first) as Hloop. cbn [map] in Hloop.
  rewrite Hloop. set (ranges := rangesLoop rest [] first first).
  assert (Hexpand : concat (map expandRange ranges) = first :: rest).
  { unfold ranges. rewrite rangesLoop_expand by lia. cbn [map concat app].
    replace (first - first + 1) with 1 by lia. reflexivity. }
  assert (Hle : Forall (fun r => fst r <= snd r) ranges).
  { apply rangesLoop_bounds; [lia | constructor]. }
  assert (Hin : forall k, k ∈ concat (map expandRange ranges) <-> k ∈ missing).
  { intros k. rewrite Hexpand. now rewrite Hperm. }
  assert (Hbounds : Forall (fun r => 1 <= fst r <= snd r /\ snd r <= maxChunk) ranges).
  { apply Forall_forall. intros r Hr.
    pose proof (proj1 (Forall_forall _ _) Hle r Hr) as Hr_le. cbv beta in Hr_le.
    assert (Hends : forall k, k ∈ expandRange r -> 1 <= k <= maxChunk).
    { intros k Hk. apply (proj1 (Forall_forall _ _) Hall). apply Hin.
      apply list_elem_of_In, in_concat. exists (expandRange r).
      split; [apply in_map | ]; now apply list_elem_of_In. }
    assert (H1 : fst r ∈ expandRange r) by (unfold expandRange; apply elem_of_seqZ; lia).
    assert (H2 : snd r ∈ expandRange r) by (unfold expandRange; apply elem_of_seqZ; lia).
    apply Hends in H1, H2. lia. }
  destruct ranges as [|r ranges'] eqn:Hranges; [discriminate Hexpand|].
  assert (Hchars : Forall (fun p => every rangeChar p = true) (map renderPair (r :: ranges'))).
  { apply Forall_fmap. eapply Forall_impl; [exact Hbounds|].
    intros [a b] [Ha Hb]. cbn [fst snd] in Ha, Hb. unfold renderPair. cbn [fst snd].
    apply renderRange_chars; cbn [fst snd]; lia. }
  (* the text is not empty *)
  destruct (renderRange_head (fst r) (snd r)) as (c & s & Hhead & Hc).
  { apply Forall_cons in Hbounds as [[Hr _] _]. lia. }
  assert (Htext : exists t, Js.join ", " (map renderPair (r :: ranges')) = String c t).
  { cbn [map]. unfold renderPair at 1. rewrite Hhead. unfold Js.join.
    destruct (map renderPair ranges'); cbn [String.concat]; [now exists s|].
    rewrite append_cons. now eexists. }
  destruct Htext as [t Htext].
  unfold utils.parseChunkInput.
  assert (Hempty : String.eqb (Js.join ", " (map renderPair (r :: ranges'))) ""
                   || String.eqb (Js.trim (Js.join ", " (map renderPair (r :: ranges')))) ""
                   = false).
  { rewrite Htext. apply orb_false_iff. split; [reflexivity|].
    apply String.eqb_neq. now apply trim_not_empty. }
  rewrite Hempty.
  assert (Hmax : 0 < maxChunk).
  { apply Forall_cons in Hall as [Hm0 _]. lia. }
  destruct (Z.leb_spec maxChunk 0); [lia|].
  (* the parts *)
  pose proof (split_join "" (renderPair r) (map renderPair ranges')) as Hsplit.
  rewrite append_empty_l in Hsplit. cbn [map] in Hsplit |- *. rewrite Hsplit; cycle 1.
  { reflexivity. }
  { eapply Forall_impl; [exact Hchars|]. intros p. apply every_impl, rangeChar_notComma. }
  rewrite append_empty_l.
  rewrite (parseParts_ranges _ (r :: ranges') maxChunk []); cycle 1.
  { apply Forall_cons in Hchars as [Hr Hrest]. constructor.
    - apply trim_solid. revert Hr. apply every_impl, rangeChar_notWhiteSpace.
    - clear -Hrest. induction ranges' as [|r' ranges' IH]; [constructor|].
      cbn [map] in Hrest |- *. apply Forall_cons in Hrest as [Hr' Hrest].
      constructor; [|now apply IH].
      apply trim_spaced. revert Hr'. apply every_impl, rangeChar_notWhiteSpace. }
  { exact Hbounds. }
  eexists. split; [reflexivity|].
  intros k. rewrite elem_of_fold_ranges, Hin, elem_of_nil. tauto.
Qed.

Lemma formatted_parses (missing : list Z) (maxChunk : Z) :
  missing <> [] -> Forall (fun k => 1 <= k <= maxChunk) missing ->
  exists numbers,
    utils.parseChunkInput (formatMissingChunks missing) maxChunk = Some numbers
    /\ StronglySorted Z.lt numbers
    /\ forall k, k ∈ numbers <-> k ∈ missing.
Proof.
  intros Hne Hall.
  destruct (formatted_parses_set missing maxChunk Hne Hall) as (set & Hparse & Hset).
  exists (Js.sortNumbers set). split; [exact Hparse|].
  split; [exact (proj1 (parseChunkInput_range _ _ _ Hparse))|].
  intros k. unfold Js.sortNumbers. now rewrite merge_sort_Permutation.
Qed.

(** *** Lists in strictly ascending order *)

Lemma strictly_sorted_unique (l1 l2 : list Z) :
  StronglySorted Z.lt l1 -> StronglySorted Z.lt l2 -> (forall k, k ∈ l1 <-> k ∈ l2) ->
  l1 = l2.
Proof.
  intros H1. revert l2. induction H1 as [|x l1 Hs1 IH Hall1]; intros l2 H2 Heq.
  - destruct l2 as [|y l2]; [reflexivity|]. exfalso. apply (elem_of_nil y). apply Heq. left.
  - destruct H2 as [|y l2 Hs2 Hall2].
    + exfalso. apply (elem_of_nil x). apply Heq. left.
    + rewrite Forall_forall in Hall1, Hall2.
      assert (Hxy : x = y).
      { assert (Hx : x ∈ y :: l2) by (apply Heq; left).
        assert (Hy : y ∈ x :: l1) by (apply Heq; left).
        apply elem_of_cons in Hx as [? | Hx]; [assumption|].
        apply elem_of_cons in Hy as [? | Hy]; [congruence|].
        apply Hall2 in Hx. apply Hall1 in Hy. lia. }
      subst y. f_equal. apply IH; [exact Hs2|].
      intros k. split; intros Hk.
      * assert (Hk' : k ∈ x :: l2) by (apply Heq; now right).
        apply elem_of_cons in Hk' as [-> | Hk']; [|exact Hk'].
        apply Hall1 in Hk. lia.
      * assert (Hk' : k ∈ x :: l1) by (apply Heq; now right).
        apply elem_of_cons in Hk' as [-> | Hk']; [|exact Hk'].
        apply Hall2 in Hk. lia.
Qed.

Lemma seqZ_sorted (a n : Z) : StronglySorted Z.lt (seqZ a n).
Proof.
  remember (Z.to_nat n) as len eqn:Hlen. revert a n Hlen.
  induction len as [|len IH]; intros a n Hlen.
  - rewrite seqZ_nil by lia. constructor.
  - rewrite seqZ_cons by lia. constructor.
    + apply IH. lia.
    + apply Forall_forall. intros k Hk. apply elem_of_seqZ in Hk. lia.
Qed.

Lemma findMissing_sorted total (m : gmap Z string) :
  StronglySorted Z.lt (findMissing total m).
Proof.
  unfold findMissing. generalize (seqZ_sorted 1 total). generalize (seqZ 1 total).
  intros l Hl. induction Hl as [|x l Hs IH Hall]; [constructor|].
  rewrite filter_cons. destruct (decide (has m x = false)); [|exact IH].
  constructor; [exact IH|].
  rewrite Forall_forall in Hall. apply Forall_forall. intros k Hk.
  apply list_elem_of_filter in Hk as [_ Hk]. now apply Hall.
Qed.

(** X4. The text [formatMissingChunks] writes for some numbers from 1 to
    [maxChunk], in any order and with repetitions, is an input that
    [parseChunkInput] accepts for [maxChunk]; the list it answers holds
    each of the numbers once, in ascending order, and nothing else. For
    numbers in strictly ascending order it is the list itself. *)
Theorem missing_list_round_trip (missing : list Z) (maxChunk : Z) :
  missing <> [] -> Forall (fun k => 1 <= k <= maxChunk) missing ->
  exists numbers,
    utils.parseChunkInput (formatMissingChunks missing) maxChunk = Some numbers
    /\ StronglySorted Z.lt numbers
    /\ (forall k, k ∈ numbers <-> k ∈ missing)
    /\ (StronglySorted Z.lt missing -> numbers = missing).
Proof.
  intros Hne Hall.
  destruct (formatted_parses missing maxChunk Hne Hall) as (numbers & Hparse & Hsorted & Hin).
  exists numbers. split; [exact Hparse|]. split; [exact Hsorted|]. split; [exact Hin|].
  intros Hmissing. now apply strictly_sorted_unique.
Qed.

(** What the receiver shows for the chunks it misses. *)
Lemma displayed_missing_parses st total :
  expectedTotalChunks st = Some total ->
  findMissing total (receivedChunksMap st) <> [] ->
  missingChunksList (displayMissingChunks st)
  = formatMissingChunks (findMissing total (receivedChunksMap st))
  /\ utils.parseChunkInput (formatMissingChunks (findMissing total (receivedChunksMap st)))
       total
     = Some (findMissing total (receivedChunksMap st)).
Proof.
  intros Htotal Hne. split.
  - unfold displayMissingChunks. rewrite Htotal.
    destruct (findMissing total (receivedChunksMap st)) as [|k missing]; [contradiction|].
    reflexivity.
  - destruct (formatted_parses (findMissing total (receivedChunksMap st)) total Hne)
      as (numbers & Hparse & Hsorted & Hin).
    { apply Forall_forall. intros k Hk. now apply findMissing_elem in Hk as [Hk _]. }
    rewrite Hparse. f_equal. apply strictly_sorted_unique; [exact Hsorted | | exact Hin].
    apply findMissing_sorted.
Qed.

(** X5. A receiver that knows the total and misses some chunks displays
    their list. The text it displays, given to [parseChunkInput] with the
    same total, as the sender does with the text typed in its field for
    specific chunks, is read as the numbers of the missing chunks, all of
    them and no other, in ascending order. *)
Theorem displayed_missing_list_selects_missing st total :
  expectedTotalChunks st = Some total ->
  findMissing total (receivedChunksMap st) <> [] ->
  utils.parseChunkInput (missingChunksList (displayMissingChunks st)) total
  = Some (findMissing total (receivedChunksMap st)).
Proof.
  intros Htotal Hne.
  destruct (displayed_missing_parses st total Htotal Hne) as [-> Hparse]. exact Hparse.
Qed.

End missing_round_trip.

Lemma missing_list_round_trip_witness :
  receiver.formatMissingChunks [7; 1; 2; 3; 5; 8; 2] = "1-2, 2-3, 5, 7-8"
  /\ exists numbers,
       utils.parseChunkInput (receiver.formatMissingChunks [7; 1; 2; 3; 5; 8; 2]) 8
       = Some numbers
       /\ StronglySorted Z.lt numbers
       /\ forall k, k ∈ numbers <-> k ∈ [7; 1; 2; 3; 5; 8; 2].
Proof.
  split; [vm_compute; reflexivity|].
  destruct (missing_list_round_trip [7; 1; 2; 3; 5; 8; 2] 8)
    as (numbers & Hparse & Hsorted & Hin & _).
  - discriminate.
  - repeat constructor; lia.
  - exists numbers. split; [exact Hparse|]. split; [exact Hsorted | exact Hin].
Defined.

(** The receiver of the scenarios, with the chunks 1, 3 and 5 of 5. *)
Lemma displayed_missing_list_selects_missing_witness :
  state.missingChunksList (receiver.displayMissingChunks scenarios.partlyReceived) = "2, 4"
  /\ utils.parseChunkInput
       (state.missingChunksList (receiver.displayMissingChunks scenarios.partlyReceived)) 5
     = Some [2; 4].
Proof.
  split; [vm_compute; reflexivity|].
  assert (Hmissing : receiver.findMissing 5 (state.receivedChunksMap scenarios.partlyReceived)
                     = [2; 4]) by (vm_compute; reflexivity).
  rewrite <- Hmissing.
  apply (displayed_missing_list_selects_missing scenarios.partlyReceived 5).
  - vm_compute. reflexivity.
  - rewrite Hmissing. discriminate.
Defined.

(** ** Scans the receiver does not act on *)

Section receiver_noise.
Context (B : browser.Browser).
Import types browser state receiver spec.

(** X6. A scan that cannot be parsed, that lacks the structure of a packet,
    or that is a packet of the protocol version for another file
    identifier than the one of the session, changes nothing but the debug
    line: the state, the session, the store, the status line, the scanner
    and the downloads are as before. *)
Theorem noise_changes_debug_line_only st result :
  expectsQr (receiverState st) = true ->
  result = Unparseable \/ result = BadStructure
  \/ (exists p session,
         result = Structured p /\ v p = config.PROTOCOL_VERSION
         /\ receiverState st <> waiting_handshake
         /\ expectedFileId st = Some session /\ session <> "" /\ fid p <> session) ->
  exists text, text <> "" /\ handleScanResult B result st = set_receiverDebug text st.
Proof.
  intros Hexp Hnoise. unfold handleScanResult. rewrite Hexp. cbn [negb].
  destruct Hnoise as [-> | [-> | (p & session & -> & Hv & Hstate & Hfid & Hset & Hother)]].
  - exists "JSON Err". now split.
  - exists "Struct Err". now split.
  - destruct (String.eqb (fid p) ""); [exists "Struct Err"; now split|].
    rewrite Hv, Z.eqb_refl, Hfid. cbn [negb].
    assert (ReceiverState_eqb (receiverState st) waiting_handshake = false) as ->
      by (destruct (receiverState st); try reflexivity; contradiction).
    rewrite bool_decide_eq_false_2 by congruence.
    destruct session; [contradiction|]. exists "FID Err". now split.
Qed.

End receiver_noise.

(** A Data packet of another session, while three chunks are stored. *)
Lemma noise_changes_debug_line_only_witness :
  let foreign := sender.dataPayload "fid_1700000000999_ffffff" 2 "QUFB" in
  exists text,
    text <> ""
    /\ receiver.handleScanResult examples.exampleBrowser (browser.Structured foreign)
         scenarios.partlyReceived
       = state.set_receiverDebug text scenarios.partlyReceived.
Proof.
  apply (noise_changes_debug_line_only examples.exampleBrowser).
  - vm_compute. reflexivity.
  - right. right.
    exists (sender.dataPayload "fid_1700000000999_ffffff" 2 "QUFB"), scenarios.fileId.
    split; [reflexivity|]. split; [reflexivity|].
    split; [vm_compute; discriminate|]. split; [vm_compute; reflexivity|].
    split; [vm_compute; discriminate | vm_compute; discriminate].
Defined.

(** ** Invariants of the session and the store *)

Section receiver_invariants.
Context (B : browser.Browser).
Import types browser state receiver spec events invariants.

Ltac cases := repeat case_match; simplify_eq.

Lemma kept_refl st : kept st st.
Proof. repeat split; auto. Qed.

Lemma kept_trans st1 st2 st3 : kept st1 st2 -> kept st2 st3 -> kept st1 st3.
Proof.
  intros (Hs1 & Ht1 & Hw1) (Hs2 & Ht2 & Hw2).
  repeat split; [congruence | congruence | auto].
Qed.

Lemma kept_updateReceiverStatus message isError st :
  kept st (updateReceiverStatus message isError st).
Proof. unfold updateReceiverStatus. destruct isError; repeat split; simpl; auto; discriminate. Qed.

Lemma kept_updateReceiverUI st : kept st (updateReceiverUI st).
Proof.
  unfold updateReceiverUI, updateReceiverStatus.
  destruct (receiverState st) eqn:Hs; repeat split; simpl; auto; congruence.
Qed.

Lemma kept_stopScan st : kept st (stopScan st).
Proof.
  unfold stopScan, updateReceiverStatus.
  destruct (negb (isScanning st) || negb (qrScanner st)); [apply kept_refl|].
  destruct (receiverState st) eqn:Hs; repeat split; simpl; auto; congruence.
Qed.

Lemma kept_displayMissingChunks st : kept st (displayMissingChunks st).
Proof.
  unfold displayMissingChunks, updateReceiverStatus.
  cases; repeat split; simpl; auto; congruence.
Qed.

Lemma kept_processVerifiedData cur buffer st : kept st (processVerifiedData B cur buffer st).
Proof.
  unfold processVerifiedData, triggerFileDownload, updateReceiverStatus.
  cases; repeat split; simpl in *; auto; congruence.
Qed.

Lemma kept_state st st' s :
  s <> waiting_handshake -> kept st st' -> kept st (setReceiverState s st').
Proof. intros Hs (H1 & H2 & H3). repeat split; simpl; auto. congruence. Qed.

Lemma kept_verifyAndDownload fp st : kept st (verifyAndDownload B fp st).
Proof.
  unfold verifyAndDownload.
  assert (H1 : kept st (if isScanning st then stopScan st else st)).
  { destruct (isScanning st); [apply kept_stopScan | apply kept_refl]. }
  revert H1. generalize (if isScanning st then stopScan st else st). intros st1 H1.
  cases;
    repeat first
      [ exact H1
      | apply kept_state; [discriminate|]
      | eapply kept_trans; [|apply kept_displayMissingChunks]
      | eapply kept_trans; [|apply kept_processVerifiedData]
      | eapply kept_trans; [|apply kept_updateReceiverStatus] ].
Qed.

Lemma sessionStep_startScan st : sessionStep st (startScan st).
Proof.
  destruct (isScanning st) eqn:Hscan.
  - left. unfold startScan. rewrite Hscan. apply kept_refl.
  - right. left. now apply startScan_destroys.
Qed.

Lemma sessionStep_kept st st' st'' : kept st st' -> sessionStep st' st'' ->
  receiverState st' = receiverState st \/ receiverState st' <> waiting_handshake ->
  sessionStep st st''.
Proof.
  intros Hk [Hk' | [Hd | [(Hw & Hnw & Ht & Hs) | (k & data & total & Hs & Ht & Hk' & Hnone & Hadd & Hnw)]]] Hstate.
  - left. eapply kept_trans; eassumption.
  - right. left. exact Hd.
  - destruct Hstate as [Hstate | Hstate]; [|contradiction].
    right. right. left. repeat split; try assumption. congruence.
  - right. right. right. destruct Hk as (Hs0 & Hst0 & _).
    exists k, data, total. repeat split; try assumption; try lia.
    + congruence.
    + unfold sessionOf in Hs0. congruence.
    + unfold store in Hst0. congruence.
    + rewrite Hadd. unfold store in Hst0. injection Hst0 as Hm Hc.
      unfold store, addReceivedChunk. rewrite Hm.
      destruct (has (receivedChunksMap st) k); simpl; rewrite ?Hm, ?Hc; reflexivity.
Qed.

Lemma sessionStep_checkForMissing fp st :
  sessionStep st (checkForMissingChunksAndFinalize B fp st).
Proof.
  unfold checkForMissingChunksAndFinalize.
  destruct (expectedTotalChunks st) as [total|].
  - destruct (total =? 0).
    { left. eapply kept_trans; [|apply kept_verifyAndDownload]. repeat split; auto. }
    destruct (Z.of_nat (length (findMissing total (receivedChunksMap st))) =? 0).
    { left. eapply kept_trans; [|apply kept_verifyAndDownload]. repeat split; auto. }
    assert (H1 : kept st (displayMissingChunks (setReceiverState waiting_missing st))).
    { eapply kept_trans; [|apply kept_displayMissingChunks]. repeat split; auto. discriminate. }
    destruct (negb (isScanning st)).
    + eapply sessionStep_kept; [exact H1 | apply sessionStep_startScan|].
      right. destruct (displayMissingChunks_state (setReceiverState waiting_missing st))
        as [-> | ->]; discriminate.
    + left. eapply kept_trans; [exact H1 | apply kept_updateReceiverStatus].
  - left.
    assert (H1 : kept st (setReceiverState error
                            (updateReceiverStatus
                               "Internal Error: Cannot check for missing chunks, total count unknown."
                               true st))).
    { apply kept_state; [discriminate | apply kept_updateReceiverStatus]. }
    destruct (isScanning st); [|exact H1].
    eapply kept_trans; [exact H1 | apply kept_stopScan].
Qed.

Lemma sessionStep_handleFinalPacket fp st : sessionStep st (handleFinalPacket B fp st).
Proof.
  unfold handleFinalPacket.
  destruct (negb (bool_decide (Some (fid fp) = expectedFileId st)));
    [left; apply kept_refl|].
  assert (Herr : forall message,
             sessionStep st
               (stopScan (setReceiverState error (updateReceiverStatus message true st)))).
  { intros message. left. eapply kept_trans; [|apply kept_stopScan].
    apply kept_state; [discriminate | apply kept_updateReceiverStatus]. }
  destruct (chk fp) as [[|c s]|]; try apply Herr.
  eapply sessionStep_kept;
    [apply kept_updateReceiverStatus | apply sessionStep_checkForMissing | left; reflexivity].
Qed.

Lemma sessionStep_processHandshake p st :
  receiverState st = waiting_handshake -> sessionStep st (processHandshake B p st).
Proof.
  intros Hw. unfold processHandshake.
  destruct (nam p) as [nam_|]; [|left; repeat split; auto].
  destruct (siz p) as [siz_|]; [|left; repeat split; auto].
  destruct (tot p) as [tot_|]; [|left; repeat split; auto].
  destruct (zip p) as [[|]|]; try (left; repeat split; auto; fail).
  destruct (Z.ltb_spec tot_ 0); [left; repeat split; auto|].
  match goal with |- context [negb ?known] => destruct known end;
    [left; apply kept_refl|].
  right. right. left. cbn [negb].
  destruct (tot_ =? 0); (split; [exact Hw|]); (split; [simpl; discriminate|]);
    (split; [exists tot_; split; [reflexivity | assumption] | reflexivity]).
Qed.

Lemma sessionStep_processDataChunk p st :
  acceptsData (receiverState st) = true -> sessionStep st (processDataChunk p st).
Proof.
  intros Hacc.
  assert (Hnw : receiverState (processDataChunk p st) <> waiting_handshake).
  { intros Hw. pose proof (processDataChunk_acceptsData p st Hacc) as H.
    rewrite Hw in H. discriminate. }
  pose proof (processDataChunk_session p st) as Hsession.
  pose proof (store_processDataChunk p st) as Hstore.
  destruct (seq p) as [k|]; [|left; repeat split; auto; contradiction].
  destruct (dat p) as [[|c d]|]; try (left; repeat split; auto; contradiction).
  destruct ((k <=? 0) || (default 0 (expectedTotalChunks st) <? k)) eqn:Hrange;
    [left; repeat split; auto; contradiction|].
  destruct (receivedChunksMap st !! k) as [x|] eqn:Hk.
  - left. repeat split; auto; [|contradiction].
    rewrite Hstore. unfold addReceivedChunk.
    rewrite (proj2 (has_true _ _)) by eauto. reflexivity.
  - right. right. right.
    destruct (expectedTotalChunks st) as [total|] eqn:Htotal; simpl in Hrange; [|lia].
    exists k, (String c d), total. repeat split; auto; lia.
Qed.

Lemma sessionStep_handleScanResult result st : sessionStep st (handleScanResult B result st).
Proof.
  unfold handleScanResult.
  destruct (negb (expectsQr (receiverState st))); [left; apply kept_refl|].
  destruct result as [| |p]; try (left; repeat split; auto; fail).
  destruct (String.eqb (fid p) ""); [left; repeat split; auto|].
  destruct (negb (v p =? config.PROTOCOL_VERSION)).
  { left. eapply kept_trans; [apply kept_updateReceiverStatus | apply kept_stopScan]. }
  match goal with |- context [if ?c then set_receiverDebug "FID Err" st else _] =>
    destruct c end; [left; repeat split; auto|].
  destruct (receiverState st) eqn:Hstate; try (left; apply kept_refl).
  - destruct (String.eqb (typ p) "h"); [now apply sessionStep_processHandshake|].
    match goal with |- context [if ?c then handleFinalPacket B p st else _] =>
      destruct c end; [apply sessionStep_handleFinalPacket | left; apply kept_refl].
  - match goal with |- context [if ?c then processDataChunk p st else _] =>
      destruct c end; [apply sessionStep_processDataChunk; now rewrite Hstate|].
    match goal with |- context [if ?c then handleFinalPacket B p st else _] =>
      destruct c end; [apply sessionStep_handleFinalPacket | left; apply kept_refl].
  - match goal with |- context [if ?c then handleFinalPacket B p st else _] =>
      destruct c end; [apply sessionStep_handleFinalPacket|].
    match goal with |- context [if ?c then processDataChunk p st else _] =>
      destruct c end; [apply sessionStep_processDataChunk; now rewrite Hstate|].
    left; apply kept_refl.
  - match goal with |- context [if ?c then processDataChunk p st else _] =>
      destruct c end; [apply sessionStep_processDataChunk; now rewrite Hstate|].
    match goal with |- context [if ?c then handleFinalPacket B p st else _] =>
      destruct c end; [apply sessionStep_handleFinalPacket | left; apply kept_refl].
Qed.

(** What every event of the receiver does to the session and the
    store. *)
Lemma sessionStep_step ev st : sessionStep st (step B ev st).
Proof.
  destruct ev; simpl.
  - apply sessionStep_startScan.
  - left. unfold startResolved. eapply kept_trans; [|apply kept_updateReceiverStatus].
    repeat split; auto.
  - right. left. unfold startRejected.
    destruct (kept_updateReceiverUI
                (setIsScanning false
                   (setQrScanner false
                      (resetReceiverStateInternal (updateReceiverStatus message true st)))))
      as (Hs & Ht & _).
    split; [rewrite Hs | rewrite Ht]; reflexivity.
  - left. apply kept_stopScan.
  - apply sessionStep_handleScanResult.
  - unfold cleanupTimerFires. destruct (cleanupTimer st); [|left; apply kept_refl].
    right. left.
    match goal with |- sessionDestroyed (updateReceiverUI ?s) =>
      destruct (kept_updateReceiverUI s) as (Hs & Ht & _) end.
    split; [rewrite Hs | rewrite Ht]; reflexivity.
  - left. unfold showView.
    destruct (isScanning st && qrScanner st), receiverView;
      repeat first [ apply kept_refl | apply kept_stopScan | apply kept_updateReceiverUI
                   | eapply kept_trans; [apply kept_stopScan|] ].
Qed.

Lemma chunksWithinTotal_sessionStep st st' :
  sessionStep st st' -> chunksWithinTotal st -> chunksWithinTotal st'.
Proof.
  intros [(Hs & Ht & _) | [[Hs Ht] | [(_ & _ & (total & Htotal & Hpos) & Ht)
                                    | (k & data & total & Hs & Htotal & Hk & Hnone & Ht & _)]]]
    [Hkeys Hpos'].
  - unfold sessionOf in Hs. unfold store in Ht.
    injection Hs as _ Htot _ _ _ _. injection Ht as Hm _.
    unfold chunksWithinTotal. rewrite Hm, Htot. auto.
  - unfold sessionOf in Hs. unfold store in Ht.
    injection Hs as _ Htot _ _ _ _. injection Ht as Hm _.
    unfold chunksWithinTotal. rewrite Hm, Htot. split.
    + intros k [x Hx]. rewrite lookup_empty in Hx. discriminate.
    + discriminate.
  - unfold store in Ht. injection Ht as Hm _.
    unfold chunksWithinTotal. rewrite Hm, Htotal. split.
    + intros k [x Hx]. rewrite lookup_empty in Hx. discriminate.
    + intros ? [= <-]. exact Hpos.
  - unfold sessionOf in Hs. injection Hs as _ Htot _ _ _ _.
    unfold store, addReceivedChunk in Ht.
    rewrite (proj2 (has_false _ _) Hnone) in Ht. simpl in Ht. injection Ht as Hm _.
    unfold chunksWithinTotal. rewrite Hm, Htot. split; [|exact Hpos'].
    intros j Hj. destruct (decide (j = k)) as [-> | Hne].
    + exists total. auto.
    + rewrite lookup_insert_ne in Hj by congruence. auto.
Qed.

Lemma reachable_chunksWithinTotal st : reachable B st -> chunksWithinTotal st.
Proof.
  induction 1 as [|ev st _ IH].
  - split; [intros k [x Hx]; vm_compute in Hx|]; discriminate.
  - eapply chunksWithinTotal_sessionStep; [apply sessionStep_step | exact IH].
Qed.

Lemma waitingIsEmpty_sessionStep st st' :
  sessionStep st st' -> waitingIsEmpty st -> waitingIsEmpty st'.
Proof.
  intros [(Hs & Ht & Hw) | [Hd | [(_ & Hnw & _) | (k & data & total & _ & _ & _ & _ & _ & Hnw)]]]
    Hempty Hwait; try contradiction.
  - destruct (Hempty (Hw Hwait)) as [Hs0 Ht0]. split; congruence.
  - exact Hd.
Qed.

Lemma reachable_waitingIsEmpty st : reachable B st -> waitingIsEmpty st.
Proof.
  induction 1 as [|ev st _ IH].
  - intros _. split; reflexivity.
  - eapply waitingIsEmpty_sessionStep; [apply sessionStep_step | exact IH].
Qed.

Lemma reachable_countMatches st : reachable B st -> countMatches st.
Proof.
  induction 1 as [|ev st _ IH]; [reflexivity|].
  eapply countMatches_storeStep; [apply storeStep_step | exact IH].
Qed.

(** X7. In every state the receiver can reach, each stored chunk has a number
    from 1 to the total of the handshake, the count is from 0 to that
    total, and a receiver without a total has no chunk. *)
Theorem reachable_store_bounds st :
  reachable B st ->
  (forall k, is_Some (receivedChunksMap st !! k) ->
     exists total, expectedTotalChunks st = Some total /\ 1 <= k <= total)
  /\ (forall total, expectedTotalChunks st = Some total ->
        0 <= receivedChunkCount st <= total)
  /\ (expectedTotalChunks st = None ->
        receivedChunksMap st = ∅ /\ receivedChunkCount st = 0).
Proof.
  intros Hreach.
  destruct (reachable_chunksWithinTotal st Hreach) as [Hkeys Hpos].
  pose proof (reachable_countMatches st Hreach) as Hcount. unfold countMatches in Hcount.
  split; [exact Hkeys|]. split.
  - intros total Htotal. rewrite Hcount. split; [lia|].
    apply size_keysWithin; [now apply Hpos|].
    intros k Hk. destruct (Hkeys k Hk) as (total' & Htotal' & Hrange). congruence.
  - intros Hnone.
    assert (Hempty : receivedChunksMap st = ∅).
    { apply map_empty. intros k. apply eq_None_not_Some. intros Hk.
      destruct (Hkeys k Hk) as (total & Htotal & _). congruence. }
    split; [exact Hempty|]. rewrite Hcount, Hempty. reflexivity.
Qed.

(** X8. A receiver that waits for a handshake holds nothing of an earlier
    session: whatever it went through before, it remembers no file
    identifier, no total, no name and no size, and its store is empty. *)
Theorem waiting_receiver_is_fresh st :
  reachable B st -> receiverState st = waiting_handshake ->
  sessionOf st = (None, None, None, None, false, None)
  /\ receivedChunksMap st = ∅ /\ receivedChunkCount st = 0.
Proof.
  intros Hreach Hwait.
  destruct (reachable_waitingIsEmpty st Hreach Hwait) as [Hsession Hstore].
  unfold store in Hstore. injection Hstore as Hmap Hcount.
  split; [exact Hsession|]. split; [exact Hmap | exact Hcount].
Qed.

Lemma isScanning_displayMissingChunks st :
  isScanning (displayMissingChunks st) = isScanning st.
Proof. unfold displayMissingChunks, updateReceiverStatus. cases; reflexivity. Qed.

Lemma isScanning_processHandshake p st : isScanning (processHandshake B p st) = isScanning st.
Proof. unfold processHandshake, updateReceiverStatus. cases; reflexivity. Qed.

Lemma isScanning_processDataChunk p st : isScanning (processDataChunk p st) = isScanning st.
Proof.
  unfold processDataChunk, addReceivedChunk, updateReceiverStatus.
  cases; simpl; rewrite ?isScanning_displayMissingChunks; reflexivity.
Qed.

Lemma intakeOpen_closed st : expectsQr (receiverState st) = false -> intakeOpen st.
Proof. now right. Qed.

Lemma checkForMissing_scanning fp st :
  isScanning st = true ->
  intakeOpen (checkForMissingChunksAndFinalize B fp st)
  /\ store (checkForMissingChunksAndFinalize B fp st) = store st.
Proof.
  intros Hscan. split; [|].
  - unfold checkForMissingChunksAndFinalize. rewrite Hscan. cbn [negb].
    assert (Hverify : forall st1, intakeOpen (verifyAndDownload B fp st1)).
    { intros st1. apply intakeOpen_closed.
      destruct (verifyAndDownload_outcome B fp st1) as [-> | ->]; reflexivity. }
    destruct (expectedTotalChunks st) as [total|].
    + destruct (total =? 0); [apply Hverify|].
      destruct (Z.of_nat (length (findMissing total (receivedChunksMap st))) =? 0);
        [apply Hverify|].
      left. unfold updateReceiverStatus. simpl.
      now rewrite isScanning_displayMissingChunks.
    + apply intakeOpen_closed. rewrite stopScan_state. reflexivity.
  - unfold checkForMissingChunksAndFinalize. rewrite Hscan. cbn [negb].
    cases; rewrite ?store_verifyAndDownload, ?store_stopScan, ?store_updateReceiverStatus,
             ?store_displayMissingChunks; reflexivity.
Qed.

Lemma handleFinalPacket_scanning fp st :
  isScanning st = true ->
  intakeOpen (handleFinalPacket B fp st) /\ store (handleFinalPacket B fp st) = store st.
Proof.
  intros Hscan. unfold handleFinalPacket.
  destruct (negb (bool_decide (Some (fid fp) = expectedFileId st)));
    [split; [now left | reflexivity]|].
  assert (Herr : forall message,
             let st' := stopScan (setReceiverState error
                                    (updateReceiverStatus message true st)) in
             intakeOpen st' /\ store st' = store st).
  { intros message st'. split.
    - apply intakeOpen_closed. unfold st'. rewrite stopScan_state. reflexivity.
    - unfold st'. rewrite store_stopScan. reflexivity. }
  destruct (chk fp) as [[|c s]|]; try apply Herr.
  now apply (checkForMissing_scanning fp
               (updateReceiverStatus
                  "Final confirmation QR received. Checking chunk completeness..." false st)).
Qed.

Lemma lookup_addReceivedChunk seq_ data st k x :
  receivedChunksMap st !! k = Some x ->
  receivedChunksMap (addReceivedChunk seq_ data st) !! k = Some x.
Proof.
  intros Hk. unfold addReceivedChunk.
  destruct (has (receivedChunksMap st) seq_) eqn:Hhas; simpl; [exact Hk|].
  apply has_false in Hhas. rewrite lookup_insert_ne; [exact Hk | congruence].
Qed.

(** One scan, for a receiver that is scanning: the scanner stays on
    unless the receiver ends in a state that looks at no scan, and no
    stored chunk is lost or altered. *)
Lemma scan_keeps_chunks result st :
  waitingIsEmpty st -> isScanning st = true ->
  let st' := handleScanResult B result st in
  intakeOpen st'
  /\ (forall k x, receivedChunksMap st !! k = Some x -> receivedChunksMap st' !! k = Some x).
Proof.
  intros Hempty Hscan st'.
  assert (Hsame : forall st1, isScanning st1 = isScanning st -> store st1 = store st ->
            intakeOpen st1
            /\ (forall k x, receivedChunksMap st !! k = Some x ->
                  receivedChunksMap st1 !! k = Some x)).
  { intros st1 H1 H2. split; [left; congruence|].
    unfold store in H2. injection H2 as -> _. auto. }
  assert (Hfinal : forall st1, intakeOpen st1 /\ store st1 = store st ->
            intakeOpen st1
            /\ (forall k x, receivedChunksMap st !! k = Some x ->
                  receivedChunksMap st1 !! k = Some x)).
  { intros st1 [H1 H2]. split; [exact H1|].
    unfold store in H2. injection H2 as -> _. auto. }
  assert (Hdata : forall p,
            intakeOpen (processDataChunk p st)
            /\ (forall k x, receivedChunksMap st !! k = Some x ->
                  receivedChunksMap (processDataChunk p st) !! k = Some x)).
  { intros p. split; [left; now rewrite isScanning_processDataChunk|].
    intros k x Hk. pose proof (store_processDataChunk p st) as Hstore.
    assert (Hmap : receivedChunksMap (processDataChunk p st)
                   = fst (store (processDataChunk p st))) by reflexivity.
    rewrite Hmap, Hstore. cases; simpl; auto using lookup_addReceivedChunk. }
  unfold st', handleScanResult.
  destruct (negb (expectsQr (receiverState st))); [now apply Hsame|].
  destruct result as [| |p]; try (now apply Hsame).
  destruct (String.eqb (fid p) ""); [now apply Hsame|].
  destruct (negb (v p =? config.PROTOCOL_VERSION)).
  { apply Hfinal. split; [apply intakeOpen_closed; now rewrite stopScan_state|].
    now rewrite store_stopScan. }
  match goal with |- context [if ?c then set_receiverDebug "FID Err" st else _] =>
    destruct c end; [now apply Hsame|].
  destruct (receiverState st) eqn:Hstate; try (now apply Hsame).
  - destruct (String.eqb (typ p) "h").
    + split; [left; now rewrite isScanning_processHandshake|].
      intros k x Hk. destruct (Hempty Hstate) as [_ Hstore].
      unfold store in Hstore. injection Hstore as Hm _.
      rewrite Hm, lookup_empty in Hk. discriminate.
    + match goal with |- context [if ?c then handleFinalPacket B p st else _] =>
        destruct c end; [apply Hfinal; now apply handleFinalPacket_scanning | now apply Hsame].
  - match goal with |- context [if ?c then processDataChunk p st else _] =>
      destruct c end; [apply Hdata|].
    match goal with |- context [if ?c then handleFinalPacket B p st else _] =>
      destruct c end; [apply Hfinal; now apply handleFinalPacket_scanning | now apply Hsame].
  - match goal with |- context [if ?c then handleFinalPacket B p st else _] =>
      destruct c end; [apply Hfinal; now apply handleFinalPacket_scanning|].
    match goal with |- context [if ?c then processDataChunk p st else _] =>
      destruct c end; [apply Hdata | now apply Hsame].
  - match goal with |- context [if ?c then processDataChunk p st else _] =>
      destruct c end; [apply Hdata|].
    match goal with |- context [if ?c then handleFinalPacket B p st else _] =>
      destruct c end; [apply Hfinal; now apply handleFinalPacket_scanning | now apply Hsame].
Qed.

Lemma reachable_scans results st :
  reachable B st -> reachable B (fold_left (fun st r => handleScanResult B r st) results st).
Proof.
  revert st. induction results as [|r results IH]; intros st H; [exact H|].
  apply IH. exact (reachable_step B (Scan r) st H).
Qed.

(** X9. From the moment the receiver is scanning, whatever is scanned and in
    whatever order, a chunk that is stored stays stored, unchanged. *)
Theorem stored_chunks_survive_scans st results k x :
  reachable B st -> isScanning st = true ->
  receivedChunksMap st !! k = Some x ->
  receivedChunksMap (fold_left (fun st r => handleScanResult B r st) results st) !! k
  = Some x.
Proof.
  intros Hreach Hscan. assert (Hopen : intakeOpen st) by now left. clear Hscan.
  revert st Hreach Hopen. induction results as [|r results IH]; intros st Hreach Hopen Hk;
    [exact Hk|].
  cbn [fold_left].
  assert (Hstep : intakeOpen (handleScanResult B r st)
                  /\ receivedChunksMap (handleScanResult B r st) !! k = Some x).
  { destruct Hopen as [Hscan | Hclosed].
    - destruct (scan_keeps_chunks r st (reachable_waitingIsEmpty st Hreach) Hscan)
        as [Ho Hkeep]. auto.
    - rewrite handleScanResult_ignored by exact Hclosed. split; [now right | exact Hk]. }
  destruct Hstep as [Ho Hk'].
  apply IH; [exact (reachable_step B (Scan r) st Hreach) | exact Ho | exact Hk'].
Qed.

End receiver_invariants.

(** ** Downloads *)

Section receiver_downloads.
Context (B : browser.Browser).
Import types browser state receiver spec events invariants downloading.

Ltac cases := repeat case_match; simplify_eq.

Lemma downloads_updateReceiverStatus message isError st :
  downloads (updateReceiverStatus message isError st) = downloads st.
Proof. unfold updateReceiverStatus. destruct isError; reflexivity. Qed.

Lemma downloads_displayMissingChunks st : downloads (displayMissingChunks st) = downloads st.
Proof. unfold displayMissingChunks, updateReceiverStatus. cases; reflexivity. Qed.

Lemma downloads_startScan st : downloads (startScan st) = downloads st.
Proof. unfold startScan, updateReceiverUI, updateReceiverStatus. cases; reflexivity. Qed.

Lemma downloads_processHandshake p st : downloads (processHandshake B p st) = downloads st.
Proof. unfold processHandshake, updateReceiverStatus. cases; reflexivity. Qed.

Lemma downloads_processDataChunk p st : downloads (processDataChunk p st) = downloads st.
Proof.
  unfold processDataChunk, addReceivedChunk, updateReceiverStatus.
  cases; simpl; rewrite ?downloads_displayMissingChunks; reflexivity.
Qed.

Lemma verifiedBy_same st1 st fp buffer :
  sessionOf st1 = sessionOf st -> store st1 = store st ->
  verifiedBy B st1 fp buffer -> verifiedBy B st fp buffer.
Proof.
  unfold sessionOf, store. intros [= _ Ht _ Hd _ _] [= Hm Hc].
  unfold verifiedBy. now rewrite Ht, Hd, Hm, Hc.
Qed.

Lemma deliveredFrom_same st1 st buffer content :
  sessionOf st1 = sessionOf st ->
  deliveredFrom B st1 buffer content -> deliveredFrom B st buffer content.
Proof.
  unfold sessionOf. intros [= _ _ _ _ _ Ho]. unfold deliveredFrom. now rewrite Ho.
Qed.

Lemma processVerifiedData_downloads cur buffer st :
  exists name content,
    downloads (processVerifiedData B cur buffer st) = downloads st ++ [(name, content)]
    /\ deliveredFrom B cur buffer content.
Proof.
  unfold processVerifiedData, triggerFileDownload, updateReceiverStatus, deliveredFrom.
  destruct (expectedOriginalFilename cur) as [[|c original]|] eqn:Horiginal; simpl.
  2: destruct (zipLookup B buffer (String c original)) eqn:Hzip; simpl.
  all: eexists _, _; split; [reflexivity|]; eauto.
Qed.

Lemma verifyAndDownload_downloads fp st :
  downloads (verifyAndDownload B fp st) = downloads st
  \/ exists name content buffer,
       downloads (verifyAndDownload B fp st) = downloads st ++ [(name, content)]
       /\ verifiedBy B st fp buffer /\ deliveredFrom B st buffer content.
Proof.
  unfold verifyAndDownload.
  assert (H1 : downloads (if isScanning st then stopScan st else st) = downloads st).
  { destruct (isScanning st); [apply stopScan_downloads | reflexivity]. }
  revert H1. generalize (if isScanning st then stopScan st else st). intros st1 H1.
  destruct (expectedTotalChunks st) as [total|] eqn:Htotal; [|now left].
  destruct (expectedDataSize st) as [dataSize|] eqn:Hsize; [|now left].
  destruct (expectedArchiveName st) as [archiveName|]; [|now left].
  destruct (Z.eqb_spec (receivedChunkCount st) total) as [Hcount | Hcount]; cbn [negb].
  2: { left. rewrite downloads_displayMissingChunks. exact H1. }
  destruct (assemble (seqZ 1 total) (receivedChunksMap st)) as [i|chunkArray] eqn:Hchunks;
    [now left|].
  set (buffer := utils.base64ToArrayBuffer B (Js.join "" chunkArray)).
  destruct ((Z.of_nat (length buffer) =? 0) && (0 <? dataSize)); [now left|].
  destruct (Z.eqb_spec (Z.of_nat (length buffer)) dataSize) as [Hlen | Hlen]; cbn [negb];
    [|now left].
  case_bool_decide as Hchk; cbn [negb]; [|now left].
  right.
  match goal with |- context [processVerifiedData B st buffer ?s] =>
    destruct (processVerifiedData_downloads st buffer s) as (name & content & Hd & Hfrom)
  end.
  exists name, content, buffer. split; [rewrite Hd; simpl; now rewrite H1|].
  split; [|exact Hfrom].
  exists total, dataSize, chunkArray. repeat split; auto.
Qed.

Lemma checkForMissing_downloads fp st :
  downloads (checkForMissingChunksAndFinalize B fp st) = downloads st
  \/ exists name content buffer,
       downloads (checkForMissingChunksAndFinalize B fp st) = downloads st ++ [(name, content)]
       /\ verifiedBy B st fp buffer /\ deliveredFrom B st buffer content.
Proof.
  unfold checkForMissingChunksAndFinalize.
  assert (Hverify :
            downloads (verifyAndDownload B fp (set_missingChunksInfoHidden true st))
            = downloads st
            \/ exists name content buffer,
                 downloads (verifyAndDownload B fp (set_missingChunksInfoHidden true st))
                 = downloads st ++ [(name, content)]
                 /\ verifiedBy B st fp buffer /\ deliveredFrom B st buffer content).
  { destruct (verifyAndDownload_downloads fp (set_missingChunksInfoHidden true st))
      as [H | (name & content & buffer & H & Hv & Hf)]; [now left|].
    right. exists name, content, buffer. auto. }
  destruct (expectedTotalChunks st) as [total|].
  - destruct (total =? 0); [exact Hverify|].
    destruct (Z.of_nat (length (findMissing total (receivedChunksMap st))) =? 0);
      [exact Hverify|].
    left. destruct (negb (isScanning st));
      rewrite ?downloads_startScan, ?downloads_updateReceiverStatus,
        ?downloads_displayMissingChunks; reflexivity.
  - left. destruct (isScanning st); rewrite ?stopScan_downloads; reflexivity.
Qed.

Lemma handleFinalPacket_downloads fp st :
  downloads (handleFinalPacket B fp st) = downloads st
  \/ exists name content buffer,
       downloads (handleFinalPacket B fp st) = downloads st ++ [(name, content)]
       /\ verifiedBy B st fp buffer /\ deliveredFrom B st buffer content.
Proof.
  unfold handleFinalPacket.
  destruct (negb (bool_decide (Some (fid fp) = expectedFileId st))); [now left|].
  destruct (chk fp) as [[|c s]|] eqn:Hchk; try (left; now rewrite stopScan_downloads).
  match goal with |- context [checkForMissingChunksAndFinalize B fp ?s] =>
    destruct (checkForMissing_downloads fp s) as [H | (name & content & buffer & H & Hv & Hf)]
  end; [now left|].
  right. exists name, content, buffer. auto.
Qed.

(** X10. A scan hands nothing to the user, except a Final packet whose
    verification succeeds: then one file is added, and its content is the
    buffer that was verified, or the file JSZip extracts from it. *)
Theorem download_only_after_verification result st :
  let st' := handleScanResult B result st in
  downloads st' = downloads st
  \/ exists fp name content buffer,
       result = Structured fp /\ typ fp = "f"
       /\ downloads st' = downloads st ++ [(name, content)]
       /\ verifiedBy B st fp buffer /\ deliveredFrom B st buffer content.
Proof.
  intros st'. unfold st', handleScanResult.
  destruct (negb (expectsQr (receiverState st))); [now left|].
  destruct result as [| |p]; try (now left).
  destruct (String.eqb (fid p) ""); [now left|].
  destruct (negb (v p =? config.PROTOCOL_VERSION));
    [left; now rewrite stopScan_downloads|].
  match goal with |- context [if ?c then set_receiverDebug "FID Err" st else _] =>
    destruct c end; [now left|].
  assert (Hfinal : forall same,
            (if String.eqb (typ p) "f" && same then downloads (handleFinalPacket B p st)
             else downloads st) = downloads st
            \/ exists fp name content buffer,
                 Structured p = Structured fp /\ typ fp = "f"
                 /\ (if String.eqb (typ p) "f" && same
                     then downloads (handleFinalPacket B p st) else downloads st)
                    = downloads st ++ [(name, content)]
                 /\ verifiedBy B st fp buffer /\ deliveredFrom B st buffer content).
  { intros same. destruct (String.eqb_spec (typ p) "f") as [Hf | Hf]; [|now left].
    destruct same; [|now left]. cbn [andb].
    destruct (handleFinalPacket_downloads p st)
      as [H | (name & content & buffer & H & Hv & Hd)]; [now left|].
    right. exists p, name, content, buffer. auto. }
  set (same := bool_decide (Some (fid p) = expectedFileId st)) in *.
  specialize (Hfinal same).
  destruct (receiverState st); try (now left).
  - destruct (String.eqb (typ p) "h"); [left; apply downloads_processHandshake|].
    destruct (String.eqb (typ p) "f" && same); exact Hfinal.
  - destruct (String.eqb (typ p) "d" && same); [left; apply downloads_processDataChunk|].
    destruct (String.eqb (typ p) "f" && same); exact Hfinal.
  - destruct (String.eqb (typ p) "f" && same); [exact Hfinal|].
    destruct (String.eqb (typ p) "d" && same); [left; apply downloads_processDataChunk|].
    exact Hfinal.
  - destruct (String.eqb (typ p) "d" && same); [left; apply downloads_processDataChunk|].
    destruct (String.eqb (typ p) "f" && same); exact Hfinal.
Qed.

Lemma state_displayMissingChunks st :
  receiverState (displayMissingChunks st) = receiverState st
  \/ receiverState (displayMissingChunks st) = waiting_final.
Proof. unfold displayMissingChunks, updateReceiverStatus. cases; simpl; auto. Qed.

Lemma state_processDataChunk p st :
  receiverState (processDataChunk p st) = receiverState st
  \/ receiverState (processDataChunk p st) = waiting_final.
Proof.
  unfold processDataChunk, addReceivedChunk, updateReceiverStatus.
  cases; simpl; auto;
    match goal with
    | |- context [displayMissingChunks ?s] =>
        destruct (state_displayMissingChunks s) as [-> | ->]; simpl; auto
    end.
Qed.

(** X11. A Data packet never starts the verification: it leaves the receiver
    in its state, or in WaitingFinal, or, with another protocol version,
    in Error, and nothing is downloaded. The chunk that completes the
    store brings the receiver to WaitingFinal, where it needs a Final
    packet to go on. *)
Theorem data_packet_waits_for_final :
  (forall p st,
      typ p = "d" ->
      let st' := handleScanResult B (Structured p) st in
      downloads st' = downloads st /\ cleanupTimer st' = cleanupTimer st
      /\ (receiverState st' = receiverState st \/ receiverState st' = waiting_final
          \/ receiverState st' = error))
  /\ (forall session k data total st,
        receiverState st = receiving_data \/ receiverState st = waiting_missing ->
        expectedFileId st = Some session -> session <> "" ->
        expectedTotalChunks st = Some total -> 1 <= k <= total -> data <> "" ->
        receivedChunksMap st !! k = None -> receivedChunkCount st + 1 = total ->
        let st' := handleScanResult B (Structured (sender.dataPayload session k data)) st in
        receiverState st' = waiting_final
        /\ receivedChunksMap st' = <[k := data]> (receivedChunksMap st)
        /\ receivedChunkCount st' = total
        /\ downloads st' = downloads st).
Proof.
  split.
  - intros p st Htyp st'.
    assert (Hdata : downloads (processDataChunk p st) = downloads st
                    /\ cleanupTimer (processDataChunk p st) = cleanupTimer st
                    /\ (receiverState (processDataChunk p st) = receiverState st
                        \/ receiverState (processDataChunk p st) = waiting_final
                        \/ receiverState (processDataChunk p st) = error)).
    { split; [apply downloads_processDataChunk|]. split.
      - unfold processDataChunk, addReceivedChunk, updateReceiverStatus, displayMissingChunks.
        cases; reflexivity.
      - destruct (state_processDataChunk p st) as [-> | ->]; auto. }
    unfold st', handleScanResult. rewrite Htyp.
    change (String.eqb "d" "h") with false. change (String.eqb "d" "f") with false.
    change (String.eqb "d" "d") with true. cbn [andb].
    destruct (negb (expectsQr (receiverState st))); [auto|].
    destruct (String.eqb (fid p) ""); [simpl; auto|].
    destruct (negb (v p =? config.PROTOCOL_VERSION)).
    { rewrite stopScan_downloads, stopScan_cleanupTimer, stopScan_state. simpl. auto. }
    match goal with |- context [if ?c then set_receiverDebug "FID Err" st else _] =>
      destruct c end; [simpl; auto|].
    destruct (receiverState st) eqn:Hstate; auto;
      destruct (bool_decide (Some (fid p) = expectedFileId st)); auto;
      rewrite <- Hstate; exact Hdata.
  - intros session k data total st Hstate Hfid Hsession Htotal Hk Hdata Hnone Hcount st'.
    unfold st'. rewrite handleScanResult_data;
      [|destruct Hstate as [-> | ->]; reflexivity | exact Hfid | exact Hsession].
    unfold processDataChunk. cbn [seq dat sender.dataPayload].
    destruct data as [|c data]; [contradiction|].
    rewrite Htotal. cbn [default from_option id].
    destruct (Z.leb_spec k 0); [lia|]. destruct (Z.ltb_spec total k); [lia|]. cbn [orb].
    rewrite (proj2 (has_false _ _) Hnone). cbn [negb].
    unfold addReceivedChunk. rewrite (proj2 (has_false _ _) Hnone). cbn [negb].
    assert (Hcomplete : bool_decide (Some (receivedChunkCount st + 1) = Some total) = true)
      by (apply bool_decide_eq_true_2; congruence).
    destruct Hstate as [Hs | Hs]; rewrite Hs; simpl; rewrite Hcomplete;
      repeat split; simpl;
      rewrite ?map_displayMissingChunks, ?count_displayMissingChunks,
        ?downloads_displayMissingChunks; simpl; auto.
Qed.

End receiver_downloads.

(** ** The Final packet and the chunks that are missing *)

Section final_packet.
Import types browser state receiver spec events invariants downloading.
Context (B : Browser).

(** The two outcomes of verification: Complete, with one file handed out
    that comes from the verified buffer, or Error, with nothing handed
    out. *)
Lemma verifyAndDownload_verdict fp st :
  let st' := verifyAndDownload B fp st in
  (receiverState st' = complete
   /\ exists name content buffer,
        downloads st' = downloads st ++ [(name, content)]
        /\ verifiedBy B st fp buffer /\ deliveredFrom B st buffer content)
  \/ (receiverState st' = error /\ downloads st' = downloads st).
Proof.
  intros st'. unfold st', verifyAndDownload.
  assert (H1 : downloads (if isScanning st then stopScan st else st) = downloads st).
  { destruct (isScanning st); [apply stopScan_downloads | reflexivity]. }
  revert H1. generalize (if isScanning st then stopScan st else st). intros st1 H1.
  destruct (expectedTotalChunks st) as [total|] eqn:Htotal; [|now right].
  destruct (expectedDataSize st) as [dataSize|] eqn:Hsize; [|now right].
  destruct (expectedArchiveName st) as [archiveName|]; [|now right].
  destruct (Z.eqb_spec (receivedChunkCount st) total) as [Hcount | Hcount]; cbn [negb].
  2: { right. split; [now apply displayMissingChunks_error|].
       rewrite downloads_displayMissingChunks. exact H1. }
  destruct (assemble (seqZ 1 total) (receivedChunksMap st)) as [i|chunkArray] eqn:Hchunks;
    [now right|].
  set (buffer := utils.base64ToArrayBuffer B (Js.join "" chunkArray)).
  destruct ((Z.of_nat (length buffer) =? 0) && (0 <? dataSize)); [now right|].
  destruct (Z.eqb_spec (Z.of_nat (length buffer)) dataSize) as [Hlen | Hlen]; cbn [negb];
    [|now right].
  case_bool_decide as Hchk; cbn [negb]; [|now right].
  left. split; [apply processVerifiedData_complete|].
  match goal with |- context [processVerifiedData B st buffer ?s] =>
    destruct (processVerifiedData_downloads B st buffer s) as (name & content & Hd & Hfrom)
  end.
  exists name, content, buffer. split; [rewrite Hd; simpl; now rewrite H1|].
  split; [|exact Hfrom].
  exists total, dataSize, chunkArray. repeat split; auto.
Qed.

(** C3. The receiver reads a Final packet of its session, with a
    checksum, in ReceivingData, WaitingMissing or WaitingFinal. The
    numbers it counts as missing are those from 1 to the total that have
    no entry in the map, in ascending order.

    With none missing it verifies at once: it ends in Complete with one
    file handed out, which comes from a buffer that passed the size and
    the checksum test, or in Error with nothing handed out, and in no
    case in WaitingMissing.

    With some missing and the scanner running it enters WaitingMissing,
    shows their number and their ranges, keeps the scanner running and
    the store and the session as they are, and a Data packet for a
    missing number that comes next is stored.

    With some missing and the scanner stopped the code calls
    [startScan] to go on scanning, and [startScan] resets the receiver:
    it waits for a handshake, the session is destroyed, the list of the
    missing chunks is hidden, and the Data packets of the session that
    follow are ignored. *)
Theorem final_packet_completeness fp st total c :
  receiverState st = receiving_data \/ receiverState st = waiting_missing
  \/ receiverState st = waiting_final ->
  expectedFileId st = Some (fid fp) -> fid fp <> "" ->
  v fp = config.PROTOCOL_VERSION -> typ fp = "f" ->
  chk fp = Some c -> c <> "" ->
  expectedTotalChunks st = Some total ->
  let missing := findMissing total (receivedChunksMap st) in
  let st' := handleScanResult B (Structured fp) st in
  (forall k, k ∈ missing <-> 1 <= k <= total /\ receivedChunksMap st !! k = None)
  /\ StronglySorted Z.lt missing
  /\ (missing = [] ->
        receiverState st' <> waiting_missing
        /\ ((receiverState st' = complete
             /\ exists name content buffer,
                  downloads st' = downloads st ++ [(name, content)]
                  /\ verifiedBy B st fp buffer /\ deliveredFrom B st buffer content)
            \/ (receiverState st' = error /\ downloads st' = downloads st)))
  /\ (missing <> [] -> isScanning st = true ->
        receiverState st' = waiting_missing
        /\ missingChunksCount st' = Js.numToString (Z.of_nat (length missing))
        /\ missingChunksList st' = formatMissingChunks missing
        /\ missingChunksInfoHidden st' = false
        /\ receiverStatus st'
           = "Status: Waiting for " +:+ Js.numToString (Z.of_nat (length missing)) +:+
             " missing chunk(s). Keep scanning."
        /\ isScanning st' = true
        /\ qrScanner st' = qrScanner st
        /\ expectsQr (receiverState st') = true
        /\ store st' = store st
        /\ sessionOf st' = sessionOf st
        /\ downloads st' = downloads st
        /\ (forall k data, k ∈ missing -> data <> "" ->
              receivedChunksMap
                (handleScanResult B (Structured (sender.dataPayload (fid fp) k data)) st')
                !! k = Some data))
  /\ (missing <> [] -> isScanning st = false ->
        receiverState st' = waiting_handshake
        /\ sessionDestroyed st'
        /\ missingChunksInfoHidden st' = true
        /\ isScanning st' = false
        /\ downloads st' = downloads st
        /\ (forall k data,
              handleScanResult B (Structured (sender.dataPayload (fid fp) k data)) st' = st')).
Proof.
  intros Hstate Hfid Hne Hv Htyp Hchk Hc Htot missing st'.
  split; [intros k; apply findMissing_elem|].
  split; [apply findMissing_sorted|].
  set (st0 := updateReceiverStatus
                "Final confirmation QR received. Checking chunk completeness..." false st).
  assert (Hst' : st' = checkForMissingChunksAndFinalize B fp st0).
  { unfold st'. rewrite handleScanResult_final by assumption.
    unfold handleFinalPacket. rewrite Hfid, Hchk.
    rewrite bool_decide_eq_true_2 by reflexivity.
    destruct c; [contradiction|]. reflexivity. }
  unfold checkForMissingChunksAndFinalize in Hst'.
  change (expectedTotalChunks st0) with (expectedTotalChunks st) in Hst'.
  change (receivedChunksMap st0) with (receivedChunksMap st) in Hst'.
  change (isScanning st0) with (isScanning st) in Hst'.
  rewrite Htot in Hst'. fold missing in Hst'.
  split; [|split].
  - intros Hnone. rewrite Hnone in Hst'. cbn [length Z.of_nat Z.eqb] in Hst'.
    assert (Heq : st' = verifyAndDownload B fp (set_missingChunksInfoHidden true st0)).
    { rewrite Hst'. destruct (total =? 0); reflexivity. }
    pose proof (verifyAndDownload_verdict fp (set_missingChunksInfoHidden true st0))
      as Hverdict.
    cbv zeta in Hverdict. rewrite <- Heq in Hverdict.
    change (downloads (set_missingChunksInfoHidden true st0)) with (downloads st)
      in Hverdict.
    split.
    { destruct Hverdict as [[Hs _] | [Hs _]]; rewrite Hs; discriminate. }
    destruct Hverdict as [(Hs & name & content & buffer & Hd & Hver & Hfrom) | Herr];
      [left | right; exact Herr].
    split; [exact Hs|]. exists name, content, buffer. split; [exact Hd|]. split.
    + now apply (verifiedBy_same B (set_missingChunksInfoHidden true st0) st).
    + now apply (deliveredFrom_same B (set_missingChunksInfoHidden true st0) st).
  - intros Hsome Hscan.
    assert (Hpos : (total =? 0) = false).
    { apply Z.eqb_neq. intros ->. apply Hsome. reflexivity. }
    assert (Hlen : (Z.of_nat (length missing) =? 0) = false).
    { apply Z.eqb_neq. destruct missing; [contradiction | simpl; lia]. }
    assert (Hlen' : (0 <? Z.of_nat (length missing)) = true).
    { apply Z.ltb_lt. destruct missing; [contradiction | simpl; lia]. }
    rewrite Hpos, Hlen, Hscan in Hst'. cbn [negb] in Hst'.
    unfold displayMissingChunks in Hst'. simpl in Hst'.
    rewrite Htot in Hst'. fold missing in Hst'. rewrite Hlen' in Hst'. simpl in Hst'.
    rewrite Hst'. simpl.
    repeat (split; [first [reflexivity | exact Hscan]|]).
    intros k data Hk Hdata.
    apply findMissing_elem in Hk as [Hrange Hnew].
    rewrite handleScanResult_data; [| reflexivity | exact Hfid | exact Hne].
    rewrite (map_processDataChunk (fid fp) (fun _ => data) total k _ k) by exact Htot.
    simpl. rewrite Hnew. rewrite bool_decide_eq_true_2 by reflexivity.
    unfold storable. apply String.eqb_neq in Hdata. rewrite Hdata.
    destruct (Z.ltb_spec 0 k), (Z.leb_spec k total); try lia. reflexivity.
  - intros Hsome Hscan.
    assert (Hpos : (total =? 0) = false).
    { apply Z.eqb_neq. intros ->. apply Hsome. reflexivity. }
    assert (Hlen : (Z.of_nat (length missing) =? 0) = false).
    { apply Z.eqb_neq. destruct missing; [contradiction | simpl; lia]. }
    rewrite Hpos, Hlen, Hscan in Hst'. cbn [negb] in Hst'.
    set (st1 := displayMissingChunks (setReceiverState waiting_missing st0)) in Hst'.
    assert (Hoff : isScanning st1 = false).
    { unfold st1. rewrite isScanning_displayMissingChunks. exact Hscan. }
    assert (Hd1 : downloads st1 = downloads st).
    { unfold st1. now rewrite downloads_displayMissingChunks. }
    pose proof (startScan_destroys st1 Hoff) as Hdestroyed.
    rewrite <- Hst' in Hdestroyed.
    assert (Hshape : receiverState st' = waiting_handshake
                     /\ missingChunksInfoHidden st' = true
                     /\ isScanning st' = false
                     /\ downloads st' = downloads st).
    { rewrite Hst'. unfold startScan. rewrite Hoff.
      destruct (negb (qrScanner st1)); cbn; rewrite ?Hoff, ?Hd1; repeat split. }
    destruct Hshape as (Hw & Hhidden & Hoff' & Hd').
    split; [exact Hw|]. split; [exact Hdestroyed|]. split; [exact Hhidden|].
    split; [exact Hoff'|]. split; [exact Hd'|].
    intros k data. unfold handleScanResult. rewrite Hw. cbn [expectsQr negb].
    cbn [fid v typ sender.dataPayload].
    apply String.eqb_neq in Hne. rewrite Hne.
    change (config.PROTOCOL_VERSION =? config.PROTOCOL_VERSION) with true.
    cbn [negb ReceiverState_eqb andb].
    change (String.eqb "d" "h") with false. change (String.eqb "d" "f") with false.
    reflexivity.
Qed.

End final_packet.

(** The Final packet of the scenarios, read by the receiver whose scanner
    was stopped after the first chunk, by the scanning receiver that
    misses the chunks 2 and 4, and by the one that has the five chunks. *)
Lemma final_packet_completeness_witness :
  let final := browser.Structured scenarios.final in
  let stopped := receiver.handleScanResult examples.exampleBrowser final
                   scenarios2.stoppedMidway in
  let waiting := receiver.handleScanResult examples.exampleBrowser final
                   scenarios.partlyReceived in
  let done := receiver.handleScanResult examples.exampleBrowser final
                scenarios.allReceived in
  (events.reachable examples.exampleBrowser scenarios2.stoppedMidway
   /\ state.receiverState scenarios2.stoppedMidway = types.receiving_data
   /\ state.expectedFileId scenarios2.stoppedMidway = Some scenarios.fileId
   /\ receiver.findMissing 5 (state.receivedChunksMap scenarios2.stoppedMidway)
      = [2; 3; 4; 5]
   /\ state.receiverState stopped = types.waiting_handshake
   /\ spec.sessionDestroyed stopped
   /\ receiver.handleScanResult examples.exampleBrowser
        (browser.Structured (scenarios.data 2)) stopped = stopped)
  /\ (receiver.findMissing 5 (state.receivedChunksMap scenarios.partlyReceived) = [2; 4]
      /\ state.receiverState waiting = types.waiting_missing
      /\ state.missingChunksList waiting = "2, 4"
      /\ state.isScanning waiting = true
      /\ state.receivedChunksMap
           (receiver.handleScanResult examples.exampleBrowser
              (browser.Structured (scenarios.data 4)) waiting) !! 4
         = Some (scenarios.chunk 4))
  /\ (receiver.findMissing 5 (state.receivedChunksMap scenarios.allReceived) = []
      /\ state.receiverState scenarios.allReceived = types.waiting_final
      /\ state.receiverState done = types.complete
      /\ exists name content,
           state.downloads done = state.downloads scenarios.allReceived ++ [(name, content)]).
Proof.
  intros final stopped waiting done. split; [|split].
  - destruct (final_packet_completeness examples.exampleBrowser scenarios.final
                scenarios2.stoppedMidway 5 "4cef") as (_ & _ & _ & _ & Hstopped).
    + left. vm_compute. reflexivity.
    + vm_compute. reflexivity.
    + vm_compute. discriminate.
    + vm_compute. reflexivity.
    + vm_compute. reflexivity.
    + vm_compute. reflexivity.
    + discriminate.
    + vm_compute. reflexivity.
    + destruct Hstopped as (Hstate & Hdestroyed & _ & _ & _ & Hignored).
      * vm_compute. discriminate.
      * vm_compute. reflexivity.
      * split; [apply reachable_run; constructor|].
        split; [vm_compute; reflexivity|]. split; [vm_compute; reflexivity|].
        split; [vm_compute; reflexivity|]. split; [exact Hstate|].
        split; [exact Hdestroyed|]. exact (Hignored 2 (scenarios.chunk 2)).
  - destruct (final_packet_completeness examples.exampleBrowser scenarios.final
                scenarios.partlyReceived 5 "4cef") as (_ & _ & _ & Hwaiting & _).
    + left. vm_compute. reflexivity.
    + vm_compute. reflexivity.
    + vm_compute. discriminate.
    + vm_compute. reflexivity.
    + vm_compute. reflexivity.
    + vm_compute. reflexivity.
    + discriminate.
    + vm_compute. reflexivity.
    + assert (Hmissing : receiver.findMissing 5
                           (state.receivedChunksMap scenarios.partlyReceived) = [2; 4])
        by (vm_compute; reflexivity).
      destruct Hwaiting as (Hstate & _ & Hlist & _ & _ & Hscan & _ & _ & _ & _ & _ & Hnext).
      * rewrite Hmissing. discriminate.
      * vm_compute. reflexivity.
      * split; [exact Hmissing|]. split; [exact Hstate|].
        split; [unfold waiting, final; rewrite Hlist, Hmissing; vm_compute; reflexivity|].
        split; [exact Hscan|].
        apply (Hnext 4 (scenarios.chunk 4)).
        -- rewrite Hmissing. apply list_elem_of_In. simpl. tauto.
        -- vm_compute. discriminate.
  - destruct (final_packet_completeness examples.exampleBrowser scenarios.final
                scenarios.allReceived 5 "4cef") as (_ & _ & Hdone & _).
    + right. right. vm_compute. reflexivity.
    + vm_compute. reflexivity.
    + vm_compute. discriminate.
    + vm_compute. reflexivity.
    + vm_compute. reflexivity.
    + vm_compute. reflexivity.
    + discriminate.
    + vm_compute. reflexivity.
    + destruct Hdone as [_ [(Hstate & name & content & buffer & Hd & _) | [Herr _]]].
      * vm_compute. reflexivity.
      * split; [vm_compute; reflexivity|]. split; [vm_compute; reflexivity|].
        split; [exact Hstate|]. exists name, content. exact Hd.
      * vm_compute in Herr. discriminate Herr.
Defined.

(** ** A whole transfer, as the receiver sees it *)

Section receiver_round_trip.
Context (B : browser.Browser).
Import types browser state receiver spec events invariants downloading.

Ltac cases := repeat case_match; simplify_eq.

(** Verification, for a receiver that has all the chunks. *)
Lemma verifyAndDownload_decides fp st total dataSize archiveName chunkArray :
  expectedTotalChunks st = Some total ->
  expectedDataSize st = Some dataSize ->
  expectedArchiveName st = Some archiveName ->
  receivedChunkCount st = total ->
  assemble (seqZ 1 total) (receivedChunksMap st) = inr chunkArray ->
  let buffer := utils.base64ToArrayBuffer B (Js.join "" chunkArray) in
  let st' := verifyAndDownload B fp st in
  if bool_decide (Z.of_nat (length buffer) = dataSize
                  /\ chk fp = Some (utils.calculateChecksum buffer))
  then receiverState st' = complete
       /\ exists name content,
            downloads st' = downloads st ++ [(name, content)]
            /\ deliveredFrom B st buffer content
  else receiverState st' = error /\ downloads st' = downloads st.
Proof.
  intros Htotal Hsize Hname Hcount Hchunks buffer st'.
  unfold st', verifyAndDownload. rewrite Htotal, Hsize, Hname, Hcount, Z.eqb_refl, Hchunks.
  cbn [negb]. fold buffer.
  assert (H1 : downloads (if isScanning st then stopScan st else st) = downloads st).
  { destruct (isScanning st); [apply stopScan_downloads | reflexivity]. }
  revert H1. generalize (if isScanning st then stopScan st else st). intros st1 H1.
  case_bool_decide as Hok.
  - destruct Hok as [Hlen Hchk].
    assert ((Z.of_nat (length buffer) =? 0) && (0 <? dataSize) = false) as ->
      by (apply andb_false_iff; lia).
    rewrite (proj2 (Z.eqb_eq _ _) Hlen). cbn [negb].
    rewrite bool_decide_eq_true_2 by congruence. cbn [negb].
    split; [apply processVerifiedData_complete|].
    match goal with |- context [processVerifiedData B st buffer ?s] =>
      destruct (processVerifiedData_downloads B st buffer s) as (name & content & Hd & Hfrom)
    end.
    exists name, content. split; [rewrite Hd; simpl; now rewrite H1 | exact Hfrom].
  - destruct ((Z.of_nat (length buffer) =? 0) && (0 <? dataSize)); [now split|].
    destruct (Z.eqb_spec (Z.of_nat (length buffer)) dataSize) as [Hlen | Hlen]; cbn [negb];
      [|now split].
    rewrite bool_decide_eq_false_2; [now split|].
    intros Hchk. apply Hok. split; congruence.
Qed.

Lemma assemble_all (seqs : list Z) (m : gmap Z string) (chunkOf : Z -> string) :
  (forall k, k ∈ seqs -> m !! k = Some (chunkOf k) /\ chunkOf k <> "") ->
  assemble seqs m = inr (map chunkOf seqs).
Proof.
  induction seqs as [|k seqs IH]; intros Hall; simpl; [reflexivity|].
  destruct (Hall k) as [-> Hne]; [left|].
  destruct (String.eqb_spec (chunkOf k) ""); [contradiction|].
  rewrite IH; [reflexivity|]. intros j Hj. apply Hall. now right.
Qed.

Lemma deliver_frame session chunkOf seqs st :
  acceptsData (receiverState st) = true ->
  expectedFileId st = Some session -> session <> "" ->
  let st' := deliver B (dataPackets session chunkOf seqs) st in
  sessionOf st' = sessionOf st
  /\ acceptsData (receiverState st') = true
  /\ downloads st' = downloads st.
Proof.
  revert st. induction seqs as [|s seqs IH]; intros st Hacc Hfid Hne; [now repeat split|].
  unfold dataPackets, deliver. cbn [map fold_left].
  rewrite handleScanResult_data by assumption.
  pose proof (processDataChunk_session (sender.dataPayload session s (chunkOf s)) st) as Hs.
  destruct (IH (processDataChunk (sender.dataPayload session s (chunkOf s)) st))
    as (Hs' & Hacc' & Hd').
  - now apply processDataChunk_acceptsData.
  - unfold sessionOf in Hs. congruence.
  - exact Hne.
  - split; [exact (eq_trans Hs' Hs)|]. split; [exact Hacc'|].
    rewrite <- (downloads_processDataChunk (sender.dataPayload session s (chunkOf s)) st).
    exact Hd'.
Qed.

Lemma size_exactly (m : gmap Z string) (total : Z) :
  0 <= total -> (forall k, is_Some (m !! k) <-> 1 <= k <= total) ->
  Z.of_nat (size m) = total.
Proof.
  intros Hpos Hkeys.
  assert (Hdom : dom m = list_to_set (seqZ 1 total)).
  { apply set_eq. intros k.
    rewrite elem_of_dom, Hkeys, elem_of_list_to_set, elem_of_seqZ. lia. }
  rewrite <- size_dom, Hdom, size_list_to_set by apply NoDup_seqZ.
  rewrite length_seqZ. lia.
Qed.

(** What a receiver that waits for a handshake makes of the handshake of
    a sender. *)
Lemma handshake_adopted session nam_ siz_ tot_ ofn_ st :
  receiverState st = waiting_handshake -> expectedFileId st = None ->
  session <> "" -> 0 <= tot_ ->
  let st' := handleScanResult B
               (Structured (sender.handshakePayload session nam_ siz_ tot_ ofn_)) st in
  expectedFileId st' = Some session
  /\ expectedTotalChunks st' = Some tot_
  /\ expectedDataSize st' = Some siz_
  /\ expectedArchiveName st'
     = utils.safeDecodeURIComponent B nam_ (Some config.MULTI_FILE_ARCHIVE_NAME)
  /\ expectedOriginalFilename st'
     = match ofn_ with
       | Some (String _ _ as name) => utils.safeDecodeURIComponent B name None
       | _ => None
       end
  /\ store st' = (∅, 0)
  /\ receiverState st' = (if tot_ =? 0 then waiting_final else receiving_data)
  /\ downloads st' = downloads st
  /\ isScanning st' = isScanning st.
Proof.
  intros Hstate Hfid Hsession Htot st'.
  unfold st', handleScanResult. rewrite Hstate, Hfid. cbn [expectsQr negb].
  cbn [fid v typ sender.handshakePayload].
  apply String.eqb_neq in Hsession. rewrite Hsession.
  change (config.PROTOCOL_VERSION =? config.PROTOCOL_VERSION) with true.
  cbn [negb ReceiverState_eqb andb]. change (String.eqb "h" "h") with true.
  unfold processHandshake. cbn [nam siz tot zip fid ofn sender.handshakePayload].
  destruct (Z.ltb_spec tot_ 0); [lia|]. rewrite Hfid. cbn [negb].
  destruct (tot_ =? 0); repeat split.
Qed.

(** The outcome of a whole transfer. *)
Lemma round_trip_outcome session nam_ siz_ tot_ ofn_ chunkOf seqs checksum st :
  receiverState st = waiting_handshake -> expectedFileId st = None ->
  session <> "" -> 0 <= tot_ -> checksum <> "" ->
  (forall k, 1 <= k <= tot_ -> chunkOf k <> "" /\ k ∈ seqs) ->
  let st1 := handleScanResult B
               (Structured (sender.handshakePayload session nam_ siz_ tot_ ofn_)) st in
  let st2 := deliver B (dataPackets session chunkOf seqs) st1 in
  let st3 := handleScanResult B (Structured (sender.finalPayload session checksum)) st2 in
  let buffer := utils.base64ToArrayBuffer B (Js.join "" (map chunkOf (seqZ 1 tot_))) in
  if bool_decide (Z.of_nat (length buffer) = siz_
                  /\ checksum = utils.calculateChecksum buffer)
  then receiverState st3 = complete
       /\ exists name content,
            downloads st3 = downloads st ++ [(name, content)]
            /\ deliveredFrom B st1 buffer content
  else receiverState st3 = error /\ downloads st3 = downloads st.
Proof.
  intros Hstate Hfid Hsession Htot Hchecksum Hchunks st1 st2 st3 buffer.
  destruct (handshake_adopted session nam_ siz_ tot_ ofn_ st Hstate Hfid Hsession Htot)
    as (Hfid1 & Htot1 & Hsiz1 & Hnam1 & _ & Hstore1 & Hstate1 & Hdl1 & _).
  fold st1 in Hfid1, Htot1, Hsiz1, Hnam1, Hstore1, Hstate1, Hdl1.
  assert (Hacc1 : acceptsData (receiverState st1) = true)
    by (rewrite Hstate1; destruct (tot_ =? 0); reflexivity).
  (* the Data packets *)
  destruct (deliver_frame session chunkOf seqs st1 Hacc1 Hfid1 Hsession)
    as (Hs2 & Hacc2 & Hdl2).
  fold st2 in Hs2, Hacc2, Hdl2.
  unfold sessionOf in Hs2. injection Hs2 as Hfid2 Htot2 Hnam2 Hsiz2 _ Horig2.
  rewrite Hfid1 in Hfid2. rewrite Htot1 in Htot2. rewrite Hsiz1 in Hsiz2.
  assert (Hmap1 : receivedChunksMap st1 = ∅) by exact (f_equal fst Hstore1).
  assert (Hlookup : forall k,
            receivedChunksMap st2 !! k
            = if bool_decide (k ∈ seqs) && storable tot_ chunkOf k
              then Some (chunkOf k) else None).
  { intros k. unfold st2.
    rewrite (deliver_lookup B session chunkOf tot_ seqs st1 k Hacc1 Hfid1 Hsession Htot1).
    now rewrite Hmap1, lookup_empty. }
  assert (Hin : forall k, 1 <= k <= tot_ -> receivedChunksMap st2 !! k = Some (chunkOf k)).
  { intros k Hk. rewrite Hlookup. destruct (Hchunks k Hk) as [Hne Hseq].
    rewrite bool_decide_eq_true_2 by exact Hseq. unfold storable.
    destruct (Z.ltb_spec 0 k); [|lia]. destruct (Z.leb_spec k tot_); [|lia].
    apply String.eqb_neq in Hne. now rewrite Hne. }
  assert (Hout : forall k, is_Some (receivedChunksMap st2 !! k) <-> 1 <= k <= tot_).
  { intros k. split; [|intros Hk; rewrite (Hin k Hk); eauto].
    rewrite Hlookup. unfold storable. intros [x Hx].
    destruct (bool_decide (k ∈ seqs)); [|discriminate]. cbn [andb] in Hx.
    destruct (Z.ltb_spec 0 k); [|discriminate]. destruct (Z.leb_spec k tot_); [lia|].
    discriminate. }
  assert (Hcount2 : receivedChunkCount st2 = tot_).
  { assert (Hc : countMatches st2).
    { apply countMatches_deliver. unfold countMatches.
      rewrite (f_equal snd Hstore1 : receivedChunkCount st1 = 0), Hmap1. reflexivity. }
    unfold countMatches in Hc. rewrite Hc. now apply size_exactly. }
  assert (Hassemble : assemble (seqZ 1 tot_) (receivedChunksMap st2)
                      = inr (map chunkOf (seqZ 1 tot_))).
  { apply assemble_all. intros k Hk. apply elem_of_seqZ in Hk.
    split; [apply Hin; lia | apply Hchunks; lia]. }
  assert (Hmissing : findMissing tot_ (receivedChunksMap st2) = []).
  { apply elem_of_nil_inv. intros k Hk. apply findMissing_elem in Hk.
    destruct Hk as [Hk Hnone]. rewrite (Hin k Hk) in Hnone. discriminate. }
  (* the Final packet *)
  assert (Hfinal : st3 = verifyAndDownload B (sender.finalPayload session checksum)
                           (set_missingChunksInfoHidden true
                              (updateReceiverStatus
                                 "Final confirmation QR received. Checking chunk completeness..."
                                 false st2))).
  { unfold st3. rewrite handleScanResult_final; try reflexivity; try assumption.
    - unfold handleFinalPacket. cbn [fid chk sender.finalPayload]. rewrite Hfid2.
      rewrite bool_decide_eq_true_2 by reflexivity. cbn [negb].
      destruct checksum as [|c checksum]; [contradiction|].
      unfold checkForMissingChunksAndFinalize.
      change (expectedTotalChunks (updateReceiverStatus _ false st2))
        with (expectedTotalChunks st2).
      change (receivedChunksMap (updateReceiverStatus _ false st2))
        with (receivedChunksMap st2).
      rewrite Htot2, Hmissing. destruct (tot_ =? 0); reflexivity.
    - destruct (receiverState st2); try discriminate Hacc2; auto. }
  pose proof (verifyAndDownload_decides (sender.finalPayload session checksum)
                (set_missingChunksInfoHidden true
                   (updateReceiverStatus
                      "Final confirmation QR received. Checking chunk completeness..."
                      false st2))
                tot_ siz_ (default "" (expectedArchiveName st1))
                (map chunkOf (seqZ 1 tot_))) as Hverify.
  cbv zeta in Hverify. rewrite <- Hfinal in Hverify. fold buffer in Hverify.
  assert (Hname : expectedArchiveName st2 = Some (default "" (expectedArchiveName st1))).
  { rewrite Hnam2, Hnam1. unfold utils.safeDecodeURIComponent.
    destruct (decodeURIComponent B nam_); reflexivity. }
  specialize (Hverify Htot2 Hsiz2 Hname Hcount2 Hassemble).
  change (downloads (set_missingChunksInfoHidden true (updateReceiverStatus _ false st2)))
    with (downloads st2) in Hverify.
  rewrite Hdl2, Hdl1 in Hverify.
  cbn [chk sender.finalPayload] in Hverify.
  assert (Hsame : bool_decide (Z.of_nat (length buffer) = siz_
                               /\ Some checksum = Some (utils.calculateChecksum buffer))
                  = bool_decide (Z.of_nat (length buffer) = siz_
                                 /\ checksum = utils.calculateChecksum buffer)).
  { apply bool_decide_ext. split; intros [H1 H2]; split; congruence. }
  rewrite Hsame in Hverify.
  destruct (bool_decide (Z.of_nat (length buffer) = siz_
                         /\ checksum = utils.calculateChecksum buffer)); [|exact Hverify].
  destruct Hverify as (Hcomplete & name & content & Hd & Hfrom).
  split; [exact Hcomplete|]. exists name, content. split; [exact Hd|].
  revert Hfrom. unfold deliveredFrom.
  change (expectedOriginalFilename
            (set_missingChunksInfoHidden true (updateReceiverStatus _ false st2)))
    with (expectedOriginalFilename st2).
  now rewrite Horig2.
Qed.

(** X12. The handshake, the Data packets in any order and any number of
    copies, then the Final packet, scanned by a receiver that waits for a
    handshake: when every chunk from 1 to the total came at least once,
    the receiver ends in Complete with one file handed to the user
    exactly when the concatenation of the chunks in the order of their
    numbers decodes to a buffer of the size of the handshake whose
    checksum is the one of the Final packet, and it ends in Error with
    nothing handed out otherwise. A total of zero needs no Data packet. *)
Theorem receiver_round_trip session nam_ siz_ tot_ ofn_ chunkOf seqs checksum st :
  receiverState st = waiting_handshake -> expectedFileId st = None ->
  session <> "" -> 0 <= tot_ -> checksum <> "" ->
  (forall k, 1 <= k <= tot_ -> chunkOf k <> "" /\ k ∈ seqs) ->
  let st1 := handleScanResult B
               (Structured (sender.handshakePayload session nam_ siz_ tot_ ofn_)) st in
  let st2 := deliver B (dataPackets session chunkOf seqs) st1 in
  let st3 := handleScanResult B (Structured (sender.finalPayload session checksum)) st2 in
  let buffer := utils.base64ToArrayBuffer B (Js.join "" (map chunkOf (seqZ 1 tot_))) in
  if bool_decide (Z.of_nat (length buffer) = siz_
                  /\ checksum = utils.calculateChecksum buffer)
  then receiverState st3 = complete
       /\ exists name content,
            downloads st3 = downloads st ++ [(name, content)]
            /\ deliveredFrom B st1 buffer content
  else receiverState st3 = error /\ downloads st3 = downloads st.
Proof.
  intros Hstate Hfid Hsession Htot Hchecksum Hchunks.
  now apply round_trip_outcome.
Qed.


End receiver_round_trip.

(** ** Handshakes *)

Section receiver_handshake.
Context (B : browser.Browser).
Import types browser state receiver spec events invariants.

(** X13. A receiver that waits for a handshake, with no session, reads a
    packet of type [h] of the protocol version. When the packet has a
    name, a size, a total that is not negative and the flag [zip] set, the
    receiver adopts the session: it remembers the file identifier, the
    total and the size, starts with an empty store, and goes to
    ReceivingData, or to WaitingFinal when the total is zero. When a
    field is missing or wrong, only the debug line changes. *)
Theorem handshake_validation p st :
  receiverState st = waiting_handshake -> expectedFileId st = None ->
  v p = config.PROTOCOL_VERSION -> fid p <> "" -> typ p = "h" ->
  let st' := handleScanResult B (Structured p) st in
  (forall nam_ siz_ tot_,
      nam p = Some nam_ -> siz p = Some siz_ -> tot p = Some tot_ -> zip p = Some true ->
      0 <= tot_ ->
      expectedFileId st' = Some (fid p)
      /\ expectedTotalChunks st' = Some tot_
      /\ expectedDataSize st' = Some siz_
      /\ is_Some (expectedArchiveName st')
      /\ store st' = (∅, 0)
      /\ receiverState st' = (if tot_ =? 0 then waiting_final else receiving_data)
      /\ isScanning st' = isScanning st)
  /\ (nam p = None \/ siz p = None \/ zip p <> Some true
      \/ (forall tot_, tot p = Some tot_ -> tot_ < 0) ->
      st' = set_receiverDebug "HShake Field Err" st).
Proof.
  intros Hstate Hfid Hv Hne Htyp st'.
  assert (Hproc : st' = processHandshake B p st).
  { unfold st', handleScanResult. rewrite Hstate, Hfid, Hv, Htyp.
    cbn [expectsQr negb]. apply String.eqb_neq in Hne. rewrite Hne.
    reflexivity. }
  rewrite Hproc. unfold processHandshake. rewrite Hfid. split.
  - intros nam_ siz_ tot_ -> -> -> -> Htot.
    destruct (Z.ltb_spec tot_ 0); [lia|]. cbn [negb].
    unfold utils.safeDecodeURIComponent.
    destruct (tot_ =? 0), (decodeURIComponent B nam_); repeat split; simpl; eauto.
  - intros Hbad.
    destruct (nam p) as [nam_|]; [|reflexivity].
    destruct (siz p) as [siz_|]; [|reflexivity].
    destruct (tot p) as [tot_|]; [|reflexivity].
    destruct (zip p) as [[|]|]; try reflexivity.
    destruct (Z.ltb_spec tot_ 0) as [Hneg | Hpos]; [reflexivity|].
    destruct Hbad as [Hb | [Hb | [Hb | Hb]]]; try discriminate; try contradiction.
    specialize (Hb tot_ eq_refl). lia.
Qed.

(** X14. Once a session is adopted, no packet of type [h] replaces it: for
    the handshake of the session and for the one of any other file, of
    the protocol version or of another, the session and the store stay as
    they are. A packet of the protocol version, and one without a file
    identifier, also leave the state and the scanner as they are. A
    packet of another version that names a file puts the receiver in
    Error and stops the scanner that is running, as every packet of
    another version does. *)
Theorem session_is_not_replaced p session st :
  acceptsData (receiverState st) = true ->
  expectedFileId st = Some session -> session <> "" ->
  typ p = "h" ->
  let st' := handleScanResult B (Structured p) st in
  sessionOf st' = sessionOf st /\ store st' = store st
  /\ (v p = config.PROTOCOL_VERSION \/ fid p = "" ->
      receiverState st' = receiverState st /\ isScanning st' = isScanning st)
  /\ (v p <> config.PROTOCOL_VERSION -> fid p <> "" ->
      receiverState st' = error
      /\ isScanning st' = (isScanning st && negb (qrScanner st))
      /\ (isScanning st = true -> qrScanner st = true -> isScanning st' = false)).
Proof.
  intros Hacc Hfid Hsession Htyp st'.
  assert (Hq : expectsQr (receiverState st) = true)
    by (destruct (receiverState st); try discriminate Hacc; reflexivity).
  destruct (String.eqb_spec (fid p) "") as [Hempty | Hnamed].
  { assert (Hst' : st' = set_receiverDebug "Struct Err" st).
    { unfold st', handleScanResult. rewrite Hq, Hempty. reflexivity. }
    rewrite Hst'. split; [reflexivity|]. split; [reflexivity|].
    split; [intros _; split; reflexivity | intros _ Hn; contradiction]. }
  destruct (Z.eq_dec (v p) config.PROTOCOL_VERSION) as [Hv | Hv].
  - assert (Hsame : sessionOf st' = sessionOf st /\ store st' = store st
                    /\ receiverState st' = receiverState st
                    /\ isScanning st' = isScanning st).
    { unfold st', handleScanResult. rewrite Hv, Htyp, Hfid.
      change (String.eqb "h" "d") with false. change (String.eqb "h" "f") with false.
      cbn [andb].
      destruct (receiverState st) eqn:Hstate; try discriminate Hacc; cbn [expectsQr negb];
        destruct (String.eqb (fid p) ""); try (now repeat split);
        destruct session; try contradiction;
        destruct (bool_decide (Some (fid p) = Some (String a session))); now repeat split. }
    destruct Hsame as (H1 & H2 & H3 & H4).
    split; [exact H1|]. split; [exact H2|].
    split; [intros _; split; assumption | intros Hn; contradiction].
  - assert (Hst' : st' = stopScan
                           (updateReceiverStatus
                              ("Incompatible protocol version (Received: " +:+
                               Js.numToString (v p) +:+ ", Expected: " +:+
                               Js.numToString config.PROTOCOL_VERSION +:+ "). Stopping.")
                              true st))
      by (unfold st'; now apply handleScanResult_version).
    rewrite stopScan_error in Hst' by reflexivity. simpl in Hst'.
    rewrite Hst'.
    destruct (isScanning st) eqn:Hs, (qrScanner st) eqn:Hc; simpl; rewrite ?Hs, ?Hc.
    all: split; [reflexivity|]; split; [reflexivity|].
    all: split; [intros [Hv' | Hf]; contradiction|].
    all: intros _ _; split; [reflexivity|]; split; [reflexivity|]; congruence.
Qed.

End receiver_handshake.

Lemma handshake_validation_witness :
  let st' := receiver.handleScanResult examples.exampleBrowser
               (browser.Structured scenarios.handshake) scenarios.restarted in
  state.expectedFileId st' = Some scenarios.fileId
  /\ state.expectedTotalChunks st' = Some 5
  /\ state.receiverState st' = types.receiving_data.
Proof.
  destruct (handshake_validation examples.exampleBrowser scenarios.handshake
              scenarios.restarted) as [Hadopt _].
  - vm_compute. reflexivity.
  - vm_compute. reflexivity.
  - reflexivity.
  - vm_compute. discriminate.
  - reflexivity.
  - destruct (Hadopt (examples.percentEncode config.MULTI_FILE_ARCHIVE_NAME) 303 5)
      as (Hfid & Htotal & _ & _ & _ & Hstate & _); try reflexivity; [lia|].
    split; [exact Hfid|]. split; [exact Htotal | exact Hstate].
Defined.

(** The receiver of the scenarios, with three chunks, reads the handshake
    of another file and the handshake of its own file in a version 2. *)
Lemma session_is_not_replaced_witness :
  let other := sender.handshakePayload "fid_1700000000999_ffffff" "other.zip" 10 1 None in
  let newer := types.MkPayload 2 scenarios.fileId "h" (Some "notes.zip") (Some 303)
                 (Some 5) (Some true) None None None None in
  let st1 := receiver.handleScanResult examples.exampleBrowser (browser.Structured other)
               scenarios.partlyReceived in
  let st2 := receiver.handleScanResult examples.exampleBrowser (browser.Structured newer)
               scenarios.partlyReceived in
  (spec.sessionOf st1 = spec.sessionOf scenarios.partlyReceived
   /\ spec.store st1 = spec.store scenarios.partlyReceived
   /\ state.receiverState st1 = types.receiving_data
   /\ state.isScanning st1 = true)
  /\ (spec.sessionOf st2 = spec.sessionOf scenarios.partlyReceived
      /\ spec.store st2 = spec.store scenarios.partlyReceived
      /\ state.receiverState st2 = types.error
      /\ state.isScanning st2 = false).
Proof.
  intros other newer st1 st2. split.
  - destruct (session_is_not_replaced examples.exampleBrowser other scenarios.fileId
                scenarios.partlyReceived) as (Hs & Ht & Hsame & _).
    + vm_compute. reflexivity.
    + vm_compute. reflexivity.
    + vm_compute. discriminate.
    + reflexivity.
    + destruct Hsame as [Hstate Hscan]; [left; reflexivity|].
      split; [exact Hs|]. split; [exact Ht|].
      split; [exact (eq_trans Hstate ltac:(vm_compute; reflexivity))|].
      exact (eq_trans Hscan ltac:(vm_compute; reflexivity)).
  - destruct (session_is_not_replaced examples.exampleBrowser newer scenarios.fileId
                scenarios.partlyReceived) as (Hs & Ht & _ & Hnewer).
    + vm_compute. reflexivity.
    + vm_compute. reflexivity.
    + vm_compute. discriminate.
    + reflexivity.
    + destruct Hnewer as (Hstate & _ & Hoff).
      * vm_compute. discriminate.
      * vm_compute. discriminate.
      * split; [exact Hs|]. split; [exact Ht|]. split; [exact Hstate|].
        apply Hoff; vm_compute; reflexivity.
Defined.

(** ** The chunks that were missed, scanned later *)

Section recovery.
Context (B : browser.Browser).
Import types browser state receiver spec events invariants downloading.

Lemma deliver_scanning session chunkOf seqs st :
  acceptsData (receiverState st) = true ->
  expectedFileId st = Some session -> session <> "" ->
  isScanning (deliver B (dataPackets session chunkOf seqs) st) = isScanning st.
Proof.
  revert st. induction seqs as [|s seqs IH]; intros st Hacc Hfid Hne; [reflexivity|].
  unfold dataPackets, deliver. cbn [map fold_left].
  rewrite handleScanResult_data by assumption.
  pose proof (processDataChunk_session (sender.dataPayload session s (chunkOf s)) st) as Hs.
  unfold dataPackets, deliver in IH. rewrite IH.
  - apply isScanning_processDataChunk.
  - now apply processDataChunk_acceptsData.
  - unfold sessionOf in Hs. congruence.
  - exact Hne.
Qed.

(** The Final packet, for a receiver that is scanning and misses some
    chunks. *)
Lemma final_with_missing session checksum total st :
  acceptsData (receiverState st) = true ->
  expectedFileId st = Some session -> session <> "" -> checksum <> "" ->
  expectedTotalChunks st = Some total -> isScanning st = true ->
  findMissing total (receivedChunksMap st) <> [] ->
  let st' := handleScanResult B (Structured (sender.finalPayload session checksum)) st in
  receiverState st' = waiting_missing
  /\ missingChunksList st' = formatMissingChunks (findMissing total (receivedChunksMap st))
  /\ store st' = store st /\ sessionOf st' = sessionOf st
  /\ downloads st' = downloads st /\ isScanning st' = true.
Proof.
  intros Hacc Hfid Hne Hchk Htot Hscan Hmissing st'.
  set (missing := findMissing total (receivedChunksMap st)) in *.
  assert (Hst' : st' = checkForMissingChunksAndFinalize B
                         (sender.finalPayload session checksum)
                         (updateReceiverStatus
                            "Final confirmation QR received. Checking chunk completeness..."
                            false st)).
  { unfold st'. rewrite handleScanResult_final; try reflexivity; try assumption.
    - unfold handleFinalPacket. cbn [fid chk sender.finalPayload]. rewrite Hfid.
      rewrite bool_decide_eq_true_2 by reflexivity.
      destruct checksum; [contradiction|]. reflexivity.
    - destruct (receiverState st); try discriminate Hacc; auto. }
  unfold checkForMissingChunksAndFinalize in Hst'. simpl in Hst'.
  rewrite Htot, Hscan in Hst'. simpl in Hst'. fold missing in Hst'.
  assert (Hpos : (total =? 0) = false).
  { apply Z.eqb_neq. intros ->. apply Hmissing. reflexivity. }
  assert (Hlen : (Z.of_nat (length missing) =? 0) = false).
  { apply Z.eqb_neq. destruct missing; [contradiction | simpl; lia]. }
  assert (Hlen' : (0 <? Z.of_nat (length missing)) = true).
  { apply Z.ltb_lt. destruct missing; [contradiction | simpl; lia]. }
  rewrite Hpos, Hlen in Hst'.
  unfold displayMissingChunks in Hst'. simpl in Hst'.
  rewrite Htot in Hst'. fold missing in Hst'. rewrite Hlen' in Hst'. simpl in Hst'.
  rewrite Hst'. simpl.
  repeat (split; [first [reflexivity | exact Hscan]|]). exact Hscan.
Qed.

(** The Data packets and the Final packet of the session, for a receiver
    in the session that has some of the chunks. *)
Lemma completion_outcome session chunkOf seqs checksum total siz archiveName st :
  acceptsData (receiverState st) = true ->
  expectedFileId st = Some session -> session <> "" -> checksum <> "" ->
  expectedTotalChunks st = Some total -> 0 <= total ->
  expectedDataSize st = Some siz -> expectedArchiveName st = Some archiveName ->
  countMatches st -> keysWithin total st ->
  (forall k x, receivedChunksMap st !! k = Some x -> x = chunkOf k) ->
  (forall k, 1 <= k <= total -> chunkOf k <> "") ->
  (forall k, k ∈ findMissing total (receivedChunksMap st) -> k ∈ seqs) ->
  let st2 := deliver B (dataPackets session chunkOf seqs) st in
  let st3 := handleScanResult B (Structured (sender.finalPayload session checksum)) st2 in
  let buffer := utils.base64ToArrayBuffer B (Js.join "" (map chunkOf (seqZ 1 total))) in
  if bool_decide (Z.of_nat (length buffer) = siz
                  /\ checksum = utils.calculateChecksum buffer)
  then receiverState st3 = complete
       /\ exists name content,
            downloads st3 = downloads st ++ [(name, content)]
            /\ deliveredFrom B st buffer content
  else receiverState st3 = error /\ downloads st3 = downloads st.
Proof.
  intros Hacc Hfid Hsession Hchecksum Htot Hpos Hsiz Hnam Hcount Hkeys Hstored Hchunks
    Hseqs st2 st3 buffer.
  destruct (deliver_frame B session chunkOf seqs st Hacc Hfid Hsession)
    as (Hs2 & Hacc2 & Hdl2).
  fold st2 in Hs2, Hacc2, Hdl2.
  unfold sessionOf in Hs2. injection Hs2 as Hfid2 Htot2 Hnam2 Hsiz2 _ Horig2.
  rewrite Hfid in Hfid2. rewrite Htot in Htot2. rewrite Hsiz in Hsiz2.
  rewrite Hnam in Hnam2.
  assert (Hlookup : forall k,
            receivedChunksMap st2 !! k
            = match receivedChunksMap st !! k with
              | Some x => Some x
              | None => if bool_decide (k ∈ seqs) && storable total chunkOf k
                        then Some (chunkOf k) else None
              end).
  { intros k. unfold st2.
    apply (deliver_lookup B session chunkOf total seqs st k Hacc Hfid Hsession Htot). }
  assert (Hin : forall k, 1 <= k <= total -> receivedChunksMap st2 !! k = Some (chunkOf k)).
  { intros k Hk. rewrite Hlookup.
    destruct (receivedChunksMap st !! k) as [x|] eqn:Hx.
    - now rewrite (Hstored k x Hx).
    - assert (Hseq : k ∈ seqs) by (apply Hseqs, findMissing_elem; auto).
      rewrite bool_decide_eq_true_2 by exact Hseq. unfold storable.
      destruct (Z.ltb_spec 0 k); [|lia]. destruct (Z.leb_spec k total); [|lia].
      pose proof (Hchunks k Hk) as Hne. apply String.eqb_neq in Hne. now rewrite Hne. }
  assert (Hout : forall k, is_Some (receivedChunksMap st2 !! k) <-> 1 <= k <= total).
  { intros k. split; [|intros Hk; rewrite (Hin k Hk); eauto].
    rewrite Hlookup. intros [x Hx].
    destruct (receivedChunksMap st !! k) as [y|] eqn:Hy.
    - apply Hkeys. rewrite Hy. eauto.
    - unfold storable in Hx.
      destruct (bool_decide (k ∈ seqs)); [|discriminate]. cbn [andb] in Hx.
      destruct (Z.ltb_spec 0 k); [|discriminate]. destruct (Z.leb_spec k total); [lia|].
      discriminate. }
  assert (Hcount2 : receivedChunkCount st2 = total).
  { assert (Hc : countMatches st2) by now apply countMatches_deliver.
    unfold countMatches in Hc. rewrite Hc. now apply size_exactly. }
  assert (Hassemble : assemble (seqZ 1 total) (receivedChunksMap st2)
                      = inr (map chunkOf (seqZ 1 total))).
  { apply assemble_all. intros k Hk. apply elem_of_seqZ in Hk.
    split; [apply Hin; lia | apply Hchunks; lia]. }
  assert (Hmissing : findMissing total (receivedChunksMap st2) = []).
  { apply elem_of_nil_inv. intros k Hk. apply findMissing_elem in Hk.
    destruct Hk as [Hk Hnone]. rewrite (Hin k Hk) in Hnone. discriminate. }
  assert (Hfinal : st3 = verifyAndDownload B (sender.finalPayload session checksum)
                           (set_missingChunksInfoHidden true
                              (updateReceiverStatus
                                 "Final confirmation QR received. Checking chunk completeness..."
                                 false st2))).
  { unfold st3. rewrite handleScanResult_final; try reflexivity; try assumption.
    - unfold handleFinalPacket. cbn [fid chk sender.finalPayload]. rewrite Hfid2.
      rewrite bool_decide_eq_true_2 by reflexivity. cbn [negb].
      destruct checksum as [|c checksum]; [contradiction|].
      unfold checkForMissingChunksAndFinalize.
      change (expectedTotalChunks (updateReceiverStatus _ false st2))
        with (expectedTotalChunks st2).
      change (receivedChunksMap (updateReceiverStatus _ false st2))
        with (receivedChunksMap st2).
      rewrite Htot2, Hmissing. destruct (total =? 0); reflexivity.
    - destruct (receiverState st2); try discriminate Hacc2; auto. }
  pose proof (verifyAndDownload_decides B (sender.finalPayload session checksum)
                (set_missingChunksInfoHidden true
                   (updateReceiverStatus
                      "Final confirmation QR received. Checking chunk completeness..."
                      false st2))
                total siz archiveName (map chunkOf (seqZ 1 total))) as Hverify.
  cbv zeta in Hverify. rewrite <- Hfinal in Hverify. fold buffer in Hverify.
  specialize (Hverify Htot2 Hsiz2 Hnam2 Hcount2 Hassemble).
  change (downloads (set_missingChunksInfoHidden true (updateReceiverStatus _ false st2)))
    with (downloads st2) in Hverify.
  rewrite Hdl2 in Hverify.
  cbn [chk sender.finalPayload] in Hverify.
  assert (Hsame : bool_decide (Z.of_nat (length buffer) = siz
                               /\ Some checksum = Some (utils.calculateChecksum buffer))
                  = bool_decide (Z.of_nat (length buffer) = siz
                                 /\ checksum = utils.calculateChecksum buffer)).
  { apply bool_decide_ext. split; intros [H1 H2]; split; congruence. }
  rewrite Hsame in Hverify.
  destruct (bool_decide (Z.of_nat (length buffer) = siz
                         /\ checksum = utils.calculateChecksum buffer)); [|exact Hverify].
  destruct Hverify as (Hcomplete & name & content & Hd & Hfrom).
  split; [exact Hcomplete|]. exists name, content. split; [exact Hd|].
  revert Hfrom. unfold deliveredFrom.
  change (expectedOriginalFilename
            (set_missingChunksInfoHidden true (updateReceiverStatus _ false st2)))
    with (expectedOriginalFilename st2).
  now rewrite Horig2.
Qed.

(** X15. A receiver in a session holds some of the chunks of a sender, and
    reads Data packets of the session, in any order and any number of
    copies, among them one at least for each number it misses, and then
    the Final packet. It ends in Complete with one file handed to the
    user exactly when the concatenation of the chunks in the order of
    their numbers decodes to a buffer of the size of the handshake whose
    checksum is the one of the Final packet, and in Error with nothing
    handed out otherwise; the chunks it had are not asked for again. *)
Theorem late_chunks_complete_transfer session chunkOf seqs checksum total siz archiveName st :
  reachable B st ->
  acceptsData (receiverState st) = true ->
  expectedFileId st = Some session -> session <> "" -> checksum <> "" ->
  expectedTotalChunks st = Some total ->
  expectedDataSize st = Some siz -> expectedArchiveName st = Some archiveName ->
  (forall k x, receivedChunksMap st !! k = Some x -> x = chunkOf k) ->
  (forall k, 1 <= k <= total -> chunkOf k <> "") ->
  (forall k, k ∈ findMissing total (receivedChunksMap st) -> k ∈ seqs) ->
  let st2 := deliver B (dataPackets session chunkOf seqs) st in
  let st3 := handleScanResult B (Structured (sender.finalPayload session checksum)) st2 in
  let buffer := utils.base64ToArrayBuffer B (Js.join "" (map chunkOf (seqZ 1 total))) in
  if bool_decide (Z.of_nat (length buffer) = siz
                  /\ checksum = utils.calculateChecksum buffer)
  then receiverState st3 = complete
       /\ exists name content,
            downloads st3 = downloads st ++ [(name, content)]
            /\ deliveredFrom B st buffer content
  else receiverState st3 = error /\ downloads st3 = downloads st.
Proof.
  intros Hreach Hacc Hfid Hsession Hchecksum Htot Hsiz Hnam Hstored Hchunks Hseqs.
  destruct (reachable_chunksWithinTotal B st Hreach) as [Hkeys Hpos].
  apply (completion_outcome session chunkOf seqs checksum total siz archiveName st);
    try assumption.
  - now apply Hpos.
  - now apply (reachable_countMatches B).
  - intros k Hk. destruct (Hkeys k Hk) as (total' & Htot' & Hrange).
    assert (total' = total) by congruence. subst total'. exact Hrange.
Qed.

End recovery.

(** ** The main sequence of the sender *)

Section main_sequence.
Context (B : browser.Browser).
Import types browser sstate sender spec sequencing.

Opaque JSON_stringify Js.numToString.

(** The packet of a step of the main sequence: the handshake at 0, the
    chunk [i] from 1 to the total, the Final packet after. *)
Lemma nextPayload_packet st buffer i :
  currentChunkIndex st = i - 1 -> 0 <= i <= totalDataChunks st + 1 ->
  totalDataChunks st = Z.of_nat (length (chunks st)) ->
  dataToSendChecksum st <> "" ->
  exists mainStatus,
    nextPayload B buffer st
    = inr (if i =? 0 then handshakePacketOf B st buffer
           else if i <=? totalDataChunks st then dataPacketOf st i
           else finalPacketOf st, mainStatus).
Proof.
  intros Hidx Hi Htotal Hchk. unfold nextPayload. rewrite Hidx.
  replace (i - 1 + 1) with i by lia.
  destruct (Z.eqb_spec i 0) as [-> | Hi0]; [eexists; reflexivity|].
  destruct (Z.leb_spec i (totalDataChunks st)) as [Hdata | Hfinal].
  - destruct (Z.ltb_spec (i - 1) 0); [lia|].
    destruct (Z.leb_spec (Z.of_nat (length (chunks st))) (i - 1)); [lia|].
    cbn [orb]. replace (i - 1 + 1) with i by lia. eexists; reflexivity.
  - destruct (Z.eqb_spec i (totalDataChunks st + 1)); [|lia].
    apply String.eqb_neq in Hchk. rewrite Hchk. eexists; reflexivity.
Qed.

Lemma displayNextChunk_main st buffer i (manual : bool) shown packet :
  mainOf st = (transferring, i - 1, manual, None, shown) ->
  dataToSendBuffer st = Some buffer ->
  0 <= i <= totalDataChunks st + 1 ->
  totalDataChunks st = Z.of_nat (length (chunks st)) ->
  dataToSendChecksum st <> "" ->
  packet = (if i =? 0 then handshakePacketOf B st buffer
            else if i <=? totalDataChunks st then dataPacketOf st i
            else finalPacketOf st) ->
  fits st packet ->
  mainOf (displayNextChunk B st)
  = (if i <=? totalDataChunks st then transferring else final_qr_displayed, i, manual,
     if manual then None
     else Some (if i <=? totalDataChunks st then cb_displayNextChunk
                else cb_handlePostFinalState),
     shown ++ [JSON_stringify packet])
  /\ loadedOf (displayNextChunk B st) = loadedOf st.
Proof.
  unfold mainOf. intros [= Hphase Hidx Hman Htimer Hshown] Hbuf Hi Htotal Hchk -> Hfits.
  destruct (nextPayload_packet st buffer i Hidx Hi Htotal Hchk) as [mainStatus Hnext].
  unfold displayNextChunk. rewrite Hphase, Hbuf, Hnext.
  cbv zeta.
  change (errorCorrectionLevel (updateSenderStatus mainStatus false st))
    with (errorCorrectionLevel st).
  unfold fits in Hfits. rewrite Hfits.
  change (currentChunkIndex
            (setCurrentChunkIndex (currentChunkIndex st + 1)
               (generateOrUpdateQrCode
                  (JSON_stringify
                     (if i =? 0 then handshakePacketOf B st buffer
                      else if i <=? totalDataChunks st then dataPacketOf st i
                      else finalPacketOf st))
                  (updateSenderStatus mainStatus false st))))
    with (currentChunkIndex st + 1).
  rewrite Hidx. replace (i - 1 + 1) with i by lia.
  destruct (Z.leb_spec i (totalDataChunks st)) as [Hmore | Hlast].
  - destruct (Z.leb_spec (totalDataChunks st + 1) i); [lia|].
    unfold loadedOf. cbn. rewrite Hman. destruct manual; cbn;
      rewrite ?Hphase, ?Hman, ?Hshown, ?Htimer; split; reflexivity.
  - destruct (Z.leb_spec (totalDataChunks st + 1) i); [|lia].
    unfold loadedOf. cbn. rewrite Hman. destruct manual; cbn;
      rewrite ?Hphase, ?Hman, ?Hshown, ?Htimer; split; reflexivity.
Qed.

Lemma loadedOf_packets st st' buffer :
  loadedOf st' = loadedOf st ->
  handshakePacketOf B st' buffer = handshakePacketOf B st buffer
  /\ (forall k, dataPacketOf st' k = dataPacketOf st k)
  /\ finalPacketOf st' = finalPacketOf st
  /\ (forall payload, fits st' payload <-> fits st payload)
  /\ dataToSendBuffer st' = dataToSendBuffer st
  /\ totalDataChunks st' = totalDataChunks st
  /\ chunks st' = chunks st
  /\ dataToSendChecksum st' = dataToSendChecksum st.
Proof.
  unfold loadedOf, handshakePacketOf, dataPacketOf, finalPacketOf, fits.
  intros [= Hbuf Hchunks Hfid Hchk Hlevel Htotal Hname Hsingle].
  rewrite Hchunks, Hfid, Hchk, Hlevel, Htotal, Hname, Hsingle. repeat split; auto.
Qed.

(** The advance signal in the main sequence. *)
Lemma advance_main st buffer i (manual : bool) shown packet :
  mainOf st = (transferring, i - 1, manual,
               if manual then None else Some cb_displayNextChunk, shown) ->
  dataToSendBuffer st = Some buffer ->
  0 <= i <= totalDataChunks st + 1 ->
  totalDataChunks st = Z.of_nat (length (chunks st)) ->
  dataToSendChecksum st <> "" ->
  packet = (if i =? 0 then handshakePacketOf B st buffer
            else if i <=? totalDataChunks st then dataPacketOf st i
            else finalPacketOf st) ->
  fits st packet ->
  mainOf (main.advance B st)
  = (if i <=? totalDataChunks st then transferring else final_qr_displayed, i, manual,
     if manual then None
     else Some (if i <=? totalDataChunks st then cb_displayNextChunk
                else cb_handlePostFinalState),
     shown ++ [JSON_stringify packet])
  /\ loadedOf (main.advance B st) = loadedOf st.
Proof.
  intros Hmain Hbuf Hi Htotal Hchk Hpacket Hfits.
  pose proof Hmain as Hmain'. unfold mainOf in Hmain'.
  injection Hmain' as Hphase Hidx Hman Htimer Hshown.
  destruct manual.
  - assert (Hadv : main.advance B st = displayNextChunk B st).
    { unfold main.advance, main.nextChunkBtnClick. now rewrite Hman, Hphase. }
    rewrite Hadv. now apply (displayNextChunk_main st buffer i true shown packet).
  - assert (Hadv : main.advance B st = displayNextChunk B (setTransferTimer None st)).
    { unfold main.advance, main.timerFires. now rewrite Hman, Htimer. }
    rewrite Hadv.
    destruct (displayNextChunk_main (setTransferTimer None st) buffer i false shown packet)
      as [H1 H2]; try assumption;
      [unfold mainOf; simpl; now rewrite Hphase, Hidx, Hman, Hshown ..
      |split; [exact H1 | exact H2]].
Qed.

Lemma seqZ_snoc (n : nat) : seqZ 1 (Z.of_nat (S n)) = seqZ 1 (Z.of_nat n) ++ [Z.of_nat (S n)].
Proof.
  replace (Z.of_nat (S n)) with (Z.of_nat n + 1) by lia.
  rewrite seqZ_app by lia. rewrite (seqZ_cons (1 + Z.of_nat n) 1) by lia.
  rewrite (seqZ_nil (Z.succ (1 + Z.of_nat n))) by lia. do 2 f_equal. lia.
Qed.

(** The first [n + 1] steps of the main sequence, for [n] up to the
    number of chunks: the handshake and the chunks 1 to [n]. *)
Lemma main_sequence_prefix st buffer (n : nat) :
  mainOf st = (transferring, -1, isCurrentSequenceManual st, None, displayed st) ->
  dataToSendBuffer st = Some buffer ->
  totalDataChunks st = Z.of_nat (length (chunks st)) ->
  dataToSendChecksum st <> "" ->
  Forall (fits st) (mainPackets B st buffer) ->
  Z.of_nat n <= totalDataChunks st ->
  let st' := Nat.iter n (main.advance B) (displayNextChunk B st) in
  mainOf st'
  = (transferring, Z.of_nat n, isCurrentSequenceManual st,
     if isCurrentSequenceManual st then None else Some cb_displayNextChunk,
     displayed st
     ++ map JSON_stringify
          (handshakePacketOf B st buffer :: map (dataPacketOf st) (seqZ 1 (Z.of_nat n))))
  /\ loadedOf st' = loadedOf st.
Proof.
  intros Hmain Hbuf Htotal Hchk Hfits.
  unfold mainPackets in Hfits. apply Forall_cons in Hfits. destruct Hfits as [Hfith Hfits].
  apply Forall_app in Hfits. destruct Hfits as [Hfitd _].
  induction n as [|n IH]; intros Hn st'.
  - unfold st', Nat.iter. cbn [nat_rect].
    destruct (displayNextChunk_main st buffer 0 (isCurrentSequenceManual st) (displayed st)
                (handshakePacketOf B st buffer)) as [H1 H2]; try assumption;
      [lia | reflexivity|].
    rewrite H1. destruct (Z.leb_spec 0 (totalDataChunks st)); [|lia]. now split.
  - destruct IH as [IH1 IH2]; [lia|].
    unfold st', Nat.iter. cbn [nat_rect].
    fold (Nat.iter n (main.advance B) (displayNextChunk B st)).
    set (prev := Nat.iter n (main.advance B) (displayNextChunk B st)) in *.
    destruct (loadedOf_packets st prev buffer IH2)
      as (Hh & Hd & Hf & Hfit & Hb & Ht & Hc & Hk).
    destruct (advance_main prev buffer (Z.of_nat (S n)) (isCurrentSequenceManual st)
                (displayed st
                 ++ map JSON_stringify
                      (handshakePacketOf B st buffer
                       :: map (dataPacketOf st) (seqZ 1 (Z.of_nat n))))
                (dataPacketOf st (Z.of_nat (S n)))) as [H1 H2].
    + rewrite IH1. repeat f_equal. lia.
    + congruence.
    + rewrite Ht. lia.
    + congruence.
    + congruence.
    + rewrite Ht, Hd. destruct (Z.eqb_spec (Z.of_nat (S n)) 0); [lia|].
      destruct (Z.leb_spec (Z.of_nat (S n)) (totalDataChunks st)); [reflexivity | lia].
    + apply Hfit. rewrite Forall_forall in Hfitd. apply Hfitd.
      apply list_elem_of_fmap. exists (Z.of_nat (S n)). split; [reflexivity|].
      apply elem_of_seqZ. lia.
    + rewrite H1, H2, Ht.
      destruct (Z.leb_spec (Z.of_nat (S n)) (totalDataChunks st)); [|lia].
      split; [|exact IH2]. rewrite seqZ_snoc, map_app.
      rewrite <- app_assoc. cbn [map app]. rewrite map_app. reflexivity.
Qed.

(** The main sequence, step by step. *)
Lemma main_sequence_run st buffer :
  senderTransferPhase st = transferring -> currentChunkIndex st = -1 ->
  transferTimer st = None -> dataToSendBuffer st = Some buffer ->
  totalDataChunks st = Z.of_nat (length (chunks st)) ->
  dataToSendChecksum st <> "" ->
  Forall (fits st) (mainPackets B st buffer) ->
  let total := length (chunks st) in
  let step n := Nat.iter n (main.advance B) (displayNextChunk B st) in
  (forall n, (n <= total)%nat ->
     senderTransferPhase (step n) = transferring
     /\ displayed (step n)
        = displayed st
          ++ map JSON_stringify
               (handshakePacketOf B st buffer
                :: map (dataPacketOf st) (seqZ 1 (Z.of_nat n))))
  /\ senderTransferPhase (step (S total)) = final_qr_displayed
  /\ displayed (step (S total)) = displayed st ++ map JSON_stringify (mainPackets B st buffer)
  /\ senderTransferPhase (step (S (S total))) = post_final
  /\ displayed (step (S (S total))) = displayed (step (S total))
  /\ archiveOf (step (S (S total)))
     = (dataToSendBuffer st, chunks st, transferFileId st, dataToSendChecksum st,
        errorCorrectionLevel st, totalDataChunks st + 1, totalDataChunks st).
Proof.
  intros Hphase Hidx Htimer Hbuf Htotal Hchk Hfits total step.
  assert (Hmain : mainOf st
                  = (transferring, -1, isCurrentSequenceManual st, None, displayed st)).
  { unfold mainOf. now rewrite Hphase, Hidx, Htimer. }
  assert (Hprefix : forall n, (n <= total)%nat ->
            mainOf (step n)
            = (transferring, Z.of_nat n, isCurrentSequenceManual st,
               if isCurrentSequenceManual st then None else Some cb_displayNextChunk,
               displayed st
               ++ map JSON_stringify
                    (handshakePacketOf B st buffer
                     :: map (dataPacketOf st) (seqZ 1 (Z.of_nat n))))
            /\ loadedOf (step n) = loadedOf st).
  { intros n Hn. apply main_sequence_prefix; try assumption. unfold total in Hn. lia. }
  split.
  { intros n Hn. destruct (Hprefix n Hn) as [H1 _]. unfold mainOf in H1.
    injection H1 as H1 _ _ _ H5. auto. }
  (* the Final packet *)
  destruct (Hprefix total (Nat.le_refl total)) as [Hlast Hloaded].
  destruct (loadedOf_packets st (step total) buffer Hloaded)
    as (Hh & Hd & Hf & Hfit & Hb & Ht & Hc & Hk).
  assert (Hfinal : mainOf (step (S total))
                   = (final_qr_displayed, totalDataChunks st + 1, isCurrentSequenceManual st,
                      if isCurrentSequenceManual st then None
                      else Some cb_handlePostFinalState,
                      displayed st ++ map JSON_stringify (mainPackets B st buffer))
                   /\ loadedOf (step (S total)) = loadedOf st).
  { change (step (S total)) with (main.advance B (step total)).
    destruct (advance_main (step total) buffer (totalDataChunks st + 1)
                (isCurrentSequenceManual st)
                (displayed st
                 ++ map JSON_stringify
                      (handshakePacketOf B st buffer
                       :: map (dataPacketOf st) (seqZ 1 (Z.of_nat total))))
                (finalPacketOf st)) as [H1 H2].
    - rewrite Hlast. repeat f_equal. unfold total. lia.
    - congruence.
    - rewrite Ht. lia.
    - congruence.
    - congruence.
    - rewrite Ht, Hf. destruct (Z.eqb_spec (totalDataChunks st + 1) 0); [lia|].
      destruct (Z.leb_spec (totalDataChunks st + 1) (totalDataChunks st)); [lia|reflexivity].
    - apply Hfit. rewrite Forall_forall in Hfits. apply Hfits. unfold mainPackets.
      right. apply elem_of_app. right. left.
    - rewrite H1, H2, Ht.
      destruct (Z.leb_spec (totalDataChunks st + 1) (totalDataChunks st)); [lia|].
      split; [|exact Hloaded]. unfold mainPackets, total. rewrite <- Htotal.
      rewrite <- app_assoc. cbn [map app]. rewrite map_app. reflexivity. }
  change (step (S (S total))) with (main.advance B (step (S total))).
  generalize dependent (step (S total)). intros final [Hfinal Hloaded'].
  pose proof Hfinal as Hfinal'. unfold mainOf in Hfinal'.
  injection Hfinal' as F1 F2 F3 F4 F5.
  split; [exact F1|]. split; [exact F5|].
  (* PostFinal *)
  destruct (loadedOf_packets st final buffer Hloaded')
    as (_ & _ & _ & _ & _ & Ht' & _ & _).
  destruct (advance_post_final B final (specificChunksToSend final)
              (specificChunkSendIndex final) (isCurrentSequenceManual st)
              (displayed st ++ map JSON_stringify (mainPackets B st buffer))) as [H1 H2].
  - unfold sequenceOf. now rewrite F1, F3, F4, F5.
  - rewrite Ht', F2. lia.
  - unfold sequenceOf in H1. injection H1 as P1 _ _ _ _ P6.
    split; [exact P1|]. split; [now rewrite P6, F5|].
    rewrite H2. unfold archiveOf. rewrite F2.
    unfold loadedOf in Hloaded'. injection Hloaded' as L1 L2 L3 L4 L5 L6 _ _.
    now rewrite L1, L2, L3, L4, L5, L6.
Qed.

(** X16. A sender that is about to display the handshake, with every packet
    of the main sequence within the tolerance of the capacity check,
    displays the handshake, then one chunk for each advance signal, in
    the order of their numbers and none left out, then the Final packet,
    after which its phase is FinalDisplayed; one more advance signal
    brings it to PostFinal and displays nothing. The advance signal is
    the button in manual mode and the timer otherwise. *)
Theorem main_sequence_order st buffer :
  senderTransferPhase st = transferring -> currentChunkIndex st = -1 ->
  transferTimer st = None -> dataToSendBuffer st = Some buffer ->
  totalDataChunks st = Z.of_nat (length (chunks st)) ->
  dataToSendChecksum st <> "" ->
  Forall (fits st) (mainPackets B st buffer) ->
  let total := length (chunks st) in
  let step n := Nat.iter n (main.advance B) (displayNextChunk B st) in
  (forall n, (n <= total)%nat ->
     senderTransferPhase (step n) = transferring
     /\ displayed (step n)
        = displayed st
          ++ map JSON_stringify
               (handshakePacketOf B st buffer
                :: map (dataPacketOf st) (seqZ 1 (Z.of_nat n))))
  /\ senderTransferPhase (step (S total)) = final_qr_displayed
  /\ displayed (step (S total)) = displayed st ++ map JSON_stringify (mainPackets B st buffer)
  /\ senderTransferPhase (step (S (S total))) = post_final
  /\ displayed (step (S (S total))) = displayed (step (S total)).
Proof.
  intros Hphase Hidx Htimer Hbuf Htotal Hchk Hfits.
  pose proof (main_sequence_run st buffer Hphase Hidx Htimer Hbuf Htotal Hchk Hfits) as Hrun.
  cbv zeta in Hrun |- *. destruct Hrun as (Hprefix & P1 & D1 & P2 & D2 & _).
  split; [exact Hprefix|]. split; [exact P1|]. split; [exact D1|].
  split; [exact P2 | exact D2].
Qed.

Lemma mainPackets_loaded st st' buffer :
  loadedOf st' = loadedOf st -> mainPackets B st' buffer = mainPackets B st buffer.
Proof.
  intros Hloaded.
  destruct (loadedOf_packets st st' buffer Hloaded) as (Hh & Hd & Hf & _ & _ & Ht & _).
  unfold mainPackets. rewrite Hh, Hf, Ht. f_equal. f_equal.
  apply map_ext. exact Hd.
Qed.

(** X17. Send All Again, for a sender with an archive and its chunks loaded:
    the main sequence once more, from the handshake, with the file
    identifier and the packets of the first time, paced as the checkbox
    of the resend says. *)
Theorem resend_all_repeats_sequence st buffer :
  dataToSendBuffer st = Some buffer -> base64Data st <> "" ->
  totalDataChunks st = Z.of_nat (length (chunks st)) ->
  dataToSendChecksum st <> "" ->
  Forall (fits st) (mainPackets B st buffer) ->
  let total := length (chunks st) in
  let step n := Nat.iter n (main.advance B) (handleSendAllAgain B st) in
  isCurrentSequenceManual (step 0%nat) = resendManualModeCheckbox st
  /\ senderTransferPhase (step (S total)) = final_qr_displayed
  /\ displayed (step (S total)) = displayed st ++ map JSON_stringify (mainPackets B st buffer)
  /\ senderTransferPhase (step (S (S total))) = post_final
  /\ displayed (step (S (S total))) = displayed (step (S total)).
Proof.
  intros Hbuf Hbase Htotal Hchk Hfits total step.
  set (st0 := updateSenderStatus
                (if resendManualModeCheckbox st
                 then "Ready to display Handshake QR (Resend)."
                 else "Resending transfer sequence...") false
                (updateSenderStatus "Restarting transfer sequence..." false
                   (set_isCurrentSequenceManual (resendManualModeCheckbox st)
                      (setSpecificChunkSendIndex 0
                         (setSpecificChunksToSend []
                            (setTotalStepsInCurrentSequence (totalDataChunks st + 2)
                               (setCurrentChunkIndex (-1)
                                  (setSenderPhase transferring
                                     (setTransferTimer None st))))))))).
  assert (Hagain : handleSendAllAgain B st = displayNextChunk B st0).
  { unfold handleSendAllAgain. rewrite Hbuf, is_Some_true.
    apply String.eqb_neq in Hbase. rewrite Hbase. cbn [negb orb]. cbv zeta.
    f_equal. unfold st0. cbn. destruct (resendManualModeCheckbox st); reflexivity. }
  assert (Hloaded : loadedOf st0 = loadedOf st) by reflexivity.
  destruct (loadedOf_packets st st0 buffer Hloaded) as (_ & _ & _ & Hfit & _).
  pose proof (main_sequence_run st0 buffer) as Hrun. cbv zeta in Hrun.
  rewrite (mainPackets_loaded st st0 buffer Hloaded) in Hrun.
  change (length (chunks st0)) with (length (chunks st)) in Hrun.
  change (displayed st0) with (displayed st) in Hrun.
  assert (Hfits0 : Forall (fits st0) (mainPackets B st buffer)).
  { eapply Forall_impl; [exact Hfits|]. intros p Hp. now apply Hfit. }
  specialize (Hrun eq_refl eq_refl eq_refl Hbuf Htotal Hchk Hfits0).
  destruct Hrun as (Hprefix & P1 & D1 & P2 & D2 & _).
  subst step. cbv beta. rewrite Hagain. fold total in P1, D1, P2, D2, Hprefix.
  split; [|auto].
  assert (Hfits1 : Forall (fits st0) (mainPackets B st0 buffer))
    by now rewrite (mainPackets_loaded st st0 buffer Hloaded).
  assert (Hzero : Z.of_nat 0 <= totalDataChunks st0)
    by (change (totalDataChunks st0) with (totalDataChunks st); lia).
  pose proof (main_sequence_prefix st0 buffer 0 eq_refl Hbuf Htotal Hchk Hfits1 Hzero)
    as [Hm _].
  unfold mainOf in Hm. injection Hm as _ _ Hm _ _. exact Hm.
Qed.


Transparent JSON_stringify Js.numToString.

End main_sequence.

(** ** The resend of the chunks of any input *)

Section resend_any.
Context (B : browser.Browser).
Import types browser sstate sender spec sequencing.

Opaque JSON_stringify Js.numToString.

(** The first [n + 1] chunks of a resend, for [n] below the length of the
    list. *)
Lemma resend_prefix st buffer (numbers : list Z) (n : nat) :
  dataToSendBuffer st = Some buffer ->
  totalDataChunks st = Z.of_nat (length (chunks st)) ->
  utils.parseChunkInput (specificChunksInput st) (totalDataChunks st) = Some numbers ->
  Forall (fun k => fits st (dataPacketOf st k)) numbers ->
  (n < length numbers)%nat ->
  let st' := Nat.iter n (main.advance B) (handleSendSpecific st) in
  sequenceOf st'
  = (sending_specific, numbers, Z.of_nat (S n), resendManualModeCheckbox st,
     if resendManualModeCheckbox st then None
     else Some (if Z.of_nat (S n) <? Z.of_nat (length numbers) then cb_displaySpecificChunk
                else cb_displayFinalConfirmationQR),
     displayed st ++ map JSON_stringify (map (dataPacketOf st) (take (S n) numbers)))
  /\ archiveOf st' = archiveOf st.
Proof.
  intros Hbuf Htotal Hparse Hfits.
  destruct (parseChunkInput_range _ _ _ Hparse) as [_ Hrange].
  rewrite Htotal in Hrange.
  induction n as [|n IH]; intros Hn st'.
  - unfold st', Nat.iter. cbn [nat_rect].
    destruct numbers as [|k rest]; [simpl in Hn; lia|].
    unfold handleSendSpecific. rewrite Hbuf, is_Some_true.
    apply Forall_cons in Hrange. destruct Hrange as [Hk _].
    apply Forall_cons in Hfits. destruct Hfits as [Hfit _].
    destruct (Z.eqb_spec (Z.of_nat (length (chunks st))) 0); [lia|].
    cbn [negb orb]. rewrite Hparse.
    match goal with
    | |- context [displaySpecificChunk ?x] =>
        pose proof (displaySpecificChunk_sequence x buffer (k :: rest) 0 k
                      (resendManualModeCheckbox st) None (displayed st)
                      eq_refl Hbuf ltac:(lia) eq_refl Hk Hfit) as [Hseq Harch]
    end.
    rewrite Hseq, Harch. split; reflexivity.
  - destruct IH as [IH1 IH2]; [lia|].
    unfold st', Nat.iter. cbn [nat_rect].
    fold (Nat.iter n (main.advance B) (handleSendSpecific st)).
    set (prev := Nat.iter n (main.advance B) (handleSendSpecific st)) in *.
    destruct (archiveOf_packets st prev IH2) as (Hd & _ & Hfit).
    pose proof IH2 as IH2'. unfold archiveOf in IH2'.
    injection IH2' as Hb Hc _ _ _ _ _.
    destruct (lookup_lt_is_Some_2 numbers (S n) Hn) as [k Hk].
    destruct (advance_next_chunk B prev buffer numbers (Z.of_nat (S n)) k
                (resendManualModeCheckbox st)
                (displayed st
                 ++ map JSON_stringify (map (dataPacketOf st) (take (S n) numbers))))
      as [H1 H2].
    + rewrite IH1. destruct (Z.ltb_spec (Z.of_nat (S n)) (Z.of_nat (length numbers)));
        [reflexivity | lia].
    + congruence.
    + lia.
    + now rewrite Nat2Z.id.
    + rewrite Hc. rewrite Forall_forall in Hrange. apply Hrange.
      now apply list_elem_of_lookup_2 with (S n).
    + rewrite Hd. apply Hfit. rewrite Forall_forall in Hfits. apply Hfits.
      now apply list_elem_of_lookup_2 with (S n).
    + rewrite H1, H2. split; [|exact IH2].
      rewrite Hd, (take_S_r numbers (S n) k Hk), !map_app, <- app_assoc.
      replace (Z.of_nat (S n) + 1) with (Z.of_nat (S (S n))) by lia. reflexivity.
Qed.

(** The run of a resend of specific chunks. *)
Lemma resend_specific_run st buffer numbers :
  dataToSendBuffer st = Some buffer ->
  totalDataChunks st = Z.of_nat (length (chunks st)) ->
  dataToSendChecksum st <> "" ->
  currentChunkIndex st = totalDataChunks st + 1 ->
  utils.parseChunkInput (specificChunksInput st) (totalDataChunks st) = Some numbers ->
  numbers <> [] ->
  Forall (fun k => fits st (dataPacketOf st k)) numbers -> fits st (finalPacketOf st) ->
  let step n := Nat.iter n (main.advance B) (handleSendSpecific st) in
  let packets := map (dataPacketOf st) numbers in
  (forall n, (n < length numbers)%nat ->
     senderTransferPhase (step n) = sending_specific
     /\ displayed (step n) = displayed st ++ map JSON_stringify (take (S n) packets))
  /\ senderTransferPhase (step (length numbers)) = final_qr_displayed
  /\ displayed (step (length numbers))
     = displayed st ++ map JSON_stringify (packets ++ [finalPacketOf st])
  /\ senderTransferPhase (step (S (length numbers))) = post_final
  /\ displayed (step (S (length numbers))) = displayed (step (length numbers)).
Proof.
  intros Hbuf Htotal Hchk Hidx Hparse Hne Hfits Hfitf step packets.
  assert (Hprefix := fun n => resend_prefix st buffer numbers n Hbuf Htotal Hparse Hfits).
  cbv zeta in Hprefix. subst step. cbv beta.
  set (start := handleSendSpecific st) in *.
  split.
  { intros n Hn. destruct (Hprefix n Hn) as [H1 _]. unfold sequenceOf in H1.
    injection H1 as H1 _ _ _ _ H6. split; [exact H1|].
    rewrite H6. unfold packets. now rewrite <- fmap_take. }
  destruct (length numbers) as [|m] eqn:Hlen.
  { destruct numbers; [contradiction | discriminate]. }
  destruct (Hprefix m) as [Hlast Harch]; [lia|].
  rewrite firstn_all2 in Hlast by lia.
  destruct (Z.ltb_spec (Z.of_nat (S m)) (Z.of_nat (S m))) as [|_]; [lia|].
  change (Nat.iter (S (S m)) (main.advance B) start)
    with (main.advance B (main.advance B (Nat.iter m (main.advance B) start))).
  change (Nat.iter (S m) (main.advance B) start)
    with (main.advance B (Nat.iter m (main.advance B) start)).
  generalize dependent (Nat.iter m (main.advance B) start). intros last Hlast Harch.
  destruct (archiveOf_packets st last Harch) as (_ & Hf & Hfit).
  pose proof Harch as Harch'. unfold archiveOf in Harch'.
  injection Harch' as Hb _ _ Hk _ Hi Ht.
  destruct (advance_final B last buffer numbers (Z.of_nat (S m))
              (resendManualModeCheckbox st)
              (displayed st ++ map JSON_stringify (map (dataPacketOf st) numbers)))
    as [F1 F2].
  - exact Hlast.
  - lia.
  - congruence.
  - congruence.
  - rewrite Hf. now apply Hfit.
  - rewrite Hf in F1. rewrite Harch in F2.
    generalize dependent (main.advance B last). intros final F1 F2.
    pose proof F1 as F1'. unfold sequenceOf in F1'. injection F1' as P1 _ _ _ _ P6.
    split; [exact P1|]. split.
    { rewrite P6. unfold packets. now rewrite map_app, app_assoc. }
    pose proof F2 as F2'. unfold archiveOf in F2'. injection F2' as _ _ _ _ _ Hi' Ht'.
    destruct (advance_post_final B final numbers (Z.of_nat (S m))
                (resendManualModeCheckbox st)
                ((displayed st ++ map JSON_stringify (map (dataPacketOf st) numbers))
                 ++ [JSON_stringify (finalPacketOf st)])) as [Q1 _].
    + exact F1.
    + rewrite Hi', Ht'. lia.
    + unfold sequenceOf in Q1. injection Q1 as Q1 _ _ _ _ Q6.
      split; [exact Q1|]. now rewrite Q6, P6.
Qed.

(** X18. A sender with an archive loaded and the main sequence behind it is
    asked for the chunks of an input that [parseChunkInput] accepts and
    that names one chunk at least. It displays the Data packets of the
    numbers of the parsed list, in the order of the list, the first at
    once and one more for each advance signal, then the Final packet,
    and is back in PostFinal on the advance signal after; it displays
    nothing else. *)
Theorem resend_specific_order st buffer numbers :
  dataToSendBuffer st = Some buffer ->
  totalDataChunks st = Z.of_nat (length (chunks st)) ->
  dataToSendChecksum st <> "" ->
  currentChunkIndex st = totalDataChunks st + 1 ->
  utils.parseChunkInput (specificChunksInput st) (totalDataChunks st) = Some numbers ->
  numbers <> [] ->
  Forall (fun k => fits st (dataPacketOf st k)) numbers -> fits st (finalPacketOf st) ->
  let step n := Nat.iter n (main.advance B) (handleSendSpecific st) in
  let packets := map (dataPacketOf st) numbers in
  (forall n, (n < length numbers)%nat ->
     senderTransferPhase (step n) = sending_specific
     /\ displayed (step n) = displayed st ++ map JSON_stringify (take (S n) packets))
  /\ senderTransferPhase (step (length numbers)) = final_qr_displayed
  /\ displayed (step (length numbers))
     = displayed st ++ map JSON_stringify (packets ++ [finalPacketOf st])
  /\ senderTransferPhase (step (S (length numbers))) = post_final
  /\ displayed (step (S (length numbers))) = displayed (step (length numbers)).
Proof.
  intros Hbuf Htotal Hchk Hidx Hparse Hne Hfits Hfitf.
  exact (resend_specific_run st buffer numbers Hbuf Htotal Hchk Hidx Hparse Hne Hfits Hfitf).
Qed.

Transparent JSON_stringify Js.numToString.

End resend_any.

(** ** The chunks [prepareChunks] makes *)

Section chunking.
Context (B : browser.Browser).
Import types browser sstate sender spec sequencing.

(** The room [prepareChunks] leaves for the data of a Data packet. *)
Lemma prepareChunks_prepared st st' :
  prepareChunks st = (st', true) ->
  exists buffer target K,
    dataToSendBuffer st = Some buffer /\ base64Data st <> ""
    /\ chunkSizeInput st = Some target /\ config.MIN_CHUNK_SIZE <= target
    /\ 0 < K
    /\ K <= utils.getQrCapacityEstimate (errorCorrectionLevel st)
            - (63 + (if Js.len (transferFileId st) =? 0 then 15
                     else Js.len (transferFileId st)))
            - config.QR_CHUNK_SIZE_BUFFER
    /\ splitter.split (base64Data st) K = Some (chunks st')
    /\ totalDataChunks st' = Z.of_nat (length (chunks st'))
    /\ currentChunkIndex st' = -1
    /\ senderTransferPhase st' = ready
    /\ (dataToSendBuffer st', base64Data st', dataToSendChecksum st', transferFileId st',
        errorCorrectionLevel st', originalSingleFilename st', isSingleFileOriginal st',
        filesToSend st', manualModeCheckbox st', transferTimer st', displayed st')
       = (dataToSendBuffer st, base64Data st, dataToSendChecksum st, transferFileId st,
          errorCorrectionLevel st, originalSingleFilename st, isSingleFileOriginal st,
          filesToSend st, manualModeCheckbox st, transferTimer st, displayed st).
Proof.
  unfold prepareChunks. intros Hprep.
  destruct (String.eqb_spec (base64Data st) "") as [|Hdata]; [discriminate|].
  destruct (dataToSendBuffer st) as [buffer|] eqn:Hbuf;
    [rewrite is_Some_true in Hprep | rewrite bool_decide_eq_false_2 in Hprep
                                       by (intros [x Hx]; discriminate)];
    cbn [negb orb] in Hprep; [|discriminate].
  destruct (chunkSizeInput st) as [target|] eqn:Htarget; [|discriminate].
  destruct (Z.ltb_spec target config.MIN_CHUNK_SIZE) as [|Hmin]; [discriminate|].
  set (fidText := if String.eqb (transferFileId st) "" then "fid_placeholder"
                  else transferFileId st) in *.
  set (maxData := utils.getQrCapacityEstimate (errorCorrectionLevel st)
                  - utils.estimateMetadataSize "d" (Some fidText)
                      (Js.len config.MULTI_FILE_ARCHIVE_NAME) 0
                  - config.QR_CHUNK_SIZE_BUFFER) in *.
  set (K := splitter.effectiveChunkSize target maxData) in *.
  destruct (Z.leb_spec K 0) as [|HK]; [discriminate|].
  destruct (Z.leb_spec maxData 0) as [|Hmax]; [discriminate|].
  cbn [orb] in Hprep.
  destruct (splitter.split (base64Data st) K) as [newChunks|] eqn:Hsplit; [|discriminate].
  destruct (0 <=? totalDataChunks (setSenderChunks newChunks st)) eqn:Hpos;
    [|discriminate].
  injection Hprep as <-.
  exists buffer, target, K.
  assert (Hmeta : utils.estimateMetadataSize "d" (Some fidText)
                    (Js.len config.MULTI_FILE_ARCHIVE_NAME) 0
                  = 63 + (if Js.len (transferFileId st) =? 0 then 15
                          else Js.len (transferFileId st))).
  { unfold utils.estimateMetadataSize, fidText.
    change (String.eqb "d" "h") with false. change (String.eqb "d" "d") with true.
    destruct (transferFileId st) as [|c f]; [reflexivity|].
    change (String.eqb (String c f) "") with false. cbv iota.
    assert (Hlen : 0 < Js.len (String c f)) by (unfold Js.len; simpl; lia).
    generalize dependent (Js.len (String c f)). intros n Hn.
    destruct (Z.eqb_spec n 0); lia. }
  split; [reflexivity|]. split; [exact Hdata|]. split; [reflexivity|].
  split; [exact Hmin|]. split; [exact HK|]. split.
  { rewrite <- Hmeta. unfold K, splitter.effectiveChunkSize, maxData in *. lia. }
  destruct (negb (Js.startsWith (senderStatus st) "Error:")
            && negb (Js.startsWith (senderStatus st) "Warning:"));
    (split; [exact Hsplit|]); repeat split; cbn; rewrite ?Hbuf; reflexivity.
Qed.

(** The state in which [startTransfer] makes its call of
    [displayNextChunk]. *)
Lemma startTransferSetup_ready newFileId st snd :
  startTransferSetup newFileId st = inr snd ->
  exists st1,
    prepareChunks st = (st1, true)
    /\ mainOf snd = (transferring, -1, manualModeCheckbox st, None, displayed st)
    /\ loadedOf snd
       = (dataToSendBuffer st, chunks st1, newFileId, dataToSendChecksum st,
          errorCorrectionLevel st, totalDataChunks st1, originalSingleFilename st,
          isSingleFileOriginal st).
Proof.
  unfold startTransferSetup. intros Hsetup.
  destruct ((filesToSend st =? 0) || negb (bool_decide (is_Some (dataToSendBuffer st))));
    [discriminate|].
  destruct (prepareChunks st) as [st1 prepared] eqn:Hprep.
  destruct prepared; cbn [negb] in Hsetup; [|discriminate].
  destruct (totalDataChunks st <? 0); [discriminate|].
  destruct (prepareChunks_prepared st st1 Hprep)
    as (buffer & target & K & _ & _ & _ & _ & _ & _ & _ & _ & _ & _ & Hframe).
  injection Hframe as Hb _ Hc _ Hl Ho Hs _ Hm _ Hd.
  exists st1. split; [reflexivity|].
  injection Hsetup as <-.
  unfold mainOf, loadedOf. cbn.
  destruct (manualModeCheckbox st1) eqn:Hm1; cbn; rewrite ?Hm1;
    rewrite <- ?Hm, ?Hm1, ?Hd, ?Hb, ?Hc, ?Hl, ?Ho, ?Hs; split; reflexivity.
Qed.

(** The chunks of a successful split: none is empty, none is longer than
    the chunk size, and together they are the text. *)
Lemma split_chunks (text : string) (K : Z) (newChunks : list string) :
  0 < K -> splitter.split text K = Some newChunks ->
  Forall (fun c => 0 < Js.len c <= K) newChunks /\ Js.join "" newChunks = text.
Proof.
  intros HK Hsplit.
  destruct (splitLoop_spec (String.length text) text K 0 [] HK)
    as (rest & Hloop & Hall & Hjoin & _).
  { unfold Js.len. lia. }
  { unfold Js.len. lia. }
  unfold splitter.split in Hsplit. rewrite Hloop in Hsplit. injection Hsplit as <-.
  split; [exact Hall|].
  rewrite Hjoin, Z.sub_0_r. unfold Js.len. rewrite Nat2Z.id. apply substring_whole.
Qed.

Lemma len_append (a b : string) : Js.len (a +:+ b) = Js.len a + Js.len b.
Proof. unfold Js.len. rewrite length_append. lia. Qed.

Lemma allPlain_append (a b : string) : allPlain (a +:+ b) = allPlain a && allPlain b.
Proof.
  induction a as [|c a IH]; [reflexivity|].
  rewrite append_cons. simpl. rewrite IH. now rewrite andb_assoc.
Qed.

Lemma allPlain_join (l : list string) :
  allPlain (Js.join "" l) = true -> Forall (fun c => allPlain c = true) l.
Proof.
  induction l as [|x l IH]; intros H; [constructor|].
  rewrite join_empty_cons, allPlain_append in H. apply andb_true_iff in H.
  destruct H as [Hx Hl]. constructor; auto.
Qed.

Lemma jsonEscape_plain (s : string) : allPlain s = true -> Js.jsonEscape s = s.
Proof.
  induction s as [|c s IH]; [reflexivity|]. simpl. intros H.
  apply andb_true_iff in H. destruct H as [Hc Hs]. rewrite (IH Hs).
  unfold jsonPlain in Hc. unfold Js.jsonEscapeChar.
  set (n := Z.of_N (N_of_ascii c)) in *.
  destruct (Z.leb_spec 32 n); [|discriminate].
  destruct (Z.eqb_spec n 34); [discriminate|]. destruct (Z.eqb_spec n 92); [discriminate|].
  destruct (Z.eqb_spec n 8); [lia|]. destruct (Z.eqb_spec n 9); [lia|].
  destruct (Z.eqb_spec n 10); [lia|]. destruct (Z.eqb_spec n 12); [lia|].
  destruct (Z.eqb_spec n 13); [lia|]. destruct (Z.ltb_spec n 32); [lia|].
  reflexivity.
Qed.

Lemma len_cons (c : ascii) (s : string) : Js.len (String c s) = 1 + Js.len s.
Proof.
  unfold Js.len. change (String.length (String c s)) with (S (String.length s)). lia.
Qed.

Lemma len_jsonString (s : string) : Js.len (Js.jsonString s) = 2 + Js.len (Js.jsonEscape s).
Proof.
  unfold Js.jsonString. rewrite len_cons, len_append, len_cons.
  change (Js.len "") with 0. lia.
Qed.

Lemma len_jsonMember (key value : string) :
  Js.len (Js.jsonMember key value) = Js.len (Js.jsonString key) + 1 + Js.len value.
Proof.
  unfold Js.jsonMember. rewrite !len_append. change (Js.len ":") with 1. lia.
Qed.

(** The length of a serialized Data packet. *)
Lemma len_data_packet (session : string) (k : Z) (data : string) :
  Js.len (JSON_stringify (dataPayload session k data))
  = 42 + Js.len (Js.jsonEscape session) + Js.len (Js.numToString k)
    + Js.len (Js.jsonEscape data).
Proof.
  unfold JSON_stringify, dataPayload, jsonOptionalMember.
  cbn [v fid typ nam siz tot zip ofn seq dat chk app].
  unfold Js.join. cbn [String.concat].
  rewrite !len_append, !len_jsonMember, !len_jsonString.
  change (Js.len (Js.numToString config.PROTOCOL_VERSION)) with 1.
  change (Js.len (Js.jsonEscape "v")) with 1. change (Js.len (Js.jsonEscape "fid")) with 3.
  change (Js.len (Js.jsonEscape "typ")) with 3. change (Js.len (Js.jsonEscape "d")) with 1.
  change (Js.len (Js.jsonEscape "seq")) with 3. change (Js.len (Js.jsonEscape "dat")) with 3.
  change (Js.len "{") with 1. change (Js.len "}") with 1. change (Js.len ",") with 1.
  lia.
Qed.

Lemma chunks_by_number (l : list string) :
  map (fun k => default "" (l !! Z.to_nat (k - 1))) (seqZ 1 (Z.of_nat (length l))) = l.
Proof.
  apply list_eq. intros i. rewrite list_lookup_fmap.
  destruct (l !! i) as [x|] eqn:Hi.
  - pose proof (lookup_lt_Some _ _ _ Hi) as Hlt.
    rewrite lookup_seqZ_lt by lia. cbn [fmap option_fmap option_map].
    replace (Z.to_nat (1 + Z.of_nat i - 1)) with i by lia. now rewrite Hi.
  - pose proof (lookup_ge_None_1 _ _ Hi) as Hge.
    rewrite lookup_seqZ_ge by lia. reflexivity.
Qed.

(** The facts about the sender that [startTransfer] has set up. *)
Lemma startTransferSetup_chunks newFileId st snd :
  startTransferSetup newFileId st = inr snd ->
  exists K,
    0 < K
    /\ K <= utils.getQrCapacityEstimate (errorCorrectionLevel st) - 64
            - config.QR_CHUNK_SIZE_BUFFER
    /\ Forall (fun c => 0 < Js.len c <= K) (chunks snd)
    /\ Js.join "" (chunks snd) = base64Data st
    /\ totalDataChunks snd = Z.of_nat (length (chunks snd))
    /\ transferFileId snd = newFileId
    /\ dataToSendBuffer snd = dataToSendBuffer st
    /\ dataToSendChecksum snd = dataToSendChecksum st
    /\ errorCorrectionLevel snd = errorCorrectionLevel st
    /\ originalSingleFilename snd = originalSingleFilename st
    /\ isSingleFileOriginal snd = isSingleFileOriginal st.
Proof.
  intros Hsetup.
  destruct (startTransferSetup_ready newFileId st snd Hsetup) as (st1 & Hprep & _ & Hloaded).
  destruct (prepareChunks_prepared st st1 Hprep)
    as (buffer & target & K & _ & _ & _ & _ & HK & Hmax & Hsplit & Htotal & _).
  destruct (split_chunks _ _ _ HK Hsplit) as [Hall Hjoin].
  unfold loadedOf in Hloaded. injection Hloaded as Hb Hc Hf Hk Hl Ht Ho Hs.
  exists K. rewrite Hc, Ht. repeat split; try assumption.
  destruct (Js.len (transferFileId st) =? 0) eqn:Hlen; [lia|].
  apply Z.eqb_neq in Hlen. assert (0 <= Js.len (transferFileId st)) by (unfold Js.len; lia).
  lia.
Qed.

(** X19. When [startTransfer] has prepared the chunks of a text that
    [JSON.stringify] writes as it is, every Data packet of the transfer
    is no longer than the capacity estimate of the selected level, so
    the capacity check of the sender never stops a transfer at a Data
    packet. The file identifier and the digits of the sequence number
    are to have 172 characters at most together: minted identifiers have
    24. *)
Theorem data_packets_fit newFileId st snd k :
  startTransferSetup newFileId st = inr snd ->
  allPlain (base64Data st) = true -> allPlain newFileId = true ->
  1 <= k <= totalDataChunks snd ->
  Js.len newFileId + Js.len (Js.numToString k) <= 172 ->
  Js.len (JSON_stringify (dataPacketOf snd k))
  <= utils.getQrCapacityEstimate (errorCorrectionLevel snd)
  /\ fits snd (dataPacketOf snd k).
Proof.
  intros Hsetup Hplain Hfid Hk Hlen.
  destruct (startTransferSetup_chunks newFileId st snd Hsetup)
    as (K & HK & Hmax & Hall & Hjoin & Htotal & Hf & _ & _ & Hl & _).
  assert (Hbound : Js.len (JSON_stringify (dataPacketOf snd k))
                   <= utils.getQrCapacityEstimate (errorCorrectionLevel snd)).
  { unfold dataPacketOf. rewrite Hf, len_data_packet, Hl.
    destruct (lookup_lt_is_Some_2 (chunks snd) (Z.to_nat (k - 1))) as [c Hc]; [lia|].
    rewrite Hc. cbn [default from_option id].
    rewrite Forall_forall in Hall. pose proof (Hall c (list_elem_of_lookup_2 _ _ _ Hc)).
    rewrite <- Hjoin in Hplain. apply allPlain_join in Hplain.
    rewrite Forall_forall in Hplain.
    rewrite (jsonEscape_plain c) by (apply Hplain; eapply list_elem_of_lookup_2; eauto).
    rewrite (jsonEscape_plain newFileId Hfid).
    unfold config.QR_CHUNK_SIZE_BUFFER in Hmax. lia. }
  split; [exact Hbound|].
  unfold fits. apply exceedsCapacity_false.
  assert (0 <= Js.len (JSON_stringify (dataPacketOf snd k))) by (unfold Js.len; lia).
  lia.
Qed.

(** The estimate [prepareChunks] makes of the metadata of a Data packet. *)
Lemma estimateMetadataSize_data st :
  utils.estimateMetadataSize "d"
    (Some (if String.eqb (transferFileId st) "" then "fid_placeholder"
           else transferFileId st))
    (Js.len config.MULTI_FILE_ARCHIVE_NAME) 0
  = 63 + (if Js.len (transferFileId st) =? 0 then 15 else Js.len (transferFileId st)).
Proof.
  unfold utils.estimateMetadataSize.
  change (String.eqb "d" "h") with false. change (String.eqb "d" "d") with true.
  destruct (transferFileId st) as [|c f]; [reflexivity|].
  change (String.eqb (String c f) "") with false. cbv iota.
  assert (Hlen : 0 < Js.len (String c f)) by (unfold Js.len; simpl; lia).
  generalize dependent (Js.len (String c f)). intros n Hn.
  destruct (Z.eqb_spec n 0); lia.
Qed.

(** X20. [prepareChunks] succeeds when there is data, the target size is at
    least the minimum and the capacity of the selected level leaves room
    for data beside the metadata. The chunks are then not empty and have
    each at most the smaller of the target size and of that room; their
    concatenation is the base64 text and their number is the length of
    the text divided by that size, rounded up. In every other case
    [prepareChunks] fails and leaves no chunk. *)
Theorem prepareChunks_outcome st :
  let maxData := utils.getQrCapacityEstimate (errorCorrectionLevel st)
                 - (63 + (if Js.len (transferFileId st) =? 0 then 15
                          else Js.len (transferFileId st)))
                 - config.QR_CHUNK_SIZE_BUFFER in
  let st' := fst (prepareChunks st) in
  (forall target,
      base64Data st <> "" -> is_Some (dataToSendBuffer st) ->
      chunkSizeInput st = Some target -> config.MIN_CHUNK_SIZE <= target -> 0 < maxData ->
      let K := Z.min target maxData in
      snd (prepareChunks st) = true
      /\ senderTransferPhase st' = ready
      /\ Forall (fun c => 0 < Js.len c <= K) (chunks st')
      /\ Js.join "" (chunks st') = base64Data st
      /\ totalDataChunks st' = Z.of_nat (length (chunks st'))
      /\ totalDataChunks st' = splitter.ceilDiv (Js.len (base64Data st)) K)
  /\ (base64Data st = "" \/ dataToSendBuffer st = None
      \/ (forall target, chunkSizeInput st = Some target -> target < config.MIN_CHUNK_SIZE)
      \/ maxData <= 0 ->
      snd (prepareChunks st) = false /\ chunks st' = [] /\ totalDataChunks st' = 0).
Proof.
  intros maxData st'. subst st'. unfold prepareChunks.
  rewrite (estimateMetadataSize_data st). fold maxData.
  split.
  - intros target Hdata [buffer Hbuf] Htarget Hmin Hmax. cbv zeta.
    set (K := Z.min target maxData).
    apply String.eqb_neq in Hdata. rewrite Hdata, Hbuf, is_Some_true, Htarget.
    cbn [negb orb].
    destruct (Z.ltb_spec target config.MIN_CHUNK_SIZE) as [|_]; [lia|].
    assert (HK : splitter.effectiveChunkSize target maxData = K).
    { unfold splitter.effectiveChunkSize, K. unfold config.MIN_CHUNK_SIZE in Hmin. lia. }
    rewrite HK.
    assert (HKpos : 0 < K) by (unfold K; unfold config.MIN_CHUNK_SIZE in Hmin; lia).
    destruct (Z.leb_spec K 0) as [|_]; [lia|].
    destruct (Z.leb_spec maxData 0) as [|_]; [lia|]. cbn [orb].
    destruct (splitLoop_spec (String.length (base64Data st)) (base64Data st) K 0 [] HKpos)
      as (newChunks & Hloop & Hall & Hjoin & Hcount).
    { unfold Js.len. lia. }
    { unfold Js.len. lia. }
    unfold splitter.split. rewrite Hloop. cbn [app].
    change (totalDataChunks (setSenderChunks newChunks st))
      with (Z.of_nat (length newChunks)).
    destruct (Z.leb_spec 0 (Z.of_nat (length newChunks))) as [_|]; [|lia].
    rewrite Z.sub_0_r in Hjoin, Hcount.
    assert (Hwhole : Js.join "" newChunks = base64Data st).
    { rewrite Hjoin. unfold Js.len. rewrite Nat2Z.id. apply substring_whole. }
    destruct (negb (Js.startsWith (senderStatus (setSenderChunks newChunks st)) "Error:")
              && negb (Js.startsWith (senderStatus (setSenderChunks newChunks st))
                         "Warning:"));
      cbn; repeat split; assumption.
  - intros Hfail.
    destruct (String.eqb_spec (base64Data st) "") as [|Hdata].
    { cbn [orb]. destruct (0 <? filesToSend st); repeat split. }
    destruct (dataToSendBuffer st) as [buffer|] eqn:Hbuf.
    2:{ rewrite bool_decide_eq_false_2 by (intros [x Hx]; discriminate). cbn [negb orb].
        destruct (0 <? filesToSend st); repeat split. }
    rewrite is_Some_true. cbn [negb orb].
    destruct (chunkSizeInput st) as [target|] eqn:Htarget; [|repeat split].
    destruct (Z.ltb_spec target config.MIN_CHUNK_SIZE) as [|Hmin]; [repeat split|].
    destruct Hfail as [? | [? | [Hsmall | Hmax]]]; try contradiction; try discriminate.
    { specialize (Hsmall target eq_refl). lia. }
    destruct (Z.leb_spec maxData 0) as [_|]; [|lia].
    rewrite orb_true_r. repeat split.
Qed.

End chunking.

(** ** Stopping the sender *)

Section stopping.
Context (B : browser.Browser).
Import types browser sstate sender spec.

(** X21. The stop button of the modal, in any phase: the pending timer is
    cancelled and no QR code is left on screen, so that no advance signal
    displays anything afterwards; the chunks and the file identifier are
    dropped. In PostFinal the button closes the transfer: the archive is
    dropped too and the phase is Idle. In every other phase the archive
    stays loaded, and the phase is Ready when there is one and Idle when
    there is none. *)
Theorem stop_cancels_sequence st :
  let st' := main.stopTransferBtnClick st in
  transferTimer st' = None /\ qrCode st' = None
  /\ chunks st' = [] /\ transferFileId st' = ""
  /\ displayed st' = displayed st
  /\ (forall n, Nat.iter n (main.advance B) st' = st')
  /\ (senderTransferPhase st = post_final ->
      senderTransferPhase st' = s_idle
      /\ dataToSendBuffer st' = None /\ base64Data st' = "")
  /\ (senderTransferPhase st <> post_final ->
      senderTransferPhase st'
      = (if bool_decide (is_Some (dataToSendBuffer st)) then ready else s_idle)
      /\ dataToSendBuffer st' = dataToSendBuffer st
      /\ base64Data st' = base64Data st
      /\ dataToSendChecksum st' = dataToSendChecksum st).
Proof.
  intros st'.
  assert (Hfull : st' = handleStopTransfer (SenderPhase_eqb (senderTransferPhase st) post_final)
                          st).
  { unfold st', main.stopTransferBtnClick. destruct (senderTransferPhase st); reflexivity. }
  assert (Hadvance : main.advance B st' = st').
  { rewrite Hfull. unfold main.advance, main.timerFires.
    destruct (SenderPhase_eqb (senderTransferPhase st) post_final); reflexivity. }
  split; [rewrite Hfull; destruct (SenderPhase_eqb _ _); reflexivity|].
  split; [rewrite Hfull; destruct (SenderPhase_eqb _ _); reflexivity|].
  split; [rewrite Hfull; destruct (SenderPhase_eqb _ _); reflexivity|].
  split; [rewrite Hfull; destruct (SenderPhase_eqb _ _); reflexivity|].
  split; [rewrite Hfull; destruct (SenderPhase_eqb _ _); reflexivity|].
  split.
  { induction n as [|n IH]; [reflexivity|].
    change (Nat.iter (S n) (main.advance B) st')
      with (main.advance B (Nat.iter n (main.advance B) st')).
    now rewrite IH. }
  split.
  - intros Hphase. rewrite Hfull, Hphase. repeat split.
  - intros Hphase. rewrite Hfull.
    assert (SenderPhase_eqb (senderTransferPhase st) post_final = false) as ->
      by (destruct (senderTransferPhase st); try reflexivity; contradiction).
    unfold handleStopTransfer, resetSenderStateInternal. cbn.
    destruct (dataToSendBuffer st) as [buffer|] eqn:Hbuf.
    + rewrite !is_Some_true. repeat split.
    + rewrite !bool_decide_eq_false_2 by (intros [x Hx]; discriminate). repeat split.
Qed.

End stopping.

(** ** From the file of the sender to the download of the receiver *)

Section end_to_end.
Context (B : browser.Browser).
Import types browser spec sequencing invariants downloading.

Lemma prepareChunks_frame (st : sstate.Sender) :
  let st' := fst (sender.prepareChunks st) in
  (sstate.dataToSendBuffer st', sstate.base64Data st', sstate.dataToSendChecksum st',
   sstate.originalSingleFilename st', sstate.isSingleFileOriginal st', sstate.filesToSend st')
  = (sstate.dataToSendBuffer st, sstate.base64Data st, sstate.dataToSendChecksum st,
     sstate.originalSingleFilename st, sstate.isSingleFileOriginal st, sstate.filesToSend st).
Proof.
  unfold sender.prepareChunks. repeat case_match; reflexivity.
Qed.

Lemma fileProcessed_loaded files isSingle originalName archive summary st0 :
  let st := sender.fileProcessed B files isSingle originalName archive summary st0 in
  sstate.dataToSendBuffer st = Some archive
  /\ sstate.base64Data st = btoa B archive
  /\ sstate.dataToSendChecksum st = utils.calculateChecksum archive
  /\ sstate.originalSingleFilename st = originalName
  /\ sstate.isSingleFileOriginal st = isSingle.
Proof.
  intros st. unfold st, sender.fileProcessed.
  match goal with |- context [sender.prepareChunks ?s] =>
    pose proof (prepareChunks_frame s) as Hframe end.
  cbv zeta in Hframe. injection Hframe as H1 H2 H3 H4 H5 _.
  split; [exact H1|]. split; [exact H2|]. split; [exact H3|]. split; [exact H4 | exact H5].
Qed.

Lemma checksum_not_empty (buffer : list byte) : utils.calculateChecksum buffer <> "".
Proof.
  intros Hempty. destruct (calculateChecksum_spec buffer) as (_ & Hlen & _).
  rewrite Hempty in Hlen. discriminate.
Qed.

(** X22. A file is loaded and the transfer is started; a receiver that waits
    for a handshake scans the handshake of the sender, its Data packets
    in any order and any number of copies, each one once at least, and
    its Final packet. With a browser whose [atob] undoes its [btoa] on
    the archive, the receiver ends in Complete and hands the user one
    file: the archive, or the file of the original name that JSZip
    extracts from it. *)
Theorem transfer_end_to_end files isSingle originalName archive summary st0 newFileId snd
    rcv seqs :
  sender.startTransferSetup newFileId
    (sender.fileProcessed B files isSingle originalName archive summary st0) = inr snd ->
  atob B (btoa B archive) = Some archive ->
  newFileId <> "" ->
  state.receiverState rcv = waiting_handshake -> state.expectedFileId rcv = None ->
  (forall k, 1 <= k <= sstate.totalDataChunks snd -> k ∈ seqs) ->
  let st1 := receiver.handleScanResult B (Structured (handshakePacketOf B snd archive)) rcv in
  let st2 := events.deliver B (map (dataPacketOf snd) seqs) st1 in
  let st3 := receiver.handleScanResult B (Structured (finalPacketOf snd)) st2 in
  state.receiverState st3 = complete
  /\ exists name content,
       state.downloads st3 = state.downloads rcv ++ [(name, content)]
       /\ deliveredFrom B st1 archive content.
Proof.
  intros Hsetup Hatob Hfid Hstate Hnone Hseqs st1 st2 st3.
  destruct (fileProcessed_loaded files isSingle originalName archive summary st0)
    as (Hbuf & Hbase & Hchk & Hname & Hsingle).
  destruct (startTransferSetup_chunks _ _ _ Hsetup)
    as (K & HK & _ & Hall & Hjoin & Htotal & Hf & Hb & Hc & _ & Ho & Hs).
  rewrite Hbuf in Hb. rewrite Hchk in Hc. rewrite Hbase in Hjoin.
  set (chunkOf := fun k => default "" (sstate.chunks snd !! Z.to_nat (k - 1))).
  pose proof (round_trip_outcome B newFileId
                (encodeURIComponent B config.MULTI_FILE_ARCHIVE_NAME)
                (Z.of_nat (length archive)) (sstate.totalDataChunks snd)
                (match sstate.originalSingleFilename snd with
                 | Some (String _ _ as name) =>
                     if sstate.isSingleFileOriginal snd
                     then Some (encodeURIComponent B name) else None
                 | _ => None
                 end)
                chunkOf seqs (utils.calculateChecksum archive) rcv
                Hstate Hnone Hfid) as Htrip.
  cbv zeta in Htrip.
  assert (Hpackets : map (dataPacketOf snd) seqs = dataPackets newFileId chunkOf seqs).
  { unfold dataPackets, dataPacketOf, chunkOf. now rewrite Hf. }
  assert (Hhand : handshakePacketOf B snd archive
                  = sender.handshakePayload newFileId
                      (encodeURIComponent B config.MULTI_FILE_ARCHIVE_NAME)
                      (Z.of_nat (length archive)) (sstate.totalDataChunks snd)
                      (match sstate.originalSingleFilename snd with
                       | Some (String _ _ as name) =>
                           if sstate.isSingleFileOriginal snd
                           then Some (encodeURIComponent B name) else None
                       | _ => None
                       end)).
  { unfold handshakePacketOf. now rewrite Hf. }
  assert (Hfin : finalPacketOf snd
                 = sender.finalPayload newFileId (utils.calculateChecksum archive)).
  { unfold finalPacketOf. now rewrite Hf, Hc. }
  unfold st3, st2, st1. rewrite Hpackets, Hhand, Hfin.
  assert (Hbuffer : utils.base64ToArrayBuffer B
                      (Js.join "" (map chunkOf (seqZ 1 (sstate.totalDataChunks snd))))
                    = archive).
  { rewrite Htotal. unfold chunkOf. rewrite chunks_by_number, Hjoin.
    unfold utils.base64ToArrayBuffer. now rewrite Hatob. }
  rewrite Hbuffer in Htrip.
  rewrite bool_decide_eq_true_2 in Htrip by (split; reflexivity).
  apply Htrip.
  - rewrite Htotal. lia.
  - apply checksum_not_empty.
  - intros k Hk. split; [|now apply Hseqs].
    unfold chunkOf.
    destruct (lookup_lt_is_Some_2 (sstate.chunks snd) (Z.to_nat (k - 1))) as [c Hc'];
      [lia|].
    rewrite Hc'. cbn [default from_option id].
    rewrite Forall_forall in Hall.
    pose proof (Hall c (list_elem_of_lookup_2 _ _ _ Hc')) as Hlen.
    intros ->. unfold Js.len in Hlen. simpl in Hlen. lia.
Qed.

End end_to_end.

(** ** The missing chunks, from the receiver's list to the download *)

Section recovery_end_to_end.
Context (B : browser.Browser).
Import types browser spec sequencing invariants downloading events.

Opaque sender.JSON_stringify.

(** X23. A file is loaded and the sender goes through its main sequence. A
    receiver that is scanning reads the handshake, some of the Data
    packets and the Final packet, and so misses some chunks: it waits for
    them and displays their list. The list is typed into the field for
    specific chunks of the sender, which is asked to send them. The sender
    then displays the Data packets of the missing chunks, in ascending
    order, and the Final packet, and nothing else; the receiver that
    reads these ends in Complete and hands the user one file, the archive
    or the file of the original name that JSZip extracts from it. The
    browser's [atob] is supposed to undo its [btoa] on the archive, and
    every packet of the main sequence to fit in a QR code. *)
Theorem missing_chunks_end_to_end files isSingle originalName archive summary st0 newFileId
    snd rcv seqs :
  sender.startTransferSetup newFileId
    (sender.fileProcessed B files isSingle originalName archive summary st0) = inr snd ->
  atob B (btoa B archive) = Some archive ->
  newFileId <> "" ->
  Forall (fits snd) (mainPackets B snd archive) ->
  state.receiverState rcv = waiting_handshake -> state.expectedFileId rcv = None ->
  state.isScanning rcv = true ->
  let total := sstate.totalDataChunks snd in
  let r1 := receiver.handleScanResult B (Structured (handshakePacketOf B snd archive)) rcv in
  let r2 := deliver B (map (dataPacketOf snd) seqs) r1 in
  let r3 := receiver.handleScanResult B (Structured (finalPacketOf snd)) r2 in
  let missing := receiver.findMissing total (state.receivedChunksMap r2) in
  missing <> [] ->
  let s1 := Nat.iter (S (S (length (sstate.chunks snd)))) (main.advance B)
              (sender.displayNextChunk B snd) in
  let s2 := sender.handleSendSpecific
              (sstate.set_specificChunksInput (state.missingChunksList r3) s1) in
  let s3 := Nat.iter (length missing) (main.advance B) s2 in
  let r4 := deliver B (map (dataPacketOf snd) missing) r3 in
  let r5 := receiver.handleScanResult B (Structured (finalPacketOf snd)) r4 in
  state.receiverState r3 = waiting_missing
  /\ state.missingChunksList r3 = receiver.formatMissingChunks missing
  /\ sstate.senderTransferPhase s1 = post_final
  /\ sstate.displayed s3
     = sstate.displayed s1
       ++ map sender.JSON_stringify (map (dataPacketOf snd) missing ++ [finalPacketOf snd])
  /\ state.receiverState r5 = complete
  /\ exists name content,
       state.downloads r5 = state.downloads rcv ++ [(name, content)]
       /\ deliveredFrom B r1 archive content.
Proof.
  intros Hsetup Hatob Hfid Hfits Hstate Hnone Hscan total r1 r2 r3 missing Hmissing
    s1 s2 s3 r4 r5.
  destruct (fileProcessed_loaded B files isSingle originalName archive summary st0)
    as (Hbuf & Hbase & Hchk & Hname & Hsingle).
  destruct (startTransferSetup_chunks _ _ _ Hsetup)
    as (K & HK & _ & Hall & Hjoin & Htotal & Hf & Hb & Hc & _ & Ho & Hs).
  destruct (startTransferSetup_ready _ _ _ Hsetup) as (st1 & _ & Hmain & _).
  rewrite Hbuf in Hb. rewrite Hchk in Hc. rewrite Hbase in Hjoin.
  fold total in Htotal.
  set (chunkOf := fun k => default "" (sstate.chunks snd !! Z.to_nat (k - 1))).
  set (nam_ := encodeURIComponent B config.MULTI_FILE_ARCHIVE_NAME).
  set (ofn_ := match sstate.originalSingleFilename snd with
               | Some (String _ _ as name) =>
                   if sstate.isSingleFileOriginal snd
                   then Some (encodeURIComponent B name) else None
               | _ => None
               end).
  set (checksum := utils.calculateChecksum archive) in *.
  assert (Hpackets : forall l, map (dataPacketOf snd) l = dataPackets newFileId chunkOf l).
  { intros l. unfold dataPackets, dataPacketOf, chunkOf. now rewrite Hf. }
  assert (Hhand : handshakePacketOf B snd archive
                  = sender.handshakePayload newFileId nam_ (Z.of_nat (length archive)) total
                      ofn_).
  { unfold handshakePacketOf. now rewrite Hf. }
  assert (Hfin : finalPacketOf snd = sender.finalPayload newFileId checksum).
  { unfold finalPacketOf. now rewrite Hf, Hc. }
  assert (Hchecksum : checksum <> "") by apply checksum_not_empty.
  assert (Hpos : 0 <= total) by (rewrite Htotal; lia).
  assert (Hchunks : forall k, 1 <= k <= total -> chunkOf k <> "").
  { intros k Hk. unfold chunkOf.
    destruct (lookup_lt_is_Some_2 (sstate.chunks snd) (Z.to_nat (k - 1))) as [c Hc'];
      [lia|].
    rewrite Hc'. cbn [default from_option id].
    rewrite Forall_forall in Hall.
    pose proof (Hall c (list_elem_of_lookup_2 _ _ _ Hc')) as Hlen.
    intros ->. unfold Js.len in Hlen. simpl in Hlen. lia. }
  (* the receiver: the handshake *)
  pose proof (handshake_adopted B newFileId nam_ (Z.of_nat (length archive)) total ofn_ rcv
                Hstate Hnone Hfid Hpos) as Hadopt.
  cbv zeta in Hadopt. rewrite <- Hhand in Hadopt. fold r1 in Hadopt.
  destruct Hadopt as (Hfid1 & Htot1 & Hsiz1 & Hnam1 & _ & Hstore1 & Hstate1 & Hdl1 & Hscan1).
  assert (Hmap1 : state.receivedChunksMap r1 = ∅) by exact (f_equal fst Hstore1).
  assert (Hnonzero : (total =? 0) = false).
  { apply Z.eqb_neq. intros Hzero. apply Hmissing. unfold missing. now rewrite Hzero. }
  rewrite Hnonzero in Hstate1.
  assert (Hacc1 : acceptsData (state.receiverState r1) = true) by now rewrite Hstate1.
  (* the receiver: some Data packets *)
  assert (Hr2 : r2 = deliver B (dataPackets newFileId chunkOf seqs) r1)
    by (unfold r2; now rewrite Hpackets).
  destruct (deliver_frame B newFileId chunkOf seqs r1 Hacc1 Hfid1 Hfid)
    as (Hs2 & Hacc2 & Hdl2).
  pose proof (deliver_scanning B newFileId chunkOf seqs r1 Hacc1 Hfid1 Hfid) as Hscan2.
  assert (Hlookup2 : forall k,
            state.receivedChunksMap r2 !! k
            = if bool_decide (k ∈ seqs) && storable total chunkOf k
              then Some (chunkOf k) else None).
  { intros k. rewrite Hr2.
    rewrite (deliver_lookup B newFileId chunkOf total seqs r1 k Hacc1 Hfid1 Hfid Htot1).
    now rewrite Hmap1, lookup_empty. }
  assert (Hcount2 : countMatches r2).
  { rewrite Hr2. apply countMatches_deliver. unfold countMatches.
    rewrite (f_equal (@Datatypes.snd _ _) Hstore1 : state.receivedChunkCount r1 = 0), Hmap1.
    reflexivity. }
  rewrite <- Hr2 in Hs2, Hacc2, Hdl2, Hscan2.
  pose proof Hs2 as Hs2'. unfold sessionOf in Hs2'.
  injection Hs2' as Hfid2 Htot2 Hnam2 Hsiz2 _ _.
  rewrite Hfid1 in Hfid2. rewrite Htot1 in Htot2. rewrite Hsiz1 in Hsiz2.
  rewrite Hscan1, Hscan in Hscan2.
  (* the receiver: the Final packet *)
  pose proof (final_with_missing B newFileId checksum total r2 Hacc2 Hfid2 Hfid Hchecksum
                Htot2 Hscan2 Hmissing) as Hwait.
  cbv zeta in Hwait. rewrite <- Hfin in Hwait. fold r3 missing in Hwait.
  destruct Hwait as (Hstate3 & Hlist3 & Hstore3 & Hs3 & Hdl3 & Hscan3).
  split; [exact Hstate3|]. split; [exact Hlist3|].
  (* the sender: the main sequence *)
  pose proof Hmain as Hmain'. unfold mainOf in Hmain'.
  injection Hmain' as M1 M2 _ M4 _.
  assert (Hchk_snd : sstate.dataToSendChecksum snd <> "") by now rewrite Hc.
  pose proof (main_sequence_run B snd archive M1 M2 M4 Hb Htotal Hchk_snd Hfits) as Hrun.
  cbv zeta in Hrun. fold s1 in Hrun.
  destruct Hrun as (_ & _ & _ & Hpost & _ & Harchive).
  split; [exact Hpost|].
  unfold archiveOf in Harchive. injection Harchive as A1 A2 A3 A4 A5 A6 A7.
  change (main.advance B
            (main.advance B
               (Nat.iter (length (sstate.chunks snd)) (main.advance B)
                  (sender.displayNextChunk B snd))))
    with s1 in A1, A2, A3, A4, A5, A6, A7.
  (* the sender: the list of the receiver *)
  set (s1' := sstate.set_specificChunksInput (state.missingChunksList r3) s1) in *.
  assert (Hparse : utils.parseChunkInput (sstate.specificChunksInput s1')
                     (sstate.totalDataChunks s1') = Some missing).
  { change (sstate.specificChunksInput s1') with (state.missingChunksList r3).
    change (sstate.totalDataChunks s1') with (sstate.totalDataChunks s1).
    rewrite A7, Hlist3. fold total.
    exact (proj2 (displayed_missing_parses r2 total Htot2 Hmissing)). }
  assert (Hdata : forall k, dataPacketOf s1' k = dataPacketOf snd k).
  { intros k. unfold dataPacketOf.
    change (sstate.transferFileId s1') with (sstate.transferFileId s1).
    change (sstate.chunks s1') with (sstate.chunks s1).
    now rewrite A2, A3. }
  assert (Hfinal : finalPacketOf s1' = finalPacketOf snd).
  { unfold finalPacketOf.
    change (sstate.transferFileId s1') with (sstate.transferFileId s1).
    change (sstate.dataToSendChecksum s1') with (sstate.dataToSendChecksum s1).
    now rewrite A3, A4. }
  assert (Hfit : forall payload, fits snd payload -> fits s1' payload).
  { intros payload. unfold fits.
    change (sstate.errorCorrectionLevel s1') with (sstate.errorCorrectionLevel s1).
    now rewrite A5. }
  rewrite Forall_forall in Hfits.
  pose proof (resend_specific_run B s1' archive missing) as Hresend.
  cbv zeta in Hresend. fold s2 in Hresend.
  destruct Hresend as (_ & _ & Hshown & _).
  { change (sstate.dataToSendBuffer s1') with (sstate.dataToSendBuffer s1). now rewrite A1. }
  { change (sstate.totalDataChunks s1') with (sstate.totalDataChunks s1).
    change (sstate.chunks s1') with (sstate.chunks s1). now rewrite A7, A2. }
  { change (sstate.dataToSendChecksum s1') with (sstate.dataToSendChecksum s1).
    now rewrite A4. }
  { change (sstate.currentChunkIndex s1') with (sstate.currentChunkIndex s1).
    change (sstate.totalDataChunks s1') with (sstate.totalDataChunks s1).
    now rewrite A6, A7. }
  { exact Hparse. }
  { exact Hmissing. }
  { apply Forall_forall. intros k Hk. rewrite Hdata. apply Hfit, Hfits.
    apply findMissing_elem in Hk as [Hk _].
    unfold mainPackets. right. apply elem_of_app. left.
    apply list_elem_of_fmap. exists k. split; [reflexivity|].
    apply elem_of_seqZ. fold total. lia. }
  { rewrite Hfinal. apply Hfit, Hfits. unfold mainPackets.
    right. apply elem_of_app. right. left. }
  split.
  { fold s3 in Hshown. rewrite Hshown.
    change (sstate.displayed s1') with (sstate.displayed s1).
    rewrite Hfinal. f_equal. f_equal. f_equal. apply map_ext. intros k. apply Hdata. }
  (* the receiver: the missing chunks and the Final packet *)
  pose proof Hs3 as Hs3'. unfold sessionOf in Hs3'.
  injection Hs3' as Hfid3 Htot3 Hnam3 Hsiz3 _ _.
  rewrite Hfid2 in Hfid3. rewrite Htot2 in Htot3. rewrite Hsiz2 in Hsiz3.
  assert (Hmap3 : state.receivedChunksMap r3 = state.receivedChunksMap r2)
    by exact (f_equal fst Hstore3).
  assert (Hname3 : state.expectedArchiveName r3
                   = Some (default "" (state.expectedArchiveName r1))).
  { rewrite Hnam3, Hnam2, Hnam1. unfold utils.safeDecodeURIComponent.
    destruct (decodeURIComponent B nam_); reflexivity. }
  pose proof (completion_outcome B newFileId chunkOf missing checksum total
                (Z.of_nat (length archive)) (default "" (state.expectedArchiveName r1)) r3)
    as Hdone.
  cbv zeta in Hdone. rewrite <- Hpackets, <- Hfin in Hdone. fold r4 r5 in Hdone.
  assert (Hbuffer : utils.base64ToArrayBuffer B (Js.join "" (map chunkOf (seqZ 1 total)))
                    = archive).
  { rewrite Htotal. unfold chunkOf. rewrite chunks_by_number, Hjoin.
    unfold utils.base64ToArrayBuffer. now rewrite Hatob. }
  rewrite Hbuffer in Hdone.
  rewrite bool_decide_eq_true_2 in Hdone by (split; reflexivity).
  destruct Hdone as (Hcomplete & name & content & Hd & Hfrom); try assumption.
  { now rewrite Hstate3. }
  { unfold countMatches in *. unfold store in Hstore3. injection Hstore3 as -> ->.
    exact Hcount2. }
  { intros k. rewrite Hmap3, Hlookup2. intros [x Hx]. unfold storable in Hx.
    destruct (bool_decide (k ∈ seqs)); [|discriminate]. cbn [andb] in Hx.
    destruct (Z.ltb_spec 0 k); [|discriminate]. destruct (Z.leb_spec k total); [lia|].
    discriminate. }
  { intros k x. rewrite Hmap3, Hlookup2.
    destruct (bool_decide (k ∈ seqs) && storable total chunkOf k); congruence. }
  { rewrite Hmap3. auto. }
  split; [exact Hcomplete|]. exists name, content. split.
  - now rewrite Hd, Hdl3, Hdl2, Hdl1.
  - apply (deliveredFrom_same B r3 r1); [|exact Hfrom]. now rewrite Hs3, Hs2.
Qed.

Transparent sender.JSON_stringify.

End recovery_end_to_end.

(** ** The scenarios, through the properties of the receiver *)

Lemma checksum_detects_byte_change_witness :
  utils.calculateChecksum ["Q"%byte; "R"%byte; "A"%byte]
  <> utils.calculateChecksum ["Q"%byte; "S"%byte; "A"%byte].
Proof.
  apply (checksum_detects_byte_change ["Q"%byte] ["A"%byte] "R"%byte "S"%byte).
  discriminate.
Defined.

Lemma reachable_store_bounds_witness :
  state.expectedTotalChunks scenarios.partlyReceived = Some 5
  /\ 0 <= state.receivedChunkCount scenarios.partlyReceived <= 5.
Proof.
  destruct (reachable_store_bounds examples.exampleBrowser scenarios.partlyReceived
              reachable_partlyReceived) as (_ & Hcount & _).
  assert (Htotal : state.expectedTotalChunks scenarios.partlyReceived = Some 5)
    by (vm_compute; reflexivity).
  split; [exact Htotal | exact (Hcount 5 Htotal)].
Defined.

(** The receiver that was stopped with the handshake and one chunk read,
    and started again. *)
Lemma waiting_receiver_is_fresh_witness :
  state.receivedChunkCount
    (events.run examples.exampleBrowser (take 4 scenarios.restart) events.initialReceiver) = 1
  /\ spec.sessionOf scenarios.restarted = (None, None, None, None, false, None)
  /\ state.receivedChunksMap scenarios.restarted = ∅.
Proof.
  split; [vm_compute; reflexivity|].
  destruct (waiting_receiver_is_fresh examples.exampleBrowser scenarios.restarted)
    as (Hsession & Hmap & _).
  - apply reachable_run. constructor.
  - vm_compute. reflexivity.
  - split; [exact Hsession | exact Hmap].
Defined.

(** The chunk 3, after noise, a handshake of another session, a copy of
    the chunk with other data and the Final packet. *)
Lemma stored_chunks_survive_scans_witness :
  let scans :=
    [browser.Unparseable;
     browser.Structured (sender.handshakePayload "fid_1700000000999_ffffff" "x.zip" 9 2 None);
     browser.Structured (sender.dataPayload scenarios.fileId 3 "AAAA");
     browser.Structured scenarios.final] in
  state.receivedChunksMap
    (fold_left (fun st r => receiver.handleScanResult examples.exampleBrowser r st) scans
       scenarios.partlyReceived) !! 3
  = Some (scenarios.chunk 3).
Proof.
  apply (stored_chunks_survive_scans examples.exampleBrowser).
  - exact reachable_partlyReceived.
  - vm_compute. reflexivity.
  - vm_compute. reflexivity.
Defined.

(** The whole transfer of the archive, the chunks out of order and some
    of them twice. *)
Lemma receiver_round_trip_witness :
  let st1 := receiver.handleScanResult examples.exampleBrowser
               (browser.Structured scenarios.handshake) scenarios.restarted in
  let st2 := events.deliver examples.exampleBrowser
               (spec.dataPackets scenarios.fileId scenarios.chunk [3; 1; 3; 5; 1; 2; 4]) st1 in
  let st3 := receiver.handleScanResult examples.exampleBrowser
               (browser.Structured scenarios.final) st2 in
  state.receiverState st3 = types.complete
  /\ exists name content,
       state.downloads st3 = state.downloads scenarios.restarted ++ [(name, content)].
Proof.
  pose proof (receiver_round_trip examples.exampleBrowser scenarios.fileId
                (examples.percentEncode config.MULTI_FILE_ARCHIVE_NAME) 303 5
                (Some "notes.txt") scenarios.chunk [3; 1; 3; 5; 1; 2; 4] "4cef"
                scenarios.restarted) as Htrip.
  cbv zeta in Htrip.
  rewrite bool_decide_eq_true_2 in Htrip by (split; vm_compute; reflexivity).
  destruct Htrip as (Hstate & name & content & Hd & _).
  - vm_compute. reflexivity.
  - vm_compute. reflexivity.
  - vm_compute. discriminate.
  - lia.
  - discriminate.
  - intros k Hk.
    assert (Hcases : k = 1 \/ k = 2 \/ k = 3 \/ k = 4 \/ k = 5) by lia.
    destruct Hcases as [-> | [-> | [-> | [-> | ->]]]];
      (split; [vm_compute; discriminate | apply list_elem_of_In; simpl; tauto]).
  - split; [exact Hstate|]. exists name, content. exact Hd.
Defined.

(** ** The scenarios, through the properties of the sender *)

(** The capacity check of a list of packets, as a computation. *)
Lemma fits_forallb (st : sstate.Sender) (packets : list types.QRPayload) :
  forallb (fun p => negb (sender.exceedsCapacity (sender.JSON_stringify p)
                            (utils.getQrCapacityEstimate (sstate.errorCorrectionLevel st))))
    packets = true ->
  Forall (spec.fits st) packets.
Proof.
  induction packets as [|p packets IH]; intros Hall; [constructor|].
  cbn [forallb] in Hall. apply andb_prop in Hall as [Hp Hall].
  constructor; [|now apply IH].
  unfold spec.fits. now destruct (sender.exceedsCapacity _ _).
Qed.

Lemma main_sequence_order_witness :
  let total := length (sstate.chunks scenarios2.setUp) in
  let last := Nat.iter (S total) (main.advance examples.exampleBrowser)
                (sender.displayNextChunk examples.exampleBrowser scenarios2.setUp) in
  total = 5%nat
  /\ sstate.senderTransferPhase last = types.final_qr_displayed
  /\ sstate.displayed last
     = sstate.displayed scenarios2.setUp
       ++ map sender.JSON_stringify
            (sequencing.mainPackets examples.exampleBrowser scenarios2.setUp
               scenarios.archive).
Proof.
  destruct (main_sequence_order examples.exampleBrowser scenarios2.setUp scenarios.archive)
    as (_ & Hphase & Hshown & _).
  - vm_compute. reflexivity.
  - vm_compute. reflexivity.
  - vm_compute. reflexivity.
  - vm_compute. reflexivity.
  - vm_compute. reflexivity.
  - vm_compute. discriminate.
  - apply fits_forallb. vm_compute. reflexivity.
  - split; [vm_compute; reflexivity|]. split; [exact Hphase | exact Hshown].
Defined.

Lemma resend_all_repeats_sequence_witness :
  let total := length (sstate.chunks scenarios.afterMainSequence) in
  let last := Nat.iter (S total) (main.advance examples.exampleBrowser)
                (sender.handleSendAllAgain examples.exampleBrowser
                   scenarios.afterMainSequence) in
  sstate.senderTransferPhase last = types.final_qr_displayed
  /\ sstate.displayed last
     = sstate.displayed scenarios.afterMainSequence
       ++ map sender.JSON_stringify
            (sequencing.mainPackets examples.exampleBrowser scenarios.afterMainSequence
               scenarios.archive).
Proof.
  destruct (resend_all_repeats_sequence examples.exampleBrowser scenarios.afterMainSequence
              scenarios.archive) as (_ & Hphase & Hshown & _).
  - vm_compute. reflexivity.
  - vm_compute. discriminate.
  - vm_compute. reflexivity.
  - vm_compute. discriminate.
  - apply fits_forallb. vm_compute. reflexivity.
  - split; [exact Hphase | exact Hshown].
Defined.

Lemma resend_specific_order_witness :
  let last := Nat.iter 2 (main.advance examples.exampleBrowser)
                (sender.handleSendSpecific scenarios.resendRequested) in
  sstate.senderTransferPhase last = types.final_qr_displayed
  /\ sstate.displayed last
     = sstate.displayed scenarios.resendRequested
       ++ map sender.JSON_stringify
            (map (spec.dataPacketOf scenarios.resendRequested) [1; 3]
             ++ [spec.finalPacketOf scenarios.resendRequested]).
Proof.
  destruct (resend_specific_order examples.exampleBrowser scenarios.resendRequested
              scenarios.archive [1; 3]) as (_ & Hphase & Hshown & _).
  - vm_compute. reflexivity.
  - vm_compute. reflexivity.
  - vm_compute. discriminate.
  - vm_compute. reflexivity.
  - vm_compute. reflexivity.
  - discriminate.
  - repeat constructor; vm_compute; reflexivity.
  - vm_compute. reflexivity.
  - split; [exact Hphase | exact Hshown].
Defined.

Lemma data_packets_fit_witness :
  Js.len (sender.JSON_stringify (spec.dataPacketOf scenarios2.setUp 5)) <= 1500.
Proof.
  destruct (data_packets_fit scenarios.fileId scenarios.loaded scenarios2.setUp 5)
    as [Hbound _].
  - vm_compute. reflexivity.
  - vm_compute. reflexivity.
  - vm_compute. reflexivity.
  - vm_compute. split; discriminate.
  - vm_compute. discriminate.
  - exact Hbound.
Defined.

(** The file [notes.txt] of the scenarios, from the sender to the
    receiver that was started again. *)
Lemma transfer_end_to_end_witness :
  let st1 := receiver.handleScanResult examples.exampleBrowser
               (browser.Structured
                  (sequencing.handshakePacketOf examples.exampleBrowser scenarios2.setUp
                     scenarios.archive)) scenarios.restarted in
  let st2 := events.deliver examples.exampleBrowser
               (map (spec.dataPacketOf scenarios2.setUp) scenarios2.arrival) st1 in
  let st3 := receiver.handleScanResult examples.exampleBrowser
               (browser.Structured (spec.finalPacketOf scenarios2.setUp)) st2 in
  state.receiverState st3 = types.complete
  /\ exists name content,
       state.downloads st3 = state.downloads scenarios.restarted ++ [(name, content)].
Proof.
  destruct (transfer_end_to_end examples.exampleBrowser 1 true (Some "notes.txt")
              scenarios.archive "file (1 file), ZIP Size: 0.30 KB."
              (sstate.set_chunkSizeInput (Some 100) main.initialSender)
              scenarios.fileId scenarios2.setUp scenarios.restarted scenarios2.arrival)
    as (Hstate & name & content & Hd & _).
  - vm_compute. reflexivity.
  - vm_compute. reflexivity.
  - vm_compute. discriminate.
  - vm_compute. reflexivity.
  - vm_compute. reflexivity.
  - assert (Htotal : sstate.totalDataChunks scenarios2.setUp = 5) by (vm_compute; reflexivity).
    rewrite Htotal. intros k Hk.
    assert (Hcases : k = 1 \/ k = 2 \/ k = 3 \/ k = 4 \/ k = 5) by lia.
    destruct Hcases as [-> | [-> | [-> | [-> | ->]]]];
      apply list_elem_of_In; simpl; tauto.
  - split; [exact Hstate|]. exists name, content. exact Hd.
Defined.

Lemma reachable_scan B result st :
  events.reachable B st -> events.reachable B (receiver.handleScanResult B result st).
Proof. intros H. exact (events.reachable_step B (events.Scan result) st H). Qed.

(** The receiver of the scenarios holds the chunks 1, 3 and 5 and has
    read the Final packet once; the chunks 4, 2 and 4 again and the Final
    packet complete the transfer. *)
Lemma late_chunks_complete_transfer_witness :
  let st := receiver.handleScanResult examples.exampleBrowser
              (browser.Structured scenarios.final) scenarios.partlyReceived in
  let st2 := events.deliver examples.exampleBrowser
               (spec.dataPackets scenarios.fileId scenarios.chunk [4; 2; 4]) st in
  let st3 := receiver.handleScanResult examples.exampleBrowser
               (browser.Structured scenarios.final) st2 in
  state.receiverState st = types.waiting_missing
  /\ state.receiverState st3 = types.complete
  /\ exists name content, state.downloads st3 = state.downloads st ++ [(name, content)].
Proof.
  intros st st2 st3.
  pose proof (late_chunks_complete_transfer examples.exampleBrowser scenarios.fileId
                scenarios.chunk [4; 2; 4] "4cef" 5 303 config.MULTI_FILE_ARCHIVE_NAME st)
    as Hlate.
  cbv zeta in Hlate.
  assert (Hok : bool_decide
                  (Z.of_nat (length (utils.base64ToArrayBuffer examples.exampleBrowser
                                       (Js.join "" (map scenarios.chunk (seqZ 1 5))))) = 303
                   /\ "4cef" = utils.calculateChecksum
                                 (utils.base64ToArrayBuffer examples.exampleBrowser
                                    (Js.join "" (map scenarios.chunk (seqZ 1 5))))) = true)
    by (vm_compute; reflexivity).
  rewrite Hok in Hlate.
  destruct Hlate as (Hcomplete & name & content & Hd & _).
  - unfold st. apply reachable_scan. exact reachable_partlyReceived.
  - vm_compute. reflexivity.
  - vm_compute. reflexivity.
  - vm_compute. discriminate.
  - discriminate.
  - vm_compute. reflexivity.
  - vm_compute. reflexivity.
  - vm_compute. reflexivity.
  - intros k x Hx.
    assert (Hkeys : forall j, is_Some (state.receivedChunksMap st !! j) -> j = 1 \/ j = 3 \/ j = 5).
    { intros j Hj. apply elem_of_dom in Hj. revert Hj.
      assert (Hdom : dom (state.receivedChunksMap st) = ({[1; 3; 5]} : gset Z))
        by (vm_compute; reflexivity).
      rewrite Hdom. rewrite !elem_of_union, !elem_of_singleton. tauto. }
    destruct (Hkeys k) as [-> | [-> | ->]]; [eauto | | |];
      vm_compute in Hx; injection Hx as <-; vm_compute; reflexivity.
  - intros k Hk.
    assert (Hcases : k = 1 \/ k = 2 \/ k = 3 \/ k = 4 \/ k = 5) by lia.
    destruct Hcases as [-> | [-> | [-> | [-> | ->]]]]; vm_compute; discriminate.
  - assert (Hmissing : receiver.findMissing 5 (state.receivedChunksMap st) = [2; 4])
      by (vm_compute; reflexivity).
    rewrite Hmissing. intros k Hk. apply list_elem_of_In in Hk. apply list_elem_of_In.
    simpl in Hk |- *. tauto.
  - split; [vm_compute; reflexivity|]. split; [exact Hcomplete|].
    exists name, content. exact Hd.
Defined.

(** The receiver of the scenarios, started again, reads the handshake,
    the chunks 1, 3 and 5 and the Final packet of the sender of the
    scenarios; the list [2, 4] that it displays, typed into the sender,
    brings the two chunks that end the transfer. *)
Lemma missing_chunks_end_to_end_witness :
  let r1 := receiver.handleScanResult examples.exampleBrowser
              (browser.Structured
                 (sequencing.handshakePacketOf examples.exampleBrowser scenarios2.setUp
                    scenarios.archive)) scenarios.restarted in
  let r2 := events.deliver examples.exampleBrowser
              (map (spec.dataPacketOf scenarios2.setUp) [1; 3; 5]) r1 in
  let r3 := receiver.handleScanResult examples.exampleBrowser
              (browser.Structured (spec.finalPacketOf scenarios2.setUp)) r2 in
  let missing := receiver.findMissing (sstate.totalDataChunks scenarios2.setUp)
                   (state.receivedChunksMap r2) in
  let r4 := events.deliver examples.exampleBrowser
              (map (spec.dataPacketOf scenarios2.setUp) missing) r3 in
  let r5 := receiver.handleScanResult examples.exampleBrowser
              (browser.Structured (spec.finalPacketOf scenarios2.setUp)) r4 in
  missing = [2; 4]
  /\ state.missingChunksList r3 = "2, 4"
  /\ state.receiverState r5 = types.complete
  /\ exists name content,
       state.downloads r5 = state.downloads scenarios.restarted ++ [(name, content)].
Proof.
  intros r1 r2 r3 missing r4 r5.
  destruct (missing_chunks_end_to_end examples.exampleBrowser 1 true (Some "notes.txt")
              scenarios.archive "file (1 file), ZIP Size: 0.30 KB."
              (sstate.set_chunkSizeInput (Some 100) main.initialSender)
              scenarios.fileId scenarios2.setUp scenarios.restarted [1; 3; 5])
    as (_ & _ & _ & _ & Hcomplete & name & content & Hd & _).
  - vm_compute. reflexivity.
  - vm_compute. reflexivity.
  - vm_compute. discriminate.
  - apply fits_forallb. vm_compute. reflexivity.
  - vm_compute. reflexivity.
  - vm_compute. reflexivity.
  - vm_compute. reflexivity.
  - vm_compute. discriminate.
  - split; [vm_compute; reflexivity|]. split; [vm_compute; reflexivity|].
    split; [exact Hcomplete|]. exists name, content. exact Hd.
Defined.
